(** * FaceFrame python backend: store, scanner, clusterer and command session

    A shallow embedding of [database.py], [scanner.py], [clusterer.py] and
    the dispatch loop of [main.py], with the properties of the design
    document stated over it.

    Conventions.
    - SQLite tables are lists of rows in rowid order.  [INSERT OR REPLACE]
      removes the row with the same key and appends the new one.
    - Every [Database] method opens its own connection and commits once, so
      a method is one transition of the store; [merge_persons] is also given
      statement by statement on a connection, to expose what other
      connections can observe.
    - Store calls are assumed to succeed (no [sqlite3.Error]).  Calls to the
      file system and to the face provider can fail, as options.
    - Modification times are Python floats compared with [==]; they are
      integers here (only equality is used).  [scanned_at] and [created_at]
      are wall-clock stamps and are left out of the rows. *)

From Stdlib Require Import List String Ascii ZArith Lia Bool Arith PeanoNat.
From Stdlib Require Import DecimalString Sorted.
Import ListNotations.
Local Open Scope string_scope.

(** ** Strings and paths *)

Module Paths.

Fixpoint has_char (c : ascii) (s : string) : bool :=
  match s with
  | EmptyString => false
  | String d r => if Ascii.eqb c d then true else has_char c r
  end.

(** [os.path.basename]: what follows the last separator. *)
Fixpoint basename (s : string) : string :=
  match s with
  | EmptyString => EmptyString
  | String c r =>
      if has_char "/" r then basename r
      else if Ascii.eqb c "/" then r else s
  end.

(** The substring that starts at the last dot of [s], empty without a dot. *)
Fixpoint from_last_dot (s : string) : string :=
  match s with
  | EmptyString => EmptyString
  | String c r =>
      if has_char "." r then from_last_dot r
      else if Ascii.eqb c "." then s else EmptyString
  end.

(** [Path(f).suffix] for a file name [f]: with [i = f.rfind('.')], the
    suffix is [f[i:]] when [0 < i < len(f) - 1] and empty otherwise. *)
Definition suffix (name : string) : string :=
  match name with
  | EmptyString => EmptyString
  | String _ r =>
      let t := from_last_dot r in
      if String.eqb t "." then EmptyString else t
  end.

Definition lower_ascii (c : ascii) : ascii :=
  let n := nat_of_ascii c in
  if andb (65 <=? n)%nat (n <=? 90)%nat then ascii_of_nat (n + 32) else c.

(** [str.lower] on the ASCII letters. *)
Fixpoint lower (s : string) : string :=
  match s with
  | EmptyString => EmptyString
  | String c r => String (lower_ascii c) (lower r)
  end.

Fixpoint ends_with_slash (s : string) : bool :=
  match s with
  | EmptyString => false
  | String c EmptyString => Ascii.eqb c "/"
  | String _ r => ends_with_slash r
  end.

(** [os.path.join(dirpath, f)] for a relative [f]. *)
Definition join (dirpath f : string) : string :=
  match dirpath with
  | EmptyString => f
  | _ => if ends_with_slash dirpath then dirpath ++ f else dirpath ++ "/" ++ f
  end.

Definition VALID_EXTENSIONS : list string :=
  [".jpg"; ".jpeg"; ".png"; ".bmp"; ".webp"; ".tiff"].

Definition mem_string (s : string) (l : list string) : bool :=
  existsb (String.eqb s) l.

Definition is_image (f : string) : bool :=
  mem_string (lower (suffix f)) VALID_EXTENSIONS.

End Paths.

(** ** database.py *)

(** A value of the [embedding] column as the driver returns it: [str],
    [bytes], or something else (NULL, a number). *)
Inductive cell : Type :=
| CText (s : string)
| CBytes (s : string)
| COther.

Record FileRow : Type := mkFile {
  file_path : string;
  file_hash : string;
  file_mtime : Z
}.

Record FaceRow : Type := mkFace {
  face_id : Z;
  face_file : string;
  face_embedding : cell;
  face_bbox : string;
  face_thumbnail : option string;
  face_person : option Z
}.

Record PersonRow : Type := mkPerson {
  person_id : Z;
  person_name : option string;
  person_thumbnail : option string
}.

(** The three tables and the two AUTOINCREMENT counters of
    [sqlite_sequence] (the largest id handed out so far). *)
Record Db : Type := mkDb {
  files : list FileRow;
  persons : list PersonRow;
  faces : list FaceRow;
  face_seq : Z;
  person_seq : Z
}.

(** One detection as [add_faces] stores it: the JSON text of the embedding
    and of the bounding box, and the thumbnail path. *)
Record Detection : Type := mkDet {
  det_embedding : string;
  det_bbox : string;
  det_thumbnail : option string
}.

Module Database.

(** [_init_db] on a fresh file. *)
Definition init_db : Db := mkDb [] [] [] 0 0.

Definition opt_Z_eqb (a : option Z) (b : Z) : bool :=
  match a with
  | Some x => Z.eqb x b
  | None => false
  end.

(** [SELECT modified_time FROM files WHERE path = ?], first row. *)
Definition select_mtime (db : Db) (path : string) : option Z :=
  match filter (fun r => String.eqb (file_path r) path) (files db) with
  | r :: _ => Some (file_mtime r)
  | [] => None
  end.

Definition file_exists (db : Db) (path : string) (modified_time : Z) : bool :=
  match select_mtime db path with
  | Some m => Z.eqb m modified_time
  | None => false
  end.

Definition add_file (db : Db) (path hash_val : string) (mtime : Z) : Db :=
  mkDb (filter (fun r => negb (String.eqb (file_path r) path)) (files db)
          ++ [mkFile path hash_val mtime])
       (persons db) (faces db) (face_seq db) (person_seq db).

Definition insert_face (db : Db) (path : string) (d : Detection) : Db :=
  let id := (face_seq db + 1)%Z in
  mkDb (files db) (persons db)
       (faces db ++ [mkFace id path (CText (det_embedding d)) (det_bbox d)
                       (det_thumbnail d) None])
       id (person_seq db).

Definition add_faces (db : Db) (path : string) (dets : list Detection) : Db :=
  fold_left (fun acc d => insert_face acc path d) dets db.

Definition unclustered (f : FaceRow) : bool :=
  match face_person f with
  | None => true
  | Some _ => false
  end.

Definition get_unclustered_faces (db : Db) : list (Z * cell) :=
  map (fun f => (face_id f, face_embedding f)) (filter unclustered (faces db)).

Definition get_unclustered_faces_info (db : Db)
  : list (Z * string * string * option string) :=
  map (fun f => (face_id f, face_file f, face_bbox f, face_thumbnail f))
      (filter unclustered (faces db)).

Definition create_person (db : Db) (name : option string) : Db * Z :=
  let id := (person_seq db + 1)%Z in
  (mkDb (files db) (persons db ++ [mkPerson id name None]) (faces db)
        (face_seq db) id, id).

Definition set_face_person (p : option Z) (f : FaceRow) : FaceRow :=
  mkFace (face_id f) (face_file f) (face_embedding f) (face_bbox f)
         (face_thumbnail f) p.

Definition with_faces (db : Db) (fs : list FaceRow) : Db :=
  mkDb (files db) (persons db) fs (face_seq db) (person_seq db).

Definition with_persons (db : Db) (ps : list PersonRow) : Db :=
  mkDb (files db) ps (faces db) (face_seq db) (person_seq db).

(** [UPDATE faces SET person_id = ? WHERE id = ?] *)
Definition update_face_person (db : Db) (fid pid : Z) : Db :=
  with_faces db
    (map (fun f => if Z.eqb (face_id f) fid then set_face_person (Some pid) f
                   else f) (faces db)).

Definition get_persons (db : Db) : list PersonRow := persons db.

Fixpoint distinct (seen l : list string) : list string :=
  match l with
  | [] => []
  | x :: r =>
      if Paths.mem_string x seen then distinct seen r
      else x :: distinct (x :: seen) r
  end.

Definition get_photos_by_person (db : Db) (pid : Z) : list string :=
  distinct []
    (map face_file (filter (fun f => opt_Z_eqb (face_person f) pid) (faces db))).

Definition get_person_face_count (db : Db) (pid : Z) : nat :=
  List.length (filter (fun f => opt_Z_eqb (face_person f) pid) (faces db)).

Definition rename_person (db : Db) (pid : Z) (new_name : string) : Db :=
  with_persons db
    (map (fun p => if Z.eqb (person_id p) pid
                   then mkPerson (person_id p) (Some new_name) (person_thumbnail p)
                   else p) (persons db)).

(** The two statements of [merge_persons]. *)
Definition moved (keep merge : Z) (f : FaceRow) : FaceRow :=
  if opt_Z_eqb (face_person f) merge then set_face_person (Some keep) f else f.

Definition move_faces (db : Db) (keep merge : Z) : Db :=
  with_faces db (map (moved keep merge) (faces db)).

Definition delete_person (db : Db) (merge : Z) : Db :=
  with_persons db
    (filter (fun p => negb (Z.eqb (person_id p) merge)) (persons db)).

Definition merge_persons (db : Db) (keep_person_id merge_person_id : Z) : Db :=
  delete_person (move_faces db keep_person_id merge_person_id) merge_person_id.

Definition update_person_thumbnail (db : Db) (pid : Z) (thumb : string) : Db :=
  with_persons db
    (map (fun p => if Z.eqb (person_id p) pid
                   then mkPerson (person_id p) (person_name p) (Some thumb)
                   else p) (persons db)).

Definition has_thumbnail (f : FaceRow) : bool :=
  match face_thumbnail f with
  | Some _ => true
  | None => false
  end.

Definition get_first_face_thumbnail (db : Db) (pid : Z) : option string :=
  match filter (fun f => andb (opt_Z_eqb (face_person f) pid) (has_thumbnail f))
               (faces db) with
  | f :: _ => face_thumbnail f
  | [] => None
  end.

(** A connection: what is committed (and visible to every other
    connection) and the working copy of the open transaction. *)
Record Conn : Type := mkConn {
  committed : Db;
  working : Db
}.

Definition connect (db : Db) : Conn := mkConn db db.
Definition execute (f : Db -> Db) (c : Conn) : Conn :=
  mkConn (committed c) (f (working c)).
Definition commit (c : Conn) : Conn := mkConn (working c) (working c).

(** [merge_persons] statement by statement: the connection after
    [get_connection], after each [execute] and after [commit]. *)
Definition merge_persons_steps (db : Db) (keep merge : Z) : list Conn :=
  let c0 := connect db in
  let c1 := execute (fun d => move_faces d keep merge) c0 in
  let c2 := execute (fun d => delete_person d merge) c1 in
  let c3 := commit c2 in
  [c0; c1; c2; c3].

(** What another connection reads while [merge_persons] runs. *)
Definition merge_persons_observable (db : Db) (keep merge : Z) : list Db :=
  map committed (merge_persons_steps db keep merge).

Definition person_exists (db : Db) (pid : Z) : bool :=
  existsb (fun p => Z.eqb (person_id p) pid) (persons db).

(** Every face with a person id references a row of [persons]. *)
Definition refs_valid (db : Db) : bool :=
  forallb (fun f => match face_person f with
                    | Some p => person_exists db p
                    | None => true
                    end) (faces db).

End Database.

(** ** scanner.py *)

(** What the scanner reads from the file system during one scan.  A call
    that raises in Python is [None]. *)
Record FileSystem : Type := mkFs {
  path_exists : string -> bool;
  walk : string -> list (string * list string);
  getmtime : string -> option Z;
  md5_hexdigest : string -> option string
}.

Module Scanner.

(** The calls a scan makes to its callbacks, to the file system and to the
    face provider, in the order it makes them. *)
Inductive event : Type :=
| Progress (current total : nat) (file : string)
| AbortCheck (result : bool)
| Getmtime (path : string)
| ReadFile (path : string)
| ProcessImage (path : string).

Inductive loop_end : Type :=
| Exhausted
| Broke
| Failed.

Inductive outcome : Type :=
| Returned
| Raised.

Record LoopResult : Type := mkLoop {
  loop_trace : list event;
  loop_db : Db;
  loop_processed : nat;
  loop_exit : loop_end
}.

Record ScanResult : Type := mkScan {
  scan_trace : list event;
  scan_db : Db;
  scan_outcome : outcome
}.

Definition is_poll (e : event) : bool :=
  match e with
  | AbortCheck _ => true
  | _ => false
  end.

(** The file an event reads, hashes or hands to the provider. *)
Definition event_path (e : event) : option string :=
  match e with
  | Getmtime p | ReadFile p | ProcessImage p => Some p
  | _ => None
  end.

(** Reading the content of a file or running the provider on it. *)
Definition touches_content (e : event) : bool :=
  match e with
  | ReadFile _ | ProcessImage _ => true
  | _ => false
  end.

(** The row written for a file whose content could not be read: empty
    hash, modification time [m], and the one [file_exists] finds. *)
Definition blank_row (p : string) (m : Z) (db : Db) : Prop :=
  In (mkFile p "" m) (files db) /\ Database.select_mtime db p = Some m.

(** [db'] has the persons of [db], and its faces are those of [db] and
    faces without a person. *)
Definition extends (db db' : Db) : Prop :=
  persons db' = persons db /\
  forall f, In f (faces db') -> In f (faces db) \/ face_person f = None.

Definition image_files (fs : FileSystem) (root : string) : list string :=
  flat_map (fun d => map (Paths.join (fst d)) (filter Paths.is_image (snd d)))
           (walk fs root).

Definition calculate_hash (fs : FileSystem) (file_path : string) : string :=
  match md5_hexdigest fs file_path with
  | Some digest => digest
  | None => ""
  end.

Section Scan.

Variable fs : FileSystem.
(** [self.processor.process_image], when a processor was given. *)
Variable processor : option (string -> option (list Detection)).
(** Whether a [progress_callback] was passed. *)
Variable progress_callback : bool.
(** [abort_check], when passed: what its n-th call returns. *)
Variable abort_check : option (nat -> bool).

(** The call of the processor.  What [process_image] writes, the
    thumbnails in [<root>/.faceframe/thumbnails], is not in [fs]:
    [os.walk] has listed the files before the loop starts, so the scan
    that writes them does not go through them; the next scan does, on a
    file system that holds them (see [Rescan.with_files]). *)
Definition detect (db : Db) (full_path : string) : list event * Db :=
  match processor with
  | None => ([], db)
  | Some process_image =>
      match process_image full_path with
      | Some (d :: ds) =>
          ([ProcessImage full_path], Database.add_faces db full_path (d :: ds))
      | Some [] => ([ProcessImage full_path], db)
      | None => ([ProcessImage full_path], db)
      end
  end.

(** The loop body below the abort check; [None] when [getmtime] raises. *)
Definition scan_file (db : Db) (full_path : string) : list event * option Db :=
  match getmtime fs full_path with
  | None => ([Getmtime full_path], None)
  | Some mtime =>
      if Database.file_exists db full_path mtime
      then ([Getmtime full_path], Some db)
      else
        let file_hash := calculate_hash fs full_path in
        let db1 := Database.add_file db full_path file_hash mtime in
        let '(ev, db2) := detect db1 full_path in
        (Getmtime full_path :: ReadFile full_path :: ev, Some db2)
  end.

(** A path whose row in [files] carries its current modification time:
    [file_exists] answers true for it. *)
Definition indexed (db : Db) (q : string) : Prop :=
  exists m, getmtime fs q = Some m /\ Database.select_mtime db q = Some m.

Definition on_progress (current total : nat) (file : string) : list event :=
  if progress_callback then [Progress current total file] else [].

Definition poll (idx : nat) : list event * bool :=
  match abort_check with
  | None => ([], false)
  | Some check => ([AbortCheck (check idx)], check idx)
  end.

Fixpoint scan_loop (total_files : nat) (todo : list string)
         (idx processed_files : nat) (db : Db) : LoopResult :=
  match todo with
  | [] => mkLoop [] db processed_files Exhausted
  | full_path :: rest =>
      let ev1 := on_progress processed_files total_files
                             (Paths.basename full_path) in
      let '(ev2, stop) := poll idx in
      if stop then mkLoop (ev1 ++ ev2) db processed_files Broke
      else
        match scan_file db full_path with
        | (ev3, None) => mkLoop (ev1 ++ ev2 ++ ev3) db processed_files Failed
        | (ev3, Some db') =>
            let r := scan_loop total_files rest (S idx) (S processed_files) db' in
            mkLoop (ev1 ++ ev2 ++ ev3 ++ loop_trace r) (loop_db r)
                   (loop_processed r) (loop_exit r)
        end
  end.

Definition scan_directory (root_path : string) (db : Db) : ScanResult :=
  if negb (path_exists fs root_path) then mkScan [] db Returned
  else
    let todo := image_files fs root_path in
    let total_files := List.length todo in
    let r := scan_loop total_files todo 0 0 db in
    match loop_exit r with
    | Failed => mkScan (loop_trace r) (loop_db r) Raised
    | _ => mkScan (loop_trace r
                     ++ on_progress (loop_processed r) total_files "Complete")
                  (loop_db r) Returned
    end.

End Scan.

End Scanner.

(** ** clusterer.py *)

Module Clusterer.

Definition noise : Z := (-1)%Z.
Definition min_samples : nat := 2.

Definition show_Z (z : Z) : string := NilEmpty.string_of_int (Z.to_int z).

(** The number of points that carry the noise label. *)
Definition noise_count (labels : list Z) : nat :=
  List.length (filter (fun z => Z.eqb z noise) labels).

Section Clustering.

(** A parsed embedding (a float32 vector). *)
Variable E : Type.
(** [np.array(json.loads(text), dtype=np.float32)]: [None] when it raises
    (text that is not JSON, not numeric, or bytes that are not UTF-8). *)
Variable loads : string -> option E.
(** Whether two embeddings, each divided by its norm (a zero norm is
    replaced by 1), are at Euclidean distance at most [eps = 0.5]. *)
Variable near : E -> E -> bool.

Definition parse (emb_data : cell) : option E :=
  match emb_data with
  | CText s => loads s
  | CBytes s => loads s
  | COther => None
  end.

(** The first loop of [run_clustering]: the id is appended before the
    embedding is parsed, the embedding only when the parse succeeds. *)
Fixpoint collect (rows : list (Z * cell)) : list Z * list E :=
  match rows with
  | [] => ([], [])
  | r :: rest =>
      let '(face_ids, embeddings) := collect rest in
      match parse (snd r) with
      | Some emb => (fst r :: face_ids, emb :: embeddings)
      | None => (fst r :: face_ids, embeddings)
      end
  end.

(** *** DBSCAN, as [sklearn.cluster.DBSCAN(eps, min_samples).fit] runs it:
    the neighbourhood of every point (the point itself included when
    [near] is reflexive), the core points, and a depth-first expansion
    from every unlabelled core point in index order. *)

Fixpoint find_indices (f : E -> bool) (l : list E) (j : nat) : list nat :=
  match l with
  | [] => []
  | y :: r => if f y then j :: find_indices f r (S j) else find_indices f r (S j)
  end.

Definition neighborhoods (X : list E) : list (list nat) :=
  map (fun x => find_indices (near x) X 0) X.

Definition core_samples (X : list E) : list bool :=
  map (fun nb => (min_samples <=? List.length nb)%nat) (neighborhoods X).

Definition unlabelled (labels : list Z) (v : nat) : bool :=
  Z.eqb (nth v labels noise) noise.

Fixpoint set_label (i : nat) (v : Z) (labels : list Z) : list Z :=
  match labels, i with
  | [], _ => []
  | _ :: r, O => v :: r
  | x :: r, S k => x :: set_label k v r
  end.

Fixpoint push_unlabelled (labels : list Z) (neighb stack : list nat) : list nat :=
  match neighb with
  | [] => stack
  | v :: r =>
      push_unlabelled labels r (if unlabelled labels v then v :: stack else stack)
  end.

(** The body of the [while True] loop of [dbscan_inner] up to the pop: an
    unlabelled point gets the label, and when it is a core point its
    unlabelled neighbours are pushed. *)
Definition visit (nbs : list (list nat)) (core : list bool) (label_num : Z)
           (i : nat) (stack : list nat) (labels : list Z) : list Z * list nat :=
  if unlabelled labels i then
    let l1 := set_label i label_num labels in
    (l1, if nth i core false
         then push_unlabelled l1 (nth i nbs []) stack else stack)
  else (labels, stack).

(** The [while True] loop of [dbscan_inner]; [None] when the fuel ends
    before the stack is empty. *)
Fixpoint expand (fuel : nat) (nbs : list (list nat)) (core : list bool)
         (label_num : Z) (i : nat) (stack : list nat) (labels : list Z)
  : option (list Z) :=
  match fuel with
  | O => None
  | S fuel' =>
      let '(labels1, stack1) := visit nbs core label_num i stack labels in
      match stack1 with
      | [] => Some labels1
      | j :: st => expand fuel' nbs core label_num j st labels1
      end
  end.

Fixpoint dbscan_inner (fuel : nat) (nbs : list (list nat)) (core : list bool)
         (todo : list nat) (label_num : Z) (labels : list Z)
  : option (list Z) :=
  match todo with
  | [] => Some labels
  | i :: rest =>
      if orb (negb (unlabelled labels i)) (negb (nth i core false))
      then dbscan_inner fuel nbs core rest label_num labels
      else
        match expand fuel nbs core label_num i [] labels with
        | None => None
        | Some labels' =>
            dbscan_inner fuel nbs core rest (label_num + 1)%Z labels'
        end
  end.

Definition dbscan_fuel (X : list E) : nat :=
  S (List.length X * S (List.length X)).

Definition dbscan_run (X : list E) : option (list Z) :=
  let n := List.length X in
  dbscan_inner (dbscan_fuel X) (neighborhoods X) (core_samples X)
               (seq 0 n) 0%Z (repeat noise n).

(** [clustering.labels_] *)
Definition dbscan (X : list E) : list Z :=
  match dbscan_run X with
  | Some labels => labels
  | None => repeat noise (List.length X)
  end.

(** *** The rest of [run_clustering] *)

(** [set(labels)], iterated in increasing order. *)
Fixpoint insert_label (x : Z) (l : list Z) : list Z :=
  match l with
  | [] => [x]
  | y :: r =>
      if Z.ltb x y then x :: l
      else if Z.eqb x y then l
      else y :: insert_label x r
  end.

Definition unique_labels (labels : list Z) : list Z :=
  fold_left (fun acc x => insert_label x acc) labels [].

Fixpoint dict_get (m : list (Z * Z)) (k : Z) : option Z :=
  match m with
  | [] => None
  | (k', v) :: r => if Z.eqb k' k then Some v else dict_get r k
  end.

Fixpoint dict_set (m : list (Z * Z)) (k v : Z) : list (Z * Z) :=
  match m with
  | [] => [(k, v)]
  | (k', v') :: r =>
      if Z.eqb k' k then (k', v) :: r else (k', v') :: dict_set r k v
  end.

Fixpoint create_persons (todo : list Z) (db : Db) (cluster_map : list (Z * Z))
         (new_people_count : nat) : Db * list (Z * Z) * nat :=
  match todo with
  | [] => (db, cluster_map, new_people_count)
  | label :: rest =>
      if Z.eqb label noise then create_persons rest db cluster_map new_people_count
      else
        let person_name := "Person " ++ show_Z (label + 1) in
        let '(db', pid) := Database.create_person db (Some person_name) in
        create_persons rest db' (dict_set cluster_map label pid)
                       (S new_people_count)
  end.

(** The loop over [enumerate(labels)]; [false] when [cluster_map[label]]
    or [face_ids[idx]] raises. *)
Fixpoint update_faces (face_ids : list Z) (cluster_map : list (Z * Z))
         (labels : list Z) (idx : nat) (db : Db) : Db * bool :=
  match labels with
  | [] => (db, true)
  | label :: rest =>
      if Z.eqb label noise
      then update_faces face_ids cluster_map rest (S idx) db
      else
        match dict_get cluster_map label, nth_error face_ids idx with
        | Some pid, Some fid =>
            update_faces face_ids cluster_map rest (S idx)
                         (Database.update_face_person db fid pid)
        | _, _ => (db, false)
        end
  end.

Definition truthy (s : option string) : bool :=
  match s with
  | Some (String _ _) => true
  | _ => false
  end.

Fixpoint set_thumbnails (cluster_map : list (Z * Z)) (db : Db) : Db :=
  match cluster_map with
  | [] => db
  | (_, pid) :: rest =>
      match Database.get_first_face_thumbnail db pid with
      | Some thumbnail =>
          set_thumbnails rest
            (if truthy (Some thumbnail)
             then Database.update_person_thumbnail db pid thumbnail else db)
      | None => set_thumbnails rest db
      end
  end.

(** Whether [np.array(embeddings)], the normalisation and [DBSCAN.fit]
    return: they raise when the rows do not all have one length, when that
    length is zero, or when a value is not finite once it is cast to
    float32 and normalised. *)
Variable fits : list E -> bool.

(** [run_clustering]: the store afterwards and the returned count,
    [None] when the run raises.  [first_face_idx] is computed and never
    used, it is left out. *)
Definition run_clustering (db : Db) : Db * option nat :=
  let rows := Database.get_unclustered_faces db in
  match rows with
  | [] => (db, Some O)
  | _ =>
      let '(face_ids, embeddings) := collect rows in
      if (List.length embeddings <? 2)%nat then (db, Some O)
      else if negb (fits embeddings) then (db, None)
      else
        let labels := dbscan embeddings in
        let '(db1, cluster_map, new_people_count) :=
          create_persons (unique_labels labels) db [] O in
        match update_faces face_ids cluster_map labels 0 db1 with
        | (db2, false) => (db2, None)
        | (db2, true) => (set_thumbnails cluster_map db2, Some new_people_count)
        end
  end.

End Clustering.

(** *** An instance in exact arithmetic

    Embeddings with integer coordinates.  For nonzero [u], [v] the
    normalised vectors are at distance at most 1/2 exactly when
    [2 - 2 cos(u,v) <= 1/4], that is [cos(u,v) >= 7/8]: the dot product
    is non-negative and [49 |u|^2 |v|^2 <= 64 (u.v)^2].  A zero vector
    stays zero: it is at distance 0 from a zero vector and 1 from any
    other. *)

Fixpoint dot (u v : list Z) : Z :=
  match u, v with
  | x :: u', y :: v' => (x * y + dot u' v')%Z
  | _, _ => 0%Z
  end.

Definition near_exact (u v : list Z) : bool :=
  let uu := dot u u in
  let vv := dot v v in
  let uv := dot u v in
  if andb (Z.eqb uu 0) (Z.eqb vv 0) then true
  else if orb (Z.eqb uu 0) (Z.eqb vv 0) then false
  else andb (0 <=? uv)%Z (49 * (uu * vv) <=? 64 * (uv * uv))%Z.

(** JSON arrays of small integers, written as [json.dumps] writes them:
    ["[3, 4]"].  Any other text is rejected. *)
Definition digit_of (c : ascii) : option Z :=
  let n := nat_of_ascii c in
  if andb (48 <=? n)%nat (n <=? 57)%nat then Some (Z.of_nat (n - 48)) else None.

Fixpoint read_items (s : string) (sign : Z) (cur : option Z) (acc : list Z)
  : option (list Z) :=
  match s with
  | EmptyString => None
  | String c r =>
      match digit_of c with
      | Some d =>
          read_items r sign (Some (match cur with
                                   | Some n => 10 * n + d
                                   | None => d
                                   end)%Z) acc
      | None =>
          if Ascii.eqb c "-" then
            match cur with
            | None => if Z.eqb sign 1 then read_items r (-1)%Z None acc else None
            | Some _ => None
            end
          else if Ascii.eqb c "," then
            match cur with
            | Some n => read_items r 1%Z None (acc ++ [(sign * n)%Z])%list
            | None => None
            end
          else if Ascii.eqb c " " then
            match cur with
            | None => if Z.eqb sign 1 then read_items r 1%Z None acc else None
            | Some _ => None
            end
          else if Ascii.eqb c "]" then
            match cur, r with
            | Some n, EmptyString => Some (acc ++ [(sign * n)%Z])%list
            | _, _ => None
            end
          else None
      end
  end.

Definition loads_exact (s : string) : option (list Z) :=
  match s with
  | String "[" r => read_items r 1%Z None []
  | _ => None
  end.

(** Rows of one length, not zero, with coordinates of at most 24 bits,
    which float32 holds exactly: on these [np.array], the normalisation
    and [DBSCAN.fit] return.  Of the rows it refuses, those of different
    lengths and those of length zero are rows on which the calls raise;
    larger coordinates are left out of the instance. *)
Definition fits_exact (X : list (list Z)) : bool :=
  match X with
  | [] => true
  | u :: r =>
      andb (negb (Nat.eqb (List.length u) 0))
           (andb (forallb (fun v => Nat.eqb (List.length v) (List.length u)) r)
                 (forallb (forallb (fun x => (Z.abs x <=? 16777216)%Z)) X))
  end.

Definition run_clustering_exact : Db -> Db * option nat :=
  run_clustering (list Z) loads_exact near_exact fits_exact.

End Clusterer.

(** ** main.py *)

Module Session.

(** A command line after [json.loads], with the fields of the protocol at
    their protocol types: paths, names and the provider are strings, ids
    are integers.  A field that is absent (or [null]) is [None]; a
    provider given as [null], which [cmd.get('provider', default)] hands
    on as it is, is not modelled. *)
Record Command : Type := mkCommand {
  cmd_action : option string;
  cmd_path : option string;
  cmd_provider : option string;
  cmd_person_id : option Z;
  cmd_new_name : option string;
  cmd_keep_id : option Z;
  cmd_merge_id : option Z
}.

(** Python truth of a field: [None], the empty string and 0 are false. *)
Definition truthy_str (v : option string) : bool :=
  match v with
  | Some (String _ _) => true
  | _ => false
  end.

Definition truthy_int (v : option Z) : bool :=
  match v with
  | Some n => negb (Z.eqb n 0)
  | None => false
  end.

(** The lines printed on the output stream.  The text of an error message
    is not modelled. *)
Inductive response : Type :=
| RStarted (path : string)
| RProgress (current total : nat) (file : string)
| RComplete (path : string)
| RCancelled
| RError
| RProviders (providers : list string)
| RClustered (count : nat)
| RUnclustered (data : list (Z * string * string * option string))
| RIndexCleared
| RPersons (data : list (Z * string * option string))
| RPhotosByPerson (person : Z) (photos : list string)
| RPersonRenamed (person : Z) (new_name : string)
| RPersonsMerged (keep merge : Z)
| RPong.

(** The state the session works on: for every root whose [.faceframe]
    directory exists, the store in its [index.db] (a store that was never
    opened is the empty one), and the global abort flag.  A root is named
    by the path string of the command: two strings that name one directory
    ("/photos" and "/photos/") are two keys here, so the model relates
    commands that give the same string only. *)
Record World : Type := mkWorld {
  indexes : list (string * Db);
  abort_scan_flag : bool
}.

Fixpoint lookup_index (l : list (string * Db)) (path : string) : option Db :=
  match l with
  | [] => None
  | (p, db) :: r => if String.eqb p path then Some db else lookup_index r path
  end.

Fixpoint store_index (l : list (string * Db)) (path : string) (db : Db)
  : list (string * Db) :=
  match l with
  | [] => [(path, db)]
  | (p, d) :: r =>
      if String.eqb p path then (p, db) :: r else (p, d) :: store_index r path db
  end.

Definition remove_index (l : list (string * Db)) (path : string)
  : list (string * Db) :=
  filter (fun e => negb (String.eqb (fst e) path)) l.

Definition with_index (w : World) (path : string) (db : Db) : World :=
  mkWorld (store_index (indexes w) path db) (abort_scan_flag w).

Definition with_flag (w : World) (b : bool) : World :=
  mkWorld (indexes w) b.

Record Step : Type := mkStep {
  step_world : World;
  step_output : list response;
  (** the [run_scan] thread started by the command: path and provider *)
  step_spawned : option (string * string)
}.

Definition silent (w : World) : Step := mkStep w [] None.

Definition unclustered_entry (f : Z * string * string * option string)
  : Z * string * string * option string :=
  match f with
  | (id, file, bbox, thumb) =>
      (id, file,
       match bbox with
       | EmptyString => "[0, 0, 0, 0]"
       | _ => bbox
       end,
       if truthy_str thumb then thumb else None)
  end.

Definition person_entry (p : PersonRow) : Z * string * option string :=
  (person_id p,
   if truthy_str (person_name p)
   then match person_name p with
        | Some n => n
        | None => EmptyString
        end
   else "Person " ++ Clusterer.show_Z (person_id p),
   person_thumbnail p).

(** [action == a], for [action = cmd.get('action')]. *)
Definition action_is (cmd : Command) (a : string) : bool :=
  match cmd_action cmd with
  | Some x => String.eqb x a
  | None => false
  end.

(** What [shutil.rmtree(folder)] does: it returns once the folder is
    gone, or it raises, and then the folder is still there, with
    [index.db] in it or without. *)
Inductive removal : Type :=
| Removed
| RaisedKeeping
| RaisedLosing.

(** Every store the session can open satisfies the reference invariant. *)
Definition world_valid (w : World) : Prop :=
  forall path db,
    lookup_index (indexes w) path = Some db -> Database.refs_valid db = true.

Section Dispatch.

Variable E : Type.
Variable loads : string -> option E.
Variable near : E -> E -> bool.
Variable fits : list E -> bool.
(** [shutil.rmtree] on the [.faceframe] folder of a root. *)
Variable rmtree : string -> removal.
(** [onnxruntime.get_available_providers()], [None] when the import raises. *)
Variable available_providers : option (list string).

(** Opening [Database(db_path)] and running [k] on it; the connection
    cannot be opened when the [.faceframe] directory is missing, the
    exception reaches the handler of the main loop and nothing is
    printed. *)
Definition with_database (w : World) (path : string) (k : Db -> Step) : Step :=
  match lookup_index (indexes w) path with
  | Some db => k db
  | None => silent w
  end.

Definition str (v : option string) : string :=
  match v with
  | Some s => s
  | None => EmptyString
  end.

Definition int (v : option Z) : Z :=
  match v with
  | Some n => n
  | None => 0%Z
  end.

(** One iteration of the [while True] loop of [main] on a line that
    parsed to a command: the chain of [if action == ...: ... elif ...]. *)
Definition handle_command (cmd : Command) (w : World) : Step :=
  let path := cmd_path cmd in
  if action_is cmd "SCAN" then
    let provider := match cmd_provider cmd with
                    | Some p => p
                    | None => "CPUExecutionProvider"
                    end in
    if truthy_str path then mkStep w [] (Some (str path, provider))
    else silent w
  else if action_is cmd "GET_PROVIDERS" then
    match available_providers with
    | Some providers => mkStep w [RProviders providers] None
    | None => silent w
    end
  else if action_is cmd "CLUSTER" then
    if truthy_str path then
      with_database w (str path) (fun db =>
        match Clusterer.run_clustering E loads near fits db with
        | (db', Some count) =>
            mkStep (with_index w (str path) db') [RClustered count] None
        | (db', None) => silent (with_index w (str path) db')
        end)
    else silent w
  else if action_is cmd "GET_UNCLUSTERED" then
    if truthy_str path then
      with_database w (str path) (fun db =>
        let faces := Database.get_unclustered_faces_info db in
        mkStep w [RUnclustered (map unclustered_entry faces)] None)
    else silent w
  else if action_is cmd "CANCEL_SCAN" then silent (with_flag w true)
  else if action_is cmd "CLEAR_INDEX" then
    if truthy_str path then
      match lookup_index (indexes w) (str path) with
      | None => mkStep w [RIndexCleared] None
      | Some _ =>
          match rmtree (str path) with
          | Removed =>
              mkStep (mkWorld (remove_index (indexes w) (str path))
                              (abort_scan_flag w))
                     [RIndexCleared] None
          | RaisedKeeping => silent w
          | RaisedLosing => silent (with_index w (str path) Database.init_db)
          end
      end
    else silent w
  else if action_is cmd "GET_PERSONS" then
    if truthy_str path then
      with_database w (str path) (fun db =>
        let persons := Database.get_persons db in
        mkStep w [RPersons (map person_entry persons)] None)
    else silent w
  else if action_is cmd "GET_PHOTOS_BY_PERSON" then
    let person_id := cmd_person_id cmd in
    if andb (truthy_str path) (truthy_int person_id) then
      with_database w (str path) (fun db =>
        let photos := Database.get_photos_by_person db (int person_id) in
        mkStep w [RPhotosByPerson (int person_id) photos] None)
    else silent w
  else if action_is cmd "RENAME_PERSON" then
    let person_id := cmd_person_id cmd in
    let new_name := cmd_new_name cmd in
    if andb (andb (truthy_str path) (truthy_int person_id))
            (truthy_str new_name) then
      with_database w (str path) (fun db =>
        mkStep (with_index w (str path)
                  (Database.rename_person db (int person_id) (str new_name)))
               [RPersonRenamed (int person_id) (str new_name)] None)
    else silent w
  else if action_is cmd "MERGE_PERSONS" then
    let keep_id := cmd_keep_id cmd in
    let merge_id := cmd_merge_id cmd in
    if andb (andb (truthy_str path) (truthy_int keep_id))
            (truthy_int merge_id) then
      with_database w (str path) (fun db =>
        mkStep (with_index w (str path)
                  (Database.merge_persons db (int keep_id) (int merge_id)))
               [RPersonsMerged (int keep_id) (int merge_id)] None)
    else silent w
  else if action_is cmd "PING" then mkStep w [RPong] None
  else silent w.

(** A line read from the input stream: blank, not JSON, or a command. *)
Inductive line : Type :=
| Blank
| Malformed
| Parsed (cmd : Command).

(** The [while True] loop of [main] over the lines read before the end of
    the stream: the world at the end, the lines printed by the loop itself,
    and the scans it started (their threads print on their own). *)
Fixpoint main (lines : list line) (w : World)
  : World * list response * list (string * string) :=
  match lines with
  | [] => (w, [], [])
  | Blank :: rest => main rest w
  | Malformed :: rest => main rest w
  | Parsed cmd :: rest =>
      let s := handle_command cmd w in
      let '(w', out, scans) := main rest (step_world s) in
      (w', (step_output s ++ out)%list,
       match step_spawned s with
       | Some scan => scan :: scans
       | None => scans
       end)
  end.

End Dispatch.

(** ['CUDA' in provider_name] *)
Fixpoint contains (sub s : string) : bool :=
  if String.prefix sub s then true
  else match s with
       | EmptyString => false
       | String _ r => contains sub r
       end.

(** The file system once [mkdir(parents=True, exist_ok=True)] has created
    [path/.faceframe/thumbnails]: [path] exists, and holds no image when
    it was created by the call. *)
Definition after_mkdir (fs : FileSystem) (path : string) : FileSystem :=
  mkFs (fun p => orb (String.eqb p path) (path_exists fs p))
       (fun p => if andb (String.eqb p path) (negb (path_exists fs path))
                 then [] else walk fs p)
       (getmtime fs) (md5_hexdigest fs).

Definition count_polls (trace : list Scanner.event) : nat :=
  List.length (filter (fun e => match e with
                                | Scanner.AbortCheck _ => true
                                | _ => false
                                end) trace).

(** The lines [on_progress] prints. *)
Definition progress_lines (trace : list Scanner.event) : list response :=
  flat_map (fun e => match e with
                     | Scanner.Progress c t f => [RProgress c t f]
                     | _ => []
                     end) trace.

Section RunScan.

Variable fs : FileSystem.
(** Whether the two [mkdir] calls succeed. *)
Variable mkdir_ok : bool.
(** [FaceProcessor(use_gpu, thumbnail_dir).process_image], [None] when
    the constructor raises. *)
Variable make_processor : bool -> option (string -> option (list Detection)).
(** The value of [abort_scan_flag] at the n-th read made by this thread
    (the command loop may set it in between). *)
Variable flag_reads : nat -> bool.

Definition run_scan (path provider_name : string) (w : World)
  : World * list response :=
  let w0 := with_flag w false in
  if negb mkdir_ok then (w0, [RError])
  else
    let db := match lookup_index (indexes w0) path with
              | Some db => db
              | None => Database.init_db
              end in
    let w1 := with_index w0 path db in
    let use_gpu := contains "CUDA" provider_name in
    match make_processor use_gpu with
    | None => (w1, [RError])
    | Some processor =>
        let r := Scanner.scan_directory (after_mkdir fs path) (Some processor)
                   true (Some flag_reads) path db in
        let flag := flag_reads (count_polls (Scanner.scan_trace r)) in
        let w2 := with_flag (with_index w1 path (Scanner.scan_db r)) flag in
        match Scanner.scan_outcome r with
        | Scanner.Raised =>
            (w2, RStarted path :: progress_lines (Scanner.scan_trace r)
                   ++ [RError])
        | Scanner.Returned =>
            (w2, RStarted path :: progress_lines (Scanner.scan_trace r)
                   ++ [if flag then RCancelled else RComplete path])
        end
    end.

End RunScan.

End Session.

(** ** Sample inputs *)

Module Samples.

Definition photos : string := "/photos".

(** A directory with two images and a text file; with [unreadable] the
    content of [a.jpg] cannot be read. *)
Definition album (unreadable : bool) : FileSystem :=
  mkFs (String.eqb photos)
       (fun p => if String.eqb p photos
                 then [(photos, ["a.jpg"; "b.jpg"; "notes.txt"])] else [])
       (fun _ => Some 100%Z)
       (fun p => if andb unreadable (String.eqb p "/photos/a.jpg") then None
                 else Some "d41d8cd98f00b204e9800998ecf8427e").

(** One face per image; the two embeddings have cosine 24/25. *)
Definition detector (p : string) : option (list Detection) :=
  Some [mkDet (if String.eqb p "/photos/a.jpg" then "[3, 4]" else "[4, 3]")
              "[0, 0, 9, 9]" None].

(** A file system on which nothing exists. *)
Definition nothing : FileSystem :=
  mkFs (fun _ => false) (fun _ => []) (fun _ => None) (fun _ => None).

Definition face (id : Z) (emb : cell) : FaceRow :=
  mkFace id "/photos/a.jpg" emb "[0, 0, 9, 9]" None None.

(** Three unclustered faces, the first with an embedding that is not JSON. *)
Definition store_with_bad_embedding : Db :=
  mkDb [] []
       [face 1 (CText "not json"); face 2 (CText "[3, 4]");
        face 3 (CText "[4, 3]")] 3 0.

(** Four unclustered faces: a NULL embedding, an embedding far from the
    others, and two close ones. *)
Definition store_with_null_and_outlier : Db :=
  mkDb [] []
       [face 1 COther; face 2 (CText "[5, 0]"); face 3 (CText "[3, 4]");
        face 4 (CText "[4, 3]")] 4 0.

End Samples.

(** ** Statements of the design document that are tested on an input *)

Module Stated.
Import Scanner.

(** The last event of a scan reports the total as its count. *)
Definition final_event_reports_total (fs : FileSystem)
           (processor : option (string -> option (list Detection)))
           (abort_check : option (nat -> bool)) (root : string) (db : Db) : Prop :=
  let r := scan_directory fs processor true abort_check root db in
  let total := List.length (image_files fs root) in
  exists t, scan_trace r = (t ++ [Progress total total "Complete"])%list.

(** A second scan of the same file system leaves the row counts of the
    first and never runs the provider. *)
Definition rescan_changes_nothing (fs : FileSystem)
           (processor : option (string -> option (list Detection)))
           (abort1 abort2 : option (nat -> bool)) (root : string) (db : Db) : Prop :=
  let r1 := scan_directory fs processor true abort1 root db in
  let r2 := scan_directory fs processor true abort2 root (scan_db r1) in
  List.length (files (scan_db r2)) = List.length (files (scan_db r1)) /\
  List.length (faces (scan_db r2)) = List.length (faces (scan_db r1)) /\
  forall p, ~ In (ProcessImage p) (scan_trace r2).

(** The lines of a scan that was rejected: an error status and no
    complete status. *)
Definition rejected_with_error (out : list Session.response) : Prop :=
  In Session.RError out /\ forall p, ~ In (Session.RComplete p) out.

End Stated.

(** ** Required fields of the commands that have some *)

Module Required.
Import Session.

(** For CLUSTER, GET_UNCLUSTERED, GET_PERSONS, GET_PHOTOS_BY_PERSON,
    RENAME_PERSON, MERGE_PERSONS and CLEAR_INDEX: the Python truth of each
    required field of the command.  Empty for every other action. *)
Definition required_fields (cmd : Command) : list bool :=
  if action_is cmd "CLUSTER" then [truthy_str (cmd_path cmd)]
  else if action_is cmd "GET_UNCLUSTERED" then [truthy_str (cmd_path cmd)]
  else if action_is cmd "GET_PERSONS" then [truthy_str (cmd_path cmd)]
  else if action_is cmd "CLEAR_INDEX" then [truthy_str (cmd_path cmd)]
  else if action_is cmd "GET_PHOTOS_BY_PERSON"
       then [truthy_str (cmd_path cmd); truthy_int (cmd_person_id cmd)]
  else if action_is cmd "RENAME_PERSON"
       then [truthy_str (cmd_path cmd); truthy_int (cmd_person_id cmd);
             truthy_str (cmd_new_name cmd)]
  else if action_is cmd "MERGE_PERSONS"
       then [truthy_str (cmd_path cmd); truthy_int (cmd_keep_id cmd);
             truthy_int (cmd_merge_id cmd)]
  else [].

End Required.

(** ** A session on the sample album *)

Module SampleSession.
Import Session.

Definition command (action : string) : Command :=
  mkCommand (Some action) (Some Samples.photos) None None None None None.

Definition merge_command (keep merge : Z) : Command :=
  mkCommand (Some "MERGE_PERSONS") (Some Samples.photos) None None None
            (Some keep) (Some merge).

Definition handle : Command -> World -> Step :=
  handle_command (list Z) Clusterer.loads_exact Clusterer.near_exact
                 Clusterer.fits_exact (fun _ => Removed) None.

(** SCAN of the album, run to its end. *)
Definition scanned : World :=
  fst (run_scan (Samples.album false) true (fun _ => Some Samples.detector)
                (fun _ => false) Samples.photos "CPUExecutionProvider"
                (mkWorld [] false)).

(** Then CLUSTER. *)
Definition clustered : Step := handle (command "CLUSTER") scanned.

(** Then MERGE_PERSONS with the new person as both arguments. *)
Definition merged_with_itself : Step :=
  handle (merge_command 1 1) (step_world clustered).

End SampleSession.

(** ** Neighbourhoods and closure, for the clusters of DBSCAN *)

Module Density.

Section Points.

Variable E : Type.
Variable near : E -> E -> bool.
Variable X : list E.

(** Point [b] is in the neighbourhood of point [a]. *)
Definition neighbour (a b : nat) : Prop :=
  exists xa xb,
    nth_error X a = Some xa /\ nth_error X b = Some xb /\ near xa xb = true.

Definition labelled (labels : list Z) (k : nat) : Prop :=
  nth k labels Clusterer.noise <> Clusterer.noise.

(** Every neighbour of a labelled core point is labelled or waits in
    [pending] (the point in hand and the stack). *)
Definition closed_upto (labels : list Z) (pending : list nat) : Prop :=
  forall a b,
    labelled labels a ->
    nth a (Clusterer.core_samples E near X) false = true ->
    neighbour a b ->
    labelled labels b \/ In b pending.

(** Every label in use is carried by at least two points. *)
Definition in_pairs (labels : list Z) : Prop :=
  forall k, labelled labels k ->
            exists k', k' <> k /\ nth k' labels Clusterer.noise
                                  = nth k labels Clusterer.noise.

End Points.

End Density.

(** ** The assignment loop of the clusterer, seen from one face *)

Module Assignment.
Import Clusterer.

(** What the loop over [enumerate(labels)] does to one row of [faces]. *)
Fixpoint assign (face_ids : list Z) (cluster_map : list (Z * Z))
         (labels : list Z) (idx : nat) (f : FaceRow) : FaceRow :=
  match labels with
  | [] => f
  | label :: rest =>
      if Z.eqb label noise then assign face_ids cluster_map rest (S idx) f
      else
        match dict_get cluster_map label, nth_error face_ids idx with
        | Some pid, Some fid =>
            assign face_ids cluster_map rest (S idx)
                   (if Z.eqb (face_id f) fid
                    then Database.set_face_person (Some pid) f else f)
        | _, _ => f
        end
  end.

End Assignment.

(** ** Keys of the tables *)

Module Keys.

(** [files.path] is a primary key. *)
Definition paths_unique (db : Db) : Prop := NoDup (map file_path (files db)).

(** [faces.id] is a primary key handed out by AUTOINCREMENT: the ids are
    distinct and none is above the counter. *)
Definition face_ids_fresh (db : Db) : Prop :=
  NoDup (map face_id (faces db)) /\
  forall f, In f (faces db) -> (face_id f <= face_seq db)%Z.

(** The same for [persons.id]. *)
Definition person_ids_fresh (db : Db) : Prop :=
  NoDup (map person_id (persons db)) /\
  forall p, In p (persons db) -> (person_id p <= person_seq db)%Z.

(** The columns [add_faces] writes for one detection, the id apart. *)
Definition stored (path : string) (d : Detection)
  : string * cell * string * option string * option Z :=
  (path, CText (det_embedding d), det_bbox d, det_thumbnail d, None).

Definition columns (f : FaceRow)
  : string * cell * string * option string * option Z :=
  (face_file f, face_embedding f, face_bbox f, face_thumbnail f, face_person f).

End Keys.

Module Calls.
Import Scanner.

(** The arguments of the calls of [progress_callback], in order. *)
Definition progress_calls (trace : list event) : list (nat * nat * string) :=
  flat_map (fun e => match e with
                     | Progress c t f => [(c, t, f)]
                     | _ => []
                     end) trace.

(** The call made for the [i]-th file of the enumeration when [i] files
    were processed before it. *)
Definition file_call (total : nat) (ip : nat * string) : nat * nat * string :=
  (fst ip, total, Paths.basename (snd ip)).

End Calls.

Module Cases.

(** The album of [Samples], with [b.jpg] removed between the enumeration
    and the loop: [getmtime] raises on it. *)
Definition album_with_vanished_file : FileSystem :=
  mkFs (path_exists (Samples.album false)) (walk (Samples.album false))
       (fun p => if String.eqb p "/photos/b.jpg" then None else Some 100%Z)
       (md5_hexdigest (Samples.album false)).


End Cases.

Module Growth.
Local Open Scope list_scope.

(** [db'] was obtained from [db] by a scan of the images [todo]. *)
Definition grown (todo : list string) (db db' : Db) : Prop :=
  persons db' = persons db /\
  (face_seq db <= face_seq db')%Z /\
  (exists added,
      faces db' = faces db ++ added /\
      forall f, In f added ->
                face_person f = None /\ In (face_file f) todo /\
                (face_seq db < face_id f <= face_seq db')%Z) /\
  (forall q, In q (map file_path (files db)) -> In q (map file_path (files db'))) /\
  (forall q, In q (map file_path (files db')) ->
             In q (map file_path (files db)) \/ In q todo).

End Growth.

Module Linking.
Import Clusterer Density.

Section Points.

Variable E : Type.
Variable near : E -> E -> bool.
Variable X : list E.

(** Neighbours that both have a label have the same one. *)
Definition agree (labels : list Z) : Prop :=
  forall a b,
    neighbour E near X a b -> labelled labels a -> labelled labels b ->
    nth a labels noise = nth b labels noise.

(** Every neighbour of a labelled core point is labelled, or the core
    point carries the label [c] that is being spread and the neighbour
    waits in [pending]. *)
Definition closed_for (c : Z) (labels : list Z) (pending : list nat) : Prop :=
  forall a b,
    labelled labels a ->
    nth a (core_samples E near X) false = true ->
    neighbour E near X a b ->
    labelled labels b \/ (nth a labels noise = c /\ In b pending).

(** The points that have a label or wait for one are core points. *)
Definition cores_only (labels : list Z) (pending : list nat) : Prop :=
  (forall k, labelled labels k -> nth k (core_samples E near X) false = true) /\
  (forall j, In j pending -> nth j (core_samples E near X) false = true).

End Points.

(** The labels in use are exactly [0], ..., [m - 1]. *)
Definition labels_below (m : Z) (labels : list Z) : Prop :=
  (forall k, labelled labels k -> (0 <= nth k labels noise < m)%Z) /\
  (forall l, (0 <= l < m)%Z -> exists k, nth k labels noise = l).

End Linking.

Module Created.
Local Open Scope string_scope.

(** The row added for the cluster label [l] when the labels from 0 on
    are taken in increasing order and the counter of [persons] was at
    [base] before the first of them. *)
Definition numbered (base : Z) (l : nat) : PersonRow :=
  mkPerson (base + Z.of_nat l + 1)
           (Some ("Person " ++ Clusterer.show_Z (Z.of_nat l + 1))) None.

(** The store once the persons for the labels 0, ..., [m - 1] are added. *)
Definition with_created (db : Db) (m : nat) : Db :=
  mkDb (files db) (persons db ++ map (numbered (person_seq db)) (seq 0 m))%list
       (faces db) (face_seq db) (person_seq db + Z.of_nat m).

End Created.

Module Counting.
Import Clusterer Density.

(** The number of clusters in a list of labels: how many different labels
    other than noise it holds. *)
Definition clusters (labels : list Z) : nat :=
  List.length (nodup Z.eq_dec (filter (fun l => negb (Z.eqb l noise)) labels)).

End Counting.

(** ** processor.py *)

Module Processor.
Import Paths.
Local Open Scope string_scope.

(** A decoded colour image: [img.shape[:2]]; the pixels are not modelled. *)
Record Image : Type := mkImage {
  height : Z;
  width : Z
}.

(** What [self.app.get] reports for one face: [face.bbox.astype(int)],
    the embedding and the detection score. *)
Record Found (Emb Score : Type) : Type := mkFound {
  found_bbox : Z * Z * Z * Z;
  found_embedding : Emb;
  found_score : Score
}.

Arguments mkFound {Emb Score}.
Arguments found_bbox {Emb Score}.
Arguments found_embedding {Emb Score}.
Arguments found_score {Emb Score}.

(** An entry of the list [process_image] returns. *)
Record Result (Emb Score : Type) : Type := mkResult {
  res_embedding : Emb;
  res_bbox : Z * Z * Z * Z;
  res_det_score : Score;
  res_thumbnail : option string
}.

Arguments mkResult {Emb Score}.
Arguments res_embedding {Emb Score}.
Arguments res_bbox {Emb Score}.
Arguments res_det_score {Emb Score}.
Arguments res_thumbnail {Emb Score}.

(** Python's reading of a slice bound [i] on an axis of length [len]: a
    negative bound counts from the end. *)
Definition slice_bound (len i : Z) : Z :=
  if (i <? 0)%Z then Z.max 0 (i + len) else Z.min i len.

Definition slice_length (len start stop : Z) : Z :=
  Z.max 0 (slice_bound len stop - slice_bound len start).

(** [img[y1:y2, x1:x2].size], the image having three channels. *)
Definition crop_size (img : Image) (x1 y1 x2 y2 : Z) : Z :=
  (slice_length (height img) y1 y2 * slice_length (width img) x1 x2 * 3)%Z.

(** [str(bbox)] for a list of four integers. *)
Definition show_bbox (b : Z * Z * Z * Z) : string :=
  let '(x1, y1, x2, y2) := b in
  "[" ++ Clusterer.show_Z x1 ++ ", " ++ Clusterer.show_Z y1 ++ ", "
      ++ Clusterer.show_Z x2 ++ ", " ++ Clusterer.show_Z y2 ++ "]".

Section Process.

Variable Emb : Type.
Variable Score : Type.
(** Reading and decoding the file: [None] when [open] or [imdecode]
    raises, [Some None] when [imdecode] returns [None]. *)
Variable read_image : string -> option (option Image).
(** [self.app.get(img)], [None] when it raises. *)
Variable app_get : Image -> option (list (Found Emb Score)).
(** [self.thumbnail_dir] *)
Variable thumbnail_dir : option string.
(** [hashlib.md5(text.encode()).hexdigest()] *)
Variable md5_hexdigest : string -> string.
(** Whether [cv2.resize] and [cv2.imwrite] return without raising. *)
Variable save_thumbnail : string -> bool.

(** The body of the loop over [enumerate(faces)]. *)
Definition process_face (image_path : string) (img : Image) (idx : nat)
           (face : Found Emb Score) : Result Emb Score :=
  let bbox := found_bbox face in
  let '(x1, y1, x2, y2) := bbox in
  let x1' := Z.max 0 x1 in
  let y1' := Z.max 0 y1 in
  let x2' := Z.min (width img) x2 in
  let y2' := Z.min (height img) y2 in
  let thumbnail_path :=
    if andb (Clusterer.truthy thumbnail_dir)
            (0 <? crop_size img x1' y1' x2' y2')%Z
    then
      let face_id :=
        substring 0 12
          (md5_hexdigest (image_path ++ "_" ++ Clusterer.show_Z (Z.of_nat idx)
                                     ++ "_" ++ show_bbox bbox)) in
      let thumbnail_path :=
        join (match thumbnail_dir with
              | Some d => d
              | None => EmptyString
              end) (face_id ++ ".jpg") in
      if save_thumbnail thumbnail_path then Some thumbnail_path else None
    else None in
  mkResult (found_embedding face) bbox (found_score face) thumbnail_path.

Fixpoint process_faces (image_path : string) (img : Image) (idx : nat)
         (faces : list (Found Emb Score)) : list (Result Emb Score) :=
  match faces with
  | [] => []
  | face :: rest =>
      process_face image_path img idx face
        :: process_faces image_path img (S idx) rest
  end.

(** [process_image]; [None] when it raises. *)
Definition process_image (image_path : string)
  : option (list (Result Emb Score)) :=
  match read_image image_path with
  | None => Some []
  | Some None => Some []
  | Some (Some img) =>
      match app_get img with
      | None => None
      | Some faces => Some (process_faces image_path img 0 faces)
      end
  end.

(** The processor as the scanner uses it: [add_faces] stores
    [json.dumps] of the embedding and of the box. *)
Variable dumps : Emb -> string.

Definition to_detection (r : Result Emb Score) : Detection :=
  mkDet (dumps (res_embedding r)) (show_bbox (res_bbox r)) (res_thumbnail r).

Definition as_processor (image_path : string) : option (list Detection) :=
  match process_image image_path with
  | Some results => Some (map to_detection results)
  | None => None
  end.

End Process.

End Processor.

Module Visits.
Import Scanner.

(** The files whose modification time a scan asked for, in order: the
    files its loop went through, skipped or processed. *)
Definition went_through (trace : list event) : list string :=
  flat_map (fun e => match e with
                     | Getmtime p => [p]
                     | _ => []
                     end) trace.

End Visits.

Module Rescan.
Import Scanner Processor.

(** The thumbnail files whose paths a store holds: the files
    [process_image] wrote. *)
Definition thumbnails (db : Db) : list string :=
  flat_map (fun f => match face_thumbnail f with
                     | Some t => [t]
                     | None => []
                     end) (faces db).

(** A file system in which the directory [dir], below [root], holds the
    files [names] besides what [fs] holds: the walk of [root] lists it,
    and the files can be read. *)
Definition with_files (fs : FileSystem) (root dir : string)
           (names : list string) (mtime : Z) (digest : string) : FileSystem :=
  let added := map (Paths.join dir) names in
  mkFs (path_exists fs)
       (fun p => if String.eqb p root then (walk fs p ++ [(dir, names)])%list
                 else walk fs p)
       (fun p => if Paths.mem_string p added then Some mtime else getmtime fs p)
       (fun p => if Paths.mem_string p added then Some digest
                 else md5_hexdigest fs p).

(** The sample album scanned by [run_scan]: a processor that finds one
    face in every image and writes its thumbnail into
    [/photos/.faceframe/thumbnails]. *)
Definition thumbnail_dir : string := "/photos/.faceframe/thumbnails".

Definition digest_of (text : string) : string :=
  if String.prefix "/photos/a.jpg" text then "0cc175b9c0f1b6a831c399e269772661"
  else if String.prefix "/photos/b.jpg" text
       then "92eb5ffee6ae2fec3ad71c777531578f"
  else if String.prefix "/photos/.faceframe/thumbnails/0cc" text
       then "4a8a08f09d37b73795649038408b5f33"
  else "8277e0910d750195b448797616e091ad".

Definition processor : string -> option (list Detection) :=
  as_processor unit unit (fun _ => Some (Some (mkImage 100 100)))
               (fun _ => Some [mkFound (10, 10, 60, 60)%Z tt tt])
               (Some thumbnail_dir) digest_of (fun _ => true)
               (fun _ => "[3, 4]"%string).

(** The first scan of the album, and the file system it leaves: the
    album with the thumbnails the scan wrote. *)
Definition first_scan : ScanResult :=
  scan_directory (Samples.album false) (Some processor) true None
                 Samples.photos Database.init_db.

Definition album_after_first_scan : FileSystem :=
  with_files (Samples.album false) Samples.photos thumbnail_dir
             (map Paths.basename (thumbnails (scan_db first_scan)))
             200 "d41d8cd98f00b204e9800998ecf8427e".

Definition second_scan : ScanResult :=
  scan_directory album_after_first_scan (Some processor) true None
                 Samples.photos (scan_db first_scan).

End Rescan.

(** * Properties *)

(** ** The files table *)

Module DatabaseFacts.
Import Database.
Local Open Scope list_scope.

Lemma filter_path_after_remove (path : string) (l : list FileRow) :
  filter (fun r => String.eqb (file_path r) path)
         (filter (fun r => negb (String.eqb (file_path r) path)) l) = [].
Proof.
  induction l as [|r l IH]; simpl; [reflexivity|].
  destruct (String.eqb (file_path r) path) eqn:Hr; simpl; [exact IH|].
  rewrite Hr. exact IH.
Qed.

Lemma filter_path_other (p q : string) (l : list FileRow) :
  q <> p ->
  filter (fun r => String.eqb (file_path r) q)
         (filter (fun r => negb (String.eqb (file_path r) p)) l)
  = filter (fun r => String.eqb (file_path r) q) l.
Proof.
  intros Hqp. induction l as [|r l IH]; simpl; [reflexivity|].
  destruct (String.eqb (file_path r) p) eqn:Hp; simpl.
  - apply String.eqb_eq in Hp.
    destruct (String.eqb (file_path r) q) eqn:Hq; [|exact IH].
    apply String.eqb_eq in Hq. congruence.
  - destruct (String.eqb (file_path r) q); [f_equal|]; exact IH.
Qed.

Lemma select_mtime_add_file (db : Db) (p h : string) (m : Z) :
  select_mtime (add_file db p h m) p = Some m.
Proof.
  unfold select_mtime, add_file; simpl.
  rewrite filter_app, filter_path_after_remove; simpl.
  rewrite String.eqb_refl. reflexivity.
Qed.

Lemma select_mtime_add_file_other (db : Db) (p q h : string) (m : Z) :
  q <> p -> select_mtime (add_file db p h m) q = select_mtime db q.
Proof.
  intros Hqp. unfold select_mtime, add_file; simpl.
  rewrite filter_app, (filter_path_other p q _ Hqp); simpl.
  destruct (String.eqb p q) eqn:E.
  - apply String.eqb_eq in E. congruence.
  - rewrite app_nil_r. reflexivity.
Qed.

Lemma file_exists_iff (db : Db) (p : string) (m : Z) :
  file_exists db p m = true <-> select_mtime db p = Some m.
Proof.
  unfold file_exists. destruct (select_mtime db p) as [m'|].
  - rewrite Z.eqb_eq. split; congruence.
  - split; discriminate.
Qed.

Lemma add_faces_files (db : Db) (p : string) (ds : list Detection) :
  files (add_faces db p ds) = files db.
Proof.
  unfold add_faces. revert db.
  induction ds as [|d ds IH]; intros db; simpl; [reflexivity|].
  rewrite IH. reflexivity.
Qed.

Lemma add_faces_persons (db : Db) (p : string) (ds : list Detection) :
  persons (add_faces db p ds) = persons db.
Proof.
  unfold add_faces. revert db.
  induction ds as [|d ds IH]; intros db; simpl; [reflexivity|].
  rewrite IH. reflexivity.
Qed.

End DatabaseFacts.

(** ** The scan loop and the store *)

Module ScannerFacts.
Import Database DatabaseFacts Scanner.
Local Open Scope list_scope.

Section Facts.

Variable fs : FileSystem.
Variable processor : option (string -> option (list Detection)).
Variable progress_callback : bool.
Variable abort_check : option (nat -> bool).

Local Abbreviation scan_file := (scan_file fs processor).
Local Abbreviation scan_loop := (scan_loop fs processor progress_callback abort_check).
Local Abbreviation detect := (detect processor).

Local Abbreviation indexed := (indexed fs).

Lemma detect_files (db : Db) (p : string) :
  files (snd (detect db p)) = files db.
Proof.
  unfold Scanner.detect. destruct processor as [f|]; [|reflexivity].
  destruct (f p) as [[|d ds]|]; try reflexivity.
  exact (add_faces_files db p (d :: ds)).
Qed.

Lemma select_mtime_files (db db' : Db) (q : string) :
  files db' = files db -> select_mtime db' q = select_mtime db q.
Proof. unfold select_mtime. intros ->. reflexivity. Qed.

Lemma scan_file_skip (db : Db) (p : string) :
  indexed db p -> scan_file db p = ([Getmtime p], Some db).
Proof.
  intros [m [Hm Hs]]. unfold Scanner.scan_file. rewrite Hm.
  apply file_exists_iff in Hs. rewrite Hs. reflexivity.
Qed.

Lemma scan_file_indexes (db db' : Db) (p : string) (ev : list event) :
  scan_file db p = (ev, Some db') -> indexed db' p.
Proof.
  unfold Scanner.scan_file. destruct (getmtime fs p) as [m|] eqn:Hm; [|discriminate].
  destruct (file_exists db p m) eqn:Hx.
  - intros H; inversion H; subst. exists m. split; [exact Hm|].
    apply file_exists_iff. exact Hx.
  - pose proof (detect_files (add_file db p (calculate_hash fs p) m) p) as Hf.
    destruct (detect (add_file db p (calculate_hash fs p) m) p) as [ev' d2].
    intros H; inversion H; subst. exists m. split; [exact Hm|].
    cbn [snd] in Hf. rewrite (select_mtime_files _ _ _ Hf).
    apply select_mtime_add_file.
Qed.

Lemma scan_file_keeps (db db' : Db) (p q : string) (ev : list event) :
  scan_file db p = (ev, Some db') -> indexed db q -> indexed db' q.
Proof.
  intros H Hq. destruct (string_dec q p) as [->|Hne].
  - rewrite (scan_file_skip _ _ Hq) in H. inversion H; subst. exact Hq.
  - revert H. unfold Scanner.scan_file.
    destruct (getmtime fs p) as [m|]; [|discriminate].
    destruct (file_exists db p m).
    + intros H; inversion H; subst. exact Hq.
    + pose proof (detect_files (add_file db p (calculate_hash fs p) m) p) as Hf.
      destruct (detect (add_file db p (calculate_hash fs p) m) p) as [ev' d2].
      intros H; inversion H; subst. destruct Hq as [mq [Hg Hs]].
      exists mq. split; [exact Hg|]. cbn [snd] in Hf.
      rewrite (select_mtime_files _ _ _ Hf).
      rewrite select_mtime_add_file_other by exact Hne. exact Hs.
Qed.

(** The loop unfolded once, on a file that is reached and not aborted. *)
Lemma scan_loop_cons (total : nat) (p : string) (rest : list string)
      (idx k : nat) (db : Db) :
  scan_loop total (p :: rest) idx k db =
  let ev1 := on_progress progress_callback k total (Paths.basename p) in
  let '(ev2, stop) := poll abort_check idx in
  if stop then mkLoop (ev1 ++ ev2) db k Broke
  else match scan_file db p with
       | (ev3, None) => mkLoop (ev1 ++ ev2 ++ ev3) db k Failed
       | (ev3, Some db') =>
           let r := scan_loop total rest (S idx) (S k) db' in
           mkLoop (ev1 ++ ev2 ++ ev3 ++ loop_trace r) (loop_db r)
                  (loop_processed r) (loop_exit r)
       end.
Proof. reflexivity. Qed.

Lemma scan_loop_keeps (total : nat) (todo : list string) (q : string) :
  forall idx k db,
    indexed db q -> indexed (loop_db (scan_loop total todo idx k db)) q.
Proof.
  induction todo as [|p rest IH]; intros idx k db Hq; [exact Hq|].
  rewrite scan_loop_cons. cbv zeta.
  destruct (poll abort_check idx) as [ev2 stop]. destruct stop; [exact Hq|].
  destruct (scan_file db p) as [ev3 [db'|]] eqn:Hf; [|exact Hq].
  simpl. apply IH. eapply scan_file_keeps; eassumption.
Qed.

(** A loop that runs out of files has indexed every one of them. *)
Lemma scan_loop_exhausted_indexes (total : nat) (todo : list string) :
  forall idx k db,
    loop_exit (scan_loop total todo idx k db) = Exhausted ->
    forall q, In q todo -> indexed (loop_db (scan_loop total todo idx k db)) q.
Proof.
  induction todo as [|p rest IH]; intros idx k db Hex q Hin; [destruct Hin|].
  revert Hex. rewrite scan_loop_cons. cbv zeta.
  destruct (poll abort_check idx) as [ev2 stop]. destruct stop; [discriminate|].
  destruct (scan_file db p) as [ev3 [db'|]] eqn:Hf; [|discriminate].
  simpl. intros Hex. destruct Hin as [->|Hin].
  - apply scan_loop_keeps. eapply scan_file_indexes; eassumption.
  - apply IH; assumption.
Qed.

(** Over indexed files the loop writes nothing, reads no content, calls
    no provider, and does not raise. *)
Lemma scan_loop_all_indexed (total : nat) (todo : list string) :
  forall idx k db,
    (forall q, In q todo -> indexed db q) ->
    let r := scan_loop total todo idx k db in
    loop_db r = db /\
    forallb (fun e => negb (touches_content e)) (loop_trace r) = true /\
    loop_exit r <> Failed.
Proof.
  induction todo as [|p rest IH]; intros idx k db Hall.
  - simpl. repeat split; discriminate.
  - rewrite scan_loop_cons. cbv zeta.
    unfold on_progress, poll.
    rewrite (scan_file_skip db p (Hall p (or_introl eq_refl))).
    destruct (IH (S idx) (S k) db (fun q H => Hall q (or_intror H)))
      as [Hdb [Htr Hex]].
    destruct abort_check as [chk|]; [destruct (chk idx)|];
      destruct progress_callback; simpl;
      repeat split; try discriminate; try assumption.
Qed.

(** The counter at the end of the loop. *)
Lemma scan_loop_processed (total : nat) (todo : list string) :
  forall idx k db,
    let r := scan_loop total todo idx k db in
    match loop_exit r with
    | Exhausted => loop_processed r = k + List.length todo
    | _ => k <= loop_processed r < k + List.length todo
    end.
Proof.
  induction todo as [|p rest IH]; intros idx k db.
  - simpl. lia.
  - rewrite scan_loop_cons. cbv zeta.
    destruct (poll abort_check idx) as [ev2 stop]. destruct stop.
    + simpl. lia.
    + destruct (scan_file db p) as [ev3 [db'|]].
      * simpl. specialize (IH (S idx) (S k) db'). cbv zeta in IH.
        destruct (loop_exit (scan_loop total rest (S idx) (S k) db')); lia.
      * simpl. lia.
Qed.

End Facts.

End ScannerFacts.

(** ** The shape of a scan trace *)

Module TraceFacts.
Import Database DatabaseFacts Scanner ScannerFacts.
Local Open Scope list_scope.

Section Facts.

Variable fs : FileSystem.
Variable processor : option (string -> option (list Detection)).

Local Abbreviation scan_file := (scan_file fs processor).

(** The events of the loop body all concern the file of the iteration. *)
Lemma scan_file_events (db : Db) (p : string) :
  forall e, In e (fst (scan_file db p)) -> event_path e = Some p.
Proof.
  unfold Scanner.scan_file. destruct (getmtime fs p) as [m|].
  - destruct (file_exists db p m).
    + simpl. intros e [<-|[]]. reflexivity.
    + unfold detect. destruct processor as [f|].
      * destruct (f p) as [[|d ds]|]; simpl;
          intros e [<-|[<-|[<-|[]]]]; reflexivity.
      * simpl. intros e [<-|[<-|[]]]; reflexivity.
  - simpl. intros e [<-|[]]. reflexivity.
Qed.

Lemma scan_file_no_poll (db : Db) (p : string) :
  forall e, In e (fst (scan_file db p)) -> is_poll e = false.
Proof.
  intros e He. apply scan_file_events in He. destruct e; try discriminate; reflexivity.
Qed.

Lemma split_after_body (ev tr t1 t2 : list event) (b : bool) :
  (forall e, In e ev -> is_poll e = false) ->
  ev ++ tr = t1 ++ AbortCheck b :: t2 ->
  exists t1', t1 = ev ++ t1' /\ tr = t1' ++ AbortCheck b :: t2.
Proof.
  revert t1. induction ev as [|e ev IH]; intros t1 Hev Heq.
  - exists t1. split; [reflexivity|exact Heq].
  - destruct t1 as [|e1 t1]; simpl in Heq.
    + injection Heq as He _. specialize (Hev e (or_introl eq_refl)).
      subst e. discriminate.
    + injection Heq as He Heq. subst e1.
      destruct (IH t1 (fun x Hx => Hev x (or_intror Hx)) Heq) as [t1' [-> Htr]].
      exists t1'. split; [reflexivity|exact Htr].
Qed.

Variable check : nat -> bool.

Local Abbreviation scan_loop := (scan_loop fs processor true (Some check)).

Lemma scan_loop_step (total : nat) (p : string) (rest : list string)
      (idx k : nat) (db : Db) :
  scan_loop total (p :: rest) idx k db =
  if check idx
  then mkLoop [Progress k total (Paths.basename p); AbortCheck true] db k Broke
  else match scan_file db p with
       | (ev3, None) =>
           mkLoop (Progress k total (Paths.basename p) :: AbortCheck false :: ev3)
                  db k Failed
       | (ev3, Some db') =>
           let r := scan_loop total rest (S idx) (S k) db' in
           mkLoop (Progress k total (Paths.basename p) :: AbortCheck false
                     :: ev3 ++ loop_trace r)
                  (loop_db r) (loop_processed r) (loop_exit r)
       end.
Proof.
  rewrite scan_loop_cons. unfold on_progress, poll. cbv zeta.
  destruct (check idx); [reflexivity|].
  destruct (scan_file db p) as [ev3 [db'|]]; reflexivity.
Qed.

(** Every abort check comes directly after a progress event. *)
Lemma poll_follows_progress (total : nat) (todo : list string) :
  forall idx k db t1 b t2,
    loop_trace (scan_loop total todo idx k db) = t1 ++ AbortCheck b :: t2 ->
    exists t0 c f, t1 = t0 ++ [Progress c total f].
Proof.
  induction todo as [|p rest IH]; intros idx k db t1 b t2 Heq.
  - simpl in Heq. destruct t1; discriminate.
  - rewrite scan_loop_step in Heq.
    destruct (check idx).
    + simpl in Heq. destruct t1 as [|e1 [|e2 [|e3 t1]]]; try discriminate.
      injection Heq as He _. exists [], k, (Paths.basename p). subst. reflexivity.
    + pose proof (scan_file_no_poll db p) as Hnp.
      destruct (scan_file db p) as [ev3 [db'|]]; cbn [fst] in Hnp; simpl in Heq.
      * destruct t1 as [|e1 [|e2 t1]]; try discriminate.
        { injection Heq as He _. exists [], k, (Paths.basename p). subst. reflexivity. }
        injection Heq as He1 He2 Heq. subst e1 e2.
        destruct (split_after_body _ _ _ _ _ Hnp Heq) as [t1' [-> Htr]].
        destruct (IH _ _ _ _ _ _ Htr) as [t0 [c [f ->]]].
        exists (Progress k total (Paths.basename p) :: AbortCheck false :: ev3 ++ t0), c, f.
        simpl. rewrite app_assoc. reflexivity.
      * destruct t1 as [|e1 [|e2 t1]]; try discriminate.
        { injection Heq as He _. exists [], k, (Paths.basename p). subst. reflexivity. }
        injection Heq as He1 He2 Heq. subst e1 e2.
        rewrite <- (app_nil_r ev3) in Heq.
        destruct (split_after_body _ _ _ _ _ Hnp Heq) as [t1' [_ Htr]].
        destruct t1'; discriminate.
Qed.

Lemma count_polls_app (a b : list event) :
  Session.count_polls (a ++ b) = Session.count_polls a + Session.count_polls b.
Proof. unfold Session.count_polls. rewrite filter_app, length_app. reflexivity. Qed.

Lemma count_polls_body (ev : list event) :
  (forall e, In e ev -> is_poll e = false) -> Session.count_polls ev = 0.
Proof.
  unfold Session.count_polls. induction ev as [|e ev IH]; intros H; [reflexivity|].
  simpl. pose proof (H e (or_introl eq_refl)) as He.
  destruct e; try discriminate; apply IH; intros x Hx; apply H; right; exact Hx.
Qed.

(** The abort check is called at most once per enumerated file. *)
Lemma count_polls_loop (total : nat) (todo : list string) :
  forall idx k db,
    Session.count_polls (loop_trace (scan_loop total todo idx k db))
    <= List.length todo.
Proof.
  induction todo as [|p rest IH]; intros idx k db.
  - simpl. unfold Session.count_polls. simpl. lia.
  - rewrite scan_loop_step. destruct (check idx).
    + unfold Session.count_polls. simpl. lia.
    + pose proof (scan_file_no_poll db p) as Hnp.
      destruct (scan_file db p) as [ev3 [db'|]]; cbn [fst] in Hnp.
      * cbn [loop_trace].
        change (Progress k total (Paths.basename p) :: AbortCheck false
                  :: ev3 ++ loop_trace (scan_loop total rest (S idx) (S k) db'))
          with ([Progress k total (Paths.basename p); AbortCheck false]
                  ++ ev3 ++ loop_trace (scan_loop total rest (S idx) (S k) db')).
        rewrite !count_polls_app, (count_polls_body ev3 Hnp).
        specialize (IH (S idx) (S k) db'). unfold Session.count_polls at 1.
        simpl. lia.
      * cbn [loop_trace].
        change (Progress k total (Paths.basename p) :: AbortCheck false :: ev3)
          with ([Progress k total (Paths.basename p); AbortCheck false] ++ ev3).
        rewrite count_polls_app, (count_polls_body ev3 Hnp).
        unfold Session.count_polls. simpl. lia.
Qed.

(** A loop left by [break]: the trace ends with the progress event of
    the file at the index of the break and the check that returned true;
    what was read or processed are the files before that index. *)
Lemma broke_shape (total : nat) (todo : list string) :
  forall idx k db,
    loop_exit (scan_loop total todo idx k db) = Broke ->
    exists t0 i p,
      nth_error todo i = Some p /\
      loop_processed (scan_loop total todo idx k db) = k + i /\
      loop_trace (scan_loop total todo idx k db)
      = t0 ++ [Progress (k + i) total (Paths.basename p); AbortCheck true] /\
      (forall e q, In e (loop_trace (scan_loop total todo idx k db)) ->
                   event_path e = Some q -> In q (firstn i todo)).
Proof.
  induction todo as [|p rest IH]; intros idx k db Hex.
  - simpl in Hex. discriminate.
  - rewrite scan_loop_step in Hex |- *. destruct (check idx).
    + exists [], 0, p. cbn [loop_trace loop_processed nth_error].
      rewrite Nat.add_0_r. repeat split; try reflexivity.
      intros e q [<-|[<-|[]]]; discriminate.
    + pose proof (scan_file_events db p) as Hev.
      destruct (scan_file db p) as [ev3 [db'|]]; cbn [fst] in Hev;
        [|discriminate].
      cbn [loop_exit loop_trace loop_processed] in Hex |- *.
      destruct (IH (S idx) (S k) db' Hex) as [t0 [i [q [Hn [Hp [Ht Hpaths]]]]]].
      exists (Progress k total (Paths.basename p) :: AbortCheck false :: ev3 ++ t0),
             (S i), q.
      replace (k + S i) with (S k + i) by lia.
      split; [exact Hn|]. split; [exact Hp|]. split.
      * rewrite Ht. simpl. rewrite app_assoc. reflexivity.
      * intros e x He Hx. cbn [firstn].
        destruct He as [<-|[<-|He]]; try discriminate.
        apply in_app_or in He. destruct He as [He|He].
        -- left. apply Hev in He. congruence.
        -- right. eapply Hpaths; eassumption.
Qed.

Lemma nth_error_not_in_firstn (l : list string) (i : nat) (p : string) :
  NoDup l -> nth_error l i = Some p -> ~ In p (firstn i l).
Proof.
  revert i. induction l as [|x l IH]; intros i Hnd Hn.
  - destruct i; discriminate.
  - inversion Hnd as [|? ? Hx Hl]; subst. destruct i as [|i]; simpl.
    + intros [].
    + simpl in Hn. intros [->|Hin].
      * apply Hx. eapply nth_error_In; eassumption.
      * eapply IH; eassumption.
Qed.

End Facts.

End TraceFacts.

(** ** Leaving the loop, and what a read failure leaves behind *)

Module LoopFacts.
Import Database DatabaseFacts Scanner ScannerFacts TraceFacts.
Local Open Scope list_scope.

Section Facts.

Variable fs : FileSystem.
Variable processor : option (string -> option (list Detection)).
Variable progress_callback : bool.
Variable abort_check : option (nat -> bool).

Local Abbreviation scan_file := (scan_file fs processor).
Local Abbreviation scan_loop :=
  (scan_loop fs processor progress_callback abort_check).
Local Abbreviation indexed := (indexed fs).

Lemma on_progress_events (k total : nat) (f : string) (e : event) :
  In e (on_progress progress_callback k total f) -> e = Progress k total f.
Proof.
  unfold on_progress. destruct progress_callback; simpl; [|tauto].
  intros [<-|[]]. reflexivity.
Qed.

Lemma poll_events (idx : nat) (e : event) :
  In e (fst (poll abort_check idx)) ->
  e = AbortCheck (snd (poll abort_check idx)).
Proof.
  unfold poll. destruct abort_check; simpl; [|tauto].
  intros [<-|[]]. reflexivity.
Qed.

Lemma poll_true (idx : nat) :
  snd (poll abort_check idx) = true ->
  fst (poll abort_check idx) = [AbortCheck true].
Proof.
  unfold poll. destruct abort_check; simpl; [|discriminate].
  intros ->. reflexivity.
Qed.

(** The loop is left by [break] exactly when a check returned true. *)
Lemma broke_iff_check_true (total : nat) (todo : list string) :
  forall idx k db,
    loop_exit (scan_loop total todo idx k db) = Broke <->
    In (AbortCheck true) (loop_trace (scan_loop total todo idx k db)).
Proof.
  induction todo as [|p rest IH]; intros idx k db.
  - simpl. split; [discriminate|tauto].
  - rewrite scan_loop_cons. cbv zeta.
    pose proof (poll_events idx) as Hpe. pose proof (poll_true idx) as Hpt.
    destruct (poll abort_check idx) as [ev2 stop]. cbn [fst snd] in Hpe, Hpt.
    destruct stop.
    + cbn [loop_exit loop_trace]. split; [intros _|reflexivity].
      rewrite (Hpt eq_refl). apply in_or_app. right. left. reflexivity.
    + pose proof (scan_file_events fs processor db p) as Hev.
      destruct (scan_file db p) as [ev3 [db'|]]; cbn [fst] in Hev;
        cbn [loop_exit loop_trace].
      * rewrite IH. split.
        -- intros H. apply in_or_app. right. apply in_or_app. right.
           apply in_or_app. right. exact H.
        -- intros H. apply in_app_or in H. destruct H as [H|H].
           { apply on_progress_events in H. discriminate. }
           apply in_app_or in H. destruct H as [H|H].
           { apply Hpe in H. discriminate. }
           apply in_app_or in H. destruct H as [H|H]; [|exact H].
           apply Hev in H. discriminate.
      * split; [discriminate|]. intros H.
        apply in_app_or in H. destruct H as [H|H].
        { apply on_progress_events in H. discriminate. }
        apply in_app_or in H. destruct H as [H|H].
        { apply Hpe in H. discriminate. }
        apply Hev in H. discriminate.
Qed.

(** The loop raises only where [getmtime] does. *)
Lemma failed_needs_getmtime_error (total : nat) (todo : list string) :
  forall idx k db,
    loop_exit (scan_loop total todo idx k db) = Failed ->
    exists q, In q todo /\ getmtime fs q = None.
Proof.
  induction todo as [|p rest IH]; intros idx k db.
  - simpl. discriminate.
  - rewrite scan_loop_cons. cbv zeta.
    destruct (poll abort_check idx) as [ev2 stop]. destruct stop; [discriminate|].
    destruct (scan_file db p) as [ev3 [db'|]] eqn:Hf; cbn [loop_exit].
    + intros H. destruct (IH _ _ _ H) as [q [Hq Hg]]. exists q. split; [right|]; assumption.
    + intros _. exists p. split; [left; reflexivity|].
      revert Hf. unfold Scanner.scan_file. destruct (getmtime fs p) as [m|]; [|reflexivity].
      destruct (file_exists db p m); [discriminate|].
      destruct (detect processor _ p). discriminate.
Qed.

(** An indexed file is only asked for its modification time. *)
Lemma indexed_only_getmtime (total : nat) (todo : list string) (p : string) :
  forall idx k db,
    indexed db p ->
    forall e, In e (loop_trace (scan_loop total todo idx k db)) ->
              event_path e = Some p -> e = Getmtime p.
Proof.
  induction todo as [|q rest IH]; intros idx k db Hp e He Hpath.
  - destruct He.
  - revert He. rewrite scan_loop_cons. cbv zeta.
    pose proof (poll_events idx) as Hpe.
    destruct (poll abort_check idx) as [ev2 stop]. cbn [fst snd] in Hpe.
    assert (Hhead : In e (on_progress progress_callback k total (Paths.basename q))
                    \/ In e ev2 -> False).
    { intros [H|H]; [apply on_progress_events in H|apply Hpe in H];
        subst e; discriminate. }
    destruct stop.
    + cbn [loop_trace]. intros H. apply in_app_or in H. tauto.
    + pose proof (scan_file_events fs processor db q) as Hev.
      destruct (scan_file db q) as [ev3 [db'|]] eqn:Hf; cbn [fst] in Hev;
        cbn [loop_trace]; intros H;
        apply in_app_or in H; destruct H as [H|H]; try tauto;
        apply in_app_or in H; destruct H as [H|H]; try tauto.
      * apply in_app_or in H; destruct H as [H|H].
        -- pose proof (Hev _ H) as Hq. assert (q = p) by congruence. subst q.
           rewrite (scan_file_skip fs processor db p Hp) in Hf.
           inversion Hf; subst. destruct H as [<-|[]]. reflexivity.
        -- eapply IH; [|exact H|exact Hpath].
           eapply scan_file_keeps; [exact Hf|exact Hp].
      * pose proof (Hev _ H) as Hq. assert (q = p) by congruence. subst q.
        rewrite (scan_file_skip fs processor db p Hp) in Hf. discriminate.
Qed.

Lemma in_files_add_file_other (db : Db) (q h : string) (mq : Z) (r : FileRow) :
  file_path r <> q -> In r (files db) -> In r (files (add_file db q h mq)).
Proof.
  intros Hne Hin. unfold add_file. cbn [files]. apply in_or_app. left.
  apply filter_In. split; [exact Hin|].
  destruct (String.eqb (file_path r) q) eqn:E; [|reflexivity].
  apply String.eqb_eq in E. contradiction.
Qed.

Lemma scan_file_keeps_blank (db db' : Db) (p q : string) (m : Z)
      (ev : list event) :
  getmtime fs p = Some m ->
  scan_file db q = (ev, Some db') -> blank_row p m db -> blank_row p m db'.
Proof.
  intros Hm Hf [Hin Hs].
  assert (Hp : indexed db p) by (exists m; split; assumption).
  destruct (string_dec q p) as [->|Hne].
  - rewrite (scan_file_skip fs processor db p Hp) in Hf.
    inversion Hf; subst. split; assumption.
  - revert Hf. unfold Scanner.scan_file.
    destruct (getmtime fs q) as [mq|]; [|discriminate].
    destruct (file_exists db q mq).
    + intros H; inversion H; subst. split; assumption.
    + pose proof (detect_files processor (add_file db q (calculate_hash fs q) mq) q) as Hd.
      destruct (detect processor (add_file db q (calculate_hash fs q) mq) q) as [ev' d2].
      cbn [snd] in Hd. intros H; inversion H; subst. split.
      * rewrite Hd. apply in_files_add_file_other; [|exact Hin].
        cbn [file_path]. congruence.
      * rewrite (select_mtime_files _ _ _ Hd).
        rewrite select_mtime_add_file_other by congruence. exact Hs.
Qed.

Lemma scan_loop_keeps_blank (total : nat) (todo : list string) (p : string) (m : Z) :
  getmtime fs p = Some m ->
  forall idx k db,
    blank_row p m db -> blank_row p m (loop_db (scan_loop total todo idx k db)).
Proof.
  intros Hm. induction todo as [|q rest IH]; intros idx k db Hb; [exact Hb|].
  rewrite scan_loop_cons. cbv zeta.
  destruct (poll abort_check idx) as [ev2 stop]. destruct stop; [exact Hb|].
  destruct (scan_file db q) as [ev3 [db'|]] eqn:Hf; [|exact Hb].
  cbn [loop_db]. apply IH. eapply scan_file_keeps_blank; eassumption.
Qed.

Lemma scan_file_read_failure (db db' : Db) (p : string) (m : Z) (ev : list event) :
  md5_hexdigest fs p = None -> getmtime fs p = Some m ->
  scan_file db p = (ev, Some db') -> In (ReadFile p) ev -> blank_row p m db'.
Proof.
  intros Hmd Hm. unfold Scanner.scan_file. rewrite Hm.
  destruct (file_exists db p m).
  - intros H; inversion H; subst. intros [H1|[]]. discriminate.
  - unfold calculate_hash. rewrite Hmd.
    pose proof (detect_files processor (add_file db p "" m) p) as Hd.
    destruct (detect processor (add_file db p "" m) p) as [ev' d2].
    cbn [snd] in Hd. intros H; inversion H; subst. intros _. split.
    + rewrite Hd. unfold add_file. cbn [files]. apply in_or_app. right.
      left. reflexivity.
    + rewrite (select_mtime_files _ _ _ Hd). apply select_mtime_add_file.
Qed.

Lemma scan_file_failure_no_read (db : Db) (p q : string) (ev : list event) :
  scan_file db q = (ev, None) -> ~ In (ReadFile p) ev.
Proof.
  unfold Scanner.scan_file. destruct (getmtime fs q) as [mq|].
  - destruct (file_exists db q mq); [discriminate|].
    destruct (detect processor _ q). discriminate.
  - intros H; inversion H; subst. intros [H1|[]]. discriminate.
Qed.

Lemma read_failure_leaves_blank_row (total : nat) (todo : list string)
      (p : string) (m : Z) :
  md5_hexdigest fs p = None -> getmtime fs p = Some m ->
  forall idx k db,
    In (ReadFile p) (loop_trace (scan_loop total todo idx k db)) ->
    blank_row p m (loop_db (scan_loop total todo idx k db)).
Proof.
  intros Hmd Hm. induction todo as [|q rest IH]; intros idx k db Hin.
  - destruct Hin.
  - revert Hin. rewrite scan_loop_cons. cbv zeta.
    pose proof (poll_events idx) as Hpe.
    destruct (poll abort_check idx) as [ev2 stop]. cbn [fst snd] in Hpe.
    assert (Hhead : In (ReadFile p)
                       (on_progress progress_callback k total (Paths.basename q))
                    \/ In (ReadFile p) ev2 -> False).
    { intros [H|H]; [apply on_progress_events in H|apply Hpe in H]; discriminate. }
    destruct stop.
    + cbn [loop_trace]. intros H. apply in_app_or in H. tauto.
    + pose proof (scan_file_events fs processor db q) as Hev.
      destruct (scan_file db q) as [ev3 [db'|]] eqn:Hf; cbn [fst] in Hev;
        cbn [loop_trace loop_db]; intros H;
        apply in_app_or in H; destruct H as [H|H]; try tauto;
        apply in_app_or in H; destruct H as [H|H]; try tauto.
      * apply in_app_or in H; destruct H as [H|H].
        -- pose proof (Hev _ H) as Hq. cbn in Hq. assert (q = p) by congruence.
           subst q. apply scan_loop_keeps_blank; [exact Hm|].
           eapply scan_file_read_failure; eassumption.
        -- apply IH. exact H.
      * exfalso. eapply scan_file_failure_no_read; eassumption.
Qed.

End Facts.

End LoopFacts.

(** ** The completion marker is not a file name *)

Module MarkerFacts.
Import Paths Scanner.
Local Open Scope string_scope.

Lemma lower_ascii_slash (c : ascii) :
  Ascii.eqb "/" (lower_ascii c) = Ascii.eqb "/" c.
Proof.
  destruct c as [[] [] [] [] [] [] [] []]; reflexivity.
Qed.

Lemma has_slash_lower (s : string) : has_char "/" (lower s) = has_char "/" s.
Proof.
  induction s as [|c r IH]; [reflexivity|].
  cbn [lower has_char]. rewrite lower_ascii_slash, IH. reflexivity.
Qed.

Lemma has_char_append (c : ascii) (a t : string) :
  has_char c (a ++ t) = orb (has_char c a) (has_char c t).
Proof.
  induction a as [|d r IH]; [reflexivity|].
  cbn [append has_char]. rewrite IH. destruct (Ascii.eqb c d); reflexivity.
Qed.

(** [from_last_dot] cuts a string in two; the second part, when it is not
    empty, starts at a dot. *)
Lemma from_last_dot_cut (s : string) :
  from_last_dot s = EmptyString \/
  (exists pre, s = pre ++ from_last_dot s) /\ has_char "." (from_last_dot s) = true.
Proof.
  induction s as [|c r IH]; [left; reflexivity|].
  cbn [from_last_dot]. destruct (has_char "." r) eqn:Hdot.
  - destruct IH as [IH|[[pre Hpre] Hd]]; [left; exact IH|].
    right. split; [|exact Hd]. exists (String c pre).
    cbn [append]. rewrite <- Hpre. reflexivity.
  - destruct (Ascii.eqb c ".") eqn:Hc; [|left; reflexivity].
    right. split; [exists EmptyString; reflexivity|].
    cbn [has_char]. rewrite Ascii.eqb_sym, Hc. reflexivity.
Qed.

Lemma basename_append (a t : string) :
  has_char "/" t = false -> basename (a ++ t) = basename a ++ t.
Proof.
  intros Ht. induction a as [|c r IH].
  - cbn [append basename]. destruct t as [|d t']; [reflexivity|].
    cbn [basename]. cbn [has_char] in Ht.
    destruct (Ascii.eqb "/" d) eqn:Hd; [discriminate|]. rewrite Ht.
    rewrite Ascii.eqb_sym, Hd. reflexivity.
  - cbn [append basename]. rewrite has_char_append, Ht, orb_false_r.
    destruct (has_char "/" r); [exact IH|].
    destruct (Ascii.eqb c "/"); reflexivity.
Qed.

Lemma append_assoc (a b c : string) : (a ++ b) ++ c = a ++ (b ++ c).
Proof. induction a as [|x a IH]; [reflexivity|]. cbn [append]. rewrite IH. reflexivity. Qed.

Lemma join_append (d f : string) : exists a, join d f = a ++ f.
Proof.
  unfold join. destruct d as [|c r]; [exists EmptyString; reflexivity|].
  destruct (ends_with_slash (String c r)).
  - exists (String c r). reflexivity.
  - exists (String c r ++ "/"). rewrite append_assoc. reflexivity.
Qed.

Lemma image_suffix (f : string) :
  is_image f = true ->
  suffix f <> EmptyString /\ has_char "/" (suffix f) = false.
Proof.
  unfold is_image, mem_string, VALID_EXTENSIONS. intros H.
  rewrite <- has_slash_lower.
  cbn [existsb] in H. rewrite !orb_true_iff in H.
  destruct H as [H|[H|[H|[H|[H|[H|H]]]]]]; try discriminate;
    apply String.eqb_eq in H; rewrite H; split; try reflexivity;
    intros Hs; rewrite Hs in H; discriminate.
Qed.

(** The base name of an enumerated image has a dot in it. *)
Lemma image_basename_has_dot (d f : string) :
  is_image f = true -> has_char "." (basename (join d f)) = true.
Proof.
  intros Him. destruct (image_suffix f Him) as [Hne Hslash].
  destruct f as [|c r]; [contradiction Hne; reflexivity|].
  unfold suffix in Hne, Hslash.
  destruct (from_last_dot_cut r) as [Hcut|[[pre Hpre] Hdot]].
  { rewrite Hcut in Hne. contradiction Hne. reflexivity. }
  destruct (String.eqb (from_last_dot r) ".") eqn:Hone;
    [contradiction Hne; reflexivity|].
  destruct (join_append d (String c r)) as [a Ha].
  rewrite Ha, Hpre.
  change (String c (pre ++ from_last_dot r)) with (String c pre ++ from_last_dot r).
  rewrite <- append_assoc, basename_append by exact Hslash.
  rewrite has_char_append, Hdot. apply orb_true_r.
Qed.

Lemma image_files_not_marker (fs : FileSystem) (root p : string) :
  In p (image_files fs root) -> basename p <> "Complete".
Proof.
  unfold image_files. intros Hin. apply in_flat_map in Hin.
  destruct Hin as [[d fs'] [_ Hin]]. cbn [fst snd] in Hin.
  apply in_map_iff in Hin. destruct Hin as [f [<- Hf]].
  apply filter_In in Hf. destruct Hf as [_ Him].
  intros Heq. pose proof (image_basename_has_dot d f Him) as Hdot.
  rewrite Heq in Hdot. discriminate.
Qed.

Section Facts.

Variable fs : FileSystem.
Variable processor : option (string -> option (list Detection)).
Variable progress_callback : bool.
Variable abort_check : option (nat -> bool).

(** The progress events of the loop name the files of the list. *)
Lemma loop_progress_names (total : nat) (todo : list string) :
  forall idx k db c t f,
    In (Progress c t f)
       (loop_trace (scan_loop fs processor progress_callback abort_check
                              total todo idx k db)) ->
    exists p, In p todo /\ f = basename p.
Proof.
  induction todo as [|p rest IH]; intros idx k db c t f Hin; [destruct Hin|].
  revert Hin. rewrite ScannerFacts.scan_loop_cons. cbv zeta.
  pose proof (LoopFacts.poll_events abort_check idx) as Hpe.
  destruct (poll abort_check idx) as [ev2 stop]. cbn [fst snd] in Hpe.
  assert (Hhead : In (Progress c t f)
                     (on_progress progress_callback k total (basename p))
                  \/ In (Progress c t f) ev2 ->
                  exists q, In q (p :: rest) /\ f = basename q).
  { intros [H|H].
    - apply LoopFacts.on_progress_events in H. injection H as _ _ ->.
      exists p. split; [left; reflexivity|reflexivity].
    - apply Hpe in H. discriminate. }
  destruct stop.
  - cbn [loop_trace]. intros H. apply in_app_or in H. auto.
  - pose proof (TraceFacts.scan_file_events fs processor db p) as Hev.
    destruct (scan_file fs processor db p) as [ev3 [db'|]]; cbn [fst] in Hev;
      cbn [loop_trace]; intros H;
      apply in_app_or in H; destruct H as [H|H]; auto;
      apply in_app_or in H; destruct H as [H|H]; auto.
    + apply in_app_or in H. destruct H as [H|H].
      * apply Hev in H. discriminate.
      * destruct (IH _ _ _ _ _ _ H) as [q [Hq Hf]]. exists q. split; [right|]; assumption.
    + apply Hev in H. discriminate.
Qed.

(** In the trace of a scan that returned, the completion marker appears in
    the last event only. *)
Lemma completion_marker_once (root : string) (db : Db) :
  path_exists fs root = true ->
  let todo := image_files fs root in
  let lp := scan_loop fs processor progress_callback abort_check
                      (List.length todo) todo 0 0 db in
  forall c t, ~ In (Progress c t "Complete") (loop_trace lp).
Proof.
  intros _ todo lp c t Hin.
  destruct (loop_progress_names _ _ _ _ _ _ _ _ Hin) as [p [Hp Hf]].
  apply (image_files_not_marker fs root p Hp). symmetry. exact Hf.
Qed.

End Facts.

End MarkerFacts.

(** ** [scan_directory] by cases on the root *)

Module DirectoryFacts.
Import Scanner.
Local Open Scope list_scope.

Lemma scan_directory_missing_root (fs : FileSystem)
      (processor : option (string -> option (list Detection)))
      (cb : bool) (abort_check : option (nat -> bool)) (root : string) (db : Db) :
  path_exists fs root = false ->
  scan_directory fs processor cb abort_check root db = mkScan [] db Returned.
Proof. intros H. unfold scan_directory. rewrite H. reflexivity. Qed.

Lemma scan_directory_existing_root (fs : FileSystem)
      (processor : option (string -> option (list Detection)))
      (cb : bool) (abort_check : option (nat -> bool)) (root : string) (db : Db) :
  path_exists fs root = true ->
  let todo := image_files fs root in
  let lp := scan_loop fs processor cb abort_check (List.length todo) todo 0 0 db in
  scan_directory fs processor cb abort_check root db =
  match loop_exit lp with
  | Failed => mkScan (loop_trace lp) (loop_db lp) Raised
  | _ => mkScan (loop_trace lp
                   ++ on_progress cb (loop_processed lp) (List.length todo) "Complete")
                (loop_db lp) Returned
  end.
Proof. intros H. unfold scan_directory. rewrite H. reflexivity. Qed.

End DirectoryFacts.

(** ** Merging persons *)

Module MergeFacts.
Import Database.
Local Open Scope list_scope.

Lemma opt_Z_eqb_eq (a : option Z) (b : Z) : opt_Z_eqb a b = true <-> a = Some b.
Proof.
  destruct a as [x|]; simpl.
  - rewrite Z.eqb_eq. split; congruence.
  - split; discriminate.
Qed.

Lemma moved_not_merge (keep merge : Z) (f : FaceRow) :
  keep <> merge -> face_person (moved keep merge f) <> Some merge.
Proof.
  intros Hne. unfold moved. destruct (opt_Z_eqb (face_person f) merge) eqn:E.
  - simpl. congruence.
  - intros H. apply opt_Z_eqb_eq in H. congruence.
Qed.

Lemma count_moved (keep merge : Z) (l : list FaceRow) :
  keep <> merge ->
  List.length (filter (fun f => opt_Z_eqb (face_person f) keep) (map (moved keep merge) l))
  = List.length (filter (fun f => opt_Z_eqb (face_person f) keep) l)
    + List.length (filter (fun f => opt_Z_eqb (face_person f) merge) l).
Proof.
  intros Hne. induction l as [|f l IH]; [reflexivity|].
  cbn [map filter]. unfold moved at 1.
  destruct (opt_Z_eqb (face_person f) merge) eqn:Em.
  - assert (Ek : opt_Z_eqb (face_person f) keep = false).
    { apply opt_Z_eqb_eq in Em. rewrite Em. simpl. apply Z.eqb_neq. congruence. }
    rewrite Ek. cbn [set_face_person face_person opt_Z_eqb].
    rewrite Z.eqb_refl. cbn [List.length]. rewrite IH. lia.
  - destruct (opt_Z_eqb (face_person f) keep); cbn [List.length]; rewrite IH; lia.
Qed.

Lemma person_removed (merge : Z) (l : list PersonRow) :
  existsb (fun p => Z.eqb (person_id p) merge)
          (filter (fun p => negb (Z.eqb (person_id p) merge)) l) = false.
Proof.
  induction l as [|p l IH]; [reflexivity|]. cbn [filter].
  destruct (Z.eqb (person_id p) merge) eqn:E; cbn [negb]; [exact IH|].
  cbn [existsb]. rewrite E. exact IH.
Qed.

Lemma merge_persons_faces (db : Db) (keep merge : Z) :
  faces (merge_persons db keep merge) = map (moved keep merge) (faces db).
Proof. reflexivity. Qed.

Lemma merge_persons_observable_states (db : Db) (keep merge : Z) :
  merge_persons_observable db keep merge
  = [db; db; db; merge_persons db keep merge].
Proof. reflexivity. Qed.

(** Merging a person with itself moves no face and deletes the person. *)
Lemma merge_with_itself (db : Db) (k : Z) :
  faces (merge_persons db k k) = faces db /\
  person_exists (merge_persons db k k) k = false.
Proof.
  split.
  - rewrite merge_persons_faces. rewrite <- (map_id (faces db)) at 2.
    apply map_ext. intros f. unfold moved.
    destruct (opt_Z_eqb (face_person f) k) eqn:E; [|reflexivity].
    apply opt_Z_eqb_eq in E. destruct f as [i fl e b t p]. simpl in *.
    unfold set_face_person. simpl. congruence.
  - unfold person_exists, merge_persons, delete_person, with_persons.
    cbn [persons]. apply person_removed.
Qed.

End MergeFacts.

(** ** The action of a command *)

Module SessionFacts.
Import Session Required.

Lemma action_is_eq (cmd : Command) (a : string) :
  action_is cmd a = true -> cmd_action cmd = Some a.
Proof.
  unfold action_is. destruct (cmd_action cmd) as [x|]; [|discriminate].
  intros H. apply String.eqb_eq in H. congruence.
Qed.

(** Once the action is known, every test of the chain is a comparison of
    two literals. *)
Lemma action_is_known (cmd : Command) (a : string) :
  action_is cmd a = true -> forall b, action_is cmd b = String.eqb a b.
Proof.
  intros H b. apply action_is_eq in H. unfold action_is. rewrite H. reflexivity.
Qed.

(** A line that is not JSON prints nothing and the loop goes on: a PING
    after it is answered. *)
Lemma malformed_line_then_ping (E : Type) (loads : string -> option E)
      (near : E -> E -> bool) (fits : list E -> bool)
      (rmtree : string -> removal)
      (providers : option (list string)) (w : World) :
  main E loads near fits rmtree providers
       [Malformed; Parsed (mkCommand (Some "PING") None None None None None None)] w
  = (w, [RPong], []).
Proof. reflexivity. Qed.

End SessionFacts.

(** ** Collecting ids and embeddings *)

Module ClustererFacts.
Import Clusterer.
Local Open Scope list_scope.

Section Facts.

Variable E : Type.
Variable loads : string -> option E.

(** Every row contributes its id, parsed or not. *)
Lemma collect_face_ids (rows : list (Z * cell)) :
  fst (collect E loads rows) = map fst rows.
Proof.
  induction rows as [|r rows IH]; [reflexivity|].
  simpl. destruct (collect E loads rows) as [ids embs]. simpl in IH.
  destruct (parse E loads (snd r)); simpl; rewrite IH; reflexivity.
Qed.

(** Only the rows that parse contribute an embedding. *)
Lemma collect_embeddings (rows : list (Z * cell)) :
  snd (collect E loads rows)
  = flat_map (fun r => match parse E loads (snd r) with
                       | Some emb => [emb]
                       | None => []
                       end) rows.
Proof.
  induction rows as [|r rows IH]; [reflexivity|].
  simpl. destruct (collect E loads rows) as [ids embs]. simpl in IH.
  destruct (parse E loads (snd r)); simpl; rewrite IH; reflexivity.
Qed.

(** After a row that does not parse, ids and embeddings are out of step:
    the embedding at position [i] belongs to a later row than the id at
    position [i]. *)
Lemma collect_lengths (rows : list (Z * cell)) :
  List.length (snd (collect E loads rows)) <= List.length (fst (collect E loads rows)).
Proof.
  induction rows as [|r rows IH]; [simpl; lia|].
  simpl. destruct (collect E loads rows) as [ids embs]. simpl in IH.
  destruct (parse E loads (snd r)); simpl; lia.
Qed.

End Facts.

End ClustererFacts.

(** ** Ids and embeddings, row by row *)

Module AlignmentFacts.
Import Clusterer.
Local Open Scope list_scope.

Section Facts.

Variable E : Type.
Variable loads : string -> option E.

(** When every row parses, ids and embeddings pair up row by row. *)
Lemma collect_aligned (rows : list (Z * cell)) :
  (forall r, In r rows -> parse E loads (snd r) <> None) ->
  map (fun r => (fst r, parse E loads (snd r))) rows
  = combine (fst (collect E loads rows)) (map Some (snd (collect E loads rows))).
Proof.
  induction rows as [|r rows IH]; intros Hall; [reflexivity|].
  cbn [map collect].
  specialize (IH (fun x Hx => Hall x (or_intror Hx))).
  destruct (collect E loads rows) as [ids embs]. cbn [fst snd] in IH.
  pose proof (Hall r (or_introl eq_refl)) as Hr.
  destruct (parse E loads (snd r)) as [e|]; [|contradiction].
  cbn [fst snd map combine]. rewrite IH. reflexivity.
Qed.

(** One row that does not parse at the head shifts every id by one place
    against the embeddings. *)
Lemma collect_shifted (r : Z * cell) (rows : list (Z * cell)) :
  parse E loads (snd r) = None ->
  collect E loads (r :: rows)
  = (fst r :: fst (collect E loads rows), snd (collect E loads rows)).
Proof.
  intros Hr. cbn [collect]. destruct (collect E loads rows) as [ids embs].
  rewrite Hr. reflexivity.
Qed.

End Facts.

End AlignmentFacts.

(** ** DBSCAN runs to its end on the fuel it is given *)

Module DbscanFacts.
Import Clusterer.
Local Open Scope list_scope.

Section Facts.

Variable E : Type.
Variable near : E -> E -> bool.

Lemma set_label_length (i : nat) (v : Z) (labels : list Z) :
  List.length (set_label i v labels) = List.length labels.
Proof.
  revert i. induction labels as [|x r IH]; intros i; [destruct i; reflexivity|].
  destruct i; simpl; [reflexivity|]. rewrite IH. reflexivity.
Qed.

Lemma set_label_outside (i : nat) (v : Z) (labels : list Z) :
  List.length labels <= i -> set_label i v labels = labels.
Proof.
  revert i. induction labels as [|x r IH]; intros i Hi; [destruct i; reflexivity|].
  destruct i; simpl in *; [lia|]. rewrite IH by lia. reflexivity.
Qed.

Lemma set_label_noise_count (i : nat) (v : Z) (labels : list Z) :
  v <> noise -> unlabelled labels i = true -> i < List.length labels ->
  S (noise_count (set_label i v labels)) = noise_count labels.
Proof.
  intros Hv. unfold unlabelled, noise_count.
  revert i. induction labels as [|x r IH]; intros i Hu Hi; [simpl in Hi; lia|].
  destruct i; simpl in *.
  - rewrite Hu. apply Z.eqb_neq in Hv. rewrite Hv. reflexivity.
  - destruct (Z.eqb x noise); simpl; rewrite <- (IH i Hu) by lia; reflexivity.
Qed.

Lemma push_unlabelled_length (labels : list Z) (neighb stack : list nat) :
  List.length (push_unlabelled labels neighb stack)
  <= List.length neighb + List.length stack.
Proof.
  revert stack. induction neighb as [|v r IH]; intros stack; [simpl; lia|].
  simpl. specialize (IH (if unlabelled labels v then v :: stack else stack)).
  destruct (unlabelled labels v); simpl in IH; lia.
Qed.

Lemma find_indices_length (f : E -> bool) (l : list E) (j : nat) :
  List.length (find_indices E f l j) <= List.length l.
Proof.
  revert j. induction l as [|y r IH]; intros j; [simpl; lia|].
  simpl. specialize (IH (S j)). destruct (f y); simpl; lia.
Qed.

Lemma neighborhood_length (X : list E) (i : nat) :
  List.length (nth i (neighborhoods E near X) []) <= List.length X.
Proof.
  unfold neighborhoods.
  destruct (Nat.lt_ge_cases i (List.length (map (fun x => find_indices E (near x) X 0) X)))
    as [Hi|Hi].
  - pose proof (nth_In _ (@nil nat) Hi) as Hin.
    apply in_map_iff in Hin. destruct Hin as [x [Hx _]]. rewrite <- Hx.
    apply find_indices_length.
  - rewrite nth_overflow by exact Hi. simpl. lia.
Qed.

Lemma core_samples_length (X : list E) :
  List.length (core_samples E near X) = List.length X.
Proof. unfold core_samples, neighborhoods. rewrite !length_map. reflexivity. Qed.

Lemma core_in_range (X : list E) (i : nat) :
  nth i (core_samples E near X) false = true -> i < List.length X.
Proof.
  intros H. destruct (Nat.lt_ge_cases i (List.length X)) as [Hi|Hi]; [exact Hi|].
  rewrite nth_overflow in H by (rewrite core_samples_length; exact Hi). discriminate.
Qed.

Variable X : list E.

Local Abbreviation n := (List.length X).
Local Abbreviation nbs := (neighborhoods E near X).
Local Abbreviation core := (core_samples E near X).

(** One expansion ends within [noise_count * (n + 1) + |stack| + 1] steps
    and keeps the number of labels. *)
Lemma expand_ends (label_num : Z) :
  label_num <> noise ->
  forall fuel i stack labels,
    List.length labels = n ->
    noise_count labels * S n + List.length stack < fuel ->
    exists labels',
      expand fuel nbs core label_num i stack labels = Some labels' /\
      List.length labels' = n.
Proof.
  intros Hlab. induction fuel as [|fuel IH]; intros i stack labels Hlen Hfuel; [lia|].
  cbn [expand]. unfold visit.
  destruct (unlabelled labels i) eqn:Hu.
  - destruct (nth i core false) eqn:Hc.
    + pose proof (core_in_range X i Hc) as Hi.
      pose proof (set_label_noise_count i label_num labels Hlab Hu
                    ltac:(rewrite Hlen; exact Hi)) as Hcount.
      pose proof (push_unlabelled_length (set_label i label_num labels)
                    (nth i nbs []) stack) as Hpush.
      pose proof (neighborhood_length X i) as Hnb.
      destruct (push_unlabelled (set_label i label_num labels) (nth i nbs []) stack)
        as [|j st] eqn:Hst.
      * eexists. split; [reflexivity|]. rewrite set_label_length. exact Hlen.
      * apply IH; [rewrite set_label_length; exact Hlen|].
        simpl in Hpush. nia.
    + assert (Hcount : noise_count (set_label i label_num labels)
                       <= noise_count labels).
      { destruct (Nat.lt_ge_cases i (List.length labels)) as [Hi|Hi].
        - pose proof (set_label_noise_count i label_num labels Hlab Hu Hi). lia.
        - rewrite set_label_outside by exact Hi. lia. }
      destruct stack as [|j st].
      * eexists. split; [reflexivity|]. rewrite set_label_length. exact Hlen.
      * apply IH; [rewrite set_label_length; exact Hlen|]. simpl in Hfuel. nia.
  - destruct stack as [|j st].
    + eexists. split; [reflexivity|exact Hlen].
    + apply IH; [exact Hlen|]. simpl in Hfuel. lia.
Qed.

Lemma noise_count_bound (labels : list Z) :
  noise_count labels <= List.length labels.
Proof. unfold noise_count. apply filter_length_le. Qed.

Lemma dbscan_inner_ends (todo : list nat) :
  forall label_num labels,
    (0 <= label_num)%Z ->
    List.length labels = n ->
    exists labels',
      dbscan_inner (dbscan_fuel E X) nbs core todo label_num labels = Some labels' /\
      List.length labels' = n.
Proof.
  induction todo as [|i rest IH]; intros label_num labels Hpos Hlen.
  - eexists. split; [reflexivity|exact Hlen].
  - cbn [dbscan_inner].
    destruct (orb (negb (unlabelled labels i)) (negb (nth i core false))).
    + apply IH; assumption.
    + assert (Hne : label_num <> noise) by (unfold noise; lia).
      pose proof (noise_count_bound labels) as Hb.
      destruct (expand_ends label_num Hne (dbscan_fuel E X) i [] labels Hlen)
        as [labels' [Hex Hlen']].
      { unfold dbscan_fuel. simpl. rewrite Hlen in Hb. nia. }
      rewrite Hex. apply IH; [lia|exact Hlen'].
Qed.

(** The fuel of [dbscan_run] is enough: the run ends with one label per
    point. *)
Lemma dbscan_run_ends :
  exists labels, dbscan_run E near X = Some labels /\ List.length labels = n.
Proof.
  unfold dbscan_run. apply dbscan_inner_ends; [lia|apply repeat_length].
Qed.

Lemma dbscan_labels :
  dbscan_run E near X = Some (dbscan E near X) /\
  List.length (dbscan E near X) = n.
Proof.
  destruct dbscan_run_ends as [labels [Hrun Hlen]].
  unfold dbscan. rewrite Hrun. split; [reflexivity|exact Hlen].
Qed.

End Facts.

End DbscanFacts.

(** ** Neighbourhoods and core points *)

Module DensityFacts.
Import Clusterer Density DbscanFacts.
Local Open Scope list_scope.

Section Facts.

Variable E : Type.
Variable near : E -> E -> bool.
Variable X : list E.

Local Abbreviation n := (List.length X).
Local Abbreviation nbs := (neighborhoods E near X).
Local Abbreviation core := (core_samples E near X).
Local Abbreviation neighbour := (neighbour E near X).

Lemma find_indices_in (f : E -> bool) (l : list E) :
  forall k j,
    In j (find_indices E f l k) <->
    k <= j /\ exists y, nth_error l (j - k) = Some y /\ f y = true.
Proof.
  induction l as [|y r IH]; intros k j.
  - simpl. split; [tauto|]. intros [_ [y [H _]]]. destruct (j - k); discriminate.
  - cbn [find_indices].
    assert (Htail : In j (find_indices E f r (S k)) <->
                    S k <= j /\ exists z, nth_error (y :: r) (j - k) = Some z /\ f z = true).
    { rewrite IH. split.
      - intros [Hle [z [Hz Hf]]]. split; [exact Hle|]. exists z. split; [|exact Hf].
        replace (j - k) with (S (j - S k)) by lia. exact Hz.
      - intros [Hle [z [Hz Hf]]]. split; [exact Hle|]. exists z. split; [|exact Hf].
        replace (j - k) with (S (j - S k)) in Hz by lia. exact Hz. }
    destruct (f y) eqn:Hy.
    + cbn [In]. rewrite Htail. split.
      * intros [<-|[Hle H]]; [|split; [lia|exact H]].
        split; [lia|]. exists y. rewrite Nat.sub_diag. split; [reflexivity|exact Hy].
      * intros [Hle [z [Hz Hf]]]. destruct (Nat.eq_dec k j) as [->|Hne]; [left; reflexivity|].
        right. split; [lia|]. exists z. split; assumption.
    + rewrite Htail. split.
      * intros [Hle H]. split; [lia|exact H].
      * intros [Hle [z [Hz Hf]]]. split; [|exists z; split; assumption].
        destruct (Nat.eq_dec k j) as [->|Hne]; [|lia].
        rewrite Nat.sub_diag in Hz. simpl in Hz. congruence.
Qed.

Lemma find_indices_nodup (f : E -> bool) (l : list E) :
  forall k, NoDup (find_indices E f l k).
Proof.
  induction l as [|y r IH]; intros k; [constructor|].
  cbn [find_indices]. destruct (f y); [|apply IH].
  constructor; [|apply IH].
  intros H. apply find_indices_in in H. lia.
Qed.

Lemma neighborhood_nth (a : nat) (xa : E) :
  nth_error X a = Some xa ->
  nth a nbs [] = find_indices E (near xa) X 0.
Proof.
  intros Ha. unfold neighborhoods.
  apply nth_error_nth.
  rewrite nth_error_map, Ha. reflexivity.
Qed.

Lemma neighborhood_in (a b : nat) : In b (nth a nbs []) <-> neighbour a b.
Proof.
  unfold Density.neighbour. destruct (nth_error X a) as [xa|] eqn:Ha.
  - rewrite (neighborhood_nth a xa Ha), find_indices_in, Nat.sub_0_r. split.
    + intros [_ [y [Hy Hf]]]. exists xa, y. repeat split; assumption.
    + intros [xa' [xb [Hxa [Hxb Hf]]]]. split; [lia|]. exists xb.
      split; [exact Hxb|]. congruence.
  - rewrite nth_overflow.
    + split; [intros []|]. intros [xa [xb [Hxa _]]]. discriminate.
    + unfold neighborhoods. rewrite length_map. apply nth_error_None. exact Ha.
Qed.

Lemma neighborhood_nodup (a : nat) : NoDup (nth a nbs []).
Proof.
  destruct (nth_error X a) as [xa|] eqn:Ha.
  - rewrite (neighborhood_nth a xa Ha). apply find_indices_nodup.
  - rewrite nth_overflow; [constructor|].
    unfold neighborhoods. rewrite length_map. apply nth_error_None. exact Ha.
Qed.

Lemma core_nth (a : nat) :
  nth a core false = true <-> a < n /\ 2 <= List.length (nth a nbs []).
Proof.
  unfold core_samples. split.
  - intros H. assert (Ha : a < n).
    { destruct (Nat.lt_ge_cases a n) as [Ha|Ha]; [exact Ha|].
      rewrite nth_overflow in H; [discriminate|].
      rewrite length_map. unfold neighborhoods. rewrite length_map. exact Ha. }
    split; [exact Ha|].
    assert (Hlen : a < List.length nbs)
      by (unfold neighborhoods; rewrite length_map; exact Ha).
    rewrite (nth_indep _ false ((min_samples <=? List.length (@nil nat))%nat)) in H
      by (rewrite length_map; exact Hlen).
    rewrite (map_nth (fun nb => (min_samples <=? List.length nb)%nat)) in H.
    apply Nat.leb_le in H. exact H.
  - intros [Ha Hlen].
    assert (Hlen' : a < List.length nbs)
      by (unfold neighborhoods; rewrite length_map; exact Ha).
    rewrite (nth_indep _ false ((min_samples <=? List.length (@nil nat))%nat))
      by (rewrite length_map; exact Hlen').
    rewrite (map_nth (fun nb => (min_samples <=? List.length nb)%nat)).
    apply Nat.leb_le. exact Hlen.
Qed.

Lemma neighbour_in_range (a b : nat) : neighbour a b -> a < n /\ b < n.
Proof.
  intros [xa [xb [Ha [Hb _]]]]. split; apply nth_error_Some; congruence.
Qed.

Lemma two_in_nodup (l : list nat) (a b : nat) :
  NoDup l -> In a l -> In b l -> a <> b -> 2 <= List.length l.
Proof.
  intros Hnd Ha Hb Hne. destruct l as [|x [|y l]]; simpl in *.
  - tauto.
  - destruct Ha as [<-|[]], Hb as [<-|[]]. congruence.
  - lia.
Qed.

Lemma another_in_two (l : list nat) (a : nat) :
  NoDup l -> 2 <= List.length l -> exists b, In b l /\ b <> a.
Proof.
  intros Hnd Hlen. destruct l as [|x [|y l]]; simpl in Hlen; try lia.
  inversion Hnd as [|? ? Hx _]; subst.
  destruct (Nat.eq_dec x a) as [->|Hxa].
  - exists y. split; [right; left; reflexivity|].
    intros ->. apply Hx. left. reflexivity.
  - exists x. split; [left; reflexivity|exact Hxa].
Qed.

Hypothesis near_refl : forall x, near x x = true.
Hypothesis near_sym : forall x y, near x y = near y x.

Lemma neighbour_refl (a : nat) : a < n -> neighbour a a.
Proof.
  intros Ha. destruct (nth_error X a) as [xa|] eqn:Hx.
  - exists xa, xa. repeat split; try assumption. apply near_refl.
  - apply nth_error_None in Hx. lia.
Qed.

Lemma neighbour_sym (a b : nat) : neighbour a b -> neighbour b a.
Proof.
  intros [xa [xb [Ha [Hb Hf]]]]. exists xb, xa. repeat split; try assumption.
  rewrite near_sym. exact Hf.
Qed.

(** With [min_samples = 2], a point with a neighbour other than itself is
    a core point, and so is that neighbour. *)
Lemma neighbour_is_core (a b : nat) :
  neighbour a b -> a <> b -> nth b core false = true.
Proof.
  intros Hab Hne. destruct (neighbour_in_range a b Hab) as [Ha Hb].
  apply core_nth. split; [exact Hb|].
  apply (two_in_nodup _ a b (neighborhood_nodup b)).
  - apply neighborhood_in. apply neighbour_sym. exact Hab.
  - apply neighborhood_in. apply neighbour_refl. exact Hb.
  - exact Hne.
Qed.

Lemma core_has_other_neighbour (a : nat) :
  nth a core false = true -> exists b, neighbour a b /\ b <> a.
Proof.
  intros H. apply core_nth in H. destruct H as [_ Hlen].
  destruct (another_in_two _ a (neighborhood_nodup a) Hlen) as [b [Hb Hne]].
  exists b. split; [apply neighborhood_in; exact Hb|exact Hne].
Qed.

End Facts.

End DensityFacts.

(** ** The clusters of DBSCAN have at least two points *)

Module ExpansionFacts.
Import Clusterer Density DbscanFacts DensityFacts.
Local Open Scope list_scope.

Lemma nth_set_label_same (i : nat) (v d : Z) (labels : list Z) :
  i < List.length labels -> nth i (set_label i v labels) d = v.
Proof.
  revert i. induction labels as [|x r IH]; intros i Hi; [simpl in Hi; lia|].
  destruct i; simpl in *; [reflexivity|]. apply IH. lia.
Qed.

Lemma nth_set_label_other (i k : nat) (v d : Z) (labels : list Z) :
  k <> i -> nth k (set_label i v labels) d = nth k labels d.
Proof.
  revert i k. induction labels as [|x r IH]; intros i k Hne.
  - destruct i; reflexivity.
  - destruct i, k; simpl; try reflexivity; try congruence.
    apply IH. congruence.
Qed.

Lemma push_unlabelled_in (labels : list Z) (neighb stack : list nat) (b : nat) :
  In b (push_unlabelled labels neighb stack) <->
  In b stack \/ (In b neighb /\ unlabelled labels b = true).
Proof.
  revert stack. induction neighb as [|v r IH]; intros stack.
  - simpl. tauto.
  - cbn [push_unlabelled]. rewrite IH. destruct (unlabelled labels v) eqn:Hv; simpl.
    + split.
      * intros [[<-|H]|[H1 H2]]; auto.
      * intros [H|[[<-|H1] H2]]; auto.
    + split.
      * intros [H|[H1 H2]]; auto.
      * intros [H|[[<-|H1] H2]]; auto. congruence.
Qed.

Lemma nth_repeat_noise (k m : nat) : nth k (repeat noise m) noise = noise.
Proof.
  revert k. induction m as [|m IH]; intros k; destruct k; simpl; auto.
Qed.

Section Facts.

Variable E : Type.
Variable near : E -> E -> bool.
Variable X : list E.

Local Abbreviation n := (List.length X).
Local Abbreviation nbs := (neighborhoods E near X).
Local Abbreviation core := (core_samples E near X).
Local Abbreviation neighbour := (neighbour E near X).
Local Abbreviation closed_upto := (closed_upto E near X).

Lemma unlabelled_iff (labels : list Z) (k : nat) :
  unlabelled labels k = false <-> labelled labels k.
Proof.
  unfold unlabelled, labelled. rewrite Z.eqb_neq. tauto.
Qed.

(** What one visit does to the labels and to the closure. *)
Lemma visit_spec (c : Z) (i : nat) (stack : list nat) (labels : list Z) :
  c <> noise ->
  List.length labels = n ->
  closed_upto labels (i :: stack) ->
  let '(labels1, stack1) := visit nbs core c i stack labels in
  List.length labels1 = n /\
  (forall k, labelled labels k -> nth k labels1 noise = nth k labels noise) /\
  (forall k, nth k labels1 noise = nth k labels noise \/ nth k labels1 noise = c) /\
  closed_upto labels1 stack1 /\
  (i < n -> labelled labels1 i).
Proof.
  intros Hc Hlen Hclosed. unfold visit.
  destruct (unlabelled labels i) eqn:Hu.
  - assert (Hkept : forall k, labelled labels k ->
                              nth k (set_label i c labels) noise = nth k labels noise).
    { intros k Hk. apply nth_set_label_other. intros ->.
      apply unlabelled_iff in Hk. congruence. }
    assert (Hnew : i < n -> labelled (set_label i c labels) i).
    { intros Hi. unfold labelled. rewrite nth_set_label_same by lia. exact Hc. }
    assert (Hlab : forall b, b < n -> labelled labels b \/ b = i ->
                             labelled (set_label i c labels) b).
    { intros b Hb [H| ->]; [|apply Hnew; exact Hb].
      unfold labelled. rewrite Hkept by exact H. exact H. }
    assert (Hold : forall a, a <> i -> labelled (set_label i c labels) a ->
                             labelled labels a).
    { intros a Ha H. unfold labelled in *.
      rewrite nth_set_label_other in H by exact Ha. exact H. }
    split; [rewrite set_label_length; exact Hlen|].
    split; [exact Hkept|]. split.
    { intros k. destruct (Nat.eq_dec k i) as [->|Hk].
      - destruct (Nat.lt_ge_cases i (List.length labels)) as [Hi|Hi].
        + right. apply nth_set_label_same. exact Hi.
        + left. rewrite set_label_outside by exact Hi. reflexivity.
      - left. apply nth_set_label_other. exact Hk. }
    split; [|exact Hnew].
    destruct (nth i core false) eqn:Hcore.
    + intros a b Ha Hca Hab.
      destruct (neighbour_in_range E near X a b Hab) as [_ Hb].
      destruct (Nat.eq_dec a i) as [->|Hai].
      * destruct (unlabelled (set_label i c labels) b) eqn:Hub.
        -- right. apply push_unlabelled_in. right. split; [|exact Hub].
           apply neighborhood_in. exact Hab.
        -- left. apply unlabelled_iff. exact Hub.
      * destruct (Hclosed a b (Hold a Hai Ha) Hca Hab) as [H|[H|H]].
        -- left. apply Hlab; [exact Hb|left; exact H].
        -- left. apply Hlab; [exact Hb|right; symmetry; exact H].
        -- right. apply push_unlabelled_in. left. exact H.
    + intros a b Ha Hca Hab.
      destruct (neighbour_in_range E near X a b Hab) as [_ Hb].
      destruct (Nat.eq_dec a i) as [->|Hai]; [congruence|].
      destruct (Hclosed a b (Hold a Hai Ha) Hca Hab) as [H|[H|H]].
      * left. apply Hlab; [exact Hb|left; exact H].
      * left. apply Hlab; [exact Hb|right; symmetry; exact H].
      * right. exact H.
  - apply unlabelled_iff in Hu.
    split; [exact Hlen|]. split; [reflexivity|]. split; [left; reflexivity|].
    split; [|intros _; exact Hu].
    intros a b Ha Hca Hab. destruct (Hclosed a b Ha Hca Hab) as [H|[H|H]].
    + left. exact H.
    + left. subst b. exact Hu.
    + right. exact H.
Qed.

(** What one expansion does: labels already given stay, a new label is
    [c], the point in hand gets a label, and in the end every neighbour of
    a labelled core point is labelled. *)
Lemma expand_spec (c : Z) :
  c <> noise ->
  forall fuel i stack labels labels',
    List.length labels = n ->
    closed_upto labels (i :: stack) ->
    expand fuel nbs core c i stack labels = Some labels' ->
    List.length labels' = n /\
    (forall k, labelled labels k -> nth k labels' noise = nth k labels noise) /\
    (forall k, nth k labels' noise = nth k labels noise \/ nth k labels' noise = c) /\
    closed_upto labels' [] /\
    (i < n -> labelled labels' i).
Proof.
  intros Hc. induction fuel as [|fuel IH]; intros i stack labels labels' Hlen Hclosed;
    [discriminate|].
  cbn [expand]. pose proof (visit_spec c i stack labels Hc Hlen Hclosed) as Hv.
  destruct (visit nbs core c i stack labels) as [labels1 stack1].
  destruct Hv as [Hlen1 [Hkept1 [Hnew1 [Hclosed1 Hi1]]]].
  destruct stack1 as [|j st].
  - intros H. injection H as <-. repeat split; assumption.
  - intros H. destruct (IH j st labels1 labels' Hlen1 Hclosed1 H)
      as [Hlen2 [Hkept2 [Hnew2 [Hclosed2 _]]]].
    assert (Hmono : forall k, labelled labels1 k -> labelled labels' k).
    { intros k Hk. unfold labelled. rewrite Hkept2 by exact Hk. exact Hk. }
    split; [exact Hlen2|]. split; [|split; [|split; [exact Hclosed2|]]].
    + intros k Hk. assert (Hk1 : labelled labels1 k).
      { unfold labelled. rewrite Hkept1 by exact Hk. exact Hk. }
      rewrite Hkept2 by exact Hk1. apply Hkept1. exact Hk.
    + intros k. destruct (Hnew2 k) as [H2|H2]; [|right; exact H2].
      rewrite H2. apply Hnew1.
    + intros Hi. apply Hmono. apply Hi1. exact Hi.
Qed.

Hypothesis near_refl : forall x, near x x = true.
Hypothesis near_sym : forall x y, near x y = near y x.

(** An expansion from an unlabelled core point keeps the labels in pairs. *)
Lemma seed_keeps_pairs (c : Z) (fuel i : nat) (labels labels' : list Z) :
  c <> noise ->
  List.length labels = n ->
  closed_upto labels [] ->
  in_pairs labels ->
  unlabelled labels i = true ->
  nth i core false = true ->
  expand fuel nbs core c i [] labels = Some labels' ->
  List.length labels' = n /\ closed_upto labels' [] /\ in_pairs labels'.
Proof.
  intros Hc Hlen Hclosed Hpairs Hu Hcore Hex.
  assert (Hclosed' : closed_upto labels [i]).
  { intros a b Ha Hca Hab. destruct (Hclosed a b Ha Hca Hab) as [H|[]]. left. exact H. }
  destruct (expand_spec c Hc fuel i [] labels labels' Hlen Hclosed' Hex)
    as [Hlen' [Hkept [Hnew [Hcl Hi]]]].
  split; [exact Hlen'|]. split; [exact Hcl|].
  assert (Hin : i < n) by (apply core_nth in Hcore; tauto).
  destruct (core_has_other_neighbour E near X i Hcore) as [j [Hij Hji]].
  assert (Hjd : nth j core false = true).
  { apply (neighbour_is_core E near X near_refl near_sym i j Hij). congruence. }
  assert (Hju : ~ labelled labels j).
  { intros Hj.
    destruct (Hclosed j i Hj Hjd (neighbour_sym E near X near_sym i j Hij)) as [H|[]].
    apply unlabelled_iff in H. congruence. }
  assert (Hfresh : forall k, ~ labelled labels k -> labelled labels' k ->
                             nth k labels' noise = c).
  { intros k Hk Hk'. destruct (Hnew k) as [H|H]; [|exact H].
    exfalso. apply Hk. unfold labelled in *. rewrite <- H. exact Hk'. }
  assert (Hli : nth i labels' noise = c).
  { apply Hfresh; [|apply Hi; exact Hin]. intros H. apply unlabelled_iff in H. congruence. }
  assert (Hlj : nth j labels' noise = c).
  { apply Hfresh; [exact Hju|].
    destruct (Hcl i j (Hi Hin) Hcore Hij) as [H|[]]. exact H. }
  intros k Hk.
  assert (Hdec : labelled labels k \/ ~ labelled labels k).
  { unfold labelled. destruct (Z.eq_dec (nth k labels noise) noise); [right|left]; tauto. }
  destruct Hdec as [Hold|Hnewk].
  - destruct (Hpairs k Hold) as [k' [Hne Heq]]. exists k'. split; [exact Hne|].
    assert (Hk'l : labelled labels k').
    { unfold labelled in *. rewrite Heq. exact Hold. }
    rewrite (Hkept k Hold), (Hkept k' Hk'l). exact Heq.
  - rewrite (Hfresh k Hnewk Hk). destruct (Nat.eq_dec k i) as [->|Hki].
    + exists j. split; [exact Hji|exact Hlj].
    + exists i. split; [congruence|exact Hli].
Qed.

Lemma dbscan_inner_pairs (fuel : nat) (todo : list nat) :
  forall label_num labels labels',
    (0 <= label_num)%Z ->
    List.length labels = n ->
    closed_upto labels [] ->
    in_pairs labels ->
    dbscan_inner fuel nbs core todo label_num labels = Some labels' ->
    in_pairs labels'.
Proof.
  induction todo as [|i rest IH]; intros label_num labels labels' Hpos Hlen Hcl Hp.
  - intros H. injection H as <-. exact Hp.
  - cbn [dbscan_inner].
    destruct (unlabelled labels i) eqn:Hu; cbn [negb orb];
      [|apply IH; assumption].
    destruct (nth i core false) eqn:Hcore; cbn [negb];
      [|apply IH; assumption].
    destruct (expand fuel nbs core label_num i [] labels) as [labels1|] eqn:Hex;
      [|discriminate].
    assert (Hne : label_num <> noise) by (unfold noise; lia).
    destruct (seed_keeps_pairs label_num fuel i labels labels1 Hne Hlen Hcl Hp Hu
                Hcore Hex) as [Hlen1 [Hcl1 Hp1]].
    apply IH; [lia|assumption..].
Qed.

(** Every label that DBSCAN gives with [min_samples = 2] is carried by at
    least two points. *)
Lemma dbscan_in_pairs : in_pairs (dbscan E near X).
Proof.
  destruct (dbscan_labels E near X) as [Hrun _].
  unfold dbscan_run in Hrun.
  refine (dbscan_inner_pairs _ _ _ _ _ _ _ _ _ Hrun).
  - lia.
  - apply repeat_length.
  - intros a b Ha. exfalso. apply Ha. unfold labelled.
    apply nth_repeat_noise.
  - intros k Hk. exfalso. apply Hk. unfold labelled. apply nth_repeat_noise.
Qed.

End Facts.

End ExpansionFacts.

(** ** Labels, the cluster map and the persons of a run *)

Module PersonFacts.
Import Clusterer Database.
Local Open Scope list_scope.

Lemma insert_label_in (x y : Z) (l : list Z) :
  In y (insert_label x l) <-> y = x \/ In y l.
Proof.
  induction l as [|z r IH]; simpl.
  - split; [intros [<-|[]]; auto|intros [->|[]]; auto].
  - destruct (Z.ltb x z) eqn:Hlt; [simpl; intuition auto|].
    destruct (Z.eqb x z) eqn:Heq.
    + apply Z.eqb_eq in Heq. subst z. simpl. intuition auto.
    + simpl. rewrite IH. intuition auto.
Qed.

Lemma insert_label_sorted (x : Z) (l : list Z) :
  StronglySorted Z.lt l -> StronglySorted Z.lt (insert_label x l).
Proof.
  induction l as [|z r IH]; intros Hs; simpl.
  - constructor; constructor.
  - inversion Hs as [|? ? Hr Hall]; subst.
    destruct (Z.ltb x z) eqn:Hlt.
    + apply Z.ltb_lt in Hlt. constructor; [exact Hs|].
      constructor; [exact Hlt|]. rewrite Forall_forall in *.
      intros y Hy. specialize (Hall y Hy). lia.
    + destruct (Z.eqb x z) eqn:Heq; [exact Hs|].
      apply Z.ltb_ge in Hlt. apply Z.eqb_neq in Heq.
      constructor; [apply IH; exact Hr|].
      rewrite Forall_forall in *. intros y Hy.
      apply insert_label_in in Hy. destruct Hy as [->|Hy]; [lia|apply Hall; exact Hy].
Qed.

Lemma unique_labels_spec (labels : list Z) :
  StronglySorted Z.lt (unique_labels labels) /\
  forall y, In y (unique_labels labels) <-> In y labels.
Proof.
  unfold unique_labels.
  assert (H : forall acc,
             StronglySorted Z.lt acc ->
             StronglySorted Z.lt (fold_left (fun a x => insert_label x a) labels acc) /\
             forall y, In y (fold_left (fun a x => insert_label x a) labels acc)
                       <-> In y acc \/ In y labels).
  { induction labels as [|x r IH]; intros acc Hacc; simpl.
    - split; [exact Hacc|]. intros y. tauto.
    - destruct (IH (insert_label x acc) (insert_label_sorted x acc Hacc)) as [Hs Hin].
      split; [exact Hs|]. intros y. rewrite Hin, insert_label_in. intuition auto. }
  destruct (H [] (SSorted_nil _)) as [Hs Hin]. split; [exact Hs|].
  intros y. rewrite Hin. simpl. tauto.
Qed.

Lemma sorted_nodup (l : list Z) : StronglySorted Z.lt l -> NoDup l.
Proof.
  induction 1 as [|x l Hs IH Hall]; constructor; [|exact IH].
  intros Hin. rewrite Forall_forall in Hall. specialize (Hall x Hin). lia.
Qed.

Lemma dict_get_set_same (m : list (Z * Z)) (k v : Z) :
  dict_get (dict_set m k v) k = Some v.
Proof.
  induction m as [|[k' v'] r IH]; simpl.
  - rewrite Z.eqb_refl. reflexivity.
  - destruct (Z.eqb k' k) eqn:Hk; simpl; rewrite Hk; [reflexivity|exact IH].
Qed.

Lemma dict_get_set_other (m : list (Z * Z)) (k k' v : Z) :
  k' <> k -> dict_get (dict_set m k v) k' = dict_get m k'.
Proof.
  intros Hne. induction m as [|[k0 v0] r IH]; simpl.
  - destruct (Z.eqb k k') eqn:Hk; [apply Z.eqb_eq in Hk; congruence|reflexivity].
  - destruct (Z.eqb k0 k) eqn:Hk; simpl.
    + apply Z.eqb_eq in Hk. subst k0.
      destruct (Z.eqb k k') eqn:Hk'; [apply Z.eqb_eq in Hk'; congruence|reflexivity].
    + destruct (Z.eqb k0 k'); [reflexivity|exact IH].
Qed.

Lemma person_exists_create (db : Db) (name : option string) (q : Z) :
  person_exists (fst (create_person db name)) q
  = orb (person_exists db q) (Z.eqb (snd (create_person db name)) q).
Proof.
  unfold person_exists, create_person. cbn [fst snd persons].
  rewrite existsb_app. simpl. rewrite orb_false_r. reflexivity.
Qed.

(** The first loop over the labels: the faces are untouched, every label
    of the list other than noise gets an entry, and every person the loop
    adds is the entry of such a label. *)
Lemma create_persons_spec (todo : list Z) :
  forall db cluster_map count db1 cluster_map1 count1,
    create_persons todo db cluster_map count = (db1, cluster_map1, count1) ->
    NoDup todo ->
    (forall l, In l todo -> dict_get cluster_map l = None) ->
    faces db1 = faces db /\
    (forall l v, dict_get cluster_map l = Some v -> dict_get cluster_map1 l = Some v) /\
    (forall l, In l todo -> l <> noise -> dict_get cluster_map1 l <> None) /\
    (forall q, person_exists db1 q = true ->
               person_exists db q = true \/
               exists l, In l todo /\ l <> noise /\ dict_get cluster_map1 l = Some q).
Proof.
  induction todo as [|label rest IH];
    intros db cmap count db1 cmap1 count1 Hrun Hnd Hfresh.
  - simpl in Hrun. injection Hrun as <- <- <-.
    repeat split; auto; try (now intros l []).
  - inversion Hnd as [|? ? Hnotin Hnd']; subst. cbn [create_persons] in Hrun.
    destruct (Z.eqb label noise) eqn:Hnoise.
    + apply Z.eqb_eq in Hnoise.
      destruct (IH _ _ _ _ _ _ Hrun Hnd' (fun l Hl => Hfresh l (or_intror Hl)))
        as [Hf [Hkeep [Hkeys Hnew]]].
      split; [exact Hf|]. split; [exact Hkeep|]. split.
      * intros l [<-|Hl] Hne; [congruence|apply Hkeys; assumption].
      * intros q Hq. destruct (Hnew q Hq) as [H|[l [Hl [Hne Hg]]]]; [left; exact H|].
        right. exists l. split; [right; exact Hl|split; assumption].
    + apply Z.eqb_neq in Hnoise.
      pose proof (person_exists_create db (Some ("Person " ++ show_Z (label + 1))%string))
        as Hpe.
      destruct (create_person db (Some ("Person " ++ show_Z (label + 1))%string))
        as [db' pid] eqn:Hcp. cbn [fst snd] in Hpe.
      assert (Hfaces : faces db' = faces db).
      { unfold create_person in Hcp. injection Hcp as <- _. reflexivity. }
      assert (Hfresh' : forall l, In l rest -> dict_get (dict_set cmap label pid) l = None).
      { intros l Hl. rewrite dict_get_set_other.
        - apply Hfresh. right. exact Hl.
        - intros ->. contradiction. }
      destruct (IH _ _ _ _ _ _ Hrun Hnd' Hfresh') as [Hf [Hkeep [Hkeys Hnew]]].
      assert (Hlabel : dict_get cmap1 label = Some pid).
      { apply Hkeep. apply dict_get_set_same. }
      split; [rewrite Hf; exact Hfaces|]. split; [|split].
      * intros l v Hl. apply Hkeep. rewrite dict_get_set_other; [exact Hl|].
        intros ->. rewrite (Hfresh label (or_introl eq_refl)) in Hl. discriminate.
      * intros l [<-|Hl] Hne; [rewrite Hlabel; discriminate|apply Hkeys; assumption].
      * intros q Hq. destruct (Hnew q Hq) as [H|[l [Hl [Hne Hg]]]].
        -- rewrite Hpe in H. apply orb_true_iff in H. destruct H as [H|H]; [left; exact H|].
           apply Z.eqb_eq in H. subst q. right. exists label.
           split; [left; reflexivity|split; assumption].
        -- right. exists l. split; [right; exact Hl|split; assumption].
Qed.

End PersonFacts.

(** ** The assignment loop *)

Module AssignmentFacts.
Import Clusterer Database Assignment PersonFacts.
Local Open Scope list_scope.

Section Facts.

Variable face_ids : list Z.
Variable cluster_map : list (Z * Z).

Local Abbreviation assign := (assign face_ids cluster_map).
Local Abbreviation update_faces := (update_faces face_ids cluster_map).

Lemma with_faces_twice (db : Db) (a b : list FaceRow) :
  with_faces (with_faces db a) b = with_faces db b.
Proof. reflexivity. Qed.

(** The loop does not raise when every label has an entry and every
    index has an id; it maps [assign] over the rows. *)
Lemma update_faces_assign (labels : list Z) :
  forall idx db,
    (forall l, In l labels -> l <> noise -> dict_get cluster_map l <> None) ->
    idx + List.length labels <= List.length face_ids ->
    update_faces labels idx db
    = (with_faces db (map (assign labels idx) (faces db)), true).
Proof.
  induction labels as [|label rest IH]; intros idx db Hkeys Hlen.
  - cbn [Clusterer.update_faces Assignment.assign]. rewrite map_id.
    destruct db; reflexivity.
  - cbn [Clusterer.update_faces Assignment.assign]. simpl in Hlen.
    assert (Hkeys' : forall l, In l rest -> l <> noise -> dict_get cluster_map l <> None)
      by (intros l Hl; apply Hkeys; right; exact Hl).
    destruct (Z.eqb label noise) eqn:Hnoise.
    + apply IH; [exact Hkeys'|lia].
    + apply Z.eqb_neq in Hnoise.
      pose proof (Hkeys label (or_introl eq_refl) Hnoise) as Hget.
      destruct (dict_get cluster_map label) as [pid|]; [|congruence].
      destruct (nth_error face_ids idx) as [fid|] eqn:Hfid.
      2:{ apply nth_error_None in Hfid. lia. }
      rewrite IH by (try exact Hkeys'; lia).
      unfold update_face_person. rewrite with_faces_twice.
      cbn [faces with_faces]. rewrite map_map. reflexivity.
Qed.

Lemma assign_face_id (labels : list Z) :
  forall idx f, face_id (assign labels idx f) = face_id f.
Proof.
  induction labels as [|label rest IH]; intros idx f; cbn [Assignment.assign];
    [reflexivity|].
  destruct (Z.eqb label noise); [apply IH|].
  destruct (dict_get cluster_map label) as [pid|]; [|reflexivity].
  destruct (nth_error face_ids idx) as [fid|]; [|reflexivity].
  rewrite IH. destruct (Z.eqb (face_id f) fid); reflexivity.
Qed.

(** A face whose id is at none of the remaining indices stays as it is. *)
Lemma assign_untouched (labels : list Z) :
  forall idx f,
    (forall k, nth_error face_ids (idx + k) <> Some (face_id f)) ->
    assign labels idx f = f.
Proof.
  induction labels as [|label rest IH]; intros idx f Hfree; cbn [Assignment.assign];
    [reflexivity|].
  assert (Hfree' : forall k, nth_error face_ids (S idx + k) <> Some (face_id f)).
  { intros k. replace (S idx + k) with (idx + S k) by lia. apply Hfree. }
  destruct (Z.eqb label noise); [apply IH; exact Hfree'|].
  destruct (dict_get cluster_map label) as [pid|]; [|reflexivity].
  destruct (nth_error face_ids idx) as [fid|] eqn:Hfid; [|reflexivity].
  destruct (Z.eqb (face_id f) fid) eqn:Heq.
  - apply Z.eqb_eq in Heq. exfalso. apply (Hfree 0).
    rewrite Nat.add_0_r, Hfid. congruence.
  - apply IH. exact Hfree'.
Qed.

(** A face whose id is at exactly one index gets the person of the label
    at that index. *)
Lemma assign_hit (labels : list Z) :
  forall idx f k l pid,
    nth_error labels k = Some l ->
    l <> noise ->
    dict_get cluster_map l = Some pid ->
    nth_error face_ids (idx + k) = Some (face_id f) ->
    (forall k', k' <> k -> nth_error face_ids (idx + k') <> Some (face_id f)) ->
    (forall l', In l' labels -> l' <> noise -> dict_get cluster_map l' <> None) ->
    idx + List.length labels <= List.length face_ids ->
    face_person (assign labels idx f) = Some pid.
Proof.
  induction labels as [|label rest IH];
    intros idx f k l pid Hk Hl Hpid Hid Honly Hkeys Hlen.
  - destruct k; discriminate.
  - cbn [Assignment.assign]. simpl in Hlen.
    assert (Hkeys' : forall l', In l' rest -> l' <> noise -> dict_get cluster_map l' <> None)
      by (intros l' Hl'; apply Hkeys; right; exact Hl').
    destruct k as [|k].
    + simpl in Hk. injection Hk as ->. rewrite Nat.add_0_r in Hid.
      apply Z.eqb_neq in Hl. rewrite Hl, Hpid, Hid, Z.eqb_refl.
      rewrite assign_untouched; [reflexivity|].
      intros k'. cbn [set_face_person face_id].
      replace (S idx + k') with (idx + S k') by lia. apply Honly. lia.
    + simpl in Hk.
      assert (Hid' : nth_error face_ids (S idx + k) = Some (face_id f))
        by (replace (S idx + k) with (idx + S k) by lia; exact Hid).
      assert (Honly' : forall k', k' <> k ->
                                  nth_error face_ids (S idx + k') <> Some (face_id f)).
      { intros k' Hne. replace (S idx + k') with (idx + S k') by lia.
        apply Honly. lia. }
      destruct (Z.eqb label noise) eqn:Hnoise.
      * apply (IH (S idx) f k l pid); try assumption. lia.
      * apply Z.eqb_neq in Hnoise.
        pose proof (Hkeys label (or_introl eq_refl) Hnoise) as Hget.
        destruct (dict_get cluster_map label) as [pid0|]; [|congruence].
        destruct (nth_error face_ids idx) as [fid|] eqn:Hfid.
        2:{ apply nth_error_None in Hfid. lia. }
        destruct (Z.eqb (face_id f) fid) eqn:Heq.
        -- apply Z.eqb_eq in Heq. exfalso. apply (Honly 0); [lia|].
           rewrite Nat.add_0_r, Hfid. congruence.
        -- apply (IH (S idx) f k l pid); try assumption. lia.
Qed.

End Facts.

Lemma set_thumbnails_faces (cluster_map : list (Z * Z)) :
  forall db, faces (set_thumbnails cluster_map db) = faces db.
Proof.
  induction cluster_map as [|[l pid] rest IH]; intros db; [reflexivity|].
  cbn [set_thumbnails].
  destruct (get_first_face_thumbnail db pid) as [t|]; [|apply IH].
  rewrite IH. destruct (truthy (Some t)); reflexivity.
Qed.

Lemma person_exists_thumbnail (db : Db) (pid q : Z) (t : string) :
  person_exists (update_person_thumbnail db pid t) q = person_exists db q.
Proof.
  unfold person_exists, update_person_thumbnail, with_persons. cbn [persons].
  induction (persons db) as [|p r IH]; [reflexivity|].
  cbn [map existsb]. rewrite IH.
  destruct (Z.eqb (person_id p) pid); reflexivity.
Qed.

Lemma set_thumbnails_persons (cluster_map : list (Z * Z)) :
  forall db q, person_exists (set_thumbnails cluster_map db) q = person_exists db q.
Proof.
  induction cluster_map as [|[l pid] rest IH]; intros db q; [reflexivity|].
  cbn [set_thumbnails].
  destruct (get_first_face_thumbnail db pid) as [t|]; [|apply IH].
  rewrite IH. destruct (truthy (Some t)); [apply person_exists_thumbnail|reflexivity].
Qed.

Lemma two_matches (p : FaceRow -> bool) (l : list FaceRow) (f1 f2 : FaceRow) :
  In f1 l -> In f2 l -> f1 <> f2 -> p f1 = true -> p f2 = true ->
  2 <= List.length (filter p l).
Proof.
  intros H1 H2 Hne Hp1 Hp2.
  assert (Hf1 : In f1 (filter p l)) by (apply filter_In; split; assumption).
  assert (Hf2 : In f2 (filter p l)) by (apply filter_In; split; assumption).
  destruct (filter p l) as [|x [|y r]]; simpl in *.
  - tauto.
  - destruct Hf1 as [<-|[]], Hf2 as [<-|[]]. congruence.
  - lia.
Qed.

Lemma nodup_map_filter (p : FaceRow -> bool) (l : list FaceRow) :
  NoDup (map face_id l) -> NoDup (map face_id (filter p l)).
Proof.
  induction l as [|f r IH]; intros Hnd; [constructor|].
  inversion Hnd as [|? ? Hnotin Hr]; subst. cbn [filter].
  destruct (p f); [|apply IH; exact Hr].
  cbn [map]. constructor; [|apply IH; exact Hr].
  intros Hin. apply Hnotin. apply in_map_iff in Hin.
  destruct Hin as [g [Hg Hin]]. apply filter_In in Hin.
  apply in_map_iff. exists g. tauto.
Qed.

End AssignmentFacts.

(** ** A run of the clusterer *)

Module RunFacts.
Import Clusterer Database Assignment Density.
Import PersonFacts AssignmentFacts ClustererFacts DbscanFacts ExpansionFacts.
Local Open Scope list_scope.

Section Facts.

Variable E : Type.
Variable loads : string -> option E.
Variable near : E -> E -> bool.
Variable fits : list E -> bool.

Hypothesis near_refl : forall x, near x x = true.
Hypothesis near_sym : forall x y, near x y = near y x.

(** The run as one expression, past the two early returns. *)
Lemma run_clustering_unfold (db : Db) :
  let rows := get_unclustered_faces db in
  let face_ids := fst (collect E loads rows) in
  let embeddings := snd (collect E loads rows) in
  let labels := dbscan E near embeddings in
  let created := create_persons (unique_labels labels) db [] 0 in
  let cluster_map := snd (fst created) in
  run_clustering E loads near fits db =
  if orb (match rows with [] => true | _ => false end)
         (List.length embeddings <? 2)%nat
  then (db, Some 0)
  else if negb (fits embeddings) then (db, None)
  else (set_thumbnails cluster_map
          (with_faces (fst (fst created))
             (map (assign face_ids cluster_map labels 0) (faces db))),
        Some (snd created)).
Proof.
  cbv zeta. unfold run_clustering.
  destruct (get_unclustered_faces db) as [|r rows] eqn:Hrows; [reflexivity|].
  cbn [orb].
  pose proof (collect_lengths E loads (r :: rows)) as Hlen.
  destruct (collect E loads (r :: rows)) as [face_ids embeddings]. cbn [fst snd] in *.
  destruct (List.length embeddings <? 2)%nat; [reflexivity|].
  destruct (fits embeddings); cbn [negb]; [|reflexivity].
  pose proof (unique_labels_spec (dbscan E near embeddings)) as [Hsorted Hmem].
  destruct (create_persons (unique_labels (dbscan E near embeddings)) db [] 0)
    as [[db1 cluster_map] count] eqn:Hcreate.
  destruct (create_persons_spec _ _ _ _ _ _ _ Hcreate (sorted_nodup _ Hsorted)
              (fun l _ => eq_refl)) as [Hfaces [_ [Hkeys _]]].
  cbn [fst snd].
  rewrite update_faces_assign.
  - rewrite Hfaces. reflexivity.
  - intros l Hl. apply Hkeys. apply Hmem. exact Hl.
  - destruct (dbscan_labels E near embeddings) as [_ Hl]. rewrite Hl. simpl. exact Hlen.
Qed.

(** The first half of C6 holds on every store with distinct face ids: a
    run raises only where numpy or DBSCAN do, and every person that exists
    after it and not before has at least two faces. *)
Lemma created_person_has_two_faces (db : Db) :
  NoDup (map face_id (faces db)) ->
  let r := run_clustering E loads near fits db in
  (fits (snd (collect E loads (get_unclustered_faces db))) = true ->
   snd r <> None) /\
  forall q, person_exists (fst r) q = true -> person_exists db q = false ->
            2 <= get_person_face_count (fst r) q.
Proof.
  intros Hnd. cbv zeta. rewrite run_clustering_unfold. cbv zeta.
  set (rows := get_unclustered_faces db).
  set (face_ids := fst (collect E loads rows)).
  set (embeddings := snd (collect E loads rows)).
  set (labels := dbscan E near embeddings).
  destruct (orb _ _).
  { cbn [fst snd]. split; [discriminate|]. intros q H1 H2. congruence. }
  destruct (fits embeddings); cbn [negb].
  2:{ cbn [fst snd]. split; [discriminate|]. intros q H1 H2. congruence. }
  pose proof (unique_labels_spec labels) as [Hsorted Hmem].
  destruct (create_persons (unique_labels labels) db [] 0)
    as [[db1 cluster_map] count] eqn:Hcreate.
  destruct (create_persons_spec _ _ _ _ _ _ _ Hcreate (sorted_nodup _ Hsorted)
              (fun l _ => eq_refl)) as [Hfaces [_ [Hkeys Hnew]]].
  cbn [fst snd]. split; [discriminate|].
  intros q Hafter Hbefore.
  rewrite set_thumbnails_persons in Hafter.
  change (person_exists db1 q = true) in Hafter.
  destruct (Hnew q Hafter) as [H|[l [Hl [Hnoise Hget]]]]; [congruence|].
  apply Hmem in Hl.
  (* two indices carry the label *)
  destruct (In_nth _ _ noise Hl) as [k [Hk Hlk]].
  pose proof (dbscan_in_pairs E near embeddings near_refl near_sym) as Hpairs.
  fold labels in Hpairs.
  assert (Hlab : labelled labels k) by (unfold labelled; rewrite Hlk; exact Hnoise).
  destruct (Hpairs k Hlab) as [k' [Hne Hlk']]. rewrite Hlk in Hlk'.
  assert (Hk' : k' < List.length labels).
  { destruct (Nat.lt_ge_cases k' (List.length labels)) as [H|H]; [exact H|].
    rewrite nth_overflow in Hlk' by exact H. congruence. }
  (* ids and rows *)
  assert (Hids : face_ids = map face_id (filter unclustered (faces db))).
  { unfold face_ids, rows. rewrite collect_face_ids.
    unfold get_unclustered_faces. rewrite map_map. reflexivity. }
  assert (Hndids : NoDup face_ids).
  { rewrite Hids. apply nodup_map_filter. exact Hnd. }
  assert (Hlen : List.length labels <= List.length face_ids).
  { unfold labels. destruct (dbscan_labels E near embeddings) as [_ ->].
    apply collect_lengths. }
  assert (Hassigned :
            forall j, j < List.length labels -> nth j labels noise = l ->
                      exists f, In f (faces db) /\
                                nth_error face_ids j = Some (face_id f) /\
                                face_person (assign face_ids cluster_map labels 0 f)
                                = Some q).
  { intros j Hj Hlj.
    destruct (nth_error face_ids j) as [fid|] eqn:Hfid.
    2:{ apply nth_error_None in Hfid. lia. }
    assert (Hin : In fid (map face_id (faces db))).
    { apply nth_error_In in Hfid. rewrite Hids in Hfid.
      apply in_map_iff in Hfid. destruct Hfid as [f [Hf Hin]].
      apply filter_In in Hin. apply in_map_iff. exists f. tauto. }
    apply in_map_iff in Hin. destruct Hin as [f [Hf Hin]]. subst fid.
    exists f. split; [exact Hin|]. split; [reflexivity|].
    apply (assign_hit face_ids cluster_map labels 0 f j l q).
    - rewrite <- Hlj. apply nth_error_nth'. exact Hj.
    - exact Hnoise.
    - exact Hget.
    - exact Hfid.
    - intros j' Hne' Hj'. simpl in Hj'. apply Hne'.
      apply (proj1 (NoDup_nth_error face_ids) Hndids j' j).
      + apply nth_error_Some. congruence.
      + congruence.
    - intros l' Hl'. apply Hkeys. apply Hmem. exact Hl'.
    - simpl. exact Hlen. }
  destruct (Hassigned k Hk Hlk) as [f1 [Hin1 [Hid1 Hp1]]].
  destruct (Hassigned k' Hk' Hlk') as [f2 [Hin2 [Hid2 Hp2]]].
  unfold get_person_face_count. rewrite set_thumbnails_faces. cbn [faces with_faces].
  apply (two_matches _ _ (assign face_ids cluster_map labels 0 f1)
                     (assign face_ids cluster_map labels 0 f2)).
  - apply in_map. exact Hin1.
  - apply in_map. exact Hin2.
  - intros Heq. apply (f_equal face_id) in Heq. rewrite !assign_face_id in Heq.
    apply Hne. apply (proj1 (NoDup_nth_error face_ids) Hndids k' k).
    + apply nth_error_Some. congruence.
    + congruence.
  - rewrite Hp1. simpl. apply Z.eqb_refl.
  - rewrite Hp2. simpl. apply Z.eqb_refl.
Qed.

End Facts.

End RunFacts.

(** ** A run in which every embedding parses *)

Module GoodPathFacts.
Import Clusterer Database Assignment Density.
Import PersonFacts AssignmentFacts ClustererFacts AlignmentFacts DbscanFacts RunFacts.
Local Open Scope list_scope.

Lemma nodup_face_id_inj (l : list FaceRow) (a b : FaceRow) :
  NoDup (map face_id l) -> In a l -> In b l -> face_id a = face_id b -> a = b.
Proof.
  induction l as [|x r IH]; intros Hnd Ha Hb Heq; [destruct Ha|].
  inversion Hnd as [|? ? Hnotin Hr]; subst.
  destruct Ha as [->|Ha], Hb as [->|Hb]; auto.
  - exfalso. apply Hnotin. rewrite Heq. apply in_map. exact Hb.
  - exfalso. apply Hnotin. rewrite <- Heq. apply in_map. exact Ha.
Qed.

(** A face whose id sits only at indices with the noise label stays as it is. *)
Lemma assign_miss (face_ids : list Z) (cluster_map : list (Z * Z)) (labels : list Z) :
  forall idx f,
    (forall k l, nth_error labels k = Some l -> l <> noise ->
                 nth_error face_ids (idx + k) <> Some (face_id f)) ->
    assign face_ids cluster_map labels idx f = f.
Proof.
  induction labels as [|label rest IH]; intros idx f Hfree; cbn [assign];
    [reflexivity|].
  assert (Hfree' : forall k l, nth_error rest k = Some l -> l <> noise ->
                               nth_error face_ids (S idx + k) <> Some (face_id f)).
  { intros k l Hk Hl. replace (S idx + k) with (idx + S k) by lia.
    apply (Hfree (S k) l); assumption. }
  destruct (Z.eqb label noise) eqn:Hnoise; [apply IH; exact Hfree'|].
  apply Z.eqb_neq in Hnoise.
  destruct (dict_get cluster_map label) as [pid|]; [|reflexivity].
  destruct (nth_error face_ids idx) as [fid|] eqn:Hfid; [|reflexivity].
  destruct (Z.eqb (face_id f) fid) eqn:Heq.
  - apply Z.eqb_eq in Heq. exfalso. apply (Hfree 0 label eq_refl Hnoise).
    rewrite Nat.add_0_r, Hfid. congruence.
  - apply IH. exact Hfree'.
Qed.

Section Facts.

Variable E : Type.
Variable loads : string -> option E.
Variable near : E -> E -> bool.
Variable fits : list E -> bool.

(** When every unclustered embedding parses, the run does what C1 and the
    second half of C6 say: the embedding at an index is the one of the face
    at that index, a face that gets a person has a label other than noise,
    and faces with the same label get the same person. *)
Lemma assigned_by_own_label (db : Db) :
  NoDup (map face_id (faces db)) ->
  (forall f, In f (faces db) -> unclustered f = true ->
             parse E loads (face_embedding f) <> None) ->
  let unassigned := filter unclustered (faces db) in
  let embeddings := snd (collect E loads (get_unclustered_faces db)) in
  let labels := dbscan E near embeddings in
  let after := faces (fst (run_clustering E loads near fits db)) in
  map Some embeddings = map (fun f => parse E loads (face_embedding f)) unassigned /\
  forall k f g,
    nth_error unassigned k = Some f ->
    In g after -> face_id g = face_id f -> face_person g <> None ->
    nth k labels noise <> noise /\
    forall k' f' g',
      nth_error unassigned k' = Some f' ->
      In g' after -> face_id g' = face_id f' ->
      nth k' labels noise = nth k labels noise ->
      face_person g' = face_person g.
Proof.
  intros Hnd Hparse unassigned embeddings labels after.
  set (rows := get_unclustered_faces db) in *.
  set (face_ids := fst (collect E loads rows)).
  assert (Hrows : forall r, In r rows -> parse E loads (snd r) <> None).
  { intros r Hr. unfold rows, get_unclustered_faces in Hr.
    apply in_map_iff in Hr. destruct Hr as [f [<- Hf]]. apply filter_In in Hf.
    cbn [snd]. apply Hparse; tauto. }
  pose proof (collect_aligned E loads rows Hrows) as Hal.
  fold face_ids in Hal. fold embeddings in Hal.
  assert (Hids : face_ids = map face_id unassigned).
  { unfold face_ids, rows. rewrite collect_face_ids.
    unfold get_unclustered_faces. rewrite map_map. reflexivity. }
  assert (Hlenrows : List.length rows = List.length unassigned).
  { unfold rows, get_unclustered_faces. apply length_map. }
  assert (Hleneq : List.length embeddings = List.length face_ids).
  { apply (f_equal (@List.length _)) in Hal.
    rewrite length_map, length_combine, length_map in Hal.
    pose proof (collect_lengths E loads rows) as Hle.
    fold face_ids in Hle. fold embeddings in Hle.
    assert (Hfl : List.length face_ids = List.length rows).
    { rewrite Hids, length_map. symmetry. exact Hlenrows. }
    lia. }
  assert (Hemb : map Some embeddings
                 = map (fun f => parse E loads (face_embedding f)) unassigned).
  { assert (Hsnd : forall (A B : Type) (a : list A) (b : list B),
               List.length a = List.length b -> map snd (combine a b) = b).
    { intros A B a. induction a as [|x a IH]; intros [|y b] H; simpl in *;
        try discriminate; [reflexivity|]. rewrite IH by lia. reflexivity. }
    transitivity (map snd (combine face_ids (map Some embeddings))).
    - symmetry. apply Hsnd. rewrite length_map. symmetry. exact Hleneq.
    - rewrite <- Hal. unfold rows, get_unclustered_faces.
      rewrite !map_map. reflexivity. }
  split; [exact Hemb|].
  assert (Hndids : NoDup face_ids).
  { rewrite Hids. apply nodup_map_filter. exact Hnd. }
  assert (Hllen : List.length labels = List.length face_ids).
  { unfold labels. destruct (dbscan_labels E near embeddings) as [_ ->]. exact Hleneq. }
  assert (Hat : forall k f, nth_error unassigned k = Some f ->
                            In f (faces db) /\ unclustered f = true /\
                            nth_error face_ids k = Some (face_id f)).
  { intros k f Hk. pose proof (nth_error_In _ _ Hk) as Hin.
    apply filter_In in Hin. destruct Hin as [Hin Hun].
    split; [exact Hin|]. split; [exact Hun|].
    rewrite Hids. apply map_nth_error. exact Hk. }
  assert (Honly : forall k f j, nth_error face_ids k = Some (face_id f) ->
                                nth_error face_ids j = Some (face_id f) -> j = k).
  { intros k f j Hk Hj. apply (proj1 (NoDup_nth_error face_ids) Hndids j k).
    - apply nth_error_Some. congruence.
    - congruence. }
  (* the shape of the store after the run *)
  pose proof (run_clustering_unfold E loads near fits db) as Hrun. cbv zeta in Hrun.
  fold rows face_ids embeddings labels in Hrun.
  pose proof (unique_labels_spec labels) as [Hsorted Hmem].
  destruct (create_persons (unique_labels labels) db [] 0)
    as [[db1 cluster_map] count] eqn:Hcreate.
  destruct (create_persons_spec _ _ _ _ _ _ _ Hcreate (sorted_nodup _ Hsorted)
              (fun l _ => eq_refl)) as [_ [_ [Hkeys _]]].
  cbn [fst snd] in Hrun.
  assert (Hperson :
            forall k f g, nth_error unassigned k = Some f ->
                          In g after -> face_id g = face_id f ->
                          face_person g <> None ->
                          nth k labels noise <> noise /\
                          face_person g = dict_get cluster_map (nth k labels noise)).
  { intros k f g Hk Hg Hid Hassigned.
    destruct (Hat k f Hk) as [Hin [Hun Hfid]].
    unfold after in Hg. rewrite Hrun in Hg.
    destruct (orb _ _); [|destruct (fits embeddings); cbn [negb] in Hg].
    - cbn [fst] in Hg.
      rewrite (nodup_face_id_inj _ g f Hnd Hg Hin Hid) in Hassigned.
      unfold unclustered in Hun. destruct (face_person f); [discriminate|congruence].
    - cbn [fst] in Hg. rewrite set_thumbnails_faces in Hg. cbn [faces with_faces] in Hg.
      apply in_map_iff in Hg. destruct Hg as [g0 [Hg0 Hin0]].
      assert (g0 = f).
      { apply (nodup_face_id_inj _ g0 f Hnd Hin0 Hin).
        rewrite <- Hid, <- Hg0, assign_face_id. reflexivity. }
      subst g0.
      assert (Hklt : k < List.length labels).
      { rewrite Hllen. apply nth_error_Some. congruence. }
      destruct (Z.eq_dec (nth k labels noise) noise) as [Hn|Hn].
      + exfalso. apply Hassigned. rewrite <- Hg0. rewrite assign_miss.
        * unfold unclustered in Hun. destruct (face_person f); [discriminate|reflexivity].
        * intros j l Hj Hl Hjf. simpl in Hjf.
          rewrite (Honly k f j Hfid Hjf) in Hj.
          rewrite (nth_error_nth labels k noise Hj) in Hn. contradiction.
      + split; [exact Hn|]. rewrite <- Hg0.
        pose proof (Hkeys (nth k labels noise)
                      (proj2 (Hmem _) (nth_In labels noise Hklt)) Hn) as Hget.
        destruct (dict_get cluster_map (nth k labels noise)) as [pid|] eqn:Hpid;
          [|congruence].
        apply (assign_hit face_ids cluster_map labels 0 f k (nth k labels noise) pid).
        * apply nth_error_nth'. exact Hklt.
        * exact Hn.
        * exact Hpid.
        * exact Hfid.
        * intros j Hne Hj. apply Hne. exact (Honly k f j Hfid Hj).
        * intros l' Hl'. apply Hkeys. apply Hmem. exact Hl'.
        * simpl. rewrite Hllen. lia.
    - exfalso. cbn [fst] in Hg.
      rewrite (nodup_face_id_inj _ g f Hnd Hg Hin Hid) in Hassigned.
      unfold unclustered in Hun. destruct (face_person f); [discriminate|congruence]. }
  intros k f g Hk Hg Hid Hassigned.
  destruct (Hperson k f g Hk Hg Hid Hassigned) as [Hn Hp].
  split; [exact Hn|].
  intros k' f' g' Hk' Hg' Hid' Hsame.
  destruct (Hat k' f' Hk') as [Hin' [Hun' Hfid']].
  assert (Hassigned' : face_person g' <> None).
  { unfold after in Hg'. rewrite Hrun in Hg'.
    destruct (Hat k f Hk) as [Hin [Hun _]].
    destruct (orb _ _) eqn:Hearly;
      [|destruct (fits embeddings) eqn:Hfits; cbn [negb] in Hg', Hrun].
    - exfalso. unfold after in Hg. rewrite Hrun in Hg. cbn [fst] in Hg.
      rewrite (nodup_face_id_inj _ g f Hnd Hg Hin Hid) in Hassigned.
      unfold unclustered in Hun. destruct (face_person f); [discriminate|congruence].
    - cbn [fst] in Hg'. rewrite set_thumbnails_faces in Hg'.
      cbn [faces with_faces] in Hg'.
      apply in_map_iff in Hg'. destruct Hg' as [g0 [Hg0 Hin0]].
      assert (g0 = f').
      { apply (nodup_face_id_inj _ g0 f' Hnd Hin0 Hin').
        rewrite <- Hid', <- Hg0, assign_face_id. reflexivity. }
      subst g0.
      assert (Hklt : k' < List.length labels).
      { rewrite Hllen. apply nth_error_Some. congruence. }
      pose proof (Hkeys (nth k' labels noise)
                    (proj2 (Hmem _) (nth_In labels noise Hklt))
                    ltac:(rewrite Hsame; exact Hn)) as Hget.
      destruct (dict_get cluster_map (nth k' labels noise)) as [pid|] eqn:Hpid;
        [|congruence].
      rewrite <- Hg0.
      rewrite (assign_hit face_ids cluster_map labels 0 f' k' (nth k' labels noise) pid).
      + discriminate.
      + apply nth_error_nth'. exact Hklt.
      + rewrite Hsame. exact Hn.
      + exact Hpid.
      + exact Hfid'.
      + intros j Hne Hj. apply Hne. exact (Honly k' f' j Hfid' Hj).
      + intros l' Hl'. apply Hkeys. apply Hmem. exact Hl'.
      + simpl. rewrite Hllen. lia.
    - exfalso. unfold after in Hg. rewrite Hrun in Hg. cbn [fst] in Hg.
      rewrite (nodup_face_id_inj _ g f Hnd Hg Hin Hid) in Hassigned.
      unfold unclustered in Hun. destruct (face_person f); [discriminate|congruence]. }
  destruct (Hperson k' f' g' Hk' Hg' Hid' Hassigned') as [_ Hp'].
  rewrite Hp, Hp', Hsame. reflexivity.
Qed.

End Facts.

End GoodPathFacts.

(** ** The exact instance is reflexive and symmetric *)

Module ExactFacts.
Import Clusterer.
Local Open Scope Z_scope.

Lemma dot_comm (u : list Z) : forall v, dot u v = dot v u.
Proof.
  induction u as [|x u IH]; intros [|y v]; simpl; try reflexivity.
  rewrite IH. lia.
Qed.

Lemma dot_self_nonneg (u : list Z) : 0 <= dot u u.
Proof. induction u as [|x u IH]; simpl; nia. Qed.

Lemma near_exact_refl (u : list Z) : near_exact u u = true.
Proof.
  unfold near_exact. pose proof (dot_self_nonneg u) as H.
  destruct (Z.eqb (dot u u) 0) eqn:E; cbn [andb orb]; [reflexivity|].
  apply andb_true_iff. split; [apply Z.leb_le; exact H|].
  apply Z.leb_le. revert H. generalize (dot u u). intros z Hz. nia.
Qed.

Lemma near_exact_sym (u v : list Z) : near_exact u v = near_exact v u.
Proof.
  unfold near_exact. rewrite (dot_comm u v), (Z.mul_comm (dot u u) (dot v v)).
  destruct (Z.eqb (dot u u) 0), (Z.eqb (dot v v) 0); reflexivity.
Qed.

End ExactFacts.


(** ** Where the reference invariant is kept *)

Module InvariantFacts.
Import Database Clusterer Assignment Scanner.
Import DatabaseFacts MergeFacts PersonFacts AssignmentFacts RunFacts.
Local Open Scope list_scope.

Lemma refs_valid_iff (db : Db) :
  refs_valid db = true <->
  forall f p, In f (faces db) -> face_person f = Some p -> person_exists db p = true.
Proof.
  unfold refs_valid. rewrite forallb_forall. split.
  - intros H f p Hf Hp. specialize (H f Hf). rewrite Hp in H. exact H.
  - intros H f Hf. destruct (face_person f) as [p|] eqn:Hp; [|reflexivity].
    exact (H f p Hf Hp).
Qed.

Lemma person_exists_delete (db : Db) (merge q : Z) :
  q <> merge -> person_exists (delete_person db merge) q = person_exists db q.
Proof.
  intros Hne. unfold person_exists, delete_person, with_persons. cbn [persons].
  induction (persons db) as [|p r IH]; [reflexivity|].
  cbn [filter existsb]. destruct (Z.eqb (person_id p) merge) eqn:Hm; cbn [negb].
  - rewrite IH. apply Z.eqb_eq in Hm.
    destruct (Z.eqb (person_id p) q) eqn:Hq; [|reflexivity].
    apply Z.eqb_eq in Hq. congruence.
  - cbn [existsb]. rewrite IH. reflexivity.
Qed.

(** A merge into another person that exists keeps the invariant. *)
Lemma refs_valid_merge (db : Db) (keep merge : Z) :
  keep <> merge -> person_exists db keep = true ->
  refs_valid db = true -> refs_valid (merge_persons db keep merge) = true.
Proof.
  intros Hne Hkeep Hv. rewrite refs_valid_iff in *. intros f p Hf Hp.
  rewrite merge_persons_faces in Hf. apply in_map_iff in Hf.
  destruct Hf as [g [<- Hg]]. unfold merge_persons.
  assert (Hpm : p <> merge).
  { intros ->. exact (moved_not_merge keep merge g Hne Hp). }
  rewrite person_exists_delete by exact Hpm.
  change (person_exists (move_faces db keep merge) p) with (person_exists db p).
  unfold moved in Hp. destruct (opt_Z_eqb (face_person g) merge).
  - cbn [set_face_person face_person] in Hp. injection Hp as <-. exact Hkeep.
  - exact (Hv g p Hg Hp).
Qed.

Lemma refs_valid_rename (db : Db) (pid : Z) (name : string) :
  refs_valid db = true -> refs_valid (rename_person db pid name) = true.
Proof.
  intros Hv. rewrite refs_valid_iff in *. intros f p Hf Hp.
  assert (He : person_exists (rename_person db pid name) p = person_exists db p).
  { unfold person_exists, rename_person, with_persons. cbn [persons].
    induction (persons db) as [|x r IH]; [reflexivity|].
    cbn [map existsb]. rewrite IH. destruct (Z.eqb (person_id x) pid); reflexivity. }
  rewrite He. exact (Hv f p Hf Hp).
Qed.

Lemma add_faces_new (db : Db) (path : string) (ds : list Detection) :
  forall f, In f (faces (add_faces db path ds)) ->
            In f (faces db) \/ face_person f = None.
Proof.
  unfold add_faces. revert db. induction ds as [|d ds IH]; intros db f Hf.
  - left. exact Hf.
  - cbn [fold_left] in Hf. destruct (IH _ f Hf) as [H|H]; [|right; exact H].
    unfold insert_face in H. cbn [faces] in H. apply in_app_or in H.
    destruct H as [H|[<-|[]]]; [left; exact H|right; reflexivity].
Qed.

Section Scan.

Variable fs : FileSystem.
Variable processor : option (string -> option (list Detection)).
Variable progress_callback : bool.
Variable abort_check : option (nat -> bool).

Lemma extends_refl (db : Db) : extends db db.
Proof. split; [reflexivity|]. intros f Hf. left. exact Hf. Qed.

Lemma extends_trans (a b c : Db) : extends a b -> extends b c -> extends a c.
Proof.
  intros [Hp1 Hf1] [Hp2 Hf2]. split; [congruence|].
  intros f Hf. destruct (Hf2 f Hf) as [H|H]; [apply Hf1; exact H|right; exact H].
Qed.

Lemma scan_file_extends (db db' : Db) (p : string) (ev : list event) :
  scan_file fs processor db p = (ev, Some db') -> extends db db'.
Proof.
  unfold scan_file. destruct (getmtime fs p) as [m|]; [|discriminate].
  destruct (file_exists db p m).
  - intros H. injection H as _ <-. apply extends_refl.
  - unfold detect. destruct processor as [f|].
    + destruct (f p) as [[|d ds]|].
      * intros H. injection H as _ <-. split; [reflexivity|].
        intros g Hg. left. exact Hg.
      * pose proof (add_faces_persons (add_file db p (calculate_hash fs p) m) p
                      (d :: ds)) as Hp.
        pose proof (add_faces_new (add_file db p (calculate_hash fs p) m) p
                      (d :: ds)) as Hn.
        intros H. injection H as _ <-. split; [exact Hp|exact Hn].
      * intros H. injection H as _ <-. split; [reflexivity|].
        intros g Hg. left. exact Hg.
    + intros H. injection H as _ <-. split; [reflexivity|].
      intros g Hg. left. exact Hg.
Qed.

Lemma scan_loop_extends (total : nat) (todo : list string) :
  forall idx k db,
    extends db (loop_db (scan_loop fs processor progress_callback abort_check
                                   total todo idx k db)).
Proof.
  induction todo as [|p rest IH]; intros idx k db; [apply extends_refl|].
  rewrite ScannerFacts.scan_loop_cons. cbv zeta.
  destruct (poll abort_check idx) as [ev2 stop]. destruct stop; [apply extends_refl|].
  destruct (scan_file fs processor db p) as [ev3 [db'|]] eqn:Hf; [|apply extends_refl].
  cbn [loop_db]. eapply extends_trans; [eapply scan_file_extends; exact Hf|apply IH].
Qed.

Lemma refs_valid_extends (db db' : Db) :
  extends db db' -> refs_valid db = true -> refs_valid db' = true.
Proof.
  intros [Hp Hf] Hv. rewrite refs_valid_iff in *. intros f p Hin Hper.
  unfold person_exists. rewrite Hp.
  destruct (Hf f Hin) as [H|H]; [exact (Hv f p H Hper)|congruence].
Qed.

(** A scan keeps the invariant. *)
Lemma refs_valid_scan (root : string) (db : Db) :
  refs_valid db = true ->
  refs_valid (scan_db (scan_directory fs processor progress_callback abort_check
                                      root db)) = true.
Proof.
  intros Hv. unfold scan_directory.
  destruct (negb (path_exists fs root)); [exact Hv|].
  pose proof (scan_loop_extends (List.length (image_files fs root))
                (image_files fs root) 0 0 db) as He.
  destruct (loop_exit _); cbn [scan_db]; eapply refs_valid_extends; eassumption.
Qed.

End Scan.

Section Run.

Variable E : Type.
Variable loads : string -> option E.
Variable near : E -> E -> bool.
Variable fits : list E -> bool.

Lemma create_persons_exist (todo : list Z) :
  forall db cluster_map count db1 cluster_map1 count1,
    create_persons todo db cluster_map count = (db1, cluster_map1, count1) ->
    (forall l v, dict_get cluster_map l = Some v -> person_exists db v = true) ->
    (forall q, person_exists db q = true -> person_exists db1 q = true) /\
    (forall l v, dict_get cluster_map1 l = Some v -> person_exists db1 v = true).
Proof.
  induction todo as [|label rest IH]; intros db cmap count db1 cmap1 count1 Hrun Hold.
  - simpl in Hrun. injection Hrun as <- <- <-. split; [auto|exact Hold].
  - cbn [create_persons] in Hrun. destruct (Z.eqb label noise).
    + exact (IH _ _ _ _ _ _ Hrun Hold).
    + pose proof (person_exists_create db (Some ("Person " ++ show_Z (label + 1))%string))
        as Hpe.
      destruct (create_person db (Some ("Person " ++ show_Z (label + 1))%string))
        as [db' pid]. cbn [fst snd] in Hpe.
      assert (Hold' : forall l v, dict_get (dict_set cmap label pid) l = Some v ->
                                  person_exists db' v = true).
      { intros l v Hl. rewrite Hpe. apply orb_true_iff.
        destruct (Z.eq_dec l label) as [->|Hne].
        - rewrite dict_get_set_same in Hl. injection Hl as <-.
          right. apply Z.eqb_refl.
        - rewrite dict_get_set_other in Hl by exact Hne. left. exact (Hold l v Hl). }
      destruct (IH _ _ _ _ _ _ Hrun Hold') as [Hmono Hnew].
      split; [|exact Hnew]. intros q Hq. apply Hmono. rewrite Hpe, Hq. reflexivity.
Qed.

Lemma assign_person (face_ids : list Z) (cluster_map : list (Z * Z)) (labels : list Z) :
  forall idx f,
    face_person (assign face_ids cluster_map labels idx f) = face_person f \/
    exists l, dict_get cluster_map l
              = face_person (assign face_ids cluster_map labels idx f).
Proof.
  induction labels as [|label rest IH]; intros idx f; cbn [assign]; [left; reflexivity|].
  destruct (Z.eqb label noise); [apply IH|].
  destruct (dict_get cluster_map label) as [pid|] eqn:Hpid; [|left; reflexivity].
  destruct (nth_error face_ids idx) as [fid|]; [|left; reflexivity].
  destruct (Z.eqb (face_id f) fid); [|apply IH].
  destruct (IH (S idx) (set_face_person (Some pid) f)) as [H|H]; [|right; exact H].
  right. exists label. rewrite H. exact Hpid.
Qed.

(** A run of the clusterer keeps the invariant. *)
Lemma refs_valid_run_clustering (db : Db) :
  refs_valid db = true ->
  refs_valid (fst (run_clustering E loads near fits db)) = true.
Proof.
  intros Hv. rewrite run_clustering_unfold. cbv zeta.
  destruct (orb _ _); [exact Hv|].
  destruct (fits _); cbn [negb]; [|exact Hv].
  destruct (create_persons _ db [] 0) as [[db1 cluster_map] count] eqn:Hcreate.
  destruct (create_persons_exist _ _ _ _ _ _ _ Hcreate) as [Hmono Hnew];
    [intros l v H; discriminate|].
  cbn [fst snd]. rewrite refs_valid_iff in *. intros f p Hf Hp.
  rewrite set_thumbnails_persons. rewrite set_thumbnails_faces in Hf.
  cbn [faces with_faces] in Hf. apply in_map_iff in Hf. destruct Hf as [g [<- Hg]].
  change (person_exists db1 p = true).
  destruct (assign_person (fst (collect E loads (get_unclustered_faces db)))
              cluster_map
              (dbscan E near (snd (collect E loads (get_unclustered_faces db))))
              0 g) as [H|[l H]].
  - apply Hmono. apply (Hv g p Hg). rewrite <- H. exact Hp.
  - apply (Hnew l p). rewrite H. exact Hp.
Qed.

End Run.

Section Worlds.

Import Session.

Lemma lookup_store_index (l : list (string * Db)) (p q : string) (db : Db) :
  lookup_index (store_index l p db) q
  = if String.eqb p q then Some db else lookup_index l q.
Proof.
  induction l as [|[k d] r IH]; cbn [store_index lookup_index].
  - reflexivity.
  - destruct (String.eqb k p) eqn:Hk; cbn [lookup_index].
    + apply String.eqb_eq in Hk. subst k. destruct (String.eqb p q); reflexivity.
    + rewrite IH. destruct (String.eqb k q) eqn:Hq; [|reflexivity].
      apply String.eqb_eq in Hq. subst k. rewrite String.eqb_sym, Hk. reflexivity.
Qed.

Lemma lookup_remove_index (l : list (string * Db)) (p q : string) (db : Db) :
  lookup_index (remove_index l p) q = Some db -> lookup_index l q = Some db.
Proof.
  unfold remove_index. induction l as [|[k d] r IH]; cbn [filter lookup_index fst].
  - discriminate.
  - destruct (String.eqb k p) eqn:Hk; cbn [negb lookup_index].
    + intros H. specialize (IH H). destruct (String.eqb k q) eqn:Hq; [|exact IH].
      apply String.eqb_eq in Hk, Hq. subst p q. exfalso. clear IH.
      induction r as [|[k' d'] r IHr]; cbn [filter lookup_index fst] in H;
        [discriminate|].
      destruct (String.eqb k' k) eqn:Hk'; cbn [negb lookup_index] in H;
        [exact (IHr H)|]. rewrite Hk' in H. exact (IHr H).
    + destruct (String.eqb k q); [auto|exact IH].
Qed.

Lemma world_valid_with_index (w : World) (p : string) (db : Db) :
  world_valid w -> refs_valid db = true -> world_valid (with_index w p db).
Proof.
  intros Hw Hdb q d. unfold with_index. cbn [indexes].
  rewrite lookup_store_index. destruct (String.eqb p q).
  - intros H. injection H as <-. exact Hdb.
  - apply Hw.
Qed.

Lemma world_valid_with_flag (w : World) (b : bool) :
  world_valid w -> world_valid (with_flag w b).
Proof. intros Hw q d. exact (Hw q d). Qed.

Variable E : Type.
Variable loads : string -> option E.
Variable near : E -> E -> bool.
Variable fits : list E -> bool.
Variable rmtree : string -> removal.
Variable available_providers : option (list string).

(** Every command keeps the invariant, except a MERGE_PERSONS whose two
    ids are equal or whose keep_id names no person. *)
Lemma handle_command_keeps_refs (cmd : Command) (w : World) :
  world_valid w ->
  (action_is cmd "MERGE_PERSONS" = true ->
   int (cmd_keep_id cmd) <> int (cmd_merge_id cmd) /\
   forall db, lookup_index (indexes w) (str (cmd_path cmd)) = Some db ->
              person_exists db (int (cmd_keep_id cmd)) = true) ->
  world_valid (step_world (handle_command E loads near fits rmtree
                             available_providers cmd w)).
Proof.
  intros Hw Hmerge. unfold handle_command, with_database.
  repeat match goal with
         | |- context [if action_is cmd ?a then _ else _] =>
             destruct (action_is cmd a)
         | |- context [if truthy_str ?x then _ else _] => destruct (truthy_str x)
         | |- context [if andb ?x ?y then _ else _] => destruct (andb x y)
         | |- context [match available_providers with _ => _ end] =>
             destruct available_providers
         end;
    try exact Hw;
    try (destruct (lookup_index (indexes w) (str (cmd_path cmd))) as [db|] eqn:Hdb;
         [|exact Hw]);
    try exact Hw.
  - pose proof (refs_valid_run_clustering E loads near fits db (Hw _ _ Hdb)) as Hv.
    destruct (run_clustering E loads near fits db) as [db' [count|]];
      apply world_valid_with_index; assumption.
  - destruct (rmtree (str (cmd_path cmd))); [|exact Hw|].
    + intros q d H. cbn [step_world indexes] in H.
      apply lookup_remove_index in H. exact (Hw q d H).
    + apply world_valid_with_index; [exact Hw|reflexivity].
  - apply world_valid_with_index; [exact Hw|].
    apply refs_valid_rename. exact (Hw _ _ Hdb).
  - destruct (Hmerge eq_refl) as [Hne Hkeep].
    apply world_valid_with_index; [exact Hw|].
    apply refs_valid_merge; [exact Hne|exact (Hkeep db eq_refl)|exact (Hw _ _ Hdb)].
Qed.

(** A scan started from the session keeps the invariant. *)
Lemma run_scan_keeps_refs (fs : FileSystem) (mkdir_ok : bool)
      (make_processor : bool -> option (string -> option (list Detection)))
      (flag_reads : nat -> bool) (path provider : string) (w : World) :
  world_valid w ->
  world_valid (fst (run_scan fs mkdir_ok make_processor flag_reads path provider w)).
Proof.
  intros Hw. unfold run_scan.
  destruct (negb mkdir_ok); [apply world_valid_with_flag; exact Hw|].
  assert (Hdb : refs_valid (match lookup_index (indexes (with_flag w false)) path with
                            | Some db => db
                            | None => init_db
                            end) = true).
  { cbn [with_flag indexes].
    destruct (lookup_index (indexes w) path) as [db|] eqn:H; [exact (Hw _ _ H)|reflexivity]. }
  assert (Hw1 : world_valid
                  (with_index (with_flag w false) path
                     (match lookup_index (indexes (with_flag w false)) path with
                      | Some db => db
                      | None => init_db
                      end))).
  { apply world_valid_with_index; [apply world_valid_with_flag; exact Hw|exact Hdb]. }
  destruct (make_processor (contains "CUDA" provider)) as [processor|]; [|exact Hw1].
  assert (Hw2 : forall r flag,
             refs_valid (scan_db r) = true ->
             world_valid (with_flag (with_index
                (with_index (with_flag w false) path
                   (match lookup_index (indexes (with_flag w false)) path with
                    | Some db => db
                    | None => init_db
                    end)) path (scan_db r)) flag)).
  { intros r flag Hr. apply world_valid_with_flag.
    apply world_valid_with_index; assumption. }
  destruct (scan_outcome _); cbn [fst]; apply Hw2; apply refs_valid_scan; exact Hdb.
Qed.

End Worlds.

End InvariantFacts.

(** ** The files a scan goes through *)

Module VisitFacts.
Import Database Scanner ScannerFacts LoopFacts Visits.
Local Open Scope list_scope.

Lemma went_through_app (a b : list event) :
  went_through (a ++ b) = went_through a ++ went_through b.
Proof. unfold went_through. apply flat_map_app. Qed.

Lemma went_through_progress (cb : bool) (k total : nat) (f : string) :
  went_through (on_progress cb k total f) = [].
Proof. unfold on_progress. destruct cb; reflexivity. Qed.

Lemma went_through_poll (abort_check : option (nat -> bool)) (idx : nat) :
  went_through (fst (poll abort_check idx)) = [].
Proof. unfold poll. destruct abort_check; reflexivity. Qed.

Lemma went_through_in (trace : list event) (q : string) :
  In q (went_through trace) <-> In (Getmtime q) trace.
Proof.
  unfold went_through. rewrite in_flat_map. split.
  - intros [e [He Hq]]. destruct e; cbn in Hq; try contradiction.
    destruct Hq as [<-|[]]. exact He.
  - intros H. exists (Getmtime q). split; [exact H|left; reflexivity].
Qed.

Section Facts.

Variable fs : FileSystem.
Variable processor : option (string -> option (list Detection)).
Variable progress_callback : bool.
Variable abort_check : option (nat -> bool).

Local Abbreviation scan_file := (scan_file fs processor).
Local Abbreviation scan_loop :=
  (scan_loop fs processor progress_callback abort_check).

Lemma went_through_scan_file (db : Db) (p : string) :
  went_through (fst (scan_file db p)) = [p].
Proof.
  unfold Scanner.scan_file. destruct (getmtime fs p) as [m|]; [|reflexivity].
  destruct (file_exists db p m); [reflexivity|].
  unfold detect. destruct processor as [pi|]; [|reflexivity].
  destruct (pi p) as [[|d ds]|]; reflexivity.
Qed.

(** A loop that does not fail went through the first [loop_processed]
    files of the enumeration, and every one of them is indexed. *)
Lemma loop_went_through (total : nat) (todo : list string) :
  forall idx k db,
    let r := scan_loop total todo idx k db in
    loop_exit r <> Failed ->
    went_through (loop_trace r) = firstn (loop_processed r - k) todo /\
    k <= loop_processed r <= k + List.length todo /\
    forall q, In q (went_through (loop_trace r)) -> indexed fs (loop_db r) q.
Proof.
  induction todo as [|p rest IH]; intros idx k db; cbv zeta.
  - cbn [Scanner.scan_loop loop_trace loop_processed loop_db List.length].
    intros _. rewrite Nat.sub_diag. split; [reflexivity|]. split; [lia|intros q []].
  - rewrite scan_loop_cons. cbv zeta.
    pose proof (went_through_poll abort_check idx) as Hpoll.
    destruct (poll abort_check idx) as [ev2 stop]. cbn [fst] in Hpoll.
    destruct stop.
    + cbn [loop_exit loop_trace loop_processed loop_db]. intros _.
      rewrite went_through_app, went_through_progress, Hpoll, Nat.sub_diag.
      split; [reflexivity|]. split; [cbn [List.length]; lia|intros q []].
    + pose proof (went_through_scan_file db p) as Hsf.
      destruct (scan_file db p) as [ev3 [db'|]] eqn:Hfile; cbn [fst] in Hsf.
      2:{ cbn [loop_exit]. intros H. congruence. }
      cbn [loop_exit loop_trace loop_processed loop_db]. intros Hexit.
      destruct (IH (S idx) (S k) db' Hexit) as [Hw [Hk Hidx]].
      rewrite !went_through_app, went_through_progress, Hpoll, Hsf, Hw.
      cbn [app]. split; [|split].
      * replace (loop_processed (scan_loop total rest (S idx) (S k) db') - k)
          with (S (loop_processed (scan_loop total rest (S idx) (S k) db') - S k))
          by lia.
        reflexivity.
      * cbn [List.length]. lia.
      * intros q [<-|Hq].
        -- apply scan_loop_keeps. exact (scan_file_indexes fs processor db db' p ev3 Hfile).
        -- apply Hidx. rewrite Hw. exact Hq.
Qed.

End Facts.

End VisitFacts.
(** * The claims *)

Import Database Scanner Clusterer Session Required Visits Rescan.
Import DatabaseFacts ScannerFacts TraceFacts LoopFacts MarkerFacts DirectoryFacts.
Import MergeFacts SessionFacts VisitFacts.
Local Open Scope list_scope.

(** C1: three unclustered faces, the first with an embedding that does not
    parse.  The run clusters the embeddings of faces 2 and 3 (both get label
    0), creates one person, and assigns it to faces 1 and 2: the face that
    failed to parse gets a person, and face 3 stays unassigned although its
    own embedding is in the cluster. *)
Theorem unparsable_embedding_shifts_assignment :
  let db := Samples.store_with_bad_embedding in
  parse (list Z) loads_exact (CText "not json") = None /\
  collect (list Z) loads_exact (Database.get_unclustered_faces db)
  = ([1; 2; 3]%Z, [[3; 4]%Z; [4; 3]%Z]) /\
  dbscan_run (list Z) near_exact [[3; 4]%Z; [4; 3]%Z] = Some [0; 0]%Z /\
  snd (run_clustering_exact db) = Some 1 /\
  map (fun f => (face_id f, face_person f)) (faces (fst (run_clustering_exact db)))
  = [(1, Some 1); (2, Some 1); (3, None)]%Z.
Proof. cbv zeta. repeat split; reflexivity. Qed.

(** C2, as stated, fails: a scan of two images that is cancelled at the
    first check ends with the event (0, 2, "Complete"), not (2, 2, ...). *)
Lemma cancelled_scan_final_count_is_not_total :
  let fs := Samples.album false in
  let r := scan_directory fs None true (Some (fun _ => true)) Samples.photos init_db in
  path_exists fs Samples.photos = true /\
  scan_outcome r = Returned /\
  scan_trace r = [Progress 0 2 "a.jpg"; AbortCheck true; Progress 0 2 "Complete"] /\
  ~ Stated.final_event_reports_total fs None (Some (fun _ => true))
      Samples.photos init_db.
Proof.
  cbv zeta. repeat split.
  intros [t Ht]. vm_compute in Ht.
  destruct t as [|e1 [|e2 [|e3 [|e4 t]]]]; discriminate.
Qed.

(** C2, amended: when the loop of a scan has ended (by exhaustion or by
    [break]), the scan emits one more progress event, with the completion
    marker, which no event of the loop carries.  Its count [c] is the
    number of files the loop went through: the files whose modification
    time the scan asked for are exactly the first [c] files of the
    enumeration, in order, and each of them is indexed afterwards.  The
    count is the total when no abort check returned true and is below the
    total when one did. *)
Theorem final_progress_reports_processed_count (fs : FileSystem)
        (processor : option (string -> option (list Detection)))
        (abort_check : option (nat -> bool)) (root : string) (db : Db) :
  path_exists fs root = true ->
  let todo := image_files fs root in
  let total := List.length todo in
  let lp := scan_loop fs processor true abort_check total todo 0 0 db in
  let r := scan_directory fs processor true abort_check root db in
  let c := List.length (went_through (scan_trace r)) in
  scan_outcome r = Returned ->
  scan_trace r = loop_trace lp ++ [Progress c total "Complete"] /\
  (forall current n, ~ In (Progress current n "Complete") (loop_trace lp)) /\
  went_through (scan_trace r) = firstn c todo /\
  c = loop_processed lp /\
  (forall q, In q (went_through (scan_trace r)) -> indexed fs (scan_db r) q) /\
  (~ In (AbortCheck true) (scan_trace r) -> c = total) /\
  (In (AbortCheck true) (scan_trace r) -> c < total).
Proof.
  intros Hroot todo total lp r c.
  pose proof (completion_marker_once fs processor true abort_check root db Hroot)
    as Hmarker. cbv zeta in Hmarker. fold todo total lp in Hmarker.
  pose proof (scan_directory_existing_root fs processor true abort_check root db Hroot)
    as Hr. cbv zeta in Hr. fold todo total lp r in Hr.
  pose proof (scan_loop_processed fs processor true abort_check total todo 0 0 db)
    as Hcount. cbv zeta in Hcount. fold lp in Hcount.
  pose proof (broke_iff_check_true fs processor true abort_check total todo 0 0 db)
    as Hbroke. fold lp in Hbroke.
  pose proof (loop_went_through fs processor true abort_check total todo 0 0 db)
    as Hwent. cbv zeta in Hwent. fold lp in Hwent.
  intros Hret.
  assert (Hok : loop_exit lp <> Failed).
  { intros Hf. rewrite Hr, Hf in Hret. discriminate. }
  destruct (Hwent Hok) as [Hw [Hle Hidx]]. rewrite Nat.sub_0_r in Hw.
  assert (Htrace : scan_trace r
                   = loop_trace lp ++ [Progress (loop_processed lp) total "Complete"]).
  { rewrite Hr. destruct (loop_exit lp); try reflexivity. contradiction. }
  assert (Hdb : scan_db r = loop_db lp).
  { rewrite Hr. destruct (loop_exit lp); reflexivity. }
  assert (Hsame : went_through (scan_trace r) = went_through (loop_trace lp)).
  { rewrite Htrace, went_through_app. apply app_nil_r. }
  assert (Hc : c = loop_processed lp).
  { unfold c. rewrite Hsame, Hw. apply firstn_length_le. fold total. lia. }
  split; [rewrite Hc; exact Htrace|]. split; [exact Hmarker|].
  split; [rewrite Hc, Hsame; exact Hw|]. split; [exact Hc|].
  split; [intros q Hq; rewrite Hdb; apply Hidx; rewrite <- Hsame; exact Hq|].
  rewrite Hc. rewrite Htrace.
  destruct (loop_exit lp) eqn:Hexit; try contradiction; split; intros H.
  - exact Hcount.
  - apply in_app_or in H. destruct H as [H|[H|[]]]; [|discriminate].
    apply Hbroke in H. discriminate.
  - exfalso. apply H. apply in_or_app. left. apply Hbroke. reflexivity.
  - simpl in Hcount. lia.
Qed.

Lemma final_progress_reports_processed_count_witness :
  let fs := Samples.album false in
  let abort_check := Some (fun n => Nat.eqb n 1) in
  let r := scan_directory fs (Some Samples.detector) true abort_check
             Samples.photos init_db in
  path_exists fs Samples.photos = true /\
  scan_outcome r = Returned /\
  went_through (scan_trace r) = ["/photos/a.jpg"] /\
  (exists t, scan_trace r = t ++ [Progress 1 2 "Complete"]) /\
  indexed fs (scan_db r) "/photos/a.jpg".
Proof.
  cbv zeta. split; [reflexivity|]. split; [reflexivity|].
  destruct (final_progress_reports_processed_count (Samples.album false)
              (Some Samples.detector) (Some (fun n => Nat.eqb n 1))
              Samples.photos init_db eq_refl eq_refl)
    as [Htrace [_ [Hwent [_ [Hidx _]]]]].
  assert (Hw : went_through
                 (scan_trace (scan_directory (Samples.album false)
                                (Some Samples.detector) true
                                (Some (fun n => Nat.eqb n 1)) Samples.photos init_db))
               = ["/photos/a.jpg"]) by reflexivity.
  split; [exact Hw|]. split.
  - eexists. rewrite Hw in Htrace. exact Htrace.
  - apply Hidx. rewrite Hw. left. reflexivity.
Defined.

(** C3: for [keep <> merge] where both persons exist, after
    [merge_persons keep merge] no face has person id [merge], the person row
    [merge] is gone, and the face count of [keep] is the sum of the two
    counts before; another connection sees the store as it was before, up to
    the commit, and as it is after, and in neither does a face reference
    [merge] while the row of [merge] is missing. *)
Theorem merge_persons_integrity (db : Db) (keep merge : Z) :
  keep <> merge ->
  person_exists db keep = true ->
  person_exists db merge = true ->
  let db' := merge_persons db keep merge in
  (forall f, In f (faces db') -> face_person f <> Some merge) /\
  person_exists db' merge = false /\
  get_person_face_count db' keep
  = get_person_face_count db keep + get_person_face_count db merge /\
  merge_persons_observable db keep merge = [db; db; db; db'] /\
  (forall s f, In s (merge_persons_observable db keep merge) ->
               In f (faces s) -> face_person f = Some merge ->
               person_exists s merge = true).
Proof.
  intros Hne Hkeep Hmerge db'.
  assert (Hfaces : forall f, In f (faces db') -> face_person f <> Some merge).
  { intros f Hf. unfold db' in Hf. rewrite merge_persons_faces in Hf.
    apply in_map_iff in Hf. destruct Hf as [g [<- _]].
    apply moved_not_merge. exact Hne. }
  split; [exact Hfaces|]. split; [|split; [|split]].
  - unfold db', person_exists, merge_persons, delete_person, with_persons.
    cbn [persons]. apply person_removed.
  - unfold get_person_face_count, db'. rewrite merge_persons_faces.
    apply count_moved. exact Hne.
  - reflexivity.
  - intros s f Hs Hf Hp. rewrite merge_persons_observable_states in Hs.
    destruct Hs as [<-|[<-|[<-|[<-|[]]]]]; try exact Hmerge.
    exfalso. exact (Hfaces f Hf Hp).
Qed.

Lemma merge_persons_integrity_witness :
  let db := fst (create_person
                   (fst (Clusterer.run_clustering_exact
                           Samples.store_with_null_and_outlier)) (Some "Ada")) in
  2%Z <> 1%Z /\
  person_exists db 2 = true /\
  person_exists db 1 = true /\
  get_person_face_count (merge_persons db 2 1) 2 = 2 /\
  person_exists (merge_persons db 2 1) 1 = false.
Proof.
  cbv zeta. split; [discriminate|]. split; [reflexivity|]. split; [reflexivity|].
  destruct (merge_persons_integrity
              (fst (create_person
                      (fst (Clusterer.run_clustering_exact
                              Samples.store_with_null_and_outlier)) (Some "Ada")))
              2 1 ltac:(discriminate) eq_refl eq_refl) as [_ [Hgone [Hcount _]]].
  split; [|exact Hgone].
  rewrite Hcount. reflexivity.
Defined.

(** C4: a session that scans the sample album, clusters it and then sends
    MERGE_PERSONS with keep_id = merge_id = 1 is answered persons_merged,
    and afterwards both faces still carry person id 1 while there is no
    person row left: the reference invariant is broken. *)
Theorem merge_with_itself_leaves_dangling_reference :
  step_output SampleSession.clustered = [RClustered 1] /\
  (exists db, lookup_index (indexes (step_world SampleSession.clustered))
                           Samples.photos = Some db /\
              refs_valid db = true) /\
  step_output SampleSession.merged_with_itself = [RPersonsMerged 1 1] /\
  exists db,
    lookup_index (indexes (step_world SampleSession.merged_with_itself))
                 Samples.photos = Some db /\
    map face_person (faces db) = [Some 1%Z; Some 1%Z] /\
    persons db = [] /\
    refs_valid db = false.
Proof.
  split; [reflexivity|]. split.
  - eexists. split; [reflexivity|reflexivity].
  - split; [reflexivity|]. eexists. split; [reflexivity|].
    split; [reflexivity|]. split; reflexivity.
Qed.

(** C5: the code does not do this.  A SCAN of a root that does not exist
    is not rejected.  [scan_directory], entered with a missing root, logs
    and returns like a scan that ended: it raises nothing, so no error
    status can follow from it.  And [run_scan] never lets it see the
    missing root: it first creates [<root>/.faceframe] with its parents,
    which creates the root, so that the scan runs over an empty directory.
    When the directories and the processor can be created the session
    prints started, a final progress event for zero files and complete
    (cancelled when the flag is set), never an error status, and it leaves
    an index for the root. *)
Theorem scan_of_missing_root_reports_completion (fs : FileSystem)
        (make_processor : bool -> option (string -> option (list Detection)))
        (flag_reads : nat -> bool) (path provider : string) (w : World)
        (processor : string -> option (list Detection)) :
  path_exists fs path = false ->
  make_processor (contains "CUDA" provider) = Some processor ->
  let r := run_scan fs true make_processor flag_reads path provider w in
  (forall p cb abort_check db,
      scan_directory fs p cb abort_check path db = mkScan [] db Returned) /\
  path_exists (after_mkdir fs path) path = true /\
  snd r = [RStarted path; RProgress 0 0 "Complete";
           if flag_reads 0 then RCancelled else RComplete path] /\
  ~ In RError (snd r) /\
  (flag_reads 0 = false -> ~ Stated.rejected_with_error (snd r)) /\
  lookup_index (indexes (fst r)) path
  = Some (match lookup_index (indexes w) path with
          | Some db => db
          | None => init_db
          end).
Proof.
  intros Hmissing Hproc. cbv zeta.
  split; [intros p cb a db; apply scan_directory_missing_root; exact Hmissing|].
  split; [unfold after_mkdir; cbn [path_exists]; rewrite String.eqb_refl; reflexivity|].
  assert (Hrun : run_scan fs true make_processor flag_reads path provider w
                 = (with_flag
                      (with_index
                         (with_index (with_flag w false) path
                            (match lookup_index (indexes w) path with
                             | Some db => db
                             | None => init_db
                             end)) path
                         (match lookup_index (indexes w) path with
                          | Some db => db
                          | None => init_db
                          end)) (flag_reads 0),
                    [RStarted path; RProgress 0 0 "Complete";
                     if flag_reads 0 then RCancelled else RComplete path])).
  { unfold run_scan. cbn [negb]. rewrite Hproc.
    unfold scan_directory, image_files, after_mkdir. cbn [path_exists walk].
    rewrite String.eqb_refl, Hmissing. reflexivity. }
  rewrite Hrun. cbn [fst snd]. split; [reflexivity|].
  assert (Hnoerr : ~ In RError [RStarted path; RProgress 0 0 "Complete";
                                if flag_reads 0 then RCancelled else RComplete path]).
  { intros [H|[H|[H|[]]]]; try discriminate.
    destruct (flag_reads 0); discriminate. }
  split; [exact Hnoerr|]. split.
  - intros _ [Herr _]. exact (Hnoerr Herr).
  - unfold with_flag, with_index. cbn [indexes].
    rewrite InvariantFacts.lookup_store_index, String.eqb_refl. reflexivity.
Qed.

Lemma scan_of_missing_root_reports_completion_witness :
  let r := run_scan Samples.nothing true (fun _ => Some Samples.detector)
                    (fun _ => false) "/photos/2019" "CPUExecutionProvider"
                    (mkWorld [] false) in
  path_exists Samples.nothing "/photos/2019" = false /\
  snd r = [RStarted "/photos/2019"; RProgress 0 0 "Complete";
           RComplete "/photos/2019"] /\
  ~ Stated.rejected_with_error (snd r) /\
  lookup_index (indexes (fst r)) "/photos/2019" = Some init_db.
Proof.
  cbv zeta. split; [reflexivity|].
  destruct (scan_of_missing_root_reports_completion Samples.nothing
              (fun _ => Some Samples.detector) (fun _ => false)
              "/photos/2019" "CPUExecutionProvider" (mkWorld [] false)
              Samples.detector eq_refl eq_refl) as [_ [_ [Hout [_ [Hnot Hdb]]]]].
  split; [exact Hout|]. split; [exact (Hnot eq_refl)|exact Hdb].
Defined.

(** C6: four unclustered faces, the first with a NULL embedding, the second
    with an embedding far from the other two.  The points of faces 2, 3, 4
    get the labels noise, 0, 0; the run assigns the new person to faces 2
    and 3: the face whose point is noise gets a person. *)
Theorem noise_face_assigned_after_parse_failure :
  let db := Samples.store_with_null_and_outlier in
  parse (list Z) loads_exact COther = None /\
  collect (list Z) loads_exact (Database.get_unclustered_faces db)
  = ([1; 2; 3; 4]%Z, [[5; 0]%Z; [3; 4]%Z; [4; 3]%Z]) /\
  dbscan_run (list Z) near_exact [[5; 0]%Z; [3; 4]%Z; [4; 3]%Z]
  = Some [noise; 0; 0]%Z /\
  snd (run_clustering_exact db) = Some 1 /\
  map (fun f => (face_id f, face_person f)) (faces (fst (run_clustering_exact db)))
  = [(1, None); (2, Some 1); (3, Some 1); (4, None)]%Z.
Proof. cbv zeta. repeat split; reflexivity. Qed.

(** C7: the code does not do this.  The scanner enumerates every image
    below the root, its own index directory included, and the processor
    writes a thumbnail [<12 digits>.jpg] into
    [<root>/.faceframe/thumbnails] for every face it finds.  On the sample
    album (two images, one face each) the first scan, run to its end,
    stores two File rows and two Face rows and leaves two thumbnails; the
    second scan, over the album the first scan left (the two images
    unchanged), enumerates four images: it skips the two photos, and it
    hashes the two thumbnails, writes a File row for each and runs the
    provider on them, which writes two more thumbnails.  The row counts
    go from (2, 2) to (4, 4). *)
Theorem rescan_enumerates_thumbnails_of_first_scan :
  let album := Samples.album false in
  let t1 := "/photos/.faceframe/thumbnails/0cc175b9c0f1.jpg" in
  let t2 := "/photos/.faceframe/thumbnails/92eb5ffee6ae.jpg" in
  image_files album Samples.photos = ["/photos/a.jpg"; "/photos/b.jpg"] /\
  scan_outcome first_scan = Returned /\
  went_through (scan_trace first_scan) = ["/photos/a.jpg"; "/photos/b.jpg"] /\
  thumbnails (scan_db first_scan) = [t1; t2] /\
  (List.length (files (scan_db first_scan)),
   List.length (faces (scan_db first_scan))) = (2, 2) /\
  (forall q, In q (image_files album Samples.photos) ->
             getmtime album_after_first_scan q = getmtime album q) /\
  image_files album_after_first_scan Samples.photos
  = ["/photos/a.jpg"; "/photos/b.jpg"; t1; t2] /\
  scan_trace second_scan
  = [Progress 0 4 "a.jpg"; Getmtime "/photos/a.jpg";
     Progress 1 4 "b.jpg"; Getmtime "/photos/b.jpg";
     Progress 2 4 "0cc175b9c0f1.jpg"; Getmtime t1; ReadFile t1; ProcessImage t1;
     Progress 3 4 "92eb5ffee6ae.jpg"; Getmtime t2; ReadFile t2; ProcessImage t2;
     Progress 4 4 "Complete"] /\
  map file_path (files (scan_db second_scan))
  = ["/photos/a.jpg"; "/photos/b.jpg"; t1; t2] /\
  thumbnails (scan_db second_scan)
  = [t1; t2; "/photos/.faceframe/thumbnails/4a8a08f09d37.jpg";
     "/photos/.faceframe/thumbnails/8277e0910d75.jpg"] /\
  (List.length (files (scan_db second_scan)),
   List.length (faces (scan_db second_scan))) = (4, 4).
Proof.
  cbv zeta. split; [reflexivity|]. split; [reflexivity|]. split; [reflexivity|].
  split; [reflexivity|]. split; [reflexivity|]. split.
  - intros q [<-|[<-|[]]]; reflexivity.
  - split; [reflexivity|]. split; [reflexivity|]. split; [reflexivity|].
    split; reflexivity.
Qed.

(** What the re-scan does keep to: when the first scan returned and none
    of its abort checks returned true, a second scan that finds the same
    files under the root as the first did (the first wrote no thumbnail),
    with the same modification times, leaves the store as the first scan
    left it, reads no file content and never runs the provider.  The
    files the first scan indexed are skipped; the rows that a re-scan
    adds come from files that were not there before. *)
Theorem rescan_after_completed_scan_changes_nothing (fs : FileSystem)
        (processor : option (string -> option (list Detection)))
        (abort1 abort2 : option (nat -> bool)) (root : string) (db : Db) :
  let r1 := scan_directory fs processor true abort1 root db in
  let r2 := scan_directory fs processor true abort2 root (scan_db r1) in
  scan_outcome r1 = Returned ->
  ~ In (AbortCheck true) (scan_trace r1) ->
  Stated.rescan_changes_nothing fs processor abort1 abort2 root db /\
  scan_db r2 = scan_db r1 /\
  (forall p, ~ In (ReadFile p) (scan_trace r2)) /\
  scan_outcome r2 = Returned.
Proof.
  intros r1 r2 Hret Hnoabort.
  assert (Hgoal : scan_db r2 = scan_db r1 /\
                  (forall e, In e (scan_trace r2) -> touches_content e = false) /\
                  scan_outcome r2 = Returned).
  { destruct (path_exists fs root) eqn:Hroot.
    2:{ unfold r2. rewrite scan_directory_missing_root by exact Hroot.
        cbn [scan_db scan_trace scan_outcome]. repeat split. intros e []. }
    pose proof (scan_directory_existing_root fs processor true abort1 root db Hroot)
      as Hr1. cbv zeta in Hr1. fold r1 in Hr1.
    pose proof (scan_directory_existing_root fs processor true abort2 root
                  (scan_db r1) Hroot) as Hr2. cbv zeta in Hr2. fold r2 in Hr2.
    set (todo := image_files fs root) in *.
    set (lp := scan_loop fs processor true abort1 (List.length todo) todo 0 0 db) in *.
    assert (Hexit : loop_exit lp = Exhausted).
    { destruct (loop_exit lp) eqn:Hexit; [reflexivity| |].
      - exfalso. apply Hnoabort. rewrite Hr1. cbn [scan_trace].
        apply in_or_app. left. apply broke_iff_check_true. exact Hexit.
      - rewrite Hr1 in Hret. discriminate. }
    assert (Hdb1 : scan_db r1 = loop_db lp).
    { rewrite Hr1, Hexit. reflexivity. }
    assert (Hall : forall q, In q todo -> indexed fs (scan_db r1) q).
    { intros q Hq. rewrite Hdb1. apply scan_loop_exhausted_indexes; assumption. }
    destruct (scan_loop_all_indexed fs processor true abort2 (List.length todo) todo
                0 0 (scan_db r1) Hall) as [Hsame [Hquiet Hok]].
    set (lp2 := scan_loop fs processor true abort2 (List.length todo) todo 0 0
                  (scan_db r1)) in *.
    rewrite forallb_forall in Hquiet.
    rewrite Hr2. destruct (loop_exit lp2); try contradiction;
      cbn [scan_db scan_trace scan_outcome];
      (split; [exact Hsame|]); (split; [|reflexivity]);
      intros e He; apply in_app_or in He; destruct He as [He|He];
      try (apply Hquiet in He; destruct (touches_content e); [discriminate|reflexivity]);
      apply on_progress_events in He; subst e; reflexivity. }
  destruct Hgoal as [Hsame [Hquiet Hok]].
  split; [|split; [exact Hsame|split; [|exact Hok]]].
  - unfold Stated.rescan_changes_nothing. cbv zeta. fold r1 r2. rewrite Hsame.
    split; [reflexivity|]. split; [reflexivity|].
    intros p Hp. apply Hquiet in Hp. discriminate.
  - intros p Hp. apply Hquiet in Hp. discriminate.
Qed.

Lemma rescan_after_completed_scan_changes_nothing_witness :
  let fs := Samples.album false in
  let r1 := scan_directory fs (Some Samples.detector) true (Some (fun _ => false))
              Samples.photos init_db in
  let r2 := scan_directory fs (Some Samples.detector) true None Samples.photos
              (scan_db r1) in
  scan_outcome r1 = Returned /\
  ~ In (AbortCheck true) (scan_trace r1) /\
  Stated.rescan_changes_nothing fs (Some Samples.detector) (Some (fun _ => false))
    None Samples.photos init_db /\
  scan_db r2 = scan_db r1.
Proof.
  cbv zeta.
  assert (Hno : ~ In (AbortCheck true)
                  (scan_trace (scan_directory (Samples.album false)
                                 (Some Samples.detector) true
                                 (Some (fun _ => false)) Samples.photos init_db))).
  { vm_compute. intros H.
    repeat (destruct H as [H|H]; [discriminate|]). exact H. }
  split; [reflexivity|]. split; [exact Hno|].
  destruct (rescan_after_completed_scan_changes_nothing (Samples.album false)
              (Some Samples.detector) (Some (fun _ => false)) None Samples.photos
              init_db eq_refl Hno) as [H1 [H2 _]].
  split; [exact H1|exact H2].
Defined.

(** C8: for CLUSTER, GET_UNCLUSTERED, GET_PERSONS, GET_PHOTOS_BY_PERSON,
    RENAME_PERSON, MERGE_PERSONS and CLEAR_INDEX, when a required field is
    absent or false in Python (0, the empty string), the command changes
    nothing in the world, prints nothing and starts no scan. *)
Theorem command_with_falsy_field_is_dropped (E : Type)
        (loads : string -> option E) (near : E -> E -> bool)
        (fits : list E -> bool) (rmtree : string -> removal)
        (available_providers : option (list string)) (cmd : Command) (w : World) :
  In false (required_fields cmd) ->
  handle_command E loads near fits rmtree available_providers cmd w
  = mkStep w [] None.
Proof.
  unfold required_fields.
  repeat match goal with
         | |- In false (if action_is cmd ?a then _ else _) -> _ =>
             let Ha := fresh "Ha" in
             destruct (action_is cmd a) eqn:Ha;
             [unfold handle_command;
              rewrite !(action_is_known cmd a Ha);
              cbv [String.eqb Ascii.eqb Bool.eqb];
              destruct (truthy_str (cmd_path cmd));
              try destruct (truthy_int (cmd_person_id cmd));
              try destruct (truthy_str (cmd_new_name cmd));
              try destruct (truthy_int (cmd_keep_id cmd));
              try destruct (truthy_int (cmd_merge_id cmd));
              intros H; try reflexivity; exfalso; simpl in H;
              intuition discriminate
             |clear Ha]
         end.
  intros [].
Qed.

Lemma command_with_falsy_field_is_dropped_witness :
  let rename := mkCommand (Some "RENAME_PERSON") (Some Samples.photos) None
                          (Some 1%Z) (Some "") None None in
  let merge := mkCommand (Some "MERGE_PERSONS") (Some Samples.photos) None
                         None None (Some 0%Z) (Some 1%Z) in
  In false (required_fields rename) /\
  In false (required_fields merge) /\
  SampleSession.handle rename (step_world SampleSession.clustered)
  = mkStep (step_world SampleSession.clustered) [] None /\
  SampleSession.handle merge (step_world SampleSession.clustered)
  = mkStep (step_world SampleSession.clustered) [] None.
Proof.
  cbv zeta.
  assert (H1 : In false (required_fields
                           (mkCommand (Some "RENAME_PERSON") (Some Samples.photos)
                                      None (Some 1%Z) (Some "") None None))).
  { vm_compute. right. right. left. reflexivity. }
  assert (H2 : In false (required_fields
                           (mkCommand (Some "MERGE_PERSONS") (Some Samples.photos)
                                      None None None (Some 0%Z) (Some 1%Z)))).
  { vm_compute. right. left. reflexivity. }
  split; [exact H1|]. split; [exact H2|]. split.
  - exact (command_with_falsy_field_is_dropped _ _ _ _ _ _ _ _ H1).
  - exact (command_with_falsy_field_is_dropped _ _ _ _ _ _ _ _ H2).
Defined.

(** C9: when the content of a file cannot be read while a scan hashes it,
    the hash is the empty string and the store holds a row for the path
    with the empty hash and the current modification time.  The scan does
    not abort: it returns normally unless [getmtime] raises, and when it
    is not cancelled it goes through every image of the enumeration, those
    after the failing file included, and indexes each of them.  A later
    scan in which the file has the same modification time, whatever else
    the file system then holds, only asks for that time: it reads nothing
    and calls no provider for the file, and the row stays. *)
Theorem read_failure_is_indexed_with_empty_hash (fs : FileSystem)
        (processor : option (string -> option (list Detection)))
        (cb : bool) (abort_check : option (nat -> bool)) (root : string) (db : Db)
        (p : string) (m : Z) :
  md5_hexdigest fs p = None ->
  getmtime fs p = Some m ->
  let r1 := scan_directory fs processor cb abort_check root db in
  In (ReadFile p) (scan_trace r1) ->
  calculate_hash fs p = "" /\
  In (mkFile p "" m) (files (scan_db r1)) /\
  file_exists (scan_db r1) p m = true /\
  ((forall q, In q (image_files fs root) -> getmtime fs q <> None) ->
   scan_outcome r1 = Returned /\
   (~ In (AbortCheck true) (scan_trace r1) ->
    went_through (scan_trace r1) = image_files fs root /\
    forall q, In q (image_files fs root) -> indexed fs (scan_db r1) q)) /\
  forall fs2 processor' cb' abort_check',
    getmtime fs2 p = Some m ->
    let r2 := scan_directory fs2 processor' cb' abort_check' root (scan_db r1) in
    (forall e, In e (scan_trace r2) -> event_path e = Some p -> e = Getmtime p) /\
    In (mkFile p "" m) (files (scan_db r2)) /\
    file_exists (scan_db r2) p m = true.
Proof.
  intros Hmd Hm r1 Hread.
  destruct (path_exists fs root) eqn:Hroot.
  2:{ unfold r1 in Hread. rewrite scan_directory_missing_root in Hread by exact Hroot.
      destruct Hread. }
  pose proof (scan_directory_existing_root fs processor cb abort_check root db Hroot)
    as Hr. cbv zeta in Hr. fold r1 in Hr.
  set (todo := image_files fs root) in *.
  set (lp := scan_loop fs processor cb abort_check (List.length todo) todo 0 0 db) in *.
  assert (Hdb : scan_db r1 = loop_db lp).
  { rewrite Hr. destruct (loop_exit lp); reflexivity. }
  assert (Hin : In (ReadFile p) (loop_trace lp)).
  { rewrite Hr in Hread. destruct (loop_exit lp); cbn [scan_trace] in Hread;
      try exact Hread; apply in_app_or in Hread; destruct Hread as [H|H];
      try exact H; apply on_progress_events in H; discriminate. }
  assert (Hblank : blank_row p m (scan_db r1)).
  { rewrite Hdb. apply read_failure_leaves_blank_row; assumption. }
  split; [unfold calculate_hash; rewrite Hmd; reflexivity|].
  split; [exact (proj1 Hblank)|].
  split; [apply file_exists_iff; exact (proj2 Hblank)|].
  split.
  - intros Hall.
    assert (Hok : loop_exit lp <> Failed).
    { intros Hexit.
      destruct (failed_needs_getmtime_error _ _ _ _ _ _ _ _ _ Hexit) as [q [Hq Hg]].
      exact (Hall q Hq Hg). }
    split; [rewrite Hr; destruct (loop_exit lp); try reflexivity; contradiction|].
    intros Hnoabort.
    assert (Hexit : loop_exit lp = Exhausted).
    { destruct (loop_exit lp) eqn:Hexit; [reflexivity| |contradiction].
      exfalso. apply Hnoabort. rewrite Hr. cbn [scan_trace].
      apply in_or_app. left. apply broke_iff_check_true. exact Hexit. }
    pose proof (loop_went_through fs processor cb abort_check (List.length todo)
                  todo 0 0 db) as Hwent. cbv zeta in Hwent. fold lp in Hwent.
    destruct (Hwent Hok) as [Hw _].
    pose proof (scan_loop_processed fs processor cb abort_check (List.length todo)
                  todo 0 0 db) as Hcount. cbv zeta in Hcount. fold lp in Hcount.
    rewrite Hexit in Hcount. rewrite Hcount, Nat.sub_0_r in Hw. cbn [Nat.add] in Hw.
    rewrite firstn_all in Hw.
    split.
    + rewrite Hr, Hexit. cbn [scan_trace].
      rewrite went_through_app, went_through_progress, app_nil_r. exact Hw.
    + intros q Hq. rewrite Hdb.
      exact (scan_loop_exhausted_indexes fs processor cb abort_check
               (List.length todo) todo 0 0 db Hexit q Hq).
  - intros fs2 processor' cb' abort_check' Hm2 r2.
    assert (Hidx : indexed fs2 (scan_db r1) p).
    { exists m. split; [exact Hm2|exact (proj2 Hblank)]. }
    destruct (path_exists fs2 root) eqn:Hroot2.
    2:{ unfold r2. rewrite scan_directory_missing_root by exact Hroot2.
        cbn [scan_trace scan_db].
        split; [intros e []|].
        split; [exact (proj1 Hblank)|apply file_exists_iff; exact (proj2 Hblank)]. }
    pose proof (scan_directory_existing_root fs2 processor' cb' abort_check' root
                  (scan_db r1) Hroot2) as Hr2. cbv zeta in Hr2. fold r2 in Hr2.
    set (todo2 := image_files fs2 root) in *.
    set (lp2 := scan_loop fs2 processor' cb' abort_check' (List.length todo2) todo2
                  0 0 (scan_db r1)) in *.
    assert (Hdb2 : scan_db r2 = loop_db lp2).
    { rewrite Hr2. destruct (loop_exit lp2); reflexivity. }
    assert (Hblank2 : blank_row p m (scan_db r2)).
    { rewrite Hdb2. apply scan_loop_keeps_blank; assumption. }
    split; [|split; [exact (proj1 Hblank2)
                    |apply file_exists_iff; exact (proj2 Hblank2)]].
    intros e He Hp.
    assert (Hloop : In e (loop_trace lp2)).
    { rewrite Hr2 in He. destruct (loop_exit lp2); cbn [scan_trace] in He;
        try exact He; apply in_app_or in He; destruct He as [H|H];
        try exact H; apply on_progress_events in H; subst e; discriminate. }
    eapply indexed_only_getmtime; eassumption.
Qed.

Lemma read_failure_is_indexed_with_empty_hash_witness :
  let fs := Samples.album true in
  let p := "/photos/a.jpg" in
  let r1 := scan_directory fs (Some Samples.detector) true None Samples.photos
              init_db in
  md5_hexdigest fs p = None /\
  getmtime fs p = Some 100%Z /\
  In (ReadFile p) (scan_trace r1) /\
  In (mkFile p "" 100) (files (scan_db r1)) /\
  file_exists (scan_db r1) p 100 = true /\
  scan_outcome r1 = Returned /\
  went_through (scan_trace r1) = ["/photos/a.jpg"; "/photos/b.jpg"] /\
  indexed fs (scan_db r1) "/photos/b.jpg".
Proof.
  cbv zeta. split; [reflexivity|]. split; [reflexivity|].
  assert (Hread : In (ReadFile "/photos/a.jpg")
                     (scan_trace (scan_directory (Samples.album true)
                                    (Some Samples.detector) true None
                                    Samples.photos init_db))).
  { vm_compute. right. right. left. reflexivity. }
  split; [exact Hread|].
  destruct (read_failure_is_indexed_with_empty_hash (Samples.album true)
              (Some Samples.detector) true None Samples.photos init_db
              "/photos/a.jpg" 100 eq_refl eq_refl Hread)
    as [_ [Hrow [Hex [Hgoes _]]]].
  split; [exact Hrow|]. split; [exact Hex|].
  destruct Hgoes as [Hret Hall]; [intros q _; discriminate|].
  split; [exact Hret|].
  destruct Hall as [Hwent Hidx].
  { vm_compute. intros H.
    repeat (destruct H as [H|H]; [discriminate|]). exact H. }
  split; [exact Hwent|]. apply Hidx. right. left. reflexivity.
Defined.

(** C10: in the loop of a scan, every abort check comes directly after a
    progress event; the check is made at most once per enumerated file; and
    when the loop is left by [break], its trace ends with the progress event
    of the file at the index of the break, followed by the check that
    returned true, and the scan neither asks for the modification time of
    that file, nor reads it, nor hands it to the provider. *)
Theorem progress_precedes_abort_check (fs : FileSystem)
        (processor : option (string -> option (list Detection)))
        (check : nat -> bool) (total : nat) (todo : list string) (db : Db) :
  let r := scan_loop fs processor true (Some check) total todo 0 0 db in
  (forall t1 b t2,
      loop_trace r = t1 ++ AbortCheck b :: t2 ->
      exists t0 current file, t1 = t0 ++ [Progress current total file]) /\
  Session.count_polls (loop_trace r) <= List.length todo /\
  (loop_exit r = Broke -> NoDup todo ->
   exists t0 i p,
     nth_error todo i = Some p /\
     loop_trace r = t0 ++ [Progress i total (Paths.basename p); AbortCheck true] /\
     forall e, In e (loop_trace r) -> event_path e <> Some p).
Proof.
  cbv zeta. split; [|split].
  - intros t1 b t2. apply poll_follows_progress.
  - apply count_polls_loop.
  - intros Hex Hnd.
    destruct (broke_shape fs processor check total todo 0 0 db Hex)
      as [t0 [i [p [Hn [_ [Ht Hpaths]]]]]].
    exists t0, i, p. split; [exact Hn|]. split; [exact Ht|].
    intros e He Hp. eapply nth_error_not_in_firstn; [exact Hnd|exact Hn|].
    eapply Hpaths; eassumption.
Qed.

Lemma progress_precedes_abort_check_witness :
  let todo := image_files (Samples.album false) Samples.photos in
  let r := scan_loop (Samples.album false) (Some Samples.detector) true
             (Some (fun n => Nat.eqb n 1)) 2 todo 0 0 init_db in
  loop_exit r = Broke /\ NoDup todo /\
  exists t0 i p,
    nth_error todo i = Some p /\
    loop_trace r = t0 ++ [Progress i 2 (Paths.basename p); AbortCheck true] /\
    forall e, In e (loop_trace r) -> event_path e <> Some p.
Proof.
  cbv zeta.
  assert (Hnd : NoDup (image_files (Samples.album false) Samples.photos)).
  { vm_compute. constructor; [|constructor; [|constructor]].
    - intros [H|[]]. discriminate.
    - intros []. }
  split; [reflexivity|]. split; [exact Hnd|].
  exact (proj2 (proj2 (progress_precedes_abort_check (Samples.album false)
                         (Some Samples.detector) (fun n => Nat.eqb n 1) 2
                         (image_files (Samples.album false) Samples.photos)
                         init_db)) eq_refl Hnd).
Defined.


(** * Further properties of the store *)

Module StoreFacts.
Import Database DatabaseFacts MergeFacts Keys.
Local Open Scope list_scope.

Lemma mem_string_in (x : string) (l : list string) :
  Paths.mem_string x l = true <-> In x l.
Proof.
  unfold Paths.mem_string. rewrite existsb_exists. split.
  - intros [y [Hy He]]. apply String.eqb_eq in He. subst y. exact Hy.
  - intros H. exists x. split; [exact H|apply String.eqb_refl].
Qed.

Lemma distinct_in (l : list string) :
  forall seen x, In x (distinct seen l) <-> In x l /\ ~ In x seen.
Proof.
  induction l as [|y r IH]; intros seen x; cbn [distinct].
  - simpl. tauto.
  - destruct (Paths.mem_string y seen) eqn:Hm.
    + apply mem_string_in in Hm. rewrite IH. split.
      * intros [H1 H2]. split; [right; exact H1|exact H2].
      * intros [[<-|H1] H2]; [contradiction|split; assumption].
    + assert (Hn : ~ In y seen).
      { intros H. apply mem_string_in in H. congruence. }
      cbn [In]. rewrite IH. cbn [In]. split.
      * intros [<-|[H1 H2]]; [split; [left; reflexivity|exact Hn]|].
        split; [right; exact H1|]. intros H. apply H2. right. exact H.
      * intros [[<-|H1] H2]; [left; reflexivity|].
        destruct (string_dec y x) as [->|Hne]; [left; reflexivity|].
        right. split; [exact H1|]. intros [H|H]; [contradiction|contradiction].
Qed.

Lemma distinct_nodup (l : list string) : forall seen, NoDup (distinct seen l).
Proof.
  induction l as [|y r IH]; intros seen; cbn [distinct]; [constructor|].
  destruct (Paths.mem_string y seen); [apply IH|].
  constructor; [|apply IH]. intros H. apply distinct_in in H.
  apply (proj2 H). left. reflexivity.
Qed.

Lemma filter_absent (p : string) (l : list FileRow) :
  ~ In p (map file_path l) ->
  filter (fun r => negb (String.eqb (file_path r) p)) l = l.
Proof.
  induction l as [|r l IH]; intros H; [reflexivity|]. cbn [filter].
  destruct (String.eqb (file_path r) p) eqn:E.
  - apply String.eqb_eq in E. exfalso. apply H. left. exact E.
  - cbn [negb]. rewrite IH; [reflexivity|]. intros Hin. apply H. right. exact Hin.
Qed.

Lemma filter_present (p : string) (l : list FileRow) :
  NoDup (map file_path l) -> In p (map file_path l) ->
  S (List.length (filter (fun r => negb (String.eqb (file_path r) p)) l))
  = List.length l.
Proof.
  induction l as [|r l IH]; intros Hnd Hin; [destruct Hin|].
  inversion Hnd as [|? ? Hnot Hnd']; subst. cbn [filter].
  destruct (String.eqb (file_path r) p) eqn:E; cbn [negb List.length].
  - apply String.eqb_eq in E. subst p. rewrite filter_absent by exact Hnot. reflexivity.
  - destruct Hin as [Hin|Hin]; [apply String.eqb_neq in E; contradiction|].
    rewrite IH by assumption. reflexivity.
Qed.

Lemma filter_paths_sub (p : string) (l : list FileRow) (q : string) :
  In q (map file_path (filter (fun r => negb (String.eqb (file_path r) p)) l)) ->
  In q (map file_path l) /\ q <> p.
Proof.
  intros H. apply in_map_iff in H. destruct H as [r [<- Hr]].
  apply filter_In in Hr. destruct Hr as [Hr Hne]. split; [apply in_map; exact Hr|].
  intros E. rewrite E, String.eqb_refl in Hne. discriminate.
Qed.

Lemma filter_paths_nodup (p : string) (l : list FileRow) :
  NoDup (map file_path l) ->
  NoDup (map file_path (filter (fun r => negb (String.eqb (file_path r) p)) l)).
Proof.
  induction l as [|r l IH]; intros Hnd; [constructor|].
  inversion Hnd as [|? ? Hnot Hnd']; subst. cbn [filter].
  destruct (negb (String.eqb (file_path r) p)); [|apply IH; exact Hnd'].
  cbn [map]. constructor; [|apply IH; exact Hnd'].
  intros H. apply filter_paths_sub in H. tauto.
Qed.

Lemma select_mtime_none (db : Db) (p : string) :
  select_mtime db p = None <-> ~ In p (map file_path (files db)).
Proof.
  unfold select_mtime. induction (files db) as [|r l IH]; cbn [filter map In].
  - tauto.
  - destruct (String.eqb (file_path r) p) eqn:E.
    + apply String.eqb_eq in E. split; [discriminate|]. intros H. exfalso. apply H. left. exact E.
    + apply String.eqb_neq in E. rewrite IH. tauto.
Qed.

End StoreFacts.

Import Database DatabaseFacts MergeFacts Keys StoreFacts.

(** X1: [file_exists] after [add_file]: for the path just written it is
    true exactly for the modification time written, whatever row the path
    had before; for every other path it answers as before. *)
Theorem file_exists_after_add_file (db : Db) (p h : string) (m m' : Z) :
  file_exists (add_file db p h m) p m' = Z.eqb m m' /\
  forall q, q <> p -> file_exists (add_file db p h m) q m' = file_exists db q m'.
Proof.
  split.
  - unfold file_exists. rewrite select_mtime_add_file. reflexivity.
  - intros q Hq. unfold file_exists.
    rewrite select_mtime_add_file_other by exact Hq. reflexivity.
Qed.

(** X2: [add_file] is an upsert on the key [path]: when the paths of the
    table are distinct they stay distinct, the table holds one row for the
    path, the one just written, and the number of rows grows by one for a
    new path and stays for a known one. *)
Theorem add_file_is_upsert (db : Db) (p h : string) (m : Z) :
  paths_unique db ->
  let db' := add_file db p h m in
  paths_unique db' /\
  (forall r, In r (files db') -> file_path r = p -> r = mkFile p h m) /\
  In (mkFile p h m) (files db') /\
  List.length (files db')
  = match select_mtime db p with
    | Some _ => List.length (files db)
    | None => S (List.length (files db))
    end.
Proof.
  intros Hu db'. unfold paths_unique, db', add_file in *. cbn [files].
  split; [|split; [|split]].
  - rewrite map_app. cbn [map file_path].
    apply NoDup_app.
    + apply filter_paths_nodup. exact Hu.
    + constructor; [intros []|constructor].
    + intros q Hq [<-|[]]. apply filter_paths_sub in Hq. tauto.
  - intros r Hr Hp. apply in_app_or in Hr. destruct Hr as [Hr|[<-|[]]]; [|reflexivity].
    apply filter_In in Hr. destruct Hr as [_ Hne].
    rewrite Hp, String.eqb_refl in Hne. discriminate.
  - apply in_or_app. right. left. reflexivity.
  - rewrite length_app. cbn [List.length].
    destruct (select_mtime db p) as [x|] eqn:Hs.
    + assert (Hin : In p (map file_path (files db))).
      { destruct (in_dec string_dec p (map file_path (files db))) as [H|H]; [exact H|].
        apply select_mtime_none in H. congruence. }
      pose proof (filter_present p (files db) Hu Hin). lia.
    + apply select_mtime_none in Hs. rewrite filter_absent by exact Hs. lia.
Qed.

Lemma add_file_is_upsert_witness :
  let db := add_file (add_file init_db "a.jpg" "h1" 1) "b.jpg" "h2" 2 in
  paths_unique db /\
  List.length (files (add_file db "a.jpg" "h3" 3)) = 2 /\
  In (mkFile "a.jpg" "h3" 3) (files (add_file db "a.jpg" "h3" 3)).
Proof.
  cbv zeta.
  assert (Hu : paths_unique (add_file (add_file init_db "a.jpg" "h1" 1) "b.jpg" "h2" 2)).
  { unfold paths_unique. vm_compute. constructor; [|constructor; [|constructor]].
    - intros [H|[]]. discriminate.
    - intros []. }
  split; [exact Hu|].
  destruct (add_file_is_upsert _ "a.jpg" "h3" 3 Hu) as [_ [_ [Hin Hlen]]].
  split; [rewrite Hlen; reflexivity|exact Hin].
Defined.

Module RowFacts.
Import Database Keys.
Local Open Scope list_scope.

Lemma insert_face_fresh (db : Db) (p : string) (d : Detection) :
  face_ids_fresh db -> face_ids_fresh (insert_face db p d).
Proof.
  intros [Hnd Hle]. unfold face_ids_fresh, insert_face. cbn [faces face_seq]. split.
  - rewrite map_app. cbn [map face_id]. apply NoDup_app.
    + exact Hnd.
    + constructor; [intros []|constructor].
    + intros a Ha [<-|[]]. apply in_map_iff in Ha. destruct Ha as [f [Hf Hin]].
      specialize (Hle f Hin). lia.
  - intros f Hf. apply in_app_or in Hf. destruct Hf as [Hf|[<-|[]]].
    + specialize (Hle f Hf). lia.
    + cbn [face_id]. lia.
Qed.

Lemma add_faces_shape (p : string) (ds : list Detection) :
  forall db,
    exists added,
      faces (add_faces db p ds) = faces db ++ added /\
      map columns added = map (stored p) ds /\
      (forall f, In f added -> (face_seq db < face_id f)%Z) /\
      face_seq (add_faces db p ds) = (face_seq db + Z.of_nat (List.length ds))%Z.
Proof.
  unfold add_faces. induction ds as [|d ds IH]; intros db.
  - exists []. cbn [fold_left List.length]. rewrite app_nil_r.
    repeat split; [intros f []|lia].
  - cbn [fold_left]. destruct (IH (insert_face db p d)) as [added [Hf [Hc [Hid Hs]]]].
    exists (mkFace (face_seq db + 1) p (CText (det_embedding d)) (det_bbox d)
                   (det_thumbnail d) None :: added).
    rewrite Hf, Hs. unfold insert_face. cbn [faces face_seq].
    split; [rewrite <- app_assoc; reflexivity|]. split; [|split].
    + cbn [map]. rewrite Hc. reflexivity.
    + intros f [<-|H]; [cbn [face_id]; lia|].
      specialize (Hid f H). unfold insert_face in Hid. cbn [face_seq] in Hid. lia.
    + cbn [List.length]. lia.
Qed.

Lemma add_faces_fresh (p : string) (ds : list Detection) :
  forall db, face_ids_fresh db -> face_ids_fresh (add_faces db p ds).
Proof.
  unfold add_faces. induction ds as [|d ds IH]; intros db H; [exact H|].
  cbn [fold_left]. apply IH. apply insert_face_fresh. exact H.
Qed.


Lemma with_persons_same (db : Db) : with_persons db (persons db) = db.
Proof. destruct db; reflexivity. Qed.

Lemma map_unchanged {A : Type} (g : A -> A) (l : list A) :
  (forall x, In x l -> g x = x) -> map g l = l.
Proof.
  induction l as [|x l IH]; intros H; [reflexivity|]. cbn [map].
  rewrite (H x (or_introl eq_refl)), IH; [reflexivity|].
  intros y Hy. apply H. right. exact Hy.
Qed.

End RowFacts.

Import RowFacts.

(** X3: [add_faces] appends one row per detection, in order, after the
    rows the table had: each carries the given path, the embedding, box and
    thumbnail of its detection and no person; the ids are new (above the
    counter), so distinct ids below the counter stay so. *)
Theorem add_faces_appends_unassigned_rows (db : Db) (p : string)
        (ds : list Detection) :
  face_ids_fresh db ->
  let db' := add_faces db p ds in
  (exists added,
      faces db' = faces db ++ added /\
      map columns added = map (stored p) ds /\
      forall f, In f added -> ~ In (face_id f) (map face_id (faces db))) /\
  face_ids_fresh db' /\
  files db' = files db /\ persons db' = persons db.
Proof.
  intros Hfresh db'. split; [|split; [|split]].
  - destruct (add_faces_shape p ds db) as [added [Hf [Hc [Hid _]]]].
    exists added. split; [exact Hf|]. split; [exact Hc|].
    intros f Hf' Hin. apply in_map_iff in Hin. destruct Hin as [g [Hg Hin]].
    pose proof (proj2 Hfresh g Hin). specialize (Hid f Hf'). lia.
  - apply add_faces_fresh. exact Hfresh.
  - apply add_faces_files.
  - apply add_faces_persons.
Qed.

Lemma add_faces_appends_unassigned_rows_witness :
  let db := add_faces init_db "a.jpg" [mkDet "[1, 0]" "[0, 0, 5, 5]" None] in
  let db' := add_faces db "b.jpg" [mkDet "[0, 1]" "[1, 1, 4, 4]" (Some "t.jpg");
                                   mkDet "[1, 1]" "[2, 2, 3, 3]" None] in
  face_ids_fresh db /\
  face_ids_fresh db' /\
  map face_id (faces db') = [1; 2; 3]%Z.
Proof.
  cbv zeta.
  assert (H : face_ids_fresh (add_faces init_db "a.jpg"
                                [mkDet "[1, 0]" "[0, 0, 5, 5]" None])).
  { split.
    - vm_compute. constructor; [intros []|constructor].
    - intros f [<-|[]]. vm_compute. discriminate. }
  split; [exact H|].
  destruct (add_faces_appends_unassigned_rows _ "b.jpg"
              [mkDet "[0, 1]" "[1, 1, 4, 4]" (Some "t.jpg");
               mkDet "[1, 1]" "[2, 2, 3, 3]" None] H) as [_ [Hf _]].
  split; [exact Hf|reflexivity].
Defined.

(** X4: [create_person] hands out an id that no person has: when the ids
    of the table are distinct and not above the counter, there is no person
    with the returned id before the call, the call appends one row with
    that id, the given name and no thumbnail, and the ids stay distinct and
    not above the counter; faces and files are as before. *)
Theorem create_person_returns_fresh_id (db : Db) (name : option string) :
  person_ids_fresh db ->
  let db' := fst (create_person db name) in
  let id := snd (create_person db name) in
  person_exists db id = false /\
  persons db' = persons db ++ [mkPerson id name None] /\
  person_ids_fresh db' /\
  faces db' = faces db /\ files db' = files db.
Proof.
  intros [Hnd Hle]. cbv zeta. unfold create_person. cbn [fst snd persons faces files].
  assert (Hnew : ~ In (person_seq db + 1)%Z (map person_id (persons db))).
  { intros H. apply in_map_iff in H. destruct H as [q [Hq Hin]].
    specialize (Hle q Hin). lia. }
  split; [|split; [reflexivity|split; [|split; reflexivity]]].
  - unfold person_exists. destruct (existsb _ (persons db)) eqn:E; [|reflexivity].
    apply existsb_exists in E. destruct E as [q [Hin Hq]]. apply Z.eqb_eq in Hq.
    exfalso. apply Hnew. rewrite <- Hq. apply in_map. exact Hin.
  - unfold person_ids_fresh. cbn [persons person_seq]. split.
    + rewrite map_app. cbn [map person_id]. apply NoDup_app.
      * exact Hnd.
      * constructor; [intros []|constructor].
      * intros a Ha [<-|[]]. contradiction.
    + intros q Hq. apply in_app_or in Hq. destruct Hq as [Hq|[<-|[]]].
      * specialize (Hle q Hq). lia.
      * cbn [person_id]. lia.
Qed.

Lemma create_person_returns_fresh_id_witness :
  let db := fst (create_person init_db (Some "Ada")) in
  person_ids_fresh db /\
  snd (create_person db None) = 2%Z /\
  person_exists db 2 = false /\
  person_ids_fresh (fst (create_person db None)).
Proof.
  cbv zeta.
  assert (H : person_ids_fresh (fst (create_person init_db (Some "Ada")))).
  { split.
    - vm_compute. constructor; [intros []|constructor].
    - intros q [<-|[]]. vm_compute. discriminate. }
  split; [exact H|]. split; [reflexivity|].
  destruct (create_person_returns_fresh_id _ None H) as [Hno [_ [Hfresh _]]].
  split; [exact Hno|exact Hfresh].
Defined.


(** X6: [rename_person] changes the name of the persons with the given id
    and nothing else: ids, thumbnails, faces and files stay; an id that no
    person has leaves the store as it is; and of two renames of one id the
    second wins. *)
Theorem rename_person_sets_name_only (db : Db) (pid : Z) (a b : string) :
  let db' := rename_person db pid a in
  (person_exists db pid = false -> db' = db) /\
  map person_id (persons db') = map person_id (persons db) /\
  map person_thumbnail (persons db') = map person_thumbnail (persons db) /\
  (forall p, In p (persons db') ->
             person_name p = if Z.eqb (person_id p) pid then Some a
                             else person_name p) /\
  (forall p, In p (persons db) -> person_id p <> pid -> In p (persons db')) /\
  faces db' = faces db /\ files db' = files db /\
  rename_person db' pid b = rename_person db pid b.
Proof.
  cbv zeta. unfold rename_person. cbn [persons faces files with_persons].
  split; [|split; [|split; [|split; [|split; [|split; [|split]]]]]];
    try reflexivity.
  - intros Hno. rewrite map_unchanged; [apply with_persons_same|].
    intros p Hp. destruct (Z.eqb (person_id p) pid) eqn:E; [|reflexivity].
    exfalso. unfold person_exists in Hno.
    assert (Ht : existsb (fun q => Z.eqb (person_id q) pid) (persons db) = true)
      by (apply existsb_exists; exists p; split; assumption).
    congruence.
  - rewrite map_map. apply map_ext. intros p.
    destruct (Z.eqb (person_id p) pid); reflexivity.
  - rewrite map_map. apply map_ext. intros p.
    destruct (Z.eqb (person_id p) pid); reflexivity.
  - intros p Hp. apply in_map_iff in Hp. destruct Hp as [q [<- Hq]].
    destruct (Z.eqb (person_id q) pid) eqn:E; cbn [person_id person_name];
      rewrite E; reflexivity.
  - intros p Hp Hne. apply in_map_iff. exists p. split; [|exact Hp].
    apply Z.eqb_neq in Hne. rewrite Hne. reflexivity.
  - unfold with_persons. cbn [persons files faces face_seq person_seq].
    f_equal. rewrite map_map. apply map_ext. intros p.
    destruct (Z.eqb (person_id p) pid) eqn:E; cbn [person_id person_thumbnail];
      rewrite E; reflexivity.
Qed.

Module QueryFacts.
Import Database MergeFacts StoreFacts.
Local Open Scope list_scope.

Lemma distinct_length (l : list string) :
  forall seen, List.length (distinct seen l) <= List.length l.
Proof.
  induction l as [|y r IH]; intros seen; cbn [distinct List.length]; [lia|].
  destruct (Paths.mem_string y seen).
  - specialize (IH seen). lia.
  - cbn [List.length]. specialize (IH (y :: seen)). lia.
Qed.

Lemma photos_in (db : Db) (pid : Z) (p : string) :
  In p (get_photos_by_person db pid) <->
  exists f, In f (faces db) /\ face_person f = Some pid /\ face_file f = p.
Proof.
  unfold get_photos_by_person. rewrite distinct_in. split.
  - intros [H _]. apply in_map_iff in H. destruct H as [f [Hp Hf]].
    apply filter_In in Hf. destruct Hf as [Hf Hpid]. apply opt_Z_eqb_eq in Hpid.
    exists f. auto.
  - intros [f [Hf [Hpid Hp]]]. split; [|intros []].
    apply in_map_iff. exists f. split; [exact Hp|].
    apply filter_In. split; [exact Hf|]. apply opt_Z_eqb_eq. exact Hpid.
Qed.

Lemma moved_file (keep merge : Z) (f : FaceRow) :
  face_file (moved keep merge f) = face_file f.
Proof. unfold moved. destruct (opt_Z_eqb _ _); reflexivity. Qed.

Lemma moved_person (keep merge : Z) (f : FaceRow) :
  face_person (moved keep merge f)
  = if opt_Z_eqb (face_person f) merge then Some keep else face_person f.
Proof. unfold moved. destruct (opt_Z_eqb _ _); reflexivity. Qed.

Lemma moved_other (keep merge r : Z) (f : FaceRow) :
  r <> keep -> r <> merge ->
  opt_Z_eqb (face_person (moved keep merge f)) r = opt_Z_eqb (face_person f) r.
Proof.
  intros Hk Hm. rewrite moved_person.
  destruct (opt_Z_eqb (face_person f) merge) eqn:E; [|reflexivity].
  apply opt_Z_eqb_eq in E. rewrite E. cbn [opt_Z_eqb].
  destruct (Z.eqb_spec keep r), (Z.eqb_spec merge r); congruence.
Qed.

Lemma filter_map_moved_other (keep merge r : Z) (l : list FaceRow) :
  r <> keep -> r <> merge ->
  filter (fun f => opt_Z_eqb (face_person f) r) (map (moved keep merge) l)
  = filter (fun f => opt_Z_eqb (face_person f) r) l.
Proof.
  intros Hk Hm. induction l as [|f l IH]; [reflexivity|]. cbn [map filter].
  rewrite (moved_other keep merge r f Hk Hm), IH.
  destruct (opt_Z_eqb (face_person f) r) eqn:E; [|reflexivity].
  f_equal. unfold moved. destruct (opt_Z_eqb (face_person f) merge) eqn:E'; [|reflexivity].
  apply opt_Z_eqb_eq in E, E'. congruence.
Qed.

End QueryFacts.

Import QueryFacts.

(** X7: [get_photos_by_person] lists exactly the files of the faces that
    carry the person id, each file once however many of its faces carry the
    id, so never more entries than [get_person_face_count]; for an id that
    no face carries the list is empty. *)
Theorem get_photos_by_person_lists_each_file_once (db : Db) (pid : Z) :
  NoDup (get_photos_by_person db pid) /\
  (forall p, In p (get_photos_by_person db pid) <->
             exists f, In f (faces db) /\ face_person f = Some pid /\
                       face_file f = p) /\
  List.length (get_photos_by_person db pid) <= get_person_face_count db pid /\
  (get_person_face_count db pid = 0 <-> get_photos_by_person db pid = []).
Proof.
  split; [apply distinct_nodup|]. split; [apply photos_in|].
  assert (Hlen : List.length (get_photos_by_person db pid)
                 <= get_person_face_count db pid).
  { unfold get_photos_by_person, get_person_face_count.
    etransitivity; [apply distinct_length|]. rewrite length_map. lia. }
  split; [exact Hlen|]. split.
  - intros H0. rewrite H0 in Hlen.
    destruct (get_photos_by_person db pid); [reflexivity|].
    cbn [List.length] in Hlen. lia.
  - intros Hnil. unfold get_person_face_count.
    destruct (filter _ (faces db)) as [|f l] eqn:E; [reflexivity|]. exfalso.
    assert (Hin : In (face_file f) (get_photos_by_person db pid)).
    { assert (Hf : In f (filter (fun f => opt_Z_eqb (face_person f) pid) (faces db)))
        by (rewrite E; left; reflexivity).
      apply filter_In in Hf. destruct Hf as [Hf Hp]. apply opt_Z_eqb_eq in Hp.
      apply photos_in. exists f. auto. }
    rewrite Hnil in Hin. exact Hin.
Qed.

(** X8: [get_first_face_thumbnail] returns the thumbnail of a face of the
    person: the first face, in row order, that carries the person id and has
    a thumbnail; it returns nothing exactly when no face of the person has
    one. *)
Theorem get_first_face_thumbnail_first_match (db : Db) (pid : Z) :
  (get_first_face_thumbnail db pid = None <->
   forall f, In f (faces db) -> face_person f = Some pid ->
             face_thumbnail f = None) /\
  (forall t, get_first_face_thumbnail db pid = Some t ->
     exists before f after,
       faces db = before ++ f :: after /\
       face_person f = Some pid /\ face_thumbnail f = Some t /\
       forall g, In g before -> face_person g = Some pid ->
                 face_thumbnail g = None).
Proof.
  unfold get_first_face_thumbnail.
  set (sel := fun f => andb (opt_Z_eqb (face_person f) pid) (has_thumbnail f)).
  assert (Hsel : forall f, sel f = true <->
                           face_person f = Some pid /\ face_thumbnail f <> None).
  { intros f. unfold sel, has_thumbnail. rewrite andb_true_iff, opt_Z_eqb_eq.
    destruct (face_thumbnail f); split; intros [H1 H2]; split;
      congruence. }
  induction (faces db) as [|f l [IHn IHs]].
  - split; [split; [intros _ f []|reflexivity]|]. cbn [filter]. discriminate.
  - cbn [filter]. destruct (sel f) eqn:E.
    + apply Hsel in E. destruct E as [Hp Ht]. split.
      * split; [intros H; congruence|].
        intros H. exfalso. apply Ht. apply H; [left; reflexivity|exact Hp].
      * intros t Hft. exists [], f, l. repeat split; auto. intros g [].
    + assert (Hno : face_person f = Some pid -> face_thumbnail f = None).
      { intros Hp. destruct (face_thumbnail f) eqn:Et; [|reflexivity].
        assert (sel f = true) by (apply Hsel; split; congruence). congruence. }
      split.
      * rewrite IHn. split.
        -- intros H g [<-|Hg]; [exact Hno|apply H; exact Hg].
        -- intros H g Hg. apply H. right. exact Hg.
      * intros t Hft. destruct (IHs t Hft) as [b [g [a [Hl [Hp [Ht Hb]]]]]].
        exists (f :: b), g, a. rewrite Hl. repeat split; auto.
        intros h [<-|Hh]; [exact Hno|apply Hb; exact Hh].
Qed.

(** X9: after [merge_persons keep merge] the photos of [keep] are those
    that were photos of [keep] or of [merge]; a third person keeps its row,
    its face count and its photos; and no face changes its id, file,
    embedding, box or thumbnail. *)
Theorem merge_persons_unions_photos (db : Db) (keep merge : Z) :
  let db' := merge_persons db keep merge in
  (forall p, In p (get_photos_by_person db' keep) <->
             In p (get_photos_by_person db keep) \/
             In p (get_photos_by_person db merge)) /\
  (forall r, r <> keep -> r <> merge ->
             get_photos_by_person db' r = get_photos_by_person db r /\
             get_person_face_count db' r = get_person_face_count db r /\
             person_exists db' r = person_exists db r) /\
  map (fun f => (face_id f, Keys.columns f)) (faces db')
  = map (fun f => (face_id f, (face_file f, face_embedding f, face_bbox f,
                               face_thumbnail f,
                               if opt_Z_eqb (face_person f) merge
                               then Some keep else face_person f)))
        (faces db) /\
  files db' = files db.
Proof.
  cbv zeta. split; [|split; [|split; [|reflexivity]]].
  - intros p. rewrite !photos_in. rewrite merge_persons_faces. split.
    + intros [f [Hf [Hp Hfile]]]. apply in_map_iff in Hf.
      destruct Hf as [g [<- Hg]]. rewrite moved_file in Hfile.
      rewrite moved_person in Hp.
      destruct (opt_Z_eqb (face_person g) merge) eqn:E.
      * right. apply opt_Z_eqb_eq in E. exists g. auto.
      * left. exists g. auto.
    + intros [[g [Hg [Hp Hfile]]]|[g [Hg [Hp Hfile]]]];
        exists (moved keep merge g);
        (split; [apply in_map; exact Hg|]);
        rewrite moved_file, moved_person; (split; [|exact Hfile]).
      * destruct (opt_Z_eqb (face_person g) merge); [reflexivity|exact Hp].
      * apply opt_Z_eqb_eq in Hp. rewrite Hp. reflexivity.
  - intros r Hk Hm. unfold get_photos_by_person, get_person_face_count.
    rewrite merge_persons_faces, (filter_map_moved_other keep merge r _ Hk Hm).
    split; [reflexivity|]. split; [reflexivity|].
    unfold person_exists, merge_persons, delete_person, with_persons, move_faces,
      with_faces. cbn [persons].
    induction (persons db) as [|q l IH]; [reflexivity|]. cbn [filter existsb].
    destruct (Z.eqb_spec (person_id q) merge) as [Eq|Eq]; cbn [negb].
    + rewrite IH. destruct (Z.eqb_spec (person_id q) r); [congruence|reflexivity].
    + cbn [existsb]. rewrite IH. reflexivity.
  - rewrite merge_persons_faces, map_map. apply map_ext. intros f.
    unfold Keys.columns, moved.
    destruct (opt_Z_eqb (face_person f) merge); reflexivity.
Qed.

Module CallFacts.
Import Database DatabaseFacts Scanner ScannerFacts TraceFacts LoopFacts Calls.
Local Open Scope list_scope.

Lemma progress_calls_app (a b : list event) :
  progress_calls (a ++ b) = progress_calls a ++ progress_calls b.
Proof. unfold progress_calls. apply flat_map_app. Qed.

Lemma progress_calls_body (ev : list event) :
  (forall e, In e ev -> exists p, event_path e = Some p) -> progress_calls ev = [].
Proof.
  induction ev as [|e ev IH]; intros H; [reflexivity|].
  cbn [progress_calls flat_map]. fold (progress_calls ev).
  rewrite IH by (intros x Hx; apply H; right; exact Hx).
  destruct (H e (or_introl eq_refl)) as [p Hp]. destruct e; try discriminate; reflexivity.
Qed.

Lemma progress_calls_poll (abort_check : option (nat -> bool)) (idx : nat) :
  progress_calls (fst (poll abort_check idx)) = [].
Proof. unfold poll. destruct abort_check; reflexivity. Qed.

Section Facts.

Variable fs : FileSystem.
Variable processor : option (string -> option (list Detection)).
Variable abort_check : option (nat -> bool).

Lemma progress_calls_scan_file (db : Db) (p : string) :
  progress_calls (fst (scan_file fs processor db p)) = [].
Proof.
  apply progress_calls_body. intros e He. exists p.
  exact (scan_file_events fs processor db p e He).
Qed.

Lemma poll_false (idx : nat) :
  (forall check, abort_check = Some check -> check idx = false) ->
  snd (poll abort_check idx) = false.
Proof.
  intros H. unfold poll. destruct abort_check as [check|]; [|reflexivity].
  cbn [snd]. apply H. reflexivity.
Qed.

Lemma scan_file_some (db : Db) (p : string) :
  getmtime fs p <> None -> exists db', snd (scan_file fs processor db p) = Some db'.
Proof.
  intros H. unfold scan_file. destruct (getmtime fs p) as [m|]; [|congruence].
  destruct (file_exists db p m); [exists db; reflexivity|].
  destruct (detect processor _ p) as [ev db2]. exists db2. reflexivity.
Qed.

Lemma scan_file_none (db : Db) (p : string) :
  getmtime fs p = None -> scan_file fs processor db p = ([Getmtime p], None).
Proof. intros H. unfold scan_file. rewrite H. reflexivity. Qed.

Lemma uninterrupted_loop (total : nat) (todo : list string) :
  forall idx k db,
    (forall q, In q todo -> getmtime fs q <> None) ->
    (forall check i, abort_check = Some check ->
                     idx <= i < idx + List.length todo -> check i = false) ->
    let r := scan_loop fs processor true abort_check total todo idx k db in
    loop_exit r = Exhausted /\
    progress_calls (loop_trace r)
    = map (file_call total) (combine (seq k (List.length todo)) todo).
Proof.
  induction todo as [|p rest IH]; intros idx k db Hm Hc; [split; reflexivity|].
  cbv zeta. rewrite scan_loop_cons. cbv zeta.
  assert (Hp : snd (poll abort_check idx) = false).
  { apply poll_false. intros check E. apply (Hc check idx E).
    cbn [List.length]. lia. }
  pose proof (progress_calls_poll abort_check idx) as Hpp.
  destruct (poll abort_check idx) as [ev2 stop]. cbn [snd fst] in Hp, Hpp. subst stop.
  destruct (scan_file_some db p (Hm p (or_introl eq_refl))) as [db' Hdb'].
  pose proof (progress_calls_scan_file db p) as Hsf.
  destruct (scan_file fs processor db p) as [ev3 o]. cbn [snd fst] in Hdb', Hsf.
  subst o. cbn [loop_exit loop_trace].
  destruct (IH (S idx) (S k) db') as [He Ht].
  { intros q Hq. apply Hm. right. exact Hq. }
  { intros check i E Hi. apply (Hc check i E). cbn [List.length]. lia. }
  split; [exact He|].
  rewrite !progress_calls_app, Hpp, Hsf, Ht. reflexivity.
Qed.

Lemma failing_loop (total : nat) (pre : list string) (p : string)
      (post : list string) (cb : bool) :
  forall idx k db,
    (forall q, In q pre -> getmtime fs q <> None) ->
    getmtime fs p = None ->
    (forall check i, abort_check = Some check ->
                     idx <= i <= idx + List.length pre -> check i = false) ->
    let r := scan_loop fs processor cb abort_check total (pre ++ p :: post) idx k db in
    loop_exit r = Failed /\
    (exists t, loop_trace r = t ++ [Getmtime p]) /\
    (forall e q, In e (loop_trace r) -> event_path e = Some q ->
                 In q (pre ++ [p])) /\
    (forall q, In q pre -> indexed fs (loop_db r) q).
Proof.
  induction pre as [|a pre IH]; intros idx k db Hm Hp Hc; cbv zeta.
  - cbn [app]. rewrite scan_loop_cons. cbv zeta.
    assert (Hpl : snd (poll abort_check idx) = false).
    { apply poll_false. intros check E. apply (Hc check idx E).
      cbn [List.length]. lia. }
    pose proof (poll_events abort_check idx) as Hpe.
    destruct (poll abort_check idx) as [ev2 stop]. cbn [snd fst] in Hpl, Hpe.
    subst stop. rewrite (scan_file_none db p Hp). cbn [loop_exit loop_trace loop_db].
    split; [reflexivity|]. split; [|split].
    + exists (on_progress cb k total (Paths.basename p) ++ ev2).
      rewrite <- app_assoc. reflexivity.
    + intros e q He Hq. apply in_app_or in He. destruct He as [He|He].
      { apply on_progress_events in He. subst e. discriminate. }
      apply in_app_or in He. destruct He as [He|[<-|[]]].
      * apply Hpe in He. subst e. discriminate.
      * cbn [event_path] in Hq. injection Hq as <-. left. reflexivity.
    + intros q [].
  - cbn [app]. rewrite scan_loop_cons. cbv zeta.
    assert (Hpl : snd (poll abort_check idx) = false).
    { apply poll_false. intros check E. apply (Hc check idx E).
      cbn [List.length]. lia. }
    pose proof (poll_events abort_check idx) as Hpe.
    destruct (poll abort_check idx) as [ev2 stop]. cbn [snd fst] in Hpl, Hpe.
    subst stop.
    destruct (scan_file_some db a (Hm a (or_introl eq_refl))) as [db' Hdb'].
    pose proof (scan_file_events fs processor db a) as Hev.
    destruct (scan_file fs processor db a) as [ev3 o] eqn:Hsf. cbn [snd fst] in Hdb', Hev.
    subst o. cbn [loop_exit loop_trace loop_db].
    destruct (IH (S idx) (S k) db') as [He [[t Ht] [Hpaths Hidx]]].
    { intros q Hq. apply Hm. right. exact Hq. }
    { exact Hp. }
    { intros check i E Hi. apply (Hc check i E). cbn [List.length]. lia. }
    split; [exact He|]. split; [|split].
    + exists (on_progress cb k total (Paths.basename a) ++ ev2 ++ ev3 ++ t).
      rewrite Ht, <- !app_assoc. reflexivity.
    + intros e q Hin Hq. apply in_app_or in Hin. destruct Hin as [Hin|Hin].
      { apply on_progress_events in Hin. subst e. discriminate. }
      apply in_app_or in Hin. destruct Hin as [Hin|Hin].
      { apply Hpe in Hin. subst e. discriminate. }
      apply in_app_or in Hin. destruct Hin as [Hin|Hin].
      * rewrite (Hev e Hin) in Hq. injection Hq as <-. left. reflexivity.
      * right. exact (Hpaths e q Hin Hq).
    + intros q [<-|Hq].
      * apply scan_loop_keeps. exact (scan_file_indexes fs processor db db' a ev3 Hsf).
      * apply Hidx. exact Hq.
Qed.

End Facts.

End CallFacts.

Import Scanner ScannerFacts TraceFacts LoopFacts MarkerFacts DirectoryFacts Calls CallFacts.

(** X10: a scan of an existing root in which [getmtime] succeeds on every
    image and the abort check never answers true returns normally, calls the
    progress callback once per image, in the order of the enumeration, with
    0, 1, ... as [current] and the number of images as [total], and once
    more with ([total], [total], "Complete"); afterwards every image is
    indexed with its current modification time. *)
Theorem uninterrupted_scan_reports_each_file (fs : FileSystem)
        (processor : option (string -> option (list Detection)))
        (abort_check : option (nat -> bool)) (root : string) (db : Db) :
  path_exists fs root = true ->
  (forall q, In q (image_files fs root) -> getmtime fs q <> None) ->
  (forall check i, abort_check = Some check ->
                   i < List.length (image_files fs root) -> check i = false) ->
  let todo := image_files fs root in
  let n := List.length todo in
  let r := scan_directory fs processor true abort_check root db in
  scan_outcome r = Returned /\
  progress_calls (scan_trace r)
  = (map (file_call n) (combine (seq 0 n) todo) ++ [(n, n, "Complete")])%list /\
  (forall q, In q todo -> indexed fs (scan_db r) q).
Proof.
  intros Hroot Hm Hc todo n r. unfold r.
  rewrite (scan_directory_existing_root fs processor true abort_check root db Hroot).
  cbv zeta. fold todo. fold n.
  destruct (uninterrupted_loop fs processor abort_check n todo 0 0 db Hm)
    as [He Ht].
  { intros check i E Hi. apply (Hc check i E). fold todo. fold n in Hi |- *. lia. }
  pose proof (scan_loop_processed fs processor true abort_check n todo 0 0 db) as Hk.
  pose proof (scan_loop_exhausted_indexes fs processor true abort_check n todo 0 0 db He)
    as Hidx.
  cbv zeta in Hk. rewrite He in Hk |- *. cbn [scan_outcome scan_trace scan_db].
  split; [reflexivity|]. split; [|exact Hidx].
  rewrite progress_calls_app, Ht, Hk. reflexivity.
Qed.

Lemma uninterrupted_scan_reports_each_file_witness :
  let r := scan_directory (Samples.album false) (Some Samples.detector) true
                          (Some (fun _ => false)) Samples.photos init_db in
  scan_outcome r = Returned /\
  List.length (progress_calls (scan_trace r))
  = S (List.length (image_files (Samples.album false) Samples.photos)).
Proof.
  cbv zeta.
  assert (Hm : forall q, In q (image_files (Samples.album false) Samples.photos) ->
                         getmtime (Samples.album false) q <> None).
  { assert (Hb : forallb (fun q => match getmtime (Samples.album false) q with
                                   | Some _ => true
                                   | None => false
                                   end)
                         (image_files (Samples.album false) Samples.photos) = true)
      by (vm_compute; reflexivity).
    intros q Hq. rewrite forallb_forall in Hb. specialize (Hb q Hq).
    destruct (getmtime (Samples.album false) q); [discriminate|discriminate Hb]. }
  destruct (uninterrupted_scan_reports_each_file (Samples.album false)
              (Some Samples.detector) (Some (fun _ => false)) Samples.photos init_db
              eq_refl Hm) as [Ho [Hp _]].
  { intros check i E _. injection E as <-. reflexivity. }
  split; [exact Ho|]. rewrite Hp. vm_compute. reflexivity.
Defined.

(** X11: when [getmtime] raises on an image (the files before it were
    read without error and the scan was not cancelled up to it), the scan
    ends with that exception: the call on the image is its last event, no
    later image is looked at, the callback is never called with "Complete",
    and the images before it stay indexed. *)
Theorem getmtime_failure_aborts_scan (fs : FileSystem)
        (processor : option (string -> option (list Detection)))
        (cb : bool) (abort_check : option (nat -> bool)) (root : string) (db : Db)
        (pre : list string) (p : string) (post : list string) :
  path_exists fs root = true ->
  image_files fs root = (pre ++ p :: post)%list ->
  (forall q, In q pre -> getmtime fs q <> None) ->
  getmtime fs p = None ->
  (forall check i, abort_check = Some check ->
                   i <= List.length pre -> check i = false) ->
  let r := scan_directory fs processor cb abort_check root db in
  scan_outcome r = Raised /\
  (exists t, scan_trace r = (t ++ [Getmtime p])%list) /\
  (forall e q, In e (scan_trace r) -> event_path e = Some q ->
               In q (pre ++ [p])%list) /\
  (forall c t, ~ In (Progress c t "Complete") (scan_trace r)) /\
  (forall q, In q pre -> indexed fs (scan_db r) q).
Proof.
  intros Hroot Himg Hm Hp Hc r.
  pose proof (completion_marker_once fs processor cb abort_check root db Hroot)
    as Hmark.
  unfold r.
  rewrite (scan_directory_existing_root fs processor cb abort_check root db Hroot).
  cbv zeta in Hmark |- *. rewrite Himg in Hmark |- *.
  destruct (failing_loop fs processor abort_check
              (List.length (pre ++ p :: post)) pre p post cb 0 0 db Hm Hp)
    as [He [Ht [Hpaths Hidx]]].
  { intros check i E Hi. apply (Hc check i E). lia. }
  rewrite He. cbn [scan_outcome scan_trace scan_db].
  split; [reflexivity|]. split; [exact Ht|]. split; [exact Hpaths|].
  split; [exact Hmark|exact Hidx].
Qed.

Lemma getmtime_failure_aborts_scan_witness :
  let r := scan_directory Cases.album_with_vanished_file (Some Samples.detector)
                          true None Samples.photos init_db in
  scan_outcome r = Raised /\
  (exists t, scan_trace r = (t ++ [Getmtime "/photos/b.jpg"])%list) /\
  indexed Cases.album_with_vanished_file (scan_db r) "/photos/a.jpg".
Proof.
  cbv zeta.
  destruct (getmtime_failure_aborts_scan Cases.album_with_vanished_file
              (Some Samples.detector) true None Samples.photos init_db
              ["/photos/a.jpg"] "/photos/b.jpg" [] eq_refl eq_refl)
    as [Ho [Ht [_ [_ Hidx]]]].
  - intros q [<-|[]]. discriminate.
  - reflexivity.
  - intros check i E. discriminate E.
  - split; [exact Ho|]. split; [exact Ht|]. apply Hidx. left. reflexivity.
Defined.

Module AppendFacts.
Import Database DatabaseFacts Scanner ScannerFacts Keys Growth RowFacts StoreFacts.
Local Open Scope list_scope.

Lemma grown_refl (todo : list string) (db : Db) : grown todo db db.
Proof.
  split; [reflexivity|]. split; [lia|]. split; [|split; auto].
  exists []. rewrite app_nil_r. split; [reflexivity|intros f []].
Qed.

Lemma grown_trans (t1 t2 : list string) (a b c : Db) :
  grown t1 a b -> grown t2 b c -> grown (t1 ++ t2) a c.
Proof.
  intros [Hp1 [Hs1 [[ad1 [Hf1 Ha1]] [Hk1 Hn1]]]] [Hp2 [Hs2 [[ad2 [Hf2 Ha2]] [Hk2 Hn2]]]].
  split; [congruence|]. split; [lia|]. split; [|split].
  - exists (ad1 ++ ad2). split; [rewrite Hf2, Hf1, app_assoc; reflexivity|].
    intros f Hf. apply in_app_or in Hf. destruct Hf as [Hf|Hf].
    + destruct (Ha1 f Hf) as [H1 [H2 H3]]. split; [exact H1|].
      split; [apply in_or_app; left; exact H2|lia].
    + destruct (Ha2 f Hf) as [H1 [H2 H3]]. split; [exact H1|].
      split; [apply in_or_app; right; exact H2|lia].
  - auto.
  - intros q Hq. destruct (Hn2 q Hq) as [H|H].
    + destruct (Hn1 q H) as [H'|H']; [left; exact H'|].
      right. apply in_or_app. left. exact H'.
    + right. apply in_or_app. right. exact H.
Qed.

Lemma add_file_paths (db : Db) (p h : string) (m : Z) (q : string) :
  In q (map file_path (files (add_file db p h m))) <->
  q = p \/ In q (map file_path (files db)).
Proof.
  unfold add_file. cbn [files]. rewrite map_app, in_app_iff. cbn [map file_path In].
  split.
  - intros [H|[H|[]]]; [|left; congruence].
    right. apply in_map_iff in H. destruct H as [r [<- Hr]].
    apply filter_In in Hr. apply in_map. exact (proj1 Hr).
  - intros [->|H]; [right; left; reflexivity|].
    destruct (String.eqb_spec q p) as [->|Hne]; [right; left; reflexivity|].
    left. apply in_map_iff in H. destruct H as [r [<- Hr]].
    apply in_map. apply filter_In. split; [exact Hr|].
    apply negb_true_iff. apply String.eqb_neq. exact Hne.
Qed.

Lemma add_file_faces (db : Db) (p h : string) (m : Z) :
  faces (add_file db p h m) = faces db /\
  persons (add_file db p h m) = persons db /\
  face_seq (add_file db p h m) = face_seq db.
Proof. repeat split. Qed.

Lemma add_faces_rows (p : string) (ds : list Detection) :
  forall db,
    exists added,
      faces (add_faces db p ds) = faces db ++ added /\
      (face_seq db <= face_seq (add_faces db p ds))%Z /\
      forall f, In f added ->
                face_person f = None /\ face_file f = p /\
                (face_seq db < face_id f <= face_seq (add_faces db p ds))%Z.
Proof.
  unfold add_faces. induction ds as [|d ds IH]; intros db.
  - exists []. cbn [fold_left]. rewrite app_nil_r.
    split; [reflexivity|]. split; [lia|intros f []].
  - cbn [fold_left]. destruct (IH (insert_face db p d)) as [added [Hf [Hs Hid]]].
    exists (mkFace (face_seq db + 1) p (CText (det_embedding d)) (det_bbox d)
                   (det_thumbnail d) None :: added).
    rewrite Hf. unfold insert_face in *. cbn [faces face_seq] in *.
    split; [rewrite <- app_assoc; reflexivity|]. split; [lia|].
    intros f [<-|H]; [cbn [face_person face_file face_id]; repeat split; lia|].
    destruct (Hid f H) as [H1 [H2 H3]]. repeat split; try assumption; lia.
Qed.

Lemma add_faces_grown (db : Db) (p : string) (ds : list Detection) :
  grown [p] db (add_faces db p ds).
Proof.
  destruct (add_faces_rows p ds db) as [added [Hf [Hs Hid]]].
  split; [apply add_faces_persons|]. split; [exact Hs|]. split; [|split].
  - exists added. split; [exact Hf|]. intros f Hin.
    destruct (Hid f Hin) as [H1 [H2 H3]].
    split; [exact H1|]. split; [left; symmetry; exact H2|exact H3].
  - rewrite add_faces_files. auto.
  - rewrite add_faces_files. auto.
Qed.

Section Facts.

Variable fs : FileSystem.
Variable processor : option (string -> option (list Detection)).
Variable progress_callback : bool.
Variable abort_check : option (nat -> bool).

Lemma detect_add_faces (db : Db) (p : string) :
  exists ds, snd (detect processor db p) = add_faces db p ds.
Proof.
  unfold detect. destruct processor as [pi|]; [|exists []; reflexivity].
  destruct (pi p) as [[|d ds]|].
  - exists []. reflexivity.
  - exists (d :: ds). reflexivity.
  - exists []. reflexivity.
Qed.

Lemma scan_file_grown (db db' : Db) (p : string) (ev : list event) :
  scan_file fs processor db p = (ev, Some db') -> grown [p] db db'.
Proof.
  unfold scan_file. destruct (getmtime fs p) as [m|]; [|discriminate].
  destruct (file_exists db p m).
  - intros H. injection H as _ <-. apply grown_refl.
  - destruct (detect_add_faces (add_file db p (calculate_hash fs p) m) p)
      as [ds Hds].
    destruct (detect processor _ p) as [ev' db2]. cbn [snd] in Hds.
    intros H. injection H as _ <-. subst db2.
    pose proof (add_faces_grown (add_file db p (calculate_hash fs p) m) p ds)
      as [Hp [Hs [[added [Hf Ha]] [Hk Hn]]]].
    split; [exact Hp|]. split; [exact Hs|]. split; [|split].
    + exists added. split; [exact Hf|exact Ha].
    + intros q Hq. apply Hk. apply add_file_paths. right. exact Hq.
    + intros q Hq. destruct (Hn q Hq) as [H|H]; [|right; exact H].
      apply add_file_paths in H. destruct H as [->|H]; [right; left; reflexivity|].
      left. exact H.
Qed.

Lemma scan_loop_grown (total : nat) (todo : list string) :
  forall idx k db,
    grown todo db
          (loop_db (scan_loop fs processor progress_callback abort_check
                              total todo idx k db)).
Proof.
  induction todo as [|p rest IH]; intros idx k db; [apply grown_refl|].
  rewrite scan_loop_cons. cbv zeta.
  destruct (poll abort_check idx) as [ev2 [|]]; [apply grown_refl|].
  destruct (scan_file fs processor db p) as [ev3 [db'|]] eqn:Hsf;
    [|apply grown_refl].
  cbn [loop_db].
  exact (grown_trans [p] rest db db' _ (scan_file_grown db db' p ev3 Hsf)
                     (IH (S idx) (S k) db')).
Qed.

End Facts.

End AppendFacts.

Import Growth AppendFacts.

(** X12: a scan only adds to the store.  Whatever the file system, the
    provider and the callbacks do, after [scan_directory] the persons are
    as before, the face rows of before are all there, unchanged and in
    their order, followed by new rows that have no person, belong to an
    image of the root and carry ids above the old counter; no path leaves
    the files table, and a path that enters it is an image of the root. *)
Theorem scan_directory_only_appends (fs : FileSystem)
        (processor : option (string -> option (list Detection)))
        (cb : bool) (abort_check : option (nat -> bool)) (root : string) (db : Db) :
  let db' := scan_db (scan_directory fs processor cb abort_check root db) in
  persons db' = persons db /\
  (exists added,
      faces db' = (faces db ++ added)%list /\
      forall f, In f added ->
                face_person f = None /\ In (face_file f) (image_files fs root) /\
                (face_seq db < face_id f <= face_seq db')%Z) /\
  (forall q, In q (map file_path (files db)) -> In q (map file_path (files db'))) /\
  (forall q, In q (map file_path (files db')) ->
             In q (map file_path (files db)) \/ In q (image_files fs root)).
Proof.
  cbv zeta.
  assert (H : grown (image_files fs root) db
                    (scan_db (scan_directory fs processor cb abort_check root db))).
  { destruct (path_exists fs root) eqn:Hroot.
    - rewrite (scan_directory_existing_root fs processor cb abort_check root db Hroot).
      cbv zeta.
      pose proof (scan_loop_grown fs processor cb abort_check
                    (List.length (image_files fs root)) (image_files fs root) 0 0 db)
        as Hg.
      destruct (loop_exit _); exact Hg.
    - rewrite (scan_directory_missing_root fs processor cb abort_check root db Hroot).
      apply grown_refl. }
  destruct H as [Hp [_ [Ha [Hk Hn]]]]. auto.
Qed.

Module RescanFacts.
Import Database DatabaseFacts Scanner ScannerFacts Keys RowFacts.
Local Open Scope list_scope.

Lemma detect_some (pi : string -> option (list Detection)) (db : Db) (p : string)
      (ds : list Detection) :
  pi p = Some ds ->
  detect (Some pi) db p = ([ProcessImage p], add_faces db p ds).
Proof. intros H. unfold detect. rewrite H. destruct ds; reflexivity. Qed.

Lemma select_mtime_add_faces (db : Db) (p q : string) (ds : list Detection) :
  select_mtime (add_faces db p ds) q = select_mtime db q.
Proof. apply select_mtime_files. apply add_faces_files. Qed.

Lemma columns_file (p : string) (ds : list Detection) (added : list FaceRow) :
  map columns added = map (stored p) ds ->
  forall f, In f added -> face_file f = p.
Proof.
  intros Hc f Hf.
  assert (Hin : In (columns f) (map (stored p) ds))
    by (rewrite <- Hc; apply in_map; exact Hf).
  apply in_map_iff in Hin. destruct Hin as [d [Hd _]].
  unfold columns, stored in Hd. congruence.
Qed.

Lemma filter_all {A : Type} (g : A -> bool) (l : list A) :
  (forall x, In x l -> g x = true) -> filter g l = l.
Proof.
  induction l as [|x l IH]; intros H; [reflexivity|]. cbn [filter].
  rewrite (H x (or_introl eq_refl)), IH; [reflexivity|].
  intros y Hy. apply H. right. exact Hy.
Qed.

End RescanFacts.

Import RescanFacts.



(** X14: when an indexed image has a new modification time, the scan
    replaces its row in [files] and adds a row for every face the provider
    finds now, but the face rows stored for the image before stay: the
    image then has its old faces followed by the new ones. *)
Theorem changed_file_keeps_old_faces (fs : FileSystem)
        (pi : string -> option (list Detection)) (db : Db) (p : string)
        (m0 m : Z) (ds : list Detection) :
  select_mtime db p = Some m0 ->
  getmtime fs p = Some m ->
  m <> m0 ->
  pi p = Some ds ->
  exists db' added,
    scan_file fs (Some pi) db p
    = ([Getmtime p; ReadFile p; ProcessImage p], Some db') /\
    select_mtime db' p = Some m /\
    faces db' = (faces db ++ added)%list /\
    map columns added = map (stored p) ds /\
    filter (fun f => String.eqb (face_file f) p) (faces db')
    = (filter (fun f => String.eqb (face_file f) p) (faces db) ++ added)%list.
Proof.
  intros H0 Hm Hne Hpi.
  set (db1 := add_file db p (calculate_hash fs p) m).
  destruct (add_faces_shape p ds db1) as [added [Hf [Hc _]]].
  exists (add_faces db1 p ds), added.
  split; [|split; [|split; [exact Hf|split; [exact Hc|]]]].
  - unfold scan_file. rewrite Hm. unfold file_exists. rewrite H0.
    destruct (Z.eqb_spec m0 m) as [E|_]; [congruence|].
    fold db1. rewrite (detect_some pi db1 p ds Hpi). reflexivity.
  - rewrite select_mtime_add_faces. apply select_mtime_add_file.
  - rewrite Hf, filter_app. f_equal. apply filter_all.
    intros f Hin. apply String.eqb_eq. exact (columns_file p ds added Hc f Hin).
Qed.

Lemma changed_file_keeps_old_faces_witness :
  let fs := Samples.album false in
  let db := add_faces (add_file init_db "/photos/a.jpg" "old" 7) "/photos/a.jpg"
                      [mkDet "[1, 0]" "[0, 0, 5, 5]" None] in
  exists db',
    snd (scan_file fs (Some Samples.detector) db "/photos/a.jpg") = Some db' /\
    select_mtime db' "/photos/a.jpg" = Some 100%Z /\
    List.length (filter (fun f => String.eqb (face_file f) "/photos/a.jpg")
                        (faces db')) = 2.
Proof.
  cbv zeta.
  destruct (changed_file_keeps_old_faces (Samples.album false) Samples.detector
              (add_faces (add_file init_db "/photos/a.jpg" "old" 7) "/photos/a.jpg"
                         [mkDet "[1, 0]" "[0, 0, 5, 5]" None])
              "/photos/a.jpg" 7 100 _ eq_refl eq_refl ltac:(discriminate) eq_refl)
    as [db' [added [Hs [Hsel [_ [Hc Hfil]]]]]].
  exists db'. split; [rewrite Hs; reflexivity|]. split; [exact Hsel|].
  rewrite Hfil, length_app.
  assert (Hl : List.length added = 1).
  { rewrite <- (length_map columns), Hc. reflexivity. }
  rewrite Hl. reflexivity.
Defined.

(** * Further properties of the clustering *)

Module LinkFacts.
Import Clusterer Density Linking DbscanFacts DensityFacts ExpansionFacts.
Local Open Scope list_scope.

Section Facts.

Variable E : Type.
Variable near : E -> E -> bool.
Variable X : list E.

Local Abbreviation n := (List.length X).
Local Abbreviation nbs := (neighborhoods E near X).
Local Abbreviation core := (core_samples E near X).
Local Abbreviation neighbour := (neighbour E near X).
Local Abbreviation agree := (agree E near X).
Local Abbreviation closed_for := (closed_for E near X).
Local Abbreviation cores_only := (cores_only E near X).

Hypothesis near_refl : forall x, near x x = true.
Hypothesis near_sym : forall x y, near x y = near y x.

Lemma labelled_in_range (labels : list Z) (k : nat) :
  labelled labels k -> k < List.length labels.
Proof.
  intros H. destruct (Nat.lt_ge_cases k (List.length labels)) as [Hk|Hk];
    [exact Hk|].
  exfalso. apply H. apply nth_overflow. exact Hk.
Qed.

(** What one visit does to the three invariants. *)
Lemma visit_link (c : Z) (i : nat) (stack : list nat) (labels : list Z) :
  c <> noise ->
  List.length labels = n ->
  closed_for c labels (i :: stack) ->
  agree labels ->
  cores_only labels (i :: stack) ->
  let '(labels1, stack1) := visit nbs core c i stack labels in
  List.length labels1 = n /\
  (forall k, labelled labels k -> nth k labels1 noise = nth k labels noise) /\
  (forall k, nth k labels1 noise = nth k labels noise \/ nth k labels1 noise = c) /\
  closed_for c labels1 stack1 /\
  agree labels1 /\
  cores_only labels1 stack1 /\
  (i < n -> labelled labels1 i).
Proof.
  intros Hc Hlen Hclosed Hagree [Hcl Hcs]. unfold visit.
  destruct (unlabelled labels i) eqn:Hu.
  - set (l1 := set_label i c labels).
    assert (Hlen1 : List.length l1 = n)
      by (unfold l1; rewrite set_label_length; exact Hlen).
    assert (Hother : forall k, k <> i -> nth k l1 noise = nth k labels noise).
    { intros k Hk. apply nth_set_label_other. exact Hk. }
    assert (Hkept : forall k, labelled labels k -> nth k l1 noise = nth k labels noise).
    { intros k Hk. apply Hother. intros ->.
      apply unlabelled_iff in Hk. congruence. }
    assert (Hself : i < n -> nth i l1 noise = c).
    { intros Hi. apply nth_set_label_same. lia. }
    assert (Hnew : i < n -> labelled l1 i).
    { intros Hi. unfold labelled. rewrite Hself by exact Hi. exact Hc. }
    assert (Hold : forall a, a <> i -> labelled l1 a -> labelled labels a).
    { intros a Ha H. unfold labelled in *. rewrite Hother in H by exact Ha. exact H. }
    assert (Hmono : forall b, labelled labels b -> labelled l1 b).
    { intros b H. unfold labelled. rewrite Hkept by exact H. exact H. }
    assert (Hicore : nth i core false = true) by (apply Hcs; left; reflexivity).
    rewrite Hicore.
    split; [exact Hlen1|]. split; [exact Hkept|]. split.
    { intros k. destruct (Nat.eq_dec k i) as [->|Hk].
      - right. apply Hself. apply core_nth in Hicore. tauto.
      - left. apply Hother. exact Hk. }
    assert (Hin : i < n) by (apply core_nth in Hicore; tauto).
    split; [|split; [|split; [|exact Hnew]]].
    + intros a b Ha Hca Hab.
      destruct (Nat.eq_dec a i) as [->|Hai].
      * destruct (unlabelled l1 b) eqn:Hub.
        -- right. split; [apply Hself; exact Hin|].
           apply push_unlabelled_in. right. split; [|exact Hub].
           apply neighborhood_in. exact Hab.
        -- left. apply unlabelled_iff. exact Hub.
      * destruct (Hclosed a b (Hold a Hai Ha) Hca Hab) as [H|[Hac [H|H]]].
        -- left. apply Hmono. exact H.
        -- left. subst b. apply Hnew. exact Hin.
        -- right. split; [rewrite Hother by exact Hai; exact Hac|].
           apply push_unlabelled_in. left. exact H.
    + intros a b Hab Ha Hb.
      destruct (Nat.eq_dec a i) as [->|Hai]; destruct (Nat.eq_dec b i) as [->|Hbi].
      * reflexivity.
      * rewrite (Hself Hin), (Hother b Hbi).
        assert (Hbc : nth b core false = true)
          by (apply (neighbour_is_core E near X near_refl near_sym i b Hab); congruence).
        destruct (Hclosed b i (Hold b Hbi Hb) Hbc
                    (neighbour_sym E near X near_sym i b Hab)) as [H|[H _]].
        -- apply unlabelled_iff in H. congruence.
        -- symmetry. exact H.
      * rewrite (Hself Hin), (Hother a Hai).
        destruct (Hclosed a i (Hold a Hai Ha) (Hcl a (Hold a Hai Ha)) Hab)
          as [H|[H _]].
        -- apply unlabelled_iff in H. congruence.
        -- exact H.
      * rewrite (Hother a Hai), (Hother b Hbi).
        apply Hagree; [exact Hab|apply Hold; assumption..].
    + split.
      * intros k Hk. destruct (Nat.eq_dec k i) as [->|Hki]; [exact Hicore|].
        apply Hcl. apply Hold; assumption.
      * intros j Hj. apply push_unlabelled_in in Hj. destruct Hj as [Hj|[Hj Huj]].
        -- apply Hcs. right. exact Hj.
        -- apply neighborhood_in in Hj.
           apply (neighbour_is_core E near X near_refl near_sym i j Hj).
           intros <-. apply Hnew in Hin. apply unlabelled_iff in Hin.
           congruence.
  - apply unlabelled_iff in Hu.
    split; [exact Hlen|]. split; [reflexivity|]. split; [left; reflexivity|].
    split; [|split; [exact Hagree|split; [|intros _; exact Hu]]].
    + intros a b Ha Hca Hab. destruct (Hclosed a b Ha Hca Hab) as [H|[Hac [H|H]]].
      * left. exact H.
      * left. subst b. exact Hu.
      * right. split; assumption.
    + split; [exact Hcl|]. intros j Hj. apply Hcs. right. exact Hj.
Qed.

Lemma expand_link (c : Z) :
  c <> noise ->
  forall fuel i stack labels labels',
    List.length labels = n ->
    closed_for c labels (i :: stack) ->
    agree labels ->
    cores_only labels (i :: stack) ->
    expand fuel nbs core c i stack labels = Some labels' ->
    List.length labels' = n /\
    (forall k, labelled labels k -> nth k labels' noise = nth k labels noise) /\
    (forall k, nth k labels' noise = nth k labels noise \/ nth k labels' noise = c) /\
    closed_for c labels' [] /\
    agree labels' /\
    cores_only labels' [] /\
    (i < n -> labelled labels' i).
Proof.
  intros Hc. induction fuel as [|fuel IH];
    intros i stack labels labels' Hlen Hclosed Hagree Hcores; [discriminate|].
  cbn [expand].
  pose proof (visit_link c i stack labels Hc Hlen Hclosed Hagree Hcores) as Hv.
  destruct (visit nbs core c i stack labels) as [labels1 stack1].
  destruct Hv as [Hlen1 [Hkept1 [Hnew1 [Hclosed1 [Hagree1 [Hcores1 Hi1]]]]]].
  destruct stack1 as [|j st].
  - intros H. injection H as <-. repeat split; try assumption; apply Hcores1.
  - intros H.
    destruct (IH j st labels1 labels' Hlen1 Hclosed1 Hagree1 Hcores1 H)
      as [Hlen2 [Hkept2 [Hnew2 [Hclosed2 [Hagree2 [Hcores2 _]]]]]].
    assert (Hmono : forall k, labelled labels1 k -> labelled labels' k).
    { intros k Hk. unfold labelled. rewrite Hkept2 by exact Hk. exact Hk. }
    split; [exact Hlen2|]. split; [|split; [|split; [exact Hclosed2|]]].
    + intros k Hk. assert (Hk1 : labelled labels1 k).
      { unfold labelled. rewrite Hkept1 by exact Hk. exact Hk. }
      rewrite Hkept2 by exact Hk1. apply Hkept1. exact Hk.
    + intros k. destruct (Hnew2 k) as [H2|H2]; [|right; exact H2].
      rewrite H2. apply Hnew1.
    + split; [exact Hagree2|]. split; [exact Hcores2|].
      intros Hi. apply Hmono. apply Hi1. exact Hi.
Qed.

(** The outer loop: the labels agree on neighbours, only core points are
    labelled, every core point of [todo] gets a label, and the labels in
    use stay an initial segment of the naturals. *)
Lemma dbscan_inner_link (fuel : nat) (todo : list nat) :
  forall label_num labels labels',
    (0 <= label_num)%Z ->
    List.length labels = n ->
    closed_for label_num labels [] ->
    agree labels ->
    cores_only labels [] ->
    labels_below label_num labels ->
    dbscan_inner fuel nbs core todo label_num labels = Some labels' ->
    agree labels' /\
    cores_only labels' [] /\
    (forall k, labelled labels k -> labelled labels' k) /\
    (forall i, In i todo -> nth i core false = true -> labelled labels' i) /\
    exists m, (label_num <= m)%Z /\ labels_below m labels'.
Proof.
  induction todo as [|i rest IH];
    intros label_num labels labels' Hpos Hlen Hcl Hag Hco Hbelow.
  - intros H. injection H as <-.
    split; [exact Hag|]. split; [exact Hco|]. split; [auto|].
    split; [intros i []|]. exists label_num. split; [lia|exact Hbelow].
  - cbn [dbscan_inner].
    destruct (unlabelled labels i) eqn:Hu; cbn [negb orb].
    + destruct (nth i core false) eqn:Hcore; cbn [negb].
      * destruct (expand fuel nbs core label_num i [] labels) as [labels1|] eqn:Hex;
          [|discriminate].
        assert (Hne : label_num <> noise) by (unfold noise; lia).
        assert (Hcl' : closed_for label_num labels [i]).
        { intros a b Ha Hca Hab. destruct (Hcl a b Ha Hca Hab) as [H|[_ []]].
          left. exact H. }
        assert (Hco' : cores_only labels [i]).
        { split; [apply Hco|]. intros j [<-|[]]. exact Hcore. }
        destruct (expand_link label_num Hne fuel i [] labels labels1 Hlen Hcl' Hag
                    Hco' Hex) as [Hlen1 [Hkept [Hnew [Hcl1 [Hag1 [Hco1 Hi]]]]]].
        assert (Hin : i < n) by (apply core_nth in Hcore; tauto).
        assert (Hmono : forall k, labelled labels k -> labelled labels1 k).
        { intros k Hk. unfold labelled. rewrite Hkept by exact Hk. exact Hk. }
        assert (Hil : nth i labels1 noise = label_num).
        { destruct (Hnew i) as [H|H]; [|exact H]. exfalso.
          apply (Hi Hin). rewrite H. apply Z.eqb_eq. exact Hu. }
        intros Hrest.
        destruct (IH (label_num + 1)%Z labels1 labels') as [H1 [H2 [H3 [H4 H5]]]];
          try assumption; try lia.
        { intros a b Ha Hca Hab. destruct (Hcl1 a b Ha Hca Hab) as [H|[_ []]].
          left. exact H. }
        { split.
          - intros k Hk. destruct (Hnew k) as [H|H].
            + rewrite H. destruct (proj1 Hbelow k) as [Hlo Hhi]; [|lia].
              unfold labelled in *. rewrite <- H. exact Hk.
            + rewrite H. lia.
          - intros l Hl. destruct (Z.eq_dec l label_num) as [->|Hll].
            + exists i. exact Hil.
            + destruct (proj2 Hbelow l) as [k Hk]; [lia|]. exists k.
              rewrite Hkept; [exact Hk|]. unfold labelled. rewrite Hk.
              unfold noise. lia. }
        split; [exact H1|]. split; [exact H2|]. split; [auto|]. split.
        -- intros j [<-|Hj] Hjc; [apply H3; apply Hi; exact Hin|].
           apply H4; assumption.
        -- destruct H5 as [m [Hm Hb]]. exists m. split; [lia|exact Hb].
      * intros Hrest.
        destruct (IH label_num labels labels' Hpos Hlen Hcl Hag Hco Hbelow Hrest)
          as [H1 [H2 [H3 [H4 H5]]]].
        split; [exact H1|]. split; [exact H2|]. split; [exact H3|].
        split; [|exact H5].
        intros j [<-|Hj] Hjc; [congruence|]. apply H4; assumption.
    + intros Hrest.
      destruct (IH label_num labels labels' Hpos Hlen Hcl Hag Hco Hbelow Hrest)
        as [H1 [H2 [H3 [H4 H5]]]].
      split; [exact H1|]. split; [exact H2|]. split; [exact H3|].
      split; [|exact H5].
      intros j [<-|Hj] Hjc; [|apply H4; assumption].
      apply H3. apply unlabelled_iff. exact Hu.
Qed.

Lemma dbscan_link :
  agree (dbscan E near X) /\
  (forall k, labelled (dbscan E near X) k <-> nth k core false = true) /\
  exists m, (0 <= m)%Z /\ labels_below m (dbscan E near X).
Proof.
  destruct (dbscan_labels E near X) as [Hrun _].
  unfold dbscan_run in Hrun.
  assert (Hnone : forall k, ~ labelled (repeat noise n) k).
  { intros k Hk. apply Hk. apply nth_repeat_noise. }
  destruct (dbscan_inner_link _ _ _ _ _ (Z.le_refl 0) (repeat_length noise n)
              ltac:(intros a b Ha; destruct (Hnone a Ha))
              ltac:(intros a b _ Ha; destruct (Hnone a Ha))
              ltac:(split; [intros k Hk; destruct (Hnone k Hk)|intros j []])
              ltac:(split; [intros k Hk; destruct (Hnone k Hk)|intros l Hl; lia])
              Hrun) as [H1 [H2 [_ [H4 H5]]]].
  split; [exact H1|]. split; [|exact H5].
  intros k. split; [apply H2|]. intros Hk. apply H4; [|exact Hk].
  apply in_seq. apply core_nth in Hk. lia.
Qed.

End Facts.

End LinkFacts.

Module NearFacts.
Import Clusterer Density Linking DensityFacts LinkFacts.

Lemma near_points_share_label (E : Type) (near : E -> E -> bool) (X : list E)
      (a b : nat) :
  (forall x, near x x = true) ->
  (forall x y, near x y = near y x) ->
  neighbour E near X a b ->
  a <> b ->
  labelled (dbscan E near X) a /\
  nth b (dbscan E near X) noise = nth a (dbscan E near X) noise.
Proof.
  intros Hrefl Hsym Hab Hne.
  destruct (dbscan_link E near X Hrefl Hsym) as [Hagree [Hcore _]].
  assert (Ha : labelled (dbscan E near X) a).
  { apply Hcore.
    apply (neighbour_is_core E near X Hrefl Hsym b a
             (neighbour_sym E near X Hsym a b Hab)). congruence. }
  assert (Hb : labelled (dbscan E near X) b).
  { apply Hcore. exact (neighbour_is_core E near X Hrefl Hsym a b Hab Hne). }
  split; [exact Ha|]. symmetry. exact (Hagree a b Hab Ha Hb).
Qed.

End NearFacts.

Import Clusterer Density Linking DbscanFacts DensityFacts ExpansionFacts LinkFacts
       ExactFacts NearFacts.

(** X15: with a reflexive and symmetric [near], two different points that
    are within [eps] of each other are never noise and always get the same
    cluster label from [dbscan]. *)
Theorem dbscan_links_near_points (E : Type) (near : E -> E -> bool) (X : list E)
        (a b : nat) :
  (forall x, near x x = true) ->
  (forall x y, near x y = near y x) ->
  neighbour E near X a b ->
  a <> b ->
  let labels := dbscan E near X in
  nth a labels noise <> noise /\ nth b labels noise = nth a labels noise.
Proof.
  intros Hrefl Hsym Hab Hne labels.
  exact (near_points_share_label E near X a b Hrefl Hsym Hab Hne).
Qed.

Lemma dbscan_links_near_points_witness :
  let labels := dbscan (list Z) near_exact [[3; 4]; [-5; 0]; [4; 3]]%Z in
  nth 0 labels noise <> noise /\ nth 2 labels noise = nth 0 labels noise.
Proof.
  apply (dbscan_links_near_points (list Z) near_exact
           [[3; 4]; [-5; 0]; [4; 3]]%Z 0 2 near_exact_refl near_exact_sym).
  - exists [3; 4]%Z, [4; 3]%Z. repeat split.
  - discriminate.
Defined.

(** X16: with a reflexive and symmetric [near], a point is labelled as
    noise by [dbscan] exactly when no other point is within [eps] of it;
    a point with a label has a neighbour other than itself, which carries
    the same label. *)
Theorem dbscan_noise_iff_isolated (E : Type) (near : E -> E -> bool) (X : list E)
        (k : nat) :
  (forall x, near x x = true) ->
  (forall x y, near x y = near y x) ->
  k < List.length X ->
  let labels := dbscan E near X in
  (nth k labels noise = noise <-> forall b, neighbour E near X k b -> b = k) /\
  (nth k labels noise <> noise ->
   exists b, b <> k /\ neighbour E near X k b /\
             nth b labels noise = nth k labels noise).
Proof.
  intros Hrefl Hsym Hk labels.
  destruct (dbscan_link E near X Hrefl Hsym) as [Hagree [Hcore _]].
  assert (Hpartner : nth k labels noise <> noise ->
                     exists b, b <> k /\ neighbour E near X k b /\
                               nth b labels noise = nth k labels noise).
  { intros Hl. apply (Hcore k) in Hl.
    destruct (core_has_other_neighbour E near X k Hl) as [b [Hkb Hne]].
    exists b. split; [exact Hne|]. split; [exact Hkb|].
    apply (near_points_share_label E near X k b Hrefl Hsym Hkb). congruence. }
  split; [|exact Hpartner]. split.
  - intros Hnoise b Hkb. destruct (Nat.eq_dec b k) as [Hbk|Hbk]; [exact Hbk|].
    exfalso.
    assert (Hl : labelled labels k).
    { apply Hcore.
      apply (neighbour_is_core E near X Hrefl Hsym b k
               (neighbour_sym E near X Hsym k b Hkb) Hbk). }
    exact (Hl Hnoise).
  - intros Halone. destruct (Z.eq_dec (nth k labels noise) noise) as [H|H];
      [exact H|].
    destruct (Hpartner H) as [b [Hne [Hkb _]]]. exfalso. apply Hne.
    apply Halone. exact Hkb.
Qed.

Lemma dbscan_noise_iff_isolated_witness :
  let X := [[3; 4]; [-5; 0]; [4; 3]]%Z in
  let labels := dbscan (list Z) near_exact X in
  (nth 1 labels noise = noise <->
   forall b, neighbour (list Z) near_exact X 1 b -> b = 1) /\
  (nth 1 labels noise <> noise ->
   exists b, b <> 1 /\ neighbour (list Z) near_exact X 1 b /\
             nth b labels noise = nth 1 labels noise).
Proof.
  apply (dbscan_noise_iff_isolated (list Z) near_exact
           [[3; 4]; [-5; 0]; [4; 3]]%Z 1 near_exact_refl near_exact_sym).
  cbn [List.length]. lia.
Defined.

(** X17: [dbscan] ends within its fuel with one label per point, and (for
    a reflexive and symmetric [near]) the labels it uses are consecutive:
    there is an [m] such that every label is noise or one of 0, ..., m - 1
    and each of these is the label of some point. *)
Theorem dbscan_labels_are_consecutive (E : Type) (near : E -> E -> bool)
        (X : list E) :
  (forall x, near x x = true) ->
  (forall x y, near x y = near y x) ->
  let labels := dbscan E near X in
  dbscan_run E near X = Some labels /\
  List.length labels = List.length X /\
  exists m, (0 <= m)%Z /\
    (forall k, nth k labels noise = noise \/ (0 <= nth k labels noise < m)%Z) /\
    (forall l, (0 <= l < m)%Z ->
               exists k, k < List.length X /\ nth k labels noise = l).
Proof.
  intros Hrefl Hsym labels.
  destruct (dbscan_labels E near X) as [Hrun Hlen].
  destruct (dbscan_link E near X Hrefl Hsym) as [_ [_ [m [Hm [Hin Hall]]]]].
  split; [exact Hrun|]. split; [exact Hlen|]. exists m. split; [exact Hm|]. split.
  - intros k. destruct (Z.eq_dec (nth k labels noise) noise) as [H|H];
      [left; exact H|right; apply Hin; exact H].
  - intros l Hl. destruct (Hall l Hl) as [k Hk]. exists k. split; [|exact Hk].
    rewrite <- Hlen. apply (labelled_in_range (dbscan E near X) k).
    unfold labelled. intros Hn. subst labels.
    assert (Hl' : l = noise) by (rewrite <- Hk; exact Hn).
    unfold noise in Hl'. lia.
Qed.

Lemma dbscan_labels_are_consecutive_witness :
  dbscan_run (list Z) near_exact [[3; 4]; [-5; 0]; [4; 3]]%Z
  = Some [0; -1; 0]%Z.
Proof.
  destruct (dbscan_labels_are_consecutive (list Z) near_exact
              [[3; 4]; [-5; 0]; [4; 3]]%Z near_exact_refl near_exact_sym)
    as [Hrun _].
  rewrite Hrun. reflexivity.
Defined.

Module CreatedFacts.
Import Clusterer Database Density Linking Created PersonFacts.
Local Open Scope list_scope.

Lemma sorted_filter (g : Z -> bool) (l : list Z) :
  StronglySorted Z.lt l -> StronglySorted Z.lt (filter g l).
Proof.
  induction 1 as [|x l Hs IH Hall]; cbn [filter]; [constructor|].
  destruct (g x); [|exact IH]. constructor; [exact IH|].
  rewrite Forall_forall in *. intros y Hy. apply filter_In in Hy. apply Hall, Hy.
Qed.

Lemma sorted_ext (l1 : list Z) :
  forall l2,
    StronglySorted Z.lt l1 -> StronglySorted Z.lt l2 ->
    (forall y, In y l1 <-> In y l2) -> l1 = l2.
Proof.
  induction l1 as [|x r IH]; intros l2 H1 H2 Hm.
  - destruct l2 as [|y s]; [reflexivity|].
    destruct (proj2 (Hm y) (or_introl eq_refl)).
  - destruct l2 as [|y s]; [destruct (proj1 (Hm x) (or_introl eq_refl))|].
    inversion H1 as [|? ? Hr Hallr]; subst. inversion H2 as [|? ? Hs Halls]; subst.
    rewrite Forall_forall in Hallr, Halls.
    assert (x = y).
    { destruct (proj1 (Hm x) (or_introl eq_refl)) as [Hy|Hy]; [congruence|].
      destruct (proj2 (Hm y) (or_introl eq_refl)) as [Hx|Hx]; [congruence|].
      specialize (Hallr y Hx). specialize (Halls x Hy). lia. }
    subst y. f_equal. apply IH; [exact Hr|exact Hs|].
    intros z. split; intros Hz.
    + destruct (proj1 (Hm z) (or_intror Hz)) as [<-|H]; [|exact H].
      specialize (Hallr x Hz). lia.
    + destruct (proj2 (Hm z) (or_intror Hz)) as [<-|H]; [|exact H].
      specialize (Halls x Hz). lia.
Qed.

Lemma range_sorted (m : nat) :
  forall s, StronglySorted Z.lt (map Z.of_nat (seq s m)).
Proof.
  induction m as [|m IH]; intros s; cbn [seq map]; constructor; [apply IH|].
  rewrite Forall_forall. intros y Hy. apply in_map_iff in Hy.
  destruct Hy as [j [<- Hj]]. apply in_seq in Hj. lia.
Qed.

Lemma create_persons_filter (todo : list Z) :
  forall db cm c,
    create_persons todo db cm c
    = create_persons (filter (fun l => negb (Z.eqb l noise)) todo) db cm c.
Proof.
  induction todo as [|l rest IH]; intros db cm c; [reflexivity|].
  cbn [create_persons filter]. destruct (Z.eqb l noise) eqn:Hn; cbn [negb].
  - apply IH.
  - cbn [create_persons]. rewrite Hn.
    destruct (create_person db _) as [db' pid]. apply IH.
Qed.

Lemma dict_set_in (cm : list (Z * Z)) (k v l w : Z) :
  In (l, w) (dict_set cm k v) -> In (l, w) cm \/ w = v.
Proof.
  induction cm as [|[k' v'] r IH]; cbn [dict_set].
  - intros [H|[]]. right. congruence.
  - destruct (Z.eqb k' k).
    + intros [H|H]; [right; congruence|left; right; exact H].
    + intros [H|H]; [left; left; exact H|].
      destruct (IH H) as [H'|H']; [left; right; exact H'|right; exact H'].
Qed.

(** [create_persons] on the labels [s], ..., [s + m - 1]. *)
Lemma create_persons_range (m : nat) :
  forall s db cm c,
    exists cm1,
      create_persons (map Z.of_nat (seq s m)) db cm c
      = (mkDb (files db)
              (persons db
                 ++ map (numbered (person_seq db - Z.of_nat s)) (seq s m))
              (faces db) (face_seq db) (person_seq db + Z.of_nat m),
         cm1, c + m) /\
      (forall j, s <= j < s + m ->
                 dict_get cm1 (Z.of_nat j)
                 = Some (person_seq db - Z.of_nat s + Z.of_nat j + 1)%Z) /\
      (forall l, (forall j, s <= j < s + m -> l <> Z.of_nat j) ->
                 dict_get cm1 l = dict_get cm l) /\
      (forall l v, In (l, v) cm1 ->
                   In (l, v) cm \/
                   (person_seq db < v <= person_seq db + Z.of_nat m)%Z).
Proof.
  induction m as [|m IH]; intros s db cm c.
  - exists cm. cbn [seq map create_persons]. rewrite app_nil_r, Z.add_0_r, Nat.add_0_r.
    split; [destruct db; reflexivity|]. split; [intros j Hj; lia|].
    split; [reflexivity|]. intros l v H. left. exact H.
  - cbn [seq map create_persons].
    assert (Hn : Z.eqb (Z.of_nat s) noise = false)
      by (apply Z.eqb_neq; unfold noise; lia).
    rewrite Hn. unfold create_person.
    set (pid := (person_seq db + 1)%Z).
    set (db' := mkDb (files db) (persons db ++ [mkPerson pid _ None]) (faces db)
                     (face_seq db) pid).
    destruct (IH (S s) db' (dict_set cm (Z.of_nat s) pid) (S c))
      as [cm1 [Hrun [Hget [Hother Hin]]]].
    exists cm1. rewrite Hrun. cbn [files persons faces face_seq person_seq db'] in *.
    split; [|split; [|split]].
    + f_equal; [|lia]. f_equal. f_equal; [|unfold pid; lia].
      rewrite <- app_assoc. f_equal. cbn [app]. f_equal.
      * unfold numbered, pid. f_equal. lia.
      * apply map_ext. intros j. unfold numbered, pid. f_equal. lia.
    + intros j Hj. destruct (Nat.eq_dec j s) as [->|Hjs].
      * rewrite Hother by (intros j Hj'; lia).
        rewrite dict_get_set_same. unfold pid. f_equal. lia.
      * rewrite Hget by lia. unfold pid. f_equal. lia.
    + intros l Hl. rewrite Hother by (intros j Hj; apply Hl; lia).
      apply dict_get_set_other. apply Hl. lia.
    + intros l v H. destruct (Hin l v H) as [H'|H'].
      * apply dict_set_in in H'. destruct H' as [H'|H']; [left; exact H'|].
        right. unfold pid in H'. lia.
      * right. unfold pid in H'. lia.
Qed.

(** The labels [create_persons] acts on when the labels in use are
    0, ..., [m - 1]. *)
Lemma unique_labels_range (labels : list Z) (m : nat) :
  labels_below (Z.of_nat m) labels ->
  filter (fun l => negb (Z.eqb l noise)) (unique_labels labels)
  = map Z.of_nat (seq 0 m).
Proof.
  intros [Hin Hall].
  destruct (unique_labels_spec labels) as [Hsorted Hmem].
  apply sorted_ext; [apply sorted_filter; exact Hsorted|apply range_sorted|].
  intros y. rewrite filter_In, Hmem, in_map_iff. split.
  - intros [Hy Hne]. apply negb_true_iff, Z.eqb_neq in Hne.
    destruct (In_nth _ _ noise Hy) as [k [_ Hk]].
    assert (Hl : labelled labels k) by (unfold labelled; congruence).
    specialize (Hin k Hl). rewrite Hk in Hin.
    exists (Z.to_nat y). split; [lia|]. apply in_seq. lia.
  - intros [j [<- Hj]]. apply in_seq in Hj.
    destruct (Hall (Z.of_nat j)) as [k Hk]; [lia|].
    assert (Hne : Z.of_nat j <> noise) by (unfold noise; lia).
    split; [|apply negb_true_iff, Z.eqb_neq; exact Hne].
    rewrite <- Hk. apply nth_In.
    destruct (Nat.lt_ge_cases k (List.length labels)) as [H|H]; [exact H|].
    rewrite nth_overflow in Hk by exact H. congruence.
Qed.

Lemma create_persons_numbered (labels : list Z) (m : nat) (db : Db) :
  labels_below (Z.of_nat m) labels ->
  exists cm,
    create_persons (unique_labels labels) db [] 0 = (with_created db m, cm, m) /\
    (forall j, j < m ->
               dict_get cm (Z.of_nat j) = Some (person_seq db + Z.of_nat j + 1)%Z) /\
    (forall l v, In (l, v) cm ->
                 (person_seq db < v <= person_seq db + Z.of_nat m)%Z).
Proof.
  intros Hb. rewrite create_persons_filter, (unique_labels_range labels m Hb).
  destruct (create_persons_range m 0 db [] 0) as [cm [Hrun [Hget [_ Hin]]]].
  exists cm. rewrite Hrun. unfold with_created.
  rewrite Z.sub_0_r. split; [reflexivity|]. split.
  - intros j Hj. rewrite Hget by lia. f_equal. lia.
  - intros l v H. destruct (Hin l v H) as [[]|H']. exact H'.
Qed.

(** What [set_thumbnails] leaves as it is. *)
Lemma update_person_thumbnail_rows (db : Db) (pid : Z) (t : string) :
  map person_id (persons (update_person_thumbnail db pid t))
  = map person_id (persons db) /\
  map person_name (persons (update_person_thumbnail db pid t))
  = map person_name (persons db) /\
  (forall p, In p (persons db) -> person_id p <> pid ->
             In p (persons (update_person_thumbnail db pid t))).
Proof.
  unfold update_person_thumbnail. cbn [persons with_persons]. rewrite !map_map.
  split; [|split].
  - apply map_ext. intros p. destruct (Z.eqb (person_id p) pid); reflexivity.
  - apply map_ext. intros p. destruct (Z.eqb (person_id p) pid); reflexivity.
  - intros p Hp Hne. apply in_map_iff. exists p. split; [|exact Hp].
    apply Z.eqb_neq in Hne. rewrite Hne. reflexivity.
Qed.

Lemma set_thumbnails_rows (cm : list (Z * Z)) :
  forall db,
    map person_id (persons (set_thumbnails cm db)) = map person_id (persons db) /\
    map person_name (persons (set_thumbnails cm db)) = map person_name (persons db) /\
    files (set_thumbnails cm db) = files db /\
    person_seq (set_thumbnails cm db) = person_seq db /\
    (forall p, In p (persons db) ->
               (forall l v, In (l, v) cm -> person_id p <> v) ->
               In p (persons (set_thumbnails cm db))).
Proof.
  induction cm as [|[l pid] rest IH]; intros db.
  - cbn [set_thumbnails]. repeat split. auto.
  - cbn [set_thumbnails].
    assert (Hrest : forall p, (forall l' v, In (l', v) ((l, pid) :: rest) ->
                                            person_id p <> v) ->
                              (forall l' v, In (l', v) rest -> person_id p <> v) /\
                              person_id p <> pid).
    { intros p H. split; [intros l' v Hv; apply (H l' v); right; exact Hv|].
      apply (H l pid). left. reflexivity. }
    destruct (get_first_face_thumbnail db pid) as [t|].
    + destruct (truthy (Some t)).
      * destruct (IH (update_person_thumbnail db pid t)) as [H1 [H2 [H3 [H4 H5]]]].
        destruct (update_person_thumbnail_rows db pid t) as [U1 [U2 U3]].
        split; [congruence|]. split; [congruence|].
        split; [exact H3|]. split; [exact H4|].
        intros p Hp Hfree. destruct (Hrest p Hfree) as [Hr Hne].
        apply H5; [apply U3; assumption|exact Hr].
      * destruct (IH db) as [H1 [H2 [H3 [H4 H5]]]].
        split; [exact H1|]. split; [exact H2|]. split; [exact H3|].
        split; [exact H4|].
        intros p Hp Hfree. apply H5; [exact Hp|apply Hrest; exact Hfree].
    + destruct (IH db) as [H1 [H2 [H3 [H4 H5]]]].
      split; [exact H1|]. split; [exact H2|]. split; [exact H3|].
      split; [exact H4|].
      intros p Hp Hfree. apply H5; [exact Hp|apply Hrest; exact Hfree].
Qed.

End CreatedFacts.

Module ShapeFacts.
Import Clusterer Database Density Linking Created Counting Assignment Keys.
Import PersonFacts AssignmentFacts ClustererFacts DbscanFacts DensityFacts
       ExpansionFacts RunFacts LinkFacts CreatedFacts RowFacts.
Local Open Scope list_scope.

(** [set_thumbnails] as a map over the rows of [persons]. *)
Lemma set_thumbnails_map (cm : list (Z * Z)) :
  forall db,
    exists g,
      persons (set_thumbnails cm db) = map g (persons db) /\
      forall p, person_id (g p) = person_id p /\
                person_name (g p) = person_name p /\
                ((forall l v, In (l, v) cm -> person_id p <> v) -> g p = p).
Proof.
  induction cm as [|[l pid] rest IH]; intros db.
  - exists (fun p => p). cbn [set_thumbnails]. rewrite map_id. auto.
  - cbn [set_thumbnails].
    assert (Hkeep : forall g : PersonRow -> PersonRow,
               (forall p, person_id (g p) = person_id p /\
                          person_name (g p) = person_name p /\
                          ((forall l' v, In (l', v) rest -> person_id p <> v) ->
                           g p = p)) ->
               forall p, person_id (g p) = person_id p /\
                         person_name (g p) = person_name p /\
                         ((forall l' v, In (l', v) ((l, pid) :: rest) ->
                                        person_id p <> v) -> g p = p)).
    { intros g Hg p. destruct (Hg p) as [H1 [H2 H3]].
      split; [exact H1|]. split; [exact H2|]. intros Hfree. apply H3.
      intros l' v Hv. apply (Hfree l' v). right. exact Hv. }
    destruct (get_first_face_thumbnail db pid) as [t|];
      [destruct (truthy (Some t))|].
    + destruct (IH (update_person_thumbnail db pid t)) as [g [Hg Hp]].
      exists (fun p => g (if Z.eqb (person_id p) pid
                          then mkPerson (person_id p) (person_name p) (Some t)
                          else p)).
      split.
      * rewrite Hg. unfold update_person_thumbnail. cbn [persons with_persons].
        rewrite map_map. reflexivity.
      * intros p. destruct (Z.eqb_spec (person_id p) pid) as [Heq|Hne].
        -- destruct (Hp (mkPerson (person_id p) (person_name p) (Some t)))
             as [H1 [H2 _]].
           split; [exact H1|]. split; [exact H2|].
           intros Hfree. exfalso. apply (Hfree l pid); [left; reflexivity|exact Heq].
        -- apply (Hkeep g Hp).
    + destruct (IH db) as [g [Hg Hp]]. exists g. split; [exact Hg|].
      apply (Hkeep g Hp).
    + destruct (IH db) as [g [Hg Hp]]. exists g. split; [exact Hg|].
      apply (Hkeep g Hp).
Qed.

Lemma shifted_range_nodup (base : Z) (m : nat) :
  forall s, NoDup (map (fun j => (base + Z.of_nat j + 1)%Z) (seq s m)).
Proof.
  induction m as [|m IH]; intros s; cbn [seq map]; constructor; [|apply IH].
  intros H. apply in_map_iff in H. destruct H as [j [Hj Hin]].
  apply in_seq in Hin. lia.
Qed.

(** Labels that are exactly [0], ..., [m - 1] make [m] clusters. *)
Lemma clusters_below (labels : list Z) (m : nat) :
  labels_below (Z.of_nat m) labels -> clusters labels = m.
Proof.
  intros [Hin Hall]. unfold clusters.
  set (used := nodup Z.eq_dec (filter (fun l => negb (Z.eqb l noise)) labels)).
  assert (Hsame : forall y, In y used <-> In y (map Z.of_nat (seq 0 m))).
  { intros y. unfold used. rewrite nodup_In, filter_In, in_map_iff. split.
    - intros [Hy Hne]. apply negb_true_iff, Z.eqb_neq in Hne.
      destruct (In_nth _ _ noise Hy) as [k [_ Hk]].
      assert (Hl : labelled labels k) by (unfold labelled; congruence).
      specialize (Hin k Hl). rewrite Hk in Hin.
      exists (Z.to_nat y). split; [lia|]. apply in_seq. lia.
    - intros [j [<- Hj]]. apply in_seq in Hj.
      destruct (Hall (Z.of_nat j)) as [k Hk]; [lia|].
      assert (Hne : Z.of_nat j <> noise) by (unfold noise; lia).
      split; [|apply negb_true_iff, Z.eqb_neq; exact Hne].
      rewrite <- Hk. apply nth_In.
      destruct (Nat.lt_ge_cases k (List.length labels)) as [H|H]; [exact H|].
      rewrite nth_overflow in Hk by exact H. congruence. }
  assert (Hnd1 : NoDup used) by apply NoDup_nodup.
  assert (Hnd2 : NoDup (map Z.of_nat (seq 0 m))).
  { clear. generalize 0. induction m as [|m IH]; intros s; cbn [seq map];
      constructor; [|apply IH].
    intros H. apply in_map_iff in H. destruct H as [j [Hj Hin]].
    apply in_seq in Hin. lia. }
  pose proof (NoDup_incl_length Hnd1 (fun y => proj1 (Hsame y))) as H1.
  pose proof (NoDup_incl_length Hnd2 (fun y => proj2 (Hsame y))) as H2.
  rewrite length_map, length_seq in H1, H2. lia.
Qed.

Section Facts.

Variable E : Type.
Variable loads : string -> option E.
Variable near : E -> E -> bool.
Variable fits : list E -> bool.

Hypothesis near_refl : forall x, near x x = true.
Hypothesis near_sym : forall x y, near x y = near y x.

(** The run with the persons it creates made explicit. *)
Lemma run_clustering_shape (db : Db) :
  let rows := get_unclustered_faces db in
  let face_ids := fst (collect E loads rows) in
  let embeddings := snd (collect E loads rows) in
  let labels := dbscan E near embeddings in
  let early := (List.length embeddings <? 2)%nat in
  exists m cm,
    labels_below (Z.of_nat m) labels /\
    (forall j, j < m ->
               dict_get cm (Z.of_nat j) = Some (person_seq db + Z.of_nat j + 1)%Z) /\
    (forall l v, In (l, v) cm ->
                 (person_seq db < v <= person_seq db + Z.of_nat m)%Z) /\
    (early = true -> m = 0) /\
    run_clustering E loads near fits db
    = if early then (db, Some 0)
      else if negb (fits embeddings) then (db, None)
      else (set_thumbnails cm
              (with_faces (with_created db m)
                 (map (assign face_ids cm labels 0) (faces db))),
            Some m).
Proof.
  intros rows face_ids embeddings labels early.
  destruct (dbscan_link E near embeddings near_refl near_sym)
    as [_ [Hcore [mz [Hmz Hbelow]]]].
  fold labels in Hcore, Hbelow.
  set (m := Z.to_nat mz).
  assert (Hb : labels_below (Z.of_nat m) labels)
    by (unfold m; rewrite Z2Nat.id by exact Hmz; exact Hbelow).
  destruct (create_persons_numbered labels m db Hb) as [cm [Hrun [Hget Hin]]].
  exists m, cm. split; [exact Hb|]. split; [exact Hget|]. split; [exact Hin|].
  split.
  - intros Hearly. destruct m as [|m']; [reflexivity|]. exfalso.
    destruct (proj2 Hb 0%Z) as [k Hk]; [lia|].
    assert (Hl : labelled labels k)
      by (unfold labelled; rewrite Hk; unfold noise; lia).
    apply Hcore in Hl. apply core_nth in Hl. destruct Hl as [_ Hl].
    pose proof (neighborhood_length E near embeddings k) as Hn.
    assert (Hlt : List.length embeddings < 2)
      by (apply Nat.ltb_lt; exact Hearly).
    lia.
  - pose proof (run_clustering_unfold E loads near fits db) as Hunfold.
    cbv zeta in Hunfold. fold rows face_ids embeddings labels in Hunfold.
    rewrite Hrun in Hunfold. cbn [fst snd] in Hunfold. rewrite Hunfold.
    assert (Hrows : match rows with [] => true | _ => false end = true ->
                    early = true).
    { intros H. unfold early, embeddings. destruct rows; [reflexivity|discriminate]. }
    destruct (match rows with [] => true | _ => false end);
      [rewrite (Hrows eq_refl); reflexivity|reflexivity].
Qed.

(** The run raises exactly when at least two embeddings were parsed and
    numpy or DBSCAN do not take them. *)
Lemma run_clustering_raises (db : Db) :
  let embeddings := snd (collect E loads (get_unclustered_faces db)) in
  snd (run_clustering E loads near fits db) = None <->
  2 <= List.length embeddings /\ fits embeddings = false.
Proof.
  intros embeddings.
  destruct (run_clustering_shape db) as [m [cm [_ [_ [_ [_ Hrun]]]]]].
  cbv zeta in Hrun. fold embeddings in Hrun. rewrite Hrun.
  destruct (Nat.ltb_spec (List.length embeddings) 2) as [Hlt|Hge].
  - cbn [snd]. split; [discriminate|]. intros [H _]. lia.
  - destruct (fits embeddings); cbn [negb snd].
    + split; [discriminate|]. intros [_ H]. discriminate.
    + split; [intros _; split; [exact Hge|reflexivity]|reflexivity].
Qed.

End Facts.

End ShapeFacts.

Import Clusterer Database Density Linking Created Counting Assignment Keys.
Import PersonFacts AssignmentFacts ClustererFacts DbscanFacts DensityFacts
       ExpansionFacts RunFacts LinkFacts CreatedFacts RowFacts ShapeFacts.

(** X18: the persons a clustering run creates.  Let [m] be the number of
    clusters DBSCAN finds in the parsed embeddings: the labels it gives
    are exactly 0, ..., [m - 1] (and noise).  When at least two embeddings
    were parsed and numpy or DBSCAN raise on them, the run raises and the
    store is as before.  Otherwise the run returns [m] and adds exactly
    [m] rows to [persons], after the rows that were there: the first new
    row has the next id of the table and the name "Person 1", the second
    the id after it and the name "Person 2", and so on, whatever persons
    exist already; the rows of before are unchanged (their ids being
    distinct and not above the counter), and so is the files table. *)
Theorem run_clustering_creates_numbered_persons (E : Type)
        (loads : string -> option E) (near : E -> E -> bool)
        (fits : list E -> bool) (db : Db) :
  (forall x, near x x = true) ->
  (forall x y, near x y = near y x) ->
  person_ids_fresh db ->
  let embeddings := snd (collect E loads (get_unclustered_faces db)) in
  let labels := dbscan E near embeddings in
  let m := clusters labels in
  let r := run_clustering E loads near fits db in
  (forall l, In l labels -> l <> noise -> (0 <= l < Z.of_nat m)%Z) /\
  (forall l, (0 <= l < Z.of_nat m)%Z -> In l labels) /\
  (2 <= List.length embeddings -> fits embeddings = false -> r = (db, None)) /\
  (List.length embeddings < 2 \/ fits embeddings = true ->
   snd r = Some m /\
   exists created,
     persons (fst r) = (persons db ++ created)%list /\
     map person_id created
     = map (fun j => (person_seq db + Z.of_nat j + 1)%Z) (seq 0 m) /\
     map person_name created
     = map (fun j => Some ("Person " ++ show_Z (Z.of_nat j + 1))%string) (seq 0 m) /\
     person_ids_fresh (fst r) /\
     files (fst r) = files db).
Proof.
  intros Hrefl Hsym [Hnd Hle] embeddings labels m r.
  destruct (run_clustering_shape E loads near fits Hrefl Hsym db)
    as [m' [cm [Hb [_ [Hin [Hearly Hrun]]]]]].
  cbv zeta in Hearly, Hrun, Hb.
  fold embeddings in Hearly, Hrun, Hb. fold labels in Hb, Hrun.
  assert (Hm : m = m') by (apply clusters_below; exact Hb).
  rewrite Hm. clear Hm m.
  split.
  { intros l Hl Hne. destruct (In_nth _ _ noise Hl) as [k [_ Hk]].
    rewrite <- Hk. apply (proj1 Hb k). unfold labelled. congruence. }
  split.
  { intros l Hl. destruct (proj2 Hb l Hl) as [k Hk]. rewrite <- Hk.
    apply nth_In. destruct (Nat.lt_ge_cases k (List.length labels)) as [H|H];
      [exact H|].
    rewrite nth_overflow in Hk by exact H. unfold noise in Hk. lia. }
  split.
  { intros Hge Hfits. unfold r. rewrite Hrun.
    destruct (Nat.ltb_spec (List.length embeddings) 2) as [Hlt|_]; [lia|].
    rewrite Hfits. reflexivity. }
  intros Hok. unfold r. rewrite Hrun.
  destruct (Nat.ltb_spec (List.length embeddings) 2) as [Hlt|Hge].
  - rewrite (Hearly eq_refl). split; [reflexivity|].
    exists []. cbn [fst snd seq map].
    rewrite app_nil_r. repeat split; auto.
  - destruct Hok as [Hlt|Hfits]; [lia|]. rewrite Hfits. cbn [negb fst snd].
    split; [reflexivity|].
    set (db2 := with_faces (with_created db m') _).
    destruct (set_thumbnails_map cm db2) as [g [Hg Hp]].
    destruct (set_thumbnails_rows cm db2) as [_ [_ [Hfiles [Hseq _]]]].
    assert (Hold : map g (persons db) = persons db).
    { apply map_unchanged. intros p Hin_p. apply (Hp p). intros l v Hv Heq.
      specialize (Hin l v Hv). specialize (Hle p Hin_p). lia. }
    assert (Hpersons : persons (set_thumbnails cm db2)
                       = persons db ++ map g (map (numbered (person_seq db)) (seq 0 m'))).
    { rewrite Hg. unfold db2. cbn [persons with_faces with_created].
      rewrite map_app, Hold. reflexivity. }
    assert (Hids : map person_id (map g (map (numbered (person_seq db)) (seq 0 m')))
                   = map (fun j => (person_seq db + Z.of_nat j + 1)%Z) (seq 0 m')).
    { rewrite !map_map. apply map_ext. intros j. rewrite (proj1 (Hp _)). reflexivity. }
    exists (map g (map (numbered (person_seq db)) (seq 0 m'))).
    split; [exact Hpersons|]. split; [exact Hids|].
    split; [|split; [|exact Hfiles]].
    + rewrite !map_map. apply map_ext. intros j.
      rewrite (proj1 (proj2 (Hp _))). reflexivity.
    + unfold person_ids_fresh. rewrite Hseq, Hpersons.
      unfold db2. cbn [person_seq with_faces with_created]. split.
      * rewrite map_app, Hids. apply NoDup_app.
        -- exact Hnd.
        -- apply shifted_range_nodup.
        -- intros x Hx Hx'. apply in_map_iff in Hx. destruct Hx as [p [<- Hpin]].
           apply in_map_iff in Hx'. destruct Hx' as [j [Hj _]].
           specialize (Hle p Hpin). lia.
      * intros p Hpin. apply in_app_or in Hpin. destruct Hpin as [Hpin|Hpin].
        -- specialize (Hle p Hpin). lia.
        -- assert (Hid : In (person_id p)
                            (map (fun j => (person_seq db + Z.of_nat j + 1)%Z) (seq 0 m')))
             by (rewrite <- Hids; apply in_map; exact Hpin).
           apply in_map_iff in Hid. destruct Hid as [j [Hj Hjm]].
           apply in_seq in Hjm. lia.
Qed.

Lemma run_clustering_creates_numbered_persons_witness :
  let db := fst (create_person Samples.store_with_null_and_outlier (Some "Ada")) in
  let r := run_clustering_exact db in
  person_ids_fresh db /\
  map person_name (persons db) = [Some "Ada"%string] /\
  snd r = Some 1 /\
  exists created,
    persons (fst r) = (persons db ++ created)%list /\
    map person_id created = [2%Z] /\
    map person_name created = [Some "Person 1"%string] /\
    person_ids_fresh (fst r) /\
    files (fst r) = files db.
Proof.
  cbv zeta.
  assert (Hfresh : person_ids_fresh
                     (fst (create_person Samples.store_with_null_and_outlier
                             (Some "Ada"%string)))).
  { split.
    - vm_compute. constructor; [intros []|constructor].
    - intros p [<-|[]]. vm_compute. discriminate. }
  split; [exact Hfresh|]. split; [reflexivity|].
  destruct (run_clustering_creates_numbered_persons (list Z) loads_exact near_exact
              fits_exact _ ExactFacts.near_exact_refl ExactFacts.near_exact_sym
              Hfresh) as [_ [_ [_ Hrun]]].
  destruct Hrun as [Hcount Hcreated]; [right; reflexivity|].
  split; [exact Hcount|exact Hcreated].
Defined.

Module GroupFacts.
Import Clusterer Database Density Linking Created Assignment Keys.
Import PersonFacts AssignmentFacts ClustererFacts AlignmentFacts DbscanFacts
       DensityFacts ExpansionFacts RunFacts GoodPathFacts LinkFacts CreatedFacts
       RowFacts ShapeFacts NearFacts.
Local Open Scope list_scope.

Lemma set_face_person_twice (p q : option Z) (f : FaceRow) :
  set_face_person p (set_face_person q f) = set_face_person p f.
Proof. reflexivity. Qed.

Lemma set_face_person_same (f : FaceRow) :
  set_face_person (face_person f) f = f.
Proof. destruct f; reflexivity. Qed.

(** The assignment loop changes nothing but the person of a row. *)
Lemma assign_columns (face_ids : list Z) (cm : list (Z * Z)) (labels : list Z) :
  forall idx f,
    assign face_ids cm labels idx f
    = set_face_person (face_person (assign face_ids cm labels idx f)) f.
Proof.
  induction labels as [|label rest IH]; intros idx f; cbn [assign].
  - symmetry. apply set_face_person_same.
  - destruct (Z.eqb label noise); [apply IH|].
    destruct (dict_get cm label) as [pid|]; [|symmetry; apply set_face_person_same].
    destruct (nth_error face_ids idx) as [fid|];
      [|symmetry; apply set_face_person_same].
    rewrite IH at 1. destruct (Z.eqb (face_id f) fid); [|reflexivity].
    apply set_face_person_twice.
Qed.

Lemma unassigned_ids (E : Type) (loads : string -> option E) (db : Db) :
  fst (collect E loads (get_unclustered_faces db))
  = map face_id (filter unclustered (faces db)).
Proof.
  rewrite collect_face_ids. unfold get_unclustered_faces. rewrite map_map.
  reflexivity.
Qed.

Lemma nth_error_map_some {A B : Type} (g : A -> B) (l : list A) (k : nat) (x : A) :
  nth_error l k = Some x -> nth_error (map g l) k = Some (g x).
Proof. apply map_nth_error. Qed.

Lemma nth_error_some_inj {A : Type} (l : list A) (l' : list (option A)) (k : nat)
      (x : A) :
  map Some l = l' -> nth_error l' k = Some (Some x) -> nth_error l k = Some x.
Proof.
  intros <-. revert k. induction l as [|y r IH]; intros [|k]; cbn; try discriminate.
  - congruence.
  - apply IH.
Qed.

Section Facts.

Variable E : Type.
Variable loads : string -> option E.
Variable near : E -> E -> bool.
Variable fits : list E -> bool.

Hypothesis near_refl : forall x, near x x = true.
Hypothesis near_sym : forall x y, near x y = near y x.

(** A point without another point near it is noise. *)
Lemma lone_point_is_noise (X : list E) (k : nat) :
  (forall b, neighbour E near X k b -> b = k) ->
  nth k (dbscan E near X) noise = noise.
Proof.
  intros Halone.
  destruct (dbscan_link E near X near_refl near_sym) as [_ [Hcore _]].
  destruct (Z.eq_dec (nth k (dbscan E near X) noise) noise) as [H|H]; [exact H|].
  apply (Hcore k) in H.
  destruct (core_has_other_neighbour E near X k H) as [b [Hkb Hne]].
  exfalso. apply Hne. apply Halone. exact Hkb.
Qed.

(** What a run that does not raise does to the unclustered face at
    position [k]. *)
Lemma run_clustering_row (db : Db) (k : nat) (f : FaceRow) :
  NoDup (map face_id (faces db)) ->
  nth_error (filter unclustered (faces db)) k = Some f ->
  let embeddings := snd (collect E loads (get_unclustered_faces db)) in
  let l := nth k (dbscan E near embeddings) noise in
  let r := run_clustering E loads near fits db in
  fits embeddings = true ->
  In (if Z.eqb l noise then f
      else set_face_person (Some (person_seq db + l + 1)%Z) f) (faces (fst r)) /\
  (l <> noise -> person_exists (fst r) (person_seq db + l + 1)%Z = true).
Proof.
  intros Hnd Hk embeddings l r Hfits.
  destruct (run_clustering_shape E loads near fits near_refl near_sym db)
    as [m [cm [Hb [Hget [_ [Hearly Hrun]]]]]].
  cbv zeta in Hearly, Hrun. fold embeddings in Hb, Hrun, Hearly.
  rewrite Hfits in Hrun. cbn [negb] in Hrun.
  set (labels := dbscan E near embeddings) in *.
  set (face_ids := fst (collect E loads (get_unclustered_faces db))) in *.
  assert (Hf : In f (faces db)).
  { apply nth_error_In in Hk. apply filter_In in Hk. tauto. }
  assert (Hrange : l <> noise -> (0 <= l < Z.of_nat m)%Z).
  { intros Hl. apply (proj1 Hb k). exact Hl. }
  assert (Hentry : forall l', (0 <= l' < Z.of_nat m)%Z ->
                              dict_get cm l' = Some (person_seq db + l' + 1)%Z).
  { intros l' Hl'. specialize (Hget (Z.to_nat l')).
    rewrite Z2Nat.id in Hget by lia. apply Hget. lia. }
  unfold r. rewrite Hrun. destruct (List.length embeddings <? 2)%nat.
  - specialize (Hearly eq_refl). subst m. cbn [fst].
    assert (Hl : l = noise).
    { destruct (Z.eq_dec l noise) as [H|H]; [exact H|]. specialize (Hrange H).
      cbn in Hrange. lia. }
    rewrite Hl, Z.eqb_refl. split; [exact Hf|]. intros H. congruence.
  - cbn [fst]. rewrite set_thumbnails_faces. cbn [faces with_faces].
    assert (Hids : face_ids = map face_id (filter unclustered (faces db)))
      by apply unassigned_ids.
    assert (Hndids : NoDup face_ids).
    { rewrite Hids. apply nodup_map_filter. exact Hnd. }
    assert (Hfid : nth_error face_ids k = Some (face_id f)).
    { rewrite Hids. apply map_nth_error. exact Hk. }
    assert (Honly : forall j, nth_error face_ids j = Some (face_id f) -> j = k).
    { intros j Hj. apply (proj1 (NoDup_nth_error face_ids) Hndids j k).
      - apply nth_error_Some. congruence.
      - congruence. }
    assert (Hllen : List.length labels <= List.length face_ids).
    { unfold labels. destruct (dbscan_labels E near embeddings) as [_ ->].
      apply collect_lengths. }
    assert (Hkeys : forall l', In l' labels -> l' <> noise -> dict_get cm l' <> None).
    { intros l' Hl' Hne. destruct (In_nth _ _ noise Hl') as [j [_ Hj]].
      rewrite Hentry; [discriminate|]. rewrite <- Hj. apply (proj1 Hb j).
      unfold labelled. rewrite Hj. exact Hne. }
    destruct (Z.eqb_spec l noise) as [Hl|Hl].
    + split; [|intros H; congruence].
      apply in_map_iff. exists f. split; [|exact Hf].
      apply assign_miss. intros j l' Hj Hl' Hjf. cbn [Nat.add] in Hjf.
      rewrite (Honly j Hjf) in Hj.
      apply Hl'. rewrite <- Hl. unfold l. symmetry.
      apply nth_error_nth. exact Hj.
    + assert (Hklt : k < List.length labels).
      { destruct (Nat.lt_ge_cases k (List.length labels)) as [H|H]; [exact H|].
        exfalso. apply Hl. unfold l. apply nth_overflow. exact H. }
      split.
      * apply in_map_iff. exists f. split; [|exact Hf].
        rewrite assign_columns. f_equal.
        apply (assign_hit face_ids cm labels 0 f k l).
        -- apply nth_error_nth'. exact Hklt.
        -- exact Hl.
        -- apply Hentry. apply Hrange. exact Hl.
        -- exact Hfid.
        -- intros j Hne Hj. apply Hne. apply Honly. exact Hj.
        -- exact Hkeys.
        -- cbn [Nat.add]. exact Hllen.
      * intros _. rewrite set_thumbnails_persons.
        unfold person_exists. cbn [persons with_faces with_created].
        apply existsb_exists.
        exists (numbered (person_seq db) (Z.to_nat l)).
        specialize (Hrange Hl). split.
        -- apply in_or_app. right. apply in_map. apply in_seq. lia.
        -- unfold numbered. cbn [person_id]. apply Z.eqb_eq. lia.
Qed.

(** On a store whose unclustered embeddings all parse, the embedding at
    position [k] is the one of the face at position [k]. *)
Lemma good_path_embedding (db : Db) (k : nat) (f : FaceRow) (e : E) :
  NoDup (map face_id (faces db)) ->
  (forall g, In g (faces db) -> unclustered g = true ->
             parse E loads (face_embedding g) <> None) ->
  nth_error (filter unclustered (faces db)) k = Some f ->
  parse E loads (face_embedding f) = Some e ->
  nth_error (snd (collect E loads (get_unclustered_faces db))) k = Some e.
Proof.
  intros Hnd Hparse Hk He.
  destruct (assigned_by_own_label E loads near fits db Hnd Hparse) as [Hemb _].
  cbv zeta in Hemb. apply (nth_error_some_inj _ _ k e Hemb).
  rewrite (nth_error_map_some _ _ k f Hk), He. reflexivity.
Qed.

End Facts.

End GroupFacts.

Import GoodPathFacts NearFacts GroupFacts.

(** X19: on a store with distinct face ids whose unclustered embeddings
    all parse and are taken by numpy and DBSCAN (the run does not raise:
    the rows have one length and no value overflows), two different
    unclustered faces whose embeddings are within [eps] of each other are
    put together by a clustering run: both rows get the same person, a
    person that the run created, and keep their other columns. *)
Theorem run_clustering_groups_near_faces (E : Type) (loads : string -> option E)
        (near : E -> E -> bool) (fits : list E -> bool) (db : Db)
        (f f' : FaceRow) (e e' : E) :
  (forall x, near x x = true) ->
  (forall x y, near x y = near y x) ->
  NoDup (map face_id (faces db)) ->
  (forall g, In g (faces db) -> unclustered g = true ->
             parse E loads (face_embedding g) <> None) ->
  fits (snd (collect E loads (get_unclustered_faces db))) = true ->
  In f (faces db) -> In f' (faces db) -> f <> f' ->
  unclustered f = true -> unclustered f' = true ->
  parse E loads (face_embedding f) = Some e ->
  parse E loads (face_embedding f') = Some e' ->
  near e e' = true ->
  let r := run_clustering E loads near fits db in
  exists pid,
    In (set_face_person (Some pid) f) (faces (fst r)) /\
    In (set_face_person (Some pid) f') (faces (fst r)) /\
    person_exists (fst r) pid = true /\
    (person_seq db < pid)%Z.
Proof.
  intros Hrefl Hsym Hnd Hparse Hfits Hf Hf' Hne Hu Hu' He He' Hnear r.
  assert (Hin : In f (filter unclustered (faces db)))
    by (apply filter_In; split; assumption).
  assert (Hin' : In f' (filter unclustered (faces db)))
    by (apply filter_In; split; assumption).
  destruct (In_nth_error _ _ Hin) as [k Hk].
  destruct (In_nth_error _ _ Hin') as [k' Hk'].
  assert (Hkk : k <> k') by (intros ->; congruence).
  set (embeddings := snd (collect E loads (get_unclustered_faces db))).
  assert (Hnb : neighbour E near embeddings k k').
  { exists e, e'. split; [|split; [|exact Hnear]].
    - exact (good_path_embedding E loads near fits db k f e Hnd Hparse Hk He).
    - exact (good_path_embedding E loads near fits db k' f' e' Hnd Hparse Hk' He'). }
  destruct (near_points_share_label E near embeddings k k' Hrefl Hsym Hnb Hkk)
    as [Hl Hsame].
  destruct (run_clustering_row E loads near fits Hrefl Hsym db k f Hnd Hk Hfits)
    as [Hrow Hp].
  destruct (run_clustering_row E loads near fits Hrefl Hsym db k' f' Hnd Hk' Hfits)
    as [Hrow' _].
  cbv zeta in Hrow, Hrow', Hp. fold embeddings in Hrow, Hrow', Hp.
  rewrite Hsame in Hrow'.
  set (l := nth k (dbscan E near embeddings) noise) in *.
  assert (Hneq : Z.eqb l noise = false) by (apply Z.eqb_neq; exact Hl).
  rewrite Hneq in Hrow, Hrow'.
  exists (person_seq db + l + 1)%Z.
  split; [exact Hrow|]. split; [exact Hrow'|]. split; [apply Hp; exact Hl|].
  destruct (dbscan_link E near embeddings Hrefl Hsym) as [_ [_ [m [_ [Hb _]]]]].
  specialize (Hb k Hl). fold l in Hb. lia.
Qed.

Lemma run_clustering_groups_near_faces_witness :
  let f := Samples.face 1 (CText "[3, 4]") in
  let f' := Samples.face 2 (CText "[4, 3]") in
  let r := run_clustering_exact (mkDb [] [] [f; f'] 2 0) in
  exists pid,
    In (set_face_person (Some pid) f) (faces (fst r)) /\
    In (set_face_person (Some pid) f') (faces (fst r)) /\
    person_exists (fst r) pid = true /\
    (0 < pid)%Z.
Proof.
  cbv zeta.
  apply (run_clustering_groups_near_faces (list Z) loads_exact near_exact
           fits_exact
           (mkDb [] [] [Samples.face 1 (CText "[3, 4]");
                        Samples.face 2 (CText "[4, 3]")] 2 0)
           (Samples.face 1 (CText "[3, 4]")) (Samples.face 2 (CText "[4, 3]"))
           [3; 4]%Z [4; 3]%Z ExactFacts.near_exact_refl ExactFacts.near_exact_sym).
  - cbn. repeat constructor; cbn; intuition discriminate.
  - intros g [<-|[<-|[]]] _; discriminate.
  - reflexivity.
  - left. reflexivity.
  - right. left. reflexivity.
  - discriminate.
  - reflexivity.
  - reflexivity.
  - reflexivity.
  - reflexivity.
  - reflexivity.
Defined.

(** X20: on such a store, an unclustered face whose embedding is within
    [eps] of no other unclustered face is left as it is by a clustering
    run: its row stays, without a person. *)
Theorem run_clustering_leaves_lone_face (E : Type) (loads : string -> option E)
        (near : E -> E -> bool) (fits : list E -> bool) (db : Db) (f : FaceRow)
        (e : E) :
  (forall x, near x x = true) ->
  (forall x y, near x y = near y x) ->
  NoDup (map face_id (faces db)) ->
  (forall g, In g (faces db) -> unclustered g = true ->
             parse E loads (face_embedding g) <> None) ->
  In f (faces db) ->
  unclustered f = true ->
  parse E loads (face_embedding f) = Some e ->
  (forall g e', In g (faces db) -> unclustered g = true -> g <> f ->
                parse E loads (face_embedding g) = Some e' -> near e e' = false) ->
  In f (faces (fst (run_clustering E loads near fits db))).
Proof.
  intros Hrefl Hsym Hnd Hparse Hf Hu He Hfar.
  destruct (fits (snd (collect E loads (get_unclustered_faces db)))) eqn:Hfits.
  2:{ pose proof (run_clustering_unfold E loads near fits db) as Hrun.
      cbv zeta in Hrun. rewrite Hfits in Hrun. rewrite Hrun.
      destruct (orb _ _); exact Hf. }
  assert (Hin : In f (filter unclustered (faces db)))
    by (apply filter_In; split; assumption).
  destruct (In_nth_error _ _ Hin) as [k Hk].
  set (embeddings := snd (collect E loads (get_unclustered_faces db))).
  assert (Hemb : map Some embeddings
                 = map (fun g => parse E loads (face_embedding g))
                       (filter unclustered (faces db))).
  { exact (proj1 (assigned_by_own_label E loads near fits db Hnd Hparse)). }
  assert (Halone : forall b, neighbour E near embeddings k b -> b = k).
  { intros b [xa [xb [Ha [Hb Hn]]]].
    destruct (Nat.eq_dec b k) as [Hbk|Hbk]; [exact Hbk|]. exfalso.
    pose proof (good_path_embedding E loads near fits db k f e Hnd Hparse Hk He)
      as Hke.
    fold embeddings in Hke. assert (xa = e) by congruence. subst xa.
    assert (Hblt : b < List.length (filter unclustered (faces db))).
    { rewrite <- (length_map (fun g => parse E loads (face_embedding g))), <- Hemb,
        length_map.
      apply nth_error_Some. congruence. }
    destruct (nth_error (filter unclustered (faces db)) b) as [g|] eqn:Hg.
    2:{ apply nth_error_None in Hg. lia. }
    assert (Hgin : In g (filter unclustered (faces db)))
      by (apply nth_error_In in Hg; exact Hg).
    apply filter_In in Hgin. destruct Hgin as [Hgf Hgu].
    destruct (parse E loads (face_embedding g)) as [e'|] eqn:Hpg.
    2:{ exact (Hparse g Hgf Hgu Hpg). }
    pose proof (good_path_embedding E loads near fits db b g e' Hnd Hparse Hg Hpg)
      as Hbe.
    fold embeddings in Hbe. assert (xb = e') by congruence. subst xb.
    assert (Hgne : g <> f).
    { intros ->. apply Hbk.
      assert (Hndu : NoDup (map face_id (filter unclustered (faces db))))
        by (apply AssignmentFacts.nodup_map_filter; exact Hnd).
      apply (proj1 (NoDup_nth_error _) Hndu b k).
      - rewrite length_map. exact Hblt.
      - rewrite (map_nth_error face_id _ _ Hg), (map_nth_error face_id _ _ Hk).
        reflexivity. }
    rewrite (Hfar g e' Hgf Hgu Hgne Hpg) in Hn. discriminate. }
  destruct (run_clustering_row E loads near fits Hrefl Hsym db k f Hnd Hk Hfits)
    as [Hrow _].
  cbv zeta in Hrow. fold embeddings in Hrow.
  rewrite (lone_point_is_noise E near Hrefl Hsym embeddings k Halone), Z.eqb_refl
    in Hrow.
  exact Hrow.
Qed.

Lemma run_clustering_leaves_lone_face_witness :
  let f := Samples.face 3 (CText "[-5, 0]") in
  let db := mkDb [] [] [Samples.face 1 (CText "[3, 4]");
                        Samples.face 2 (CText "[4, 3]"); f] 3 0 in
  In f (faces (fst (run_clustering_exact db))).
Proof.
  cbv zeta.
  apply (run_clustering_leaves_lone_face (list Z) loads_exact near_exact
           fits_exact
           (mkDb [] [] [Samples.face 1 (CText "[3, 4]");
                        Samples.face 2 (CText "[4, 3]");
                        Samples.face 3 (CText "[-5, 0]")] 3 0)
           (Samples.face 3 (CText "[-5, 0]")) [-5; 0]%Z
           ExactFacts.near_exact_refl ExactFacts.near_exact_sym).
  - cbn. repeat constructor; cbn; intuition discriminate.
  - intros g [<-|[<-|[<-|[]]]] _; discriminate.
  - right. right. left. reflexivity.
  - reflexivity.
  - reflexivity.
  - intros g e' [<-|[<-|[<-|[]]]] _ Hne Hp.
    + injection Hp as <-. reflexivity.
    + injection Hp as <-. reflexivity.
    + congruence.
Defined.

(** X21: a clustering run never adds, removes or reorders face rows and
    changes no column of a face but its person; on a store with distinct
    face ids a face that has a person keeps it; and when fewer than two
    unclustered embeddings parse the run returns 0 and leaves the store as
    it is. *)
Theorem run_clustering_keeps_assigned_faces (E : Type)
        (loads : string -> option E) (near : E -> E -> bool)
        (fits : list E -> bool) (db : Db) :
  NoDup (map face_id (faces db)) ->
  let r := run_clustering E loads near fits db in
  let parsed := snd (collect E loads (get_unclustered_faces db)) in
  map (fun f => set_face_person None f) (faces (fst r))
  = map (fun f => set_face_person None f) (faces db) /\
  (forall f, In f (faces db) -> face_person f <> None -> In f (faces (fst r))) /\
  (List.length parsed < 2 -> r = (db, Some 0)).
Proof.
  intros Hnd r parsed.
  pose proof (run_clustering_unfold E loads near fits db) as Hrun. cbv zeta in Hrun.
  fold parsed in Hrun. fold r in Hrun.
  set (face_ids := fst (collect E loads (get_unclustered_faces db))) in *.
  split; [|split].
  - rewrite Hrun. destruct (orb _ _); [reflexivity|].
    destruct (negb _); [reflexivity|]. cbn [fst].
    rewrite set_thumbnails_faces. cbn [faces with_faces]. rewrite map_map.
    apply map_ext. intros f. rewrite assign_columns. reflexivity.
  - intros f Hf Hp. rewrite Hrun. destruct (orb _ _); [exact Hf|].
    destruct (negb _); [exact Hf|]. cbn [fst].
    rewrite set_thumbnails_faces. cbn [faces with_faces].
    apply in_map_iff. exists f. split; [|exact Hf].
    apply AssignmentFacts.assign_untouched. intros k Hk. cbn [Nat.add] in Hk.
    unfold face_ids in Hk. rewrite unassigned_ids in Hk.
    apply nth_error_In in Hk. apply in_map_iff in Hk. destruct Hk as [g [Hid Hg]].
    apply filter_In in Hg. destruct Hg as [Hg Hu].
    rewrite (nodup_face_id_inj _ g f Hnd Hg Hf Hid) in Hu.
    unfold unclustered in Hu. destruct (face_person f); [discriminate|congruence].
  - intros Hlt. rewrite Hrun. apply Nat.ltb_lt in Hlt. rewrite Hlt, orb_true_r.
    reflexivity.
Qed.

Lemma run_clustering_keeps_assigned_faces_witness :
  let f := mkFace 1 "/photos/a.jpg" (CText "[3, 4]") "[0, 0, 9, 9]" None (Some 7%Z) in
  let db := mkDb [] [mkPerson 7 (Some "Ada") None]
                 [f; Samples.face 2 (CText "[3, 4]");
                  Samples.face 3 (CText "[4, 3]")] 3 7 in
  In f (faces (fst (run_clustering_exact db))).
Proof.
  cbv zeta.
  destruct (run_clustering_keeps_assigned_faces (list Z) loads_exact near_exact
              fits_exact
              (mkDb [] [mkPerson 7 (Some "Ada") None]
                    [mkFace 1 "/photos/a.jpg" (CText "[3, 4]") "[0, 0, 9, 9]" None
                            (Some 7%Z);
                     Samples.face 2 (CText "[3, 4]");
                     Samples.face 3 (CText "[4, 3]")] 3 7))
    as [_ [Hkeep _]].
  - cbn. repeat constructor; cbn; intuition discriminate.
  - apply Hkeep; [left; reflexivity|discriminate].
Defined.

(** X22: a clustering run raises exactly when at least two embeddings
    were parsed and numpy or DBSCAN do not take them (rows of different
    lengths, a value that overflows); a run on fewer parsed embeddings,
    or on embeddings they take, returns a count.  Whether or not every
    embedding parses, and whether or not the run raises, on a store with
    distinct face ids (and a reflexive, symmetric [near]) every person
    that exists after the run and did not before has at least two faces
    and at least one photo. *)
Theorem run_clustering_persons_have_two_faces (E : Type)
        (loads : string -> option E) (near : E -> E -> bool)
        (fits : list E -> bool) (db : Db) (q : Z) :
  (forall x, near x x = true) ->
  (forall x y, near x y = near y x) ->
  NoDup (map face_id (faces db)) ->
  let embeddings := snd (collect E loads (get_unclustered_faces db)) in
  let r := run_clustering E loads near fits db in
  (snd r = None <-> 2 <= List.length embeddings /\ fits embeddings = false) /\
  (snd r = None -> fst r = db) /\
  (person_exists (fst r) q = true -> person_exists db q = false ->
   2 <= get_person_face_count (fst r) q /\
   get_photos_by_person (fst r) q <> []).
Proof.
  intros Hrefl Hsym Hnd embeddings r.
  destruct (created_person_has_two_faces E loads near fits Hrefl Hsym db Hnd)
    as [_ Htwo].
  split; [exact (run_clustering_raises E loads near fits Hrefl Hsym db)|].
  split.
  { intros Hnone.
    apply (run_clustering_raises E loads near fits Hrefl Hsym db) in Hnone.
    destruct Hnone as [Hge Hfits].
    pose proof (run_clustering_unfold E loads near fits db) as Hrun.
    cbv zeta in Hrun. fold r in Hrun. rewrite Hrun.
    destruct (orb _ _); [reflexivity|]. rewrite Hfits. reflexivity. }
  intros Hafter Hbefore.
  pose proof (Htwo q Hafter Hbefore) as H2. split; [exact H2|].
  intros Hnil. fold r in H2. unfold get_person_face_count in H2.
  destruct (filter (fun f => opt_Z_eqb (face_person f) q) (faces (fst r)))
    as [|f l] eqn:Hfil; [cbn in H2; lia|].
  assert (Hin : In (face_file f) (get_photos_by_person (fst r) q)).
  { assert (Hf : In f (filter (fun f => opt_Z_eqb (face_person f) q) (faces (fst r))))
      by (rewrite Hfil; left; reflexivity).
    apply filter_In in Hf. destruct Hf as [Hf Hp].
    apply MergeFacts.opt_Z_eqb_eq in Hp.
    apply QueryFacts.photos_in. exists f. auto. }
  rewrite Hnil in Hin. exact Hin.
Qed.

Lemma run_clustering_persons_have_two_faces_witness :
  let ragged := mkDb [] [] [Samples.face 1 (CText "[3, 4]");
                            Samples.face 2 (CText "[4, 3]");
                            Samples.face 3 (CText "[1, 2, 3]")] 3 0 in
  let r := run_clustering_exact Samples.store_with_null_and_outlier in
  run_clustering_exact ragged = (ragged, None) /\
  snd r = Some 1 /\
  person_exists (fst r) 1 = true /\
  2 <= get_person_face_count (fst r) 1 /\
  get_photos_by_person (fst r) 1 <> [].
Proof.
  cbv zeta. split; [reflexivity|].
  destruct (run_clustering_persons_have_two_faces (list Z) loads_exact near_exact
              fits_exact Samples.store_with_null_and_outlier 1
              ExactFacts.near_exact_refl ExactFacts.near_exact_sym)
    as [_ [_ Htwo]].
  { cbn. repeat constructor; cbn; intuition discriminate. }
  split; [reflexivity|]. split; [reflexivity|].
  apply Htwo; reflexivity.
Defined.

(** * Properties of the face processor *)

Module ProcessorFacts.
Import Paths Processor.
Local Open Scope string_scope.

Lemma from_last_dot_jpg (t : string) :
  has_char "." t = false -> from_last_dot (t ++ ".jpg") = ".jpg".
Proof.
  induction t as [|c r IH]; intros H; [reflexivity|].
  cbn [has_char] in H. destruct (Ascii.eqb "." c) eqn:Hc; [discriminate|].
  cbn [append from_last_dot].
  rewrite MarkerFacts.has_char_append. cbn [has_char Ascii.eqb Bool.eqb].
  rewrite orb_true_r. apply IH. exact H.
Qed.

Lemma substring_has_char (c : ascii) (s : string) :
  forall n m, has_char c s = false -> has_char c (substring n m s) = false.
Proof.
  induction s as [|d r IH]; intros n m H; [destruct n, m; reflexivity|].
  cbn [has_char] in H. destruct (Ascii.eqb c d) eqn:Hd; [discriminate|].
  destruct n as [|n]; cbn [substring].
  - destruct m as [|m]; [reflexivity|]. cbn [has_char]. rewrite Hd.
    apply IH. exact H.
  - apply IH. exact H.
Qed.

Lemma substring_nonempty (s : string) (m : nat) :
  s <> EmptyString -> substring 0 (S m) s <> EmptyString.
Proof. destruct s as [|c r]; [congruence|]. cbn [substring]. discriminate. Qed.

Lemma jpg_name_is_image (id : string) :
  id <> EmptyString -> has_char "." id = false -> is_image (id ++ ".jpg") = true.
Proof.
  intros Hne Hdot. destruct id as [|c r]; [congruence|].
  cbn [has_char] in Hdot. destruct (Ascii.eqb "." c); [discriminate|].
  unfold is_image. cbn [append suffix]. rewrite (from_last_dot_jpg r Hdot).
  reflexivity.
Qed.

Lemma in_image_files (fs : FileSystem) (root dir name : string)
      (names : list string) :
  In (dir, names) (walk fs root) -> In name names -> is_image name = true ->
  In (join dir name) (Scanner.image_files fs root).
Proof.
  intros Hd Hn Hi. unfold Scanner.image_files. apply in_flat_map.
  exists (dir, names). split; [exact Hd|]. cbn [fst snd].
  apply in_map. apply filter_In. split; assumption.
Qed.

Section Facts.

Variable Emb : Type.
Variable Score : Type.
Variable read_image : string -> option (option Image).
Variable app_get : Image -> option (list (Found Emb Score)).
Variable thumbnail_dir : option string.
Variable md5_hexdigest : string -> string.
Variable save_thumbnail : string -> bool.

Local Abbreviation process_face :=
  (process_face Emb Score thumbnail_dir md5_hexdigest save_thumbnail).
Local Abbreviation process_faces :=
  (process_faces Emb Score thumbnail_dir md5_hexdigest save_thumbnail).

Lemma process_face_fields (p : string) (img : Image) (idx : nat)
      (face : Found Emb Score) :
  res_bbox (process_face p img idx face) = found_bbox face /\
  res_embedding (process_face p img idx face) = found_embedding face /\
  res_det_score (process_face p img idx face) = found_score face.
Proof.
  unfold Processor.process_face. destruct (found_bbox face) as [[[x1 y1] x2] y2].
  repeat split.
Qed.

Lemma process_faces_fields (p : string) (img : Image)
      (faces : list (Found Emb Score)) :
  forall idx,
    map res_bbox (process_faces p img idx faces) = map found_bbox faces /\
    map res_embedding (process_faces p img idx faces) = map found_embedding faces.
Proof.
  induction faces as [|face rest IH]; intros idx; [split; reflexivity|].
  cbn [Processor.process_faces map]. destruct (IH (S idx)) as [H1 H2].
  destruct (process_face_fields p img idx face) as [F1 [F2 _]].
  rewrite H1, H2, F1, F2. split; reflexivity.
Qed.

Lemma process_faces_in (p : string) (img : Image)
      (faces : list (Found Emb Score)) (r : Result Emb Score) :
  forall idx,
    In r (process_faces p img idx faces) ->
    exists k face, In face faces /\ r = process_face p img k face.
Proof.
  induction faces as [|face rest IH]; intros idx; [intros []|].
  cbn [Processor.process_faces]. intros [<-|H].
  - exists idx, face. split; [left; reflexivity|reflexivity].
  - destruct (IH (S idx) H) as [k [g [Hg Hr]]]. exists k, g.
    split; [right; exact Hg|exact Hr].
Qed.

(** A thumbnail is written only for a crop that is not empty, under the
    name [<12 digits>.jpg] in the thumbnail directory. *)
Lemma process_face_thumbnail (p : string) (img : Image) (idx : nat)
      (face : Found Emb Score) (t : string) :
  res_thumbnail (process_face p img idx face) = Some t ->
  let '(x1, y1, x2, y2) := found_bbox face in
  (0 < crop_size img (Z.max 0 x1) (Z.max 0 y1)
                 (Z.min (width img) x2) (Z.min (height img) y2))%Z /\
  exists dir key,
    thumbnail_dir = Some dir /\ dir <> EmptyString /\
    t = join dir (substring 0 12 (md5_hexdigest key) ++ ".jpg").
Proof.
  unfold Processor.process_face. destruct (found_bbox face) as [[[x1 y1] x2] y2].
  cbn [res_thumbnail].
  destruct (Clusterer.truthy thumbnail_dir) eqn:Hdir; cbn [andb]; [|discriminate].
  destruct (0 <? crop_size img _ _ _ _)%Z eqn:Hcrop; [|discriminate].
  destruct (save_thumbnail _); [|discriminate].
  intros H. injection H as <-. split; [apply Z.ltb_lt; exact Hcrop|].
  destruct thumbnail_dir as [[|c d]|]; try discriminate.
  eexists _, _. split; [reflexivity|]. split; [discriminate|reflexivity].
Qed.

(** The size of the crop when the box does not end before the image
    begins: the area the box and the image share, times the channels. *)
Lemma crop_size_inside (img : Image) (x1 y1 x2 y2 : Z) :
  (0 <= width img)%Z -> (0 <= height img)%Z -> (0 <= x2)%Z -> (0 <= y2)%Z ->
  crop_size img (Z.max 0 x1) (Z.max 0 y1)
            (Z.min (width img) x2) (Z.min (height img) y2)
  = (Z.max 0 (Z.min (height img) y2 - Z.max 0 y1)
     * Z.max 0 (Z.min (width img) x2 - Z.max 0 x1) * 3)%Z.
Proof.
  intros Hw Hh Hx Hy. unfold crop_size, slice_length, slice_bound.
  repeat match goal with
         | |- context [(?a <? 0)%Z] => destruct (Z.ltb_spec a 0)
         end; nia.
Qed.

End Facts.

End ProcessorFacts.

Import Paths Processor ProcessorFacts.

(** X23: [process_image] returns the empty list, and does not raise, for a
    file that cannot be read or decoded; it raises when the detector does;
    otherwise it returns one entry per detected face, in the detector's
    order, with the face's embedding and the detector's own box, not the
    box clamped to the image.  An entry has a thumbnail only if its box,
    when it does not end left of or above the image, shares a non-empty
    area with the image. *)
Theorem process_image_reports_detector_boxes (Emb Score : Type)
        (read_image : string -> option (option Image))
        (app_get : Image -> option (list (Found Emb Score)))
        (thumbnail_dir : option string) (md5_hexdigest : string -> string)
        (save_thumbnail : string -> bool) (p : string) :
  let run := process_image Emb Score read_image app_get thumbnail_dir
                           md5_hexdigest save_thumbnail in
  (read_image p = None \/ read_image p = Some None -> run p = Some []) /\
  (forall img, read_image p = Some (Some img) -> app_get img = None ->
               run p = None) /\
  (forall img faces,
      read_image p = Some (Some img) -> app_get img = Some faces ->
      (0 <= width img)%Z -> (0 <= height img)%Z ->
      exists results,
        run p = Some results /\
        map res_bbox results = map found_bbox faces /\
        map res_embedding results = map found_embedding faces /\
        forall r t, In r results -> res_thumbnail r = Some t ->
          let '(x1, y1, x2, y2) := res_bbox r in
          (0 <= x2)%Z -> (0 <= y2)%Z ->
          (Z.max 0 x1 < Z.min (width img) x2)%Z /\
          (Z.max 0 y1 < Z.min (height img) y2)%Z).
Proof.
  cbv zeta. unfold process_image. split; [|split].
  - intros [-> | ->]; reflexivity.
  - intros img -> ->. reflexivity.
  - intros img faces -> -> Hw Hh. eexists. split; [reflexivity|].
    destruct (process_faces_fields Emb Score thumbnail_dir md5_hexdigest
                save_thumbnail p img faces 0) as [H1 H2].
    split; [exact H1|]. split; [exact H2|].
    intros r t Hr Ht.
    destruct (process_faces_in Emb Score thumbnail_dir md5_hexdigest
                save_thumbnail p img faces r 0 Hr) as [k [face [_ ->]]].
    pose proof (process_face_thumbnail Emb Score thumbnail_dir md5_hexdigest
                  save_thumbnail p img k face t Ht) as Hcrop.
    rewrite (proj1 (process_face_fields Emb Score thumbnail_dir md5_hexdigest
                      save_thumbnail p img k face)).
    destruct (found_bbox face) as [[[x1 y1] x2] y2].
    intros Hx Hy. destruct Hcrop as [Hcrop _].
    rewrite (crop_size_inside img x1 y1 x2 y2 Hw Hh Hx Hy) in Hcrop. nia.
Qed.

(** X24: every thumbnail [process_image] writes is a file that the
    scanner takes for an image: its name is twelve digits of an MD5 digest
    followed by ".jpg", in the thumbnail directory, so a walk that lists
    that directory puts the thumbnail among the images to scan. *)
Theorem thumbnails_are_scanned_as_images (Emb Score : Type)
        (read_image : string -> option (option Image))
        (app_get : Image -> option (list (Found Emb Score)))
        (thumbnail_dir : option string) (md5_hexdigest : string -> string)
        (save_thumbnail : string -> bool) (p : string)
        (results : list (Result Emb Score)) (r : Result Emb Score) (t : string) :
  (forall s, md5_hexdigest s <> EmptyString /\
             has_char "." (md5_hexdigest s) = false) ->
  process_image Emb Score read_image app_get thumbnail_dir md5_hexdigest
                save_thumbnail p = Some results ->
  In r results ->
  res_thumbnail r = Some t ->
  exists dir name,
    thumbnail_dir = Some dir /\
    t = join dir name /\
    is_image name = true /\
    forall fs root names,
      In (dir, names) (walk fs root) -> In name names ->
      In t (Scanner.image_files fs root).
Proof.
  intros Hhex Hrun Hr Ht. unfold process_image in Hrun.
  destruct (read_image p) as [[img|]|]; try (injection Hrun as <-; destruct Hr).
  destruct (app_get img) as [faces|]; [|discriminate]. injection Hrun as <-.
  destruct (process_faces_in Emb Score thumbnail_dir md5_hexdigest
              save_thumbnail p img faces r 0 Hr) as [k [face [_ ->]]].
  pose proof (process_face_thumbnail Emb Score thumbnail_dir md5_hexdigest
                save_thumbnail p img k face t Ht) as H.
  destruct (found_bbox face) as [[[x1 y1] x2] y2].
  destruct H as [_ [dir [key [Hdir [_ Hname]]]]].
  exists dir, (substring 0 12 (md5_hexdigest key) ++ ".jpg")%string.
  assert (Him : is_image (substring 0 12 (md5_hexdigest key) ++ ".jpg")%string = true).
  { destruct (Hhex key) as [Hne Hdot]. apply jpg_name_is_image.
    - apply substring_nonempty. exact Hne.
    - apply substring_has_char. exact Hdot. }
  split; [exact Hdir|]. split; [exact Hname|]. split; [exact Him|].
  intros fs root names Hd Hn. rewrite Hname.
  exact (in_image_files fs root dir _ names Hd Hn Him).
Qed.

Lemma thumbnails_are_scanned_as_images_witness :
  let dir := "/photos/.faceframe/thumbnails"%string in
  let t := "/photos/.faceframe/thumbnails/d41d8cd98f00.jpg"%string in
  exists name,
    t = join dir name /\ is_image name = true /\
    forall fs root names,
      In (dir, names) (walk fs root) -> In name names ->
      In t (Scanner.image_files fs root).
Proof.
  cbv zeta.
  destruct (thumbnails_are_scanned_as_images unit unit
              (fun _ => Some (Some (mkImage 10 10)))
              (fun _ => Some [mkFound (1, 1, 5, 5)%Z tt tt])
              (Some "/photos/.faceframe/thumbnails"%string)
              (fun _ => "d41d8cd98f00b204e9800998ecf8427e"%string)
              (fun _ => true) "/photos/a.jpg"%string
              [mkResult tt (1, 1, 5, 5)%Z tt
                 (Some "/photos/.faceframe/thumbnails/d41d8cd98f00.jpg"%string)]
              (mkResult tt (1, 1, 5, 5)%Z tt
                 (Some "/photos/.faceframe/thumbnails/d41d8cd98f00.jpg"%string))
              "/photos/.faceframe/thumbnails/d41d8cd98f00.jpg"%string)
    as [dir [name [Hdir [Ht [Him Hwalk]]]]].
  - intros s. split; [discriminate|reflexivity].
  - reflexivity.
  - left. reflexivity.
  - reflexivity.
  - injection Hdir as <-. exists name. split; [exact Ht|]. split; [exact Him|].
    exact Hwalk.
Defined.

Module FlowFacts.
Import Processor.

Lemma process_faces_map (Emb Score A : Type) (thumbnail_dir : option string)
      (md5_hexdigest : string -> string) (save_thumbnail : string -> bool)
      (p : string) (img : Image) (g : Result Emb Score -> A)
      (h : Found Emb Score -> A) (found : list (Found Emb Score)) :
  (forall k face, g (process_face Emb Score thumbnail_dir md5_hexdigest
                                  save_thumbnail p img k face) = h face) ->
  forall idx,
    map g (process_faces Emb Score thumbnail_dir md5_hexdigest save_thumbnail
                         p img idx found)
    = map h found.
Proof.
  intros Hgh. induction found as [|face rest IH]; intros idx; [reflexivity|].
  cbn [process_faces map]. rewrite Hgh, IH. reflexivity.
Qed.

End FlowFacts.

Import Database Scanner Keys RowFacts RescanFacts FlowFacts.

(** X25: a scan that reaches a new or changed image on which the
    detector finds faces stores one face row per detected face, in the
    detector's order, after the rows that were there: the row has the
    image's path, the JSON text of the face's embedding, the text of the
    detector's box as it was reported, the thumbnail path [process_image]
    returned, and no person. *)
Theorem scan_stores_detector_output (Emb Score : Type) (fs : FileSystem)
        (read_image : string -> option (option Image))
        (app_get : Image -> option (list (Found Emb Score)))
        (thumbnail_dir : option string) (md5_hexdigest : string -> string)
        (save_thumbnail : string -> bool) (dumps : Emb -> string)
        (db : Db) (p : string) (m : Z) (img : Image)
        (found : list (Found Emb Score)) :
  getmtime fs p = Some m ->
  file_exists db p m = false ->
  read_image p = Some (Some img) ->
  app_get img = Some found ->
  let processor := as_processor Emb Score read_image app_get thumbnail_dir
                                md5_hexdigest save_thumbnail dumps in
  exists db' results added,
    scan_file fs (Some processor) db p
    = ([Getmtime p; ReadFile p; ProcessImage p], Some db') /\
    process_image Emb Score read_image app_get thumbnail_dir md5_hexdigest
                  save_thumbnail p = Some results /\
    faces db' = (faces db ++ added)%list /\
    map face_file added = map (fun _ => p) found /\
    map face_embedding added = map (fun f => CText (dumps (found_embedding f))) found /\
    map face_bbox added = map (fun f => show_bbox (found_bbox f)) found /\
    map face_thumbnail added = map res_thumbnail results /\
    map face_person added = map (fun _ => None) found.
Proof.
  intros Hm Hex Hread Hget processor.
  set (results := process_faces Emb Score thumbnail_dir md5_hexdigest
                                save_thumbnail p img 0 found).
  assert (Hrun : process_image Emb Score read_image app_get thumbnail_dir
                               md5_hexdigest save_thumbnail p = Some results).
  { unfold process_image. rewrite Hread, Hget. reflexivity. }
  assert (Hpi : processor p
                = Some (map (to_detection Emb Score dumps) results)).
  { unfold processor, as_processor. rewrite Hrun. reflexivity. }
  set (db1 := add_file db p (calculate_hash fs p) m).
  destruct (add_faces_shape p (map (to_detection Emb Score dumps) results) db1)
    as [added [Hf [Hc _]]].
  destruct (process_faces_fields Emb Score thumbnail_dir md5_hexdigest
              save_thumbnail p img found 0) as [Hb He].
  fold results in Hb, He.
  exists (add_faces db1 p (map (to_detection Emb Score dumps) results)),
    results, added.
  split; [|split; [exact Hrun|split; [exact Hf|]]].
  - unfold scan_file. rewrite Hm, Hex. fold db1.
    rewrite (detect_some processor db1 p _ Hpi). reflexivity.
  - assert (Hcol : forall (A : Type) (g : string * cell * string * option string
                                          * option Z -> A),
               map (fun f => g (columns f)) added
               = map (fun r => g (stored p (to_detection Emb Score dumps r))) results).
    { intros A g. rewrite <- (map_map columns g), Hc, !map_map. reflexivity. }
    assert (Hlen : forall (A : Type) (g : Result Emb Score -> A)
                          (h : Found Emb Score -> A),
               (forall k face, g (process_face Emb Score thumbnail_dir md5_hexdigest
                                                save_thumbnail p img k face) = h face) ->
               map g results = map h found).
    { intros A g h Hgh.
      exact (process_faces_map Emb Score A thumbnail_dir md5_hexdigest
               save_thumbnail p img g h found Hgh 0). }
    split; [|split; [|split; [|split]]].
    + etransitivity; [exact (Hcol _ (fun c => fst (fst (fst (fst c)))))|].
      cbn [stored fst].
      apply Hlen. intros k face. reflexivity.
    + etransitivity; [exact (Hcol _ (fun c => snd (fst (fst (fst c)))))|].
      cbn [stored fst snd].
      apply Hlen. intros k face. cbn [to_detection det_embedding].
      rewrite (proj1 (proj2 (process_face_fields Emb Score thumbnail_dir
                               md5_hexdigest save_thumbnail p img k face))).
      reflexivity.
    + etransitivity; [exact (Hcol _ (fun c => snd (fst (fst c))))|].
      cbn [stored fst snd].
      apply Hlen. intros k face. cbn [to_detection det_bbox].
      rewrite (proj1 (process_face_fields Emb Score thumbnail_dir
                        md5_hexdigest save_thumbnail p img k face)).
      reflexivity.
    + etransitivity; [exact (Hcol _ (fun c => snd (fst c)))|].
      cbn [stored fst snd].
      reflexivity.
    + etransitivity; [exact (Hcol _ (fun c => snd c))|].
      cbn [stored snd].
      apply Hlen. reflexivity.
Qed.

Lemma scan_stores_detector_output_witness :
  let processor :=
    as_processor unit unit (fun _ => Some (Some (mkImage 10 10)))
                 (fun _ => Some [mkFound (-2, 1, 5, 12)%Z tt tt]) None
                 (fun _ => "d41d8cd98f00b204e9800998ecf8427e"%string)
                 (fun _ => true) (fun _ => "[1, 0]"%string) in
  exists db',
    snd (scan_file (Samples.album false) (Some processor) init_db "/photos/a.jpg")
    = Some db' /\
    map face_bbox (faces db') = ["[-2, 1, 5, 12]"%string].
Proof.
  cbv zeta.
  destruct (scan_stores_detector_output unit unit (Samples.album false)
              (fun _ => Some (Some (mkImage 10 10)))
              (fun _ => Some [mkFound (-2, 1, 5, 12)%Z tt tt]) None
              (fun _ => "d41d8cd98f00b204e9800998ecf8427e"%string)
              (fun _ => true) (fun _ => "[1, 0]"%string)
              init_db "/photos/a.jpg" 100 (mkImage 10 10)
              [mkFound (-2, 1, 5, 12)%Z tt tt] eq_refl eq_refl eq_refl eq_refl)
    as [db' [results [added [Hs [_ [Hf [_ [_ [Hb _]]]]]]]]].
  exists db'. split; [rewrite Hs; reflexivity|].
  rewrite Hf. cbn [faces init_db app]. rewrite Hb. reflexivity.
Defined.

(** * Further properties of the session *)

Module ScanRunFacts.
Import Database Scanner ScannerFacts TraceFacts Session Calls CallFacts.
Local Open Scope list_scope.

Lemma progress_lines_app (a b : list event) :
  progress_lines (a ++ b) = progress_lines a ++ progress_lines b.
Proof. unfold progress_lines. apply flat_map_app. Qed.

Lemma progress_lines_calls (trace : list event) :
  progress_lines trace
  = map (fun c => RProgress (fst (fst c)) (snd (fst c)) (snd c))
        (progress_calls trace).
Proof.
  induction trace as [|e tr IH]; [reflexivity|].
  cbn [progress_lines progress_calls flat_map].
  fold (progress_lines tr). fold (progress_calls tr).
  rewrite map_app, <- IH. destruct e; reflexivity.
Qed.


(** In a loop that reaches the end of the enumeration the abort check is
    called once per file. *)
Lemma count_polls_exhausted (fs : FileSystem)
      (processor : option (string -> option (list Detection)))
      (check : nat -> bool) (total : nat) (todo : list string) :
  forall idx k db,
    loop_exit (scan_loop fs processor true (Some check) total todo idx k db)
    = Exhausted ->
    count_polls (loop_trace (scan_loop fs processor true (Some check) total todo
                                       idx k db))
    = List.length todo.
Proof.
  induction todo as [|p rest IH]; intros idx k db; [reflexivity|].
  rewrite scan_loop_step. destruct (check idx); [discriminate|].
  pose proof (scan_file_no_poll fs processor db p) as Hnp.
  destruct (scan_file fs processor db p) as [ev3 [db'|]]; cbn [fst] in Hnp;
    [|discriminate].
  cbn [loop_exit loop_trace]. intros He.
  change (Progress k total (Paths.basename p) :: AbortCheck false
            :: ev3 ++ loop_trace (scan_loop fs processor true (Some check) total
                                            rest (S idx) (S k) db'))
    with ([Progress k total (Paths.basename p); AbortCheck false]
            ++ ev3 ++ loop_trace (scan_loop fs processor true (Some check) total
                                            rest (S idx) (S k) db')).
  rewrite !count_polls_app, (count_polls_body ev3 Hnp), (IH _ _ _ He).
  reflexivity.
Qed.

End ScanRunFacts.

Import Database Scanner ScannerFacts TraceFacts DirectoryFacts Session Calls
       CallFacts ScanRunFacts InvariantFacts.


(** X27: "cancelled" does not mean that files were left out.  When the
    abort flag is clear at every check of the loop and set only afterwards,
    the scan goes through every image: the progress lines end with
    ([n], [n], "Complete"), every image is indexed in the stored index, and
    yet the final status is "cancelled" and the flag stays set. *)
Theorem late_cancel_reports_cancelled_after_full_scan (fs : FileSystem)
        (make_processor : bool -> option (string -> option (list Detection)))
        (flag_reads : nat -> bool) (path provider : string) (w : World)
        (processor : string -> option (list Detection)) :
  make_processor (contains "CUDA" provider) = Some processor ->
  (forall q, In q (image_files (after_mkdir fs path) path) ->
             getmtime fs q <> None) ->
  (forall i, i < List.length (image_files (after_mkdir fs path) path) ->
             flag_reads i = false) ->
  flag_reads (List.length (image_files (after_mkdir fs path) path)) = true ->
  let todo := image_files (after_mkdir fs path) path in
  let n := List.length todo in
  let res := run_scan fs true make_processor flag_reads path provider w in
  snd res
  = (RStarted path
       :: map (fun ip => RProgress (fst ip) n (Paths.basename (snd ip)))
              (combine (seq 0 n) todo)
       ++ [RProgress n n "Complete"; RCancelled])%list /\
  abort_scan_flag (fst res) = true /\
  exists db',
    lookup_index (indexes (fst res)) path = Some db' /\
    forall q, In q todo -> indexed (after_mkdir fs path) db' q.
Proof.
  intros Hmk Hmtime Hclear Hset todo n res.
  unfold res, run_scan. cbn [negb]. rewrite Hmk.
  set (db := match lookup_index (indexes (with_flag w false)) path with
             | Some db => db
             | None => init_db
             end).
  assert (Hroot : path_exists (after_mkdir fs path) path = true).
  { unfold after_mkdir. cbn [path_exists]. rewrite String.eqb_refl. reflexivity. }
  rewrite (scan_directory_existing_root (after_mkdir fs path) (Some processor)
             true (Some flag_reads) path db Hroot).
  cbv zeta. fold todo. fold n.
  destruct (uninterrupted_loop (after_mkdir fs path) (Some processor)
              (Some flag_reads) n todo 0 0 db) as [He Hcalls].
  { exact Hmtime. }
  { intros check i E Hi. injection E as <-. apply Hclear. fold todo. fold n. lia. }
  pose proof (count_polls_exhausted (after_mkdir fs path) (Some processor)
                flag_reads n todo 0 0 db He) as Hpolls.
  pose proof (scan_loop_processed (after_mkdir fs path) (Some processor) true
                (Some flag_reads) n todo 0 0 db) as Hk.
  pose proof (scan_loop_exhausted_indexes (after_mkdir fs path) (Some processor)
                true (Some flag_reads) n todo 0 0 db He) as Hidx.
  cbv zeta in Hk. rewrite He in Hk |- *.
  cbn [scan_outcome scan_trace scan_db on_progress].
  rewrite count_polls_app, Hpolls. cbn [count_polls filter List.length].
  rewrite Nat.add_0_r.
  assert (Hset' : flag_reads (List.length todo) = true) by exact Hset.
  rewrite Hset'.
  split; [|split; [reflexivity|]].
  - f_equal. rewrite progress_lines_app, progress_lines_calls, Hcalls, Hk.
    cbn [progress_lines flat_map app]. rewrite map_map.
    rewrite <- app_assoc. reflexivity.
  - eexists. split; [|exact Hidx].
    cbn [fst with_flag with_index indexes].
    rewrite lookup_store_index, String.eqb_refl. reflexivity.
Qed.

Lemma late_cancel_reports_cancelled_after_full_scan_witness :
  snd (run_scan (Samples.album false) true (fun _ => Some Samples.detector)
                (fun i => Nat.eqb i 2) Samples.photos "CPUExecutionProvider"
                (mkWorld [] false))
  = [RStarted Samples.photos; RProgress 0 2 "a.jpg"; RProgress 1 2 "b.jpg";
     RProgress 2 2 "Complete"; RCancelled].
Proof.
  destruct (late_cancel_reports_cancelled_after_full_scan (Samples.album false)
              (fun _ => Some Samples.detector) (fun i => Nat.eqb i 2)
              Samples.photos "CPUExecutionProvider" (mkWorld [] false)
              Samples.detector eq_refl) as [Hout _].
  - intros q _. discriminate.
  - intros i Hi. change (List.length _) with 2 in Hi.
    destruct i as [|[|i]]; [reflexivity|reflexivity|lia].
  - reflexivity.
  - rewrite Hout. reflexivity.
Defined.

Module CommandFacts.
Import Database Session SessionFacts InvariantFacts.
Local Open Scope list_scope.

Section Facts.

Variable E : Type.
Variable loads : string -> option E.
Variable near : E -> E -> bool.
Variable fits : list E -> bool.
Variable rmtree : string -> removal.
Variable available_providers : option (list string).

Local Abbreviation handle_command :=
  (handle_command E loads near fits rmtree available_providers).
Local Abbreviation main := (main E loads near fits rmtree available_providers).

Lemma handle_rename (cmd : Command) (w : World) :
  action_is cmd "RENAME_PERSON" = true ->
  handle_command cmd w
  = if andb (andb (truthy_str (cmd_path cmd)) (truthy_int (cmd_person_id cmd)))
            (truthy_str (cmd_new_name cmd))
    then with_database w (str (cmd_path cmd)) (fun db =>
           mkStep (with_index w (str (cmd_path cmd))
                     (rename_person db (int (cmd_person_id cmd))
                                    (str (cmd_new_name cmd))))
                  [RPersonRenamed (int (cmd_person_id cmd)) (str (cmd_new_name cmd))]
                  None)
    else silent w.
Proof.
  intros Ha. unfold Session.handle_command.
  rewrite !(action_is_known cmd _ Ha). cbv [String.eqb Ascii.eqb Bool.eqb].
  reflexivity.
Qed.

Lemma handle_get_persons (cmd : Command) (w : World) :
  action_is cmd "GET_PERSONS" = true ->
  handle_command cmd w
  = if truthy_str (cmd_path cmd)
    then with_database w (str (cmd_path cmd)) (fun db =>
           mkStep w [RPersons (map person_entry (get_persons db))] None)
    else silent w.
Proof.
  intros Ha. unfold Session.handle_command.
  rewrite !(action_is_known cmd _ Ha). cbv [String.eqb Ascii.eqb Bool.eqb].
  reflexivity.
Qed.

Lemma handle_clear_index (cmd : Command) (w : World) :
  action_is cmd "CLEAR_INDEX" = true ->
  handle_command cmd w
  = if truthy_str (cmd_path cmd)
    then match lookup_index (indexes w) (str (cmd_path cmd)) with
         | None => mkStep w [RIndexCleared] None
         | Some _ =>
             match rmtree (str (cmd_path cmd)) with
             | Removed =>
                 mkStep (mkWorld (remove_index (indexes w) (str (cmd_path cmd)))
                                 (abort_scan_flag w)) [RIndexCleared] None
             | RaisedKeeping => silent w
             | RaisedLosing =>
                 silent (with_index w (str (cmd_path cmd)) init_db)
             end
         end
    else silent w.
Proof.
  intros Ha. unfold Session.handle_command.
  rewrite !(action_is_known cmd _ Ha). cbv [String.eqb Ascii.eqb Bool.eqb].
  reflexivity.
Qed.

Lemma lookup_remove_same (l : list (string * Db)) (p : string) :
  lookup_index (remove_index l p) p = None.
Proof.
  unfold remove_index. induction l as [|[k d] r IH]; [reflexivity|].
  cbn [filter fst]. destruct (String.eqb k p) eqn:Hk; cbn [negb]; [exact IH|].
  cbn [lookup_index]. rewrite Hk. exact IH.
Qed.

(** The cases of the chain, for the lemmas that hold of each of them. *)
Ltac chain cmd :=
  unfold Session.handle_command, with_database;
  repeat match goal with
         | |- context [if action_is cmd ?a then _ else _] =>
             let Ha := fresh "Ha" in
             destruct (action_is cmd a) eqn:Ha;
             [rewrite ?(action_is_known cmd a Ha);
              cbv [String.eqb Ascii.eqb Bool.eqb]|]
         | |- context [if truthy_str ?x then _ else _] => destruct (truthy_str x)
         | |- context [if andb ?x ?y then _ else _] => destruct (andb x y)
         | |- context [match available_providers with _ => _ end] =>
             destruct available_providers
         | |- context [match lookup_index ?l ?p with _ => _ end] =>
             destruct (lookup_index l p)
         | |- context [match rmtree ?p with _ => _ end] => destruct (rmtree p)
         | |- context [Clusterer.run_clustering E loads near fits ?db] =>
             destruct (Clusterer.run_clustering E loads near fits db) as [? [?|]]
         end.

(** A command prints at most one line. *)
Lemma handle_command_one_line (cmd : Command) (w : World) :
  List.length (step_output (handle_command cmd w)) <= 1.
Proof. chain cmd; cbn [step_output silent List.length]; lia. Qed.

(** Only the nine commands that have an answer print a line. *)
Lemma handle_command_answered (cmd : Command) (w : World) :
  List.length (step_output (handle_command cmd w))
  <= if existsb (action_is cmd)
                ["GET_PROVIDERS"; "CLUSTER"; "GET_UNCLUSTERED"; "CLEAR_INDEX";
                 "GET_PERSONS"; "GET_PHOTOS_BY_PERSON"; "RENAME_PERSON";
                 "MERGE_PERSONS"; "PING"]%string
     then 1 else 0.
Proof.
  chain cmd; cbn [step_output silent List.length existsb orb];
    repeat match goal with
           | H : action_is cmd _ = _ |- _ => rewrite ?H; clear H
           end;
    cbn [orb]; try lia.
Qed.

(** A scan is started by a SCAN command with a path, and by nothing else. *)
Lemma handle_command_spawned (cmd : Command) (w : World) :
  match step_spawned (handle_command cmd w) with
  | Some scan => action_is cmd "SCAN" = true /\ truthy_str (cmd_path cmd) = true /\
                 fst scan = str (cmd_path cmd)
  | None => andb (action_is cmd "SCAN") (truthy_str (cmd_path cmd)) = false
  end.
Proof.
  unfold Session.handle_command, with_database.
  destruct (action_is cmd "SCAN") eqn:Hs.
  - destruct (truthy_str (cmd_path cmd)); cbn [step_spawned silent fst andb];
      auto.
  - cbn [andb]. chain cmd; reflexivity.
Qed.

(** The abort flag is set by CANCEL_SCAN and left alone by the rest. *)
Lemma handle_command_flag (cmd : Command) (w : World) :
  abort_scan_flag (step_world (handle_command cmd w))
  = orb (abort_scan_flag w) (action_is cmd "CANCEL_SCAN").
Proof.
  chain cmd;
    cbn [step_world silent with_flag with_index abort_scan_flag];
    repeat match goal with
           | H : action_is cmd _ = _ |- _ => rewrite ?H; clear H
           end;
    rewrite ?orb_false_r, ?orb_true_r; reflexivity.
Qed.

(** SCAN and CANCEL_SCAN print nothing and touch no index. *)
Lemma handle_command_quiet (cmd : Command) (w : World) :
  action_is cmd "SCAN" = true \/ action_is cmd "CANCEL_SCAN" = true ->
  step_output (handle_command cmd w) = [] /\
  indexes (step_world (handle_command cmd w)) = indexes w.
Proof.
  intros [Ha|Ha]; unfold Session.handle_command;
    rewrite !(action_is_known cmd _ Ha); cbv [String.eqb Ascii.eqb Bool.eqb];
    try destruct (truthy_str (cmd_path cmd)); split; reflexivity.
Qed.

Lemma main_app (lines1 lines2 : list line) :
  forall w,
    main (lines1 ++ lines2) w
    = let '(w1, out1, scans1) := main lines1 w in
      let '(w2, out2, scans2) := main lines2 w1 in
      (w2, out1 ++ out2, scans1 ++ scans2).
Proof.
  induction lines1 as [|l rest IH]; intros w.
  - cbn [app Session.main]. destruct (main lines2 w) as [[w2 out2] scans2].
    reflexivity.
  - destruct l as [| |cmd]; cbn [app Session.main]; try apply IH.
    rewrite IH.
    destruct (main rest (step_world (handle_command cmd w)))
      as [[w1 out1] scans1].
    destruct (main lines2 w1) as [[w2 out2] scans2].
    rewrite <- app_assoc.
    destruct (step_spawned (handle_command cmd w)); reflexivity.
Qed.

End Facts.

End CommandFacts.

Import Database Session SessionFacts InvariantFacts CommandFacts.

(** X28: what the command loop does with the lines it reads.  It starts
    one scan per SCAN command that has a path, in the order of the lines
    and on the path of the command, and no other line starts one; it
    prints at most one line for each command that has an answer
    (GET_PROVIDERS, CLUSTER, GET_UNCLUSTERED, CLEAR_INDEX, GET_PERSONS,
    GET_PHOTOS_BY_PERSON, RENAME_PERSON, MERGE_PERSONS, PING) and none for
    a blank line, a line that is not JSON, a SCAN, a CANCEL_SCAN or an
    unknown action.  A command sets the abort flag when it is CANCEL_SCAN
    and leaves it as it is otherwise; SCAN and CANCEL_SCAN touch no
    index. *)
Theorem main_starts_one_scan_per_scan_command (E : Type)
        (loads : string -> option E) (near : E -> E -> bool)
        (fits : list E -> bool) (rmtree : string -> removal)
        (available_providers : option (list string))
        (lines : list line) (w : World) :
  let handle := handle_command E loads near fits rmtree available_providers in
  let run := main E loads near fits rmtree available_providers in
  let requested := fun l => match l with
                            | Parsed cmd =>
                                if andb (action_is cmd "SCAN")
                                        (truthy_str (cmd_path cmd))
                                then [str (cmd_path cmd)] else []
                            | _ => []
                            end in
  let answered := fun l => match l with
                           | Parsed cmd =>
                               existsb (action_is cmd)
                                 ["GET_PROVIDERS"; "CLUSTER"; "GET_UNCLUSTERED";
                                  "CLEAR_INDEX"; "GET_PERSONS";
                                  "GET_PHOTOS_BY_PERSON"; "RENAME_PERSON";
                                  "MERGE_PERSONS"; "PING"]%string
                           | _ => false
                           end in
  map fst (snd (run lines w)) = flat_map requested lines /\
  List.length (snd (fst (run lines w))) <= List.length (filter answered lines) /\
  (forall cmd w0,
      abort_scan_flag (step_world (handle cmd w0))
      = orb (abort_scan_flag w0) (action_is cmd "CANCEL_SCAN")) /\
  (forall cmd w0,
      action_is cmd "SCAN" = true \/ action_is cmd "CANCEL_SCAN" = true ->
      step_output (handle cmd w0) = [] /\
      indexes (step_world (handle cmd w0)) = indexes w0).
Proof.
  cbv zeta. split; [|split; [|split]].
  - revert w. induction lines as [|l rest IH]; intros w; [reflexivity|].
    destruct l as [| |cmd]; cbn [main flat_map]; try apply IH.
    specialize (IH (step_world (handle_command E loads near fits rmtree
                                  available_providers cmd w))).
    pose proof (handle_command_spawned E loads near fits rmtree
                  available_providers cmd w) as Hs.
    destruct (main E loads near fits rmtree available_providers rest _)
      as [[w1 out1] scans1].
    cbn [fst snd] in *.
    destruct (step_spawned _) as [scan|].
    + destruct Hs as [Ha [Hp Hpath]]. rewrite Ha, Hp. cbn [andb app map].
      rewrite Hpath, IH. reflexivity.
    + rewrite Hs. cbn [app]. exact IH.
  - revert w. induction lines as [|l rest IH]; intros w; [cbn; lia|].
    destruct l as [| |cmd]; cbn [main filter]; try apply IH.
    specialize (IH (step_world (handle_command E loads near fits rmtree
                                  available_providers cmd w))).
    pose proof (handle_command_answered E loads near fits rmtree
                  available_providers cmd w) as H1.
    destruct (main E loads near fits rmtree available_providers rest _)
      as [[w1 out1] scans1].
    cbn [fst snd] in *. rewrite length_app.
    destruct (existsb _ _); cbn [List.length]; lia.
  - intros cmd w0. apply handle_command_flag.
  - intros cmd w0. apply handle_command_quiet.
Qed.

(** X29: RENAME_PERSON followed by GET_PERSONS on the same path: the
    rename is acknowledged whether or not a person has the id, and the
    listing then shows the new name for every person with that id and the
    other persons as before (a person without a name as "Person <id>");
    the listing itself changes nothing. *)
Theorem rename_then_get_persons (E : Type) (loads : string -> option E)
        (near : E -> E -> bool) (fits : list E -> bool)
        (rmtree : string -> removal)
        (available_providers : option (list string))
        (rename get : Command) (w : World) (db : Db) :
  action_is rename "RENAME_PERSON" = true ->
  action_is get "GET_PERSONS" = true ->
  truthy_str (cmd_path rename) = true ->
  truthy_int (cmd_person_id rename) = true ->
  truthy_str (cmd_new_name rename) = true ->
  cmd_path get = cmd_path rename ->
  lookup_index (indexes w) (str (cmd_path rename)) = Some db ->
  let id := int (cmd_person_id rename) in
  let name := str (cmd_new_name rename) in
  let s1 := handle_command E loads near fits rmtree available_providers rename w in
  let s2 := handle_command E loads near fits rmtree available_providers get
              (step_world s1) in
  step_output s1 = [RPersonRenamed id name] /\
  step_output s2
  = [RPersons (map (fun p => if Z.eqb (person_id p) id
                             then (person_id p, name, person_thumbnail p)
                             else person_entry p) (persons db))] /\
  step_world s2 = step_world s1 /\
  (person_exists db id = false ->
   lookup_index (indexes (step_world s1)) (str (cmd_path rename)) = Some db).
Proof.
  intros Hr Hg Hpath Hid Hname Hsame Hdb id name s1 s2.
  assert (Hs1 : s1 = mkStep (with_index w (str (cmd_path rename))
                               (rename_person db id name))
                            [RPersonRenamed id name] None).
  { unfold s1.
    rewrite (handle_rename E loads near fits rmtree available_providers rename w Hr).
    rewrite Hpath, Hid, Hname. cbn [andb]. unfold with_database. rewrite Hdb.
    reflexivity. }
  assert (Hlook : lookup_index (indexes (step_world s1)) (str (cmd_path rename))
                  = Some (rename_person db id name)).
  { rewrite Hs1. cbn [step_world with_index indexes].
    rewrite lookup_store_index, String.eqb_refl. reflexivity. }
  assert (Hs2 : s2 = mkStep (step_world s1)
                            [RPersons (map person_entry
                                           (persons (rename_person db id name)))]
                            None).
  { unfold s2.
    rewrite (handle_get_persons E loads near fits rmtree available_providers get _ Hg).
    rewrite Hsame, Hpath. unfold with_database. rewrite Hlook. reflexivity. }
  split; [rewrite Hs1; reflexivity|]. split; [|split].
  - rewrite Hs2. cbn [step_output]. f_equal. f_equal.
    unfold rename_person. cbn [persons with_persons]. rewrite map_map.
    apply map_ext. intros p. destruct (Z.eqb (person_id p) id); [|reflexivity].
    unfold person_entry. cbn [person_name person_id person_thumbnail].
    unfold name in *. destruct (cmd_new_name rename) as [[|c n]|];
      try discriminate. reflexivity.
  - rewrite Hs2. reflexivity.
  - intros Hno. rewrite Hlook. f_equal.
    unfold rename_person.
    rewrite RowFacts.map_unchanged; [apply RowFacts.with_persons_same|].
    intros p Hp. destruct (Z.eqb (person_id p) id) eqn:Heq; [|reflexivity].
    exfalso. unfold person_exists in Hno.
    assert (Ht : existsb (fun q => Z.eqb (person_id q) id) (persons db) = true)
      by (apply existsb_exists; exists p; split; assumption).
    congruence.
Qed.

Lemma rename_then_get_persons_witness :
  let rename := mkCommand (Some "RENAME_PERSON") (Some Samples.photos) None
                          (Some 1%Z) (Some "Ada") None None in
  let get := SampleSession.command "GET_PERSONS" in
  let w := step_world SampleSession.clustered in
  step_output (SampleSession.handle get (step_world (SampleSession.handle rename w)))
  = [RPersons [(1%Z, "Ada", None)]].
Proof.
  cbv zeta.
  destruct (lookup_index (indexes (step_world SampleSession.clustered))
                         Samples.photos) as [db|] eqn:Hdb;
    [|vm_compute in Hdb; discriminate Hdb].
  destruct (rename_then_get_persons (list Z) Clusterer.loads_exact
              Clusterer.near_exact Clusterer.fits_exact (fun _ => Removed) None
              (mkCommand (Some "RENAME_PERSON") (Some Samples.photos) None
                         (Some 1%Z) (Some "Ada") None None)
              (SampleSession.command "GET_PERSONS")
              (step_world SampleSession.clustered) db
              eq_refl eq_refl eq_refl eq_refl eq_refl eq_refl Hdb)
    as [_ [Hout _]].
  unfold SampleSession.handle. rewrite Hout.
  vm_compute in Hdb. injection Hdb as <-. reflexivity.
Defined.

(** X30: CLEAR_INDEX with a path answers "index_cleared" exactly when no
    index folder exists for the path or [shutil.rmtree] removes it; when
    [rmtree] raises, nothing is printed.  In both cases no scan is started
    and the abort flag is left alone.  Once "index_cleared" was printed,
    the index of that path is gone, and every command that reads or
    changes it under the same path (CLUSTER, GET_UNCLUSTERED, GET_PERSONS,
    GET_PHOTOS_BY_PERSON, RENAME_PERSON, MERGE_PERSONS) prints nothing and
    changes nothing, until a scan creates the index again. *)
Theorem clear_index_silences_queries (E : Type) (loads : string -> option E)
        (near : E -> E -> bool) (fits : list E -> bool)
        (rmtree : string -> removal)
        (available_providers : option (list string))
        (clear : Command) (w : World) :
  action_is clear "CLEAR_INDEX" = true ->
  truthy_str (cmd_path clear) = true ->
  let path := str (cmd_path clear) in
  let handle := handle_command E loads near fits rmtree available_providers in
  let s1 := handle clear w in
  step_spawned s1 = None /\
  abort_scan_flag (step_world s1) = abort_scan_flag w /\
  (step_output s1 = [RIndexCleared] \/ step_output s1 = []) /\
  (step_output s1 = [RIndexCleared] <->
   lookup_index (indexes w) path = None \/ rmtree path = Removed) /\
  (step_output s1 = [RIndexCleared] ->
   lookup_index (indexes (step_world s1)) path = None /\
   forall query,
     cmd_path query = cmd_path clear ->
     action_is query "SCAN" = false ->
     action_is query "GET_PROVIDERS" = false ->
     action_is query "CANCEL_SCAN" = false ->
     action_is query "CLEAR_INDEX" = false ->
     action_is query "PING" = false ->
     handle query (step_world s1) = silent (step_world s1)).
Proof.
  intros Hc Hpath path handle s1.
  assert (Hs1 : s1 = match lookup_index (indexes w) path with
                     | None => mkStep w [RIndexCleared] None
                     | Some _ =>
                         match rmtree path with
                         | Removed =>
                             mkStep (mkWorld (remove_index (indexes w) path)
                                             (abort_scan_flag w))
                                    [RIndexCleared] None
                         | RaisedKeeping => silent w
                         | RaisedLosing => silent (with_index w path init_db)
                         end
                     end).
  { unfold s1, handle.
    rewrite (handle_clear_index E loads near fits rmtree available_providers
               clear w Hc).
    rewrite Hpath. reflexivity. }
  assert (Hquiet : forall w1 query,
             lookup_index (indexes w1) path = None ->
             cmd_path query = cmd_path clear ->
             action_is query "SCAN" = false ->
             action_is query "GET_PROVIDERS" = false ->
             action_is query "CANCEL_SCAN" = false ->
             action_is query "CLEAR_INDEX" = false ->
             action_is query "PING" = false ->
             handle query w1 = silent w1).
  { intros w1 query Hnone Hsame H1 H2 H3 H4 H5.
    unfold handle, handle_command, with_database.
    rewrite H1, H2, H3, H4, H5, Hsame. fold path. rewrite Hnone.
    repeat match goal with
           | |- context [if action_is query ?a then _ else _] =>
               destruct (action_is query a)
           | |- context [if truthy_str ?x then _ else _] => destruct (truthy_str x)
           | |- context [if andb ?x ?y then _ else _] => destruct (andb x y)
           end; reflexivity. }
  rewrite Hs1.
  destruct (lookup_index (indexes w) path) as [db|] eqn:Hdb;
    [destruct (rmtree path) eqn:Hrm|];
    cbn [step_output step_spawned step_world silent with_index abort_scan_flag];
    (split; [reflexivity|]); (split; [reflexivity|]).
  - split; [left; reflexivity|]. split; [split; auto|].
    intros _. split; [apply lookup_remove_same|].
    intros query. apply Hquiet. apply lookup_remove_same.
  - split; [right; reflexivity|]. split; [|discriminate].
    split; [discriminate|]. intros [H|H]; discriminate.
  - split; [right; reflexivity|]. split; [|discriminate].
    split; [discriminate|]. intros [H|H]; discriminate.
  - split; [left; reflexivity|]. split; [split; auto|].
    intros _. split; [exact Hdb|].
    intros query. apply Hquiet. exact Hdb.
Qed.

Lemma clear_index_silences_queries_witness :
  let w := step_world SampleSession.clustered in
  let s1 := SampleSession.handle (SampleSession.command "CLEAR_INDEX") w in
  lookup_index (indexes w) Samples.photos <> None /\
  step_output s1 = [RIndexCleared] /\
  lookup_index (indexes (step_world s1)) Samples.photos = None /\
  SampleSession.handle (SampleSession.command "GET_PERSONS") (step_world s1)
  = silent (step_world s1).
Proof.
  cbv zeta. split; [vm_compute; discriminate|].
  destruct (clear_index_silences_queries (list Z) Clusterer.loads_exact
              Clusterer.near_exact Clusterer.fits_exact (fun _ => Removed) None
              (SampleSession.command "CLEAR_INDEX")
              (step_world SampleSession.clustered) eq_refl eq_refl)
    as [_ [_ [_ [Hout Hafter]]]].
  assert (Hprinted : step_output
                       (SampleSession.handle (SampleSession.command "CLEAR_INDEX")
                          (step_world SampleSession.clustered))
                     = [RIndexCleared]).
  { apply (proj2 Hout). right. reflexivity. }
  split; [exact Hprinted|].
  destruct (Hafter Hprinted) as [Hgone Hsilent].
  split; [exact Hgone|].
  apply (Hsilent (SampleSession.command "GET_PERSONS")); reflexivity.
Defined.
